(* ===== verification/_CoqProject ===== *)
-Q . S2P
Prelude.v
Maps.v
Slices.v
Models.v
MsgIDs.v
Wire.v
Codec.v
CodecQ4.v
Disk.v
Store.v
Coordinator.v
CrashSafety.v
Recovery.v
Publisher.v
Delivery.v
Worker.v
Acks.v
Consumer.v
EofSync.v
EofSystem.v
HeavyMonitor.v
Sharding.v
WorkerMem.v
Router.v
Aggregator.v
Join.v
Gateway.v
Q4Pairs.v
Q4Theorems.v
Q4Cross.v
Q4Count.v
Q4Split.v
Filter.v
AvgFilter.v
Converter.v
Restart.v
Bully.v
Monitor.v
Q5Filter.v
Network.v
Client.v
Session.v
Results.v
Pipeline.v
Config.v
Amqp.v
Consuming.v
EofBroker.v
Buffer.v
Compose.v
Startup.v
GatewayStart.v
GatewayRun.v
ChaosMonkey.v
Pinging.v
Json.v
Marshal.v
Persist.v
ControlText.v
