(* ===== verification/Prelude.v ===== *)
(** * Verification of the money-laundering-analysis pipeline

    The repository is a distributed pipeline in Go.  A client streams bank
    transactions and bank names to the gateway; workers connected by RabbitMQ
    queues clean, split, filter, aggregate and join them to answer five queries;
    the gateway returns the results.  Every worker checkpoints its state so that
    it can be killed and restarted, every stage must agree that it has received
    a whole stream before it announces its end, and a set of monitors elects a
    leader that restarts the containers that die.

    ** Conventions

    A Go function that returns [(T, error)] is a function into [res T] ([Ok],
    [Err], [Panic]); one that also changes the memory of a worker is in the
    state monad [M]; one that also touches the disk is in [D] (file [Disk]),
    whose programs can be run, or crashed at any request.  An [int] is a [Z]
    with [int64] at every addition; [uint32] and [uint16] likewise.  A Go map is
    a [gmap] and every loop over it goes through [GoRange], an arbitrary
    permutation; [sort.Slice] is [GoSort], an arbitrary ordered permutation:
    theorems hold for every choice.  [float64] is its IEEE 754 bit pattern.  The
    broker accepts a message or fails according to a script.

    ** The parts, bottom up (source files under [src/src])

    - Data and wire format.  [Models] ([common/protocol/models.go],
      [common/domain]), [MsgIDs] ([common/protocol/msgid.go], SHA-256 included),
      [Wire], [Codec], [CodecQ4] ([common/protocol/codec/codec.go]): every
      encoder and decoder, with round trips for all records, the errors of
      over-long fields, and the inputs on which a decoder panics.
    - Checkpoints.  [Disk], [Store] ([common/checkpoint/store.go]),
      [Coordinator] ([coordinator.go], [checkpoint.go]).  [CrashSafety] shows
      that a crash at any request leaves the old or the new checkpoint,
      [Recovery] that any life of checkpoints, crashes and recoveries is a
      sequence of whole commits (a refinement of [commit_step]), [Acks] that a
      delivery is acknowledged only once it is durable.  [Worker] instantiates
      the interface; [Restart] shows what is lost when a worker passes no state.
      [Json] and [Marshal] are [encoding/json]: texts, and how a Go value is
      written and read; [Persist] has the checkpoint records of the workers with
      their tags, the coordinator of each [Run], and what a worker that is killed
      resumes with.
    - Messaging.  [Publisher] ([common/messaging]): deduplication and
      [Dispatch]; handlers complete exactly once.  [Consumer]: the callbacks the
      workers give to [StartConsuming], in two forms ([consumeBarrier],
      [consumeSync]).  [Delivery]: what a queue delivers, with repetitions, to
      such a callback.  [Buffer] ([common/batch/buffer.go]): batches by client
      and key.
    - RabbitMQ ([common/broker], [broker/scattergather]).  [Amqp]: dialling with
      retries, what the constructors declare and bind, and sending, against any
      answers of the server (the class [AmqpLib]).  [Consuming]: the goroutines
      that start, stop, send and close as interleaved steps, for the five kinds
      of broker and the two exchanges of control messages; a [select] reads its
      channel when it is entered.
    - End of stream.  [EofSync] ([common/eof/sync_controller.go]): the
      controller of one replica, every control message a handler.  [EofSystem]:
      the replicas on a network that delays, reorders and repeats messages; no
      flush before every batch was received, unless the stream was announced as
      cut, and no other end but after as many requests as there are retries.  [EofBroker] ([eof_broker.go]):
      which replicas a control message reaches.  [ControlText] ([codec.go]): the
      same messages as bytes.
    - Workers.  [Router] and [Sharding] ([workers/router]), [Filter]
      ([workers/filter/service.go], [syncfilter.go], [date_range.go],
      [workers/cleaner]), [AvgFilter] ([avg_format_filter.go]), [Q5Filter]
      ([q5_filter.go]), [Converter] ([workers/converter]), [Aggregator]
      ([workers/aggregator/aggregator.go]), [Join] ([workers/join/join.go]).
      Each file has the worker's state as a record, its handlers with their
      error returns, and its [Run] callback over [Consumer]; [WorkerMem] is the
      memory of the workers that only synchronise.
    - Query 4.  [HeavyMonitor] ([heavy_accounts_monitor.go]) is the barrier of
      the exchange of heavy accounts; [Q4Pairs] ([scatter_and_gather.go],
      [accounts_exchange.go]) the graph and its cross product, with [Q4Theorems]
      and [Q4Cross] (pruning by heavy accounts never changes the answer);
      [Q4Count] the counter ([aggregator/scattergather.go]), the threshold
      ([filter/scattergather.go]) and the answer ([join/query4.go]), with
      [Q4Split].
    - Gateway.  [Gateway] ([gateway/internal/gateway],
      [clientmanagement/clientconnection]): a client from accept to close,
      message ids, totals, results forwarded once, recovery.
    - Client.  [Network] ([common/network]): whole messages over segmented
      connections.  [Client] ([client/internal]): parsing, batches, streaming,
      and the files of the results.  [Session] composes them: the bytes a client
      sends for its two files, whole or cut anywhere, at the gateway.
    - Compositions.  [Results]: the gateway and the client's receiver.
      [Pipeline]: query 1 from the file of transactions to the file of results,
      through gateway, cleaner and filter, each with deliveries that are repeated,
      reordered and cut by crashes.
    - Availability.  [Bully] ([common/bully]): the election as a step relation
      over all nodes, goroutines and faults.  [Monitor] ([workers/monitor],
      [common/monitoring]): pings, failure counts and restarts, one at a time;
      [Pinging]: the same by goroutines that interleave.
    - Start-up.  [Config] ([common/config/config.go] and the checks of the
      constructors in [common/broker]): a worker's configuration from its file,
      the environment and the system's defaults.  [Startup] ([core], and the
      constructors, [Run] and [Stop] of every worker): from that configuration to
      a running worker, and its shutdown.  [GatewayStart] ([gateway/config],
      [NewGateway], [messagehandler]): the same for the gateway.  [GatewayRun]
      ([Gateway.Run]): its process until it returns, with the goroutines of the
      clients and the connections that are open.
    - Deployment.  [Compose] ([scripts/gen_compose.go]): the containers of a
      topology and their environments, read back with [Config], [Sharding] and
      [Monitor].  [ChaosMonkey] ([chaos_monkey/main.go]): which of them fault
      injection kills in each of its modes.
    [Maps] and [Slices] hold the lemmas on maps and slices that these share;
    this file the result type, integers, bytes, the monads and the tactics.

    ** What the theorems show

    Round trips of the codec, of JSON and of what a restart replays, down to the
    bytes on disk; exactly-once
    handling under redelivery; crash atomicity and refinement of checkpoints;
    safety of the end-of-stream protocol and of the two barriers; functional
    correctness of the way from the client's files to the brokers and from the
    results to its output files, for query 1 end to end (no wrong row and none
    twice; all rows if none of its results comes after its end); of routing, filtering,
    aggregation, joining and the pair count of query 4, for every map order;
    termination of elections, and their outcome when they start from rest and
    nothing fails; restarts of silent containers under any
    interleaving of a monitor's goroutines; completeness of a loaded configuration
    and the settings of a worker that comes up,
    a shutdown of the gateway that leaves no connection open, the exact attempts
    to connect, what a broker has declared once it is connected and exactly when
    a send succeeds, that the consumers of a stopped broker can end if they were
    started in turn; agreement of the replicas of a deployment on names
    and numbers, recovery before consumption; and the failures the code
    has: each is a theorem about the code as it is, with a concrete run as its
    witness (listed as findings beside this development).

    ** Bounds and fuel

    Loops over slices and maps are structural.  The readers of [CodecQ4] that
    run to the end of a buffer take its length as fuel (the parser of [Json]
    twice the length, as a value and the elements after it are two calls:
    [parse_fuel] shows that more changes nothing), as do the record log's
    [load_loop] and [replay_loop]: each turn consumes at least one byte.  So do
    the loops of [Network], [Client] and [Gateway] that receive messages; those
    that send use up a byte, a row or an outcome of the connection.  Round trips
    assume what the formats can hold (strings of at most 255 bytes, batch counts
    of 32 bits, payloads below 2^32-37 bytes); theorems about counters assume no
    wrap-around of [int64] where they need it and say so.

    [connectRabbit] dials at most [connectMaxAttempts] = 10 times, which is the
    fuel of [dial].  Loops that wait (consumers, elections, the manager,
    the random mode of [ChaosMonkey]) are steps over lists of events of any
    length; so is the accept loop of the gateway in [GatewayRun], while [Gateway]
    has [acceptClient] and [serve] for one client.

    ** Not modelled

    The RabbitMQ client library (the class [AmqpLib]), accepting sockets, timers,
    the text of CSV files ([encoding/csv] yields rows) and of floats ([Strconv];
    in JSON the class [FloatText]), the text of YAML files and of the compose
    file's template (their values are arguments), the client's configuration
    (read by [viper]), logging and the [main] functions.  [time.Parse] (the class
    [TimeLib]), [time.ParseDuration] (the class [Files]), [uuid] ([UuidLib],
    [UuidText]) and [docker] are parameters or events.  Handlers are atomic: the
    mutexes of a worker are not interleaved, except in [Bully], [Consuming] and
    [Pinging], where a critical section is a step, and between replicas.  A disk
    fails by crashing, or in [Store] by a failed append, not in other ways.

    What is left of the source is of these kinds: declarations of interfaces and
    of loggers, methods that copy the error handling of a worker already modelled
    ([onflush] of the synchronised workers is one definition in [Router]), and
    loops of [main], sockets and timers whose bodies are modelled. *)

From stdpp Require Export base gmap strings list countable sorting.
From Stdlib Require Export ZArith Lia.

#[global] Open Scope Z_scope.

Create HintDb int64 discriminated.
Create HintDb len discriminated.
Create HintDb wf discriminated.
Create HintDb wire discriminated.

(** ** Results

    A Go function that returns [(T, error)] returns [res T]; [Panic] is a
    run-time panic.  Texts of formatted error messages keep their fixed part
    only. *)
Inductive error :=
  | EOF
  | ErrUnexpectedEOF
  | ErrMsg (s : string)
  | Wrapf (ctx : string) (e : error).

Inductive res (A : Type) :=
  | Ok (a : A)
  | Err (e : error)
  | Panic (s : string).
Arguments Ok {A} _.
Arguments Err {A} _.
Arguments Panic {A} _.

#[global] Instance error_eq_dec : EqDecision error.
Proof. solve_decision. Defined.
#[global] Instance res_eq_dec A `{EqDecision A} : EqDecision (res A).
Proof. solve_decision. Defined.

#[global] Instance res_ret : MRet res := fun A a => Ok a.
#[global] Instance res_bind : MBind res := fun A B f m =>
  match m with Ok a => f a | Err e => Err e | Panic s => Panic s end.
#[global] Instance res_fmap : FMap res := fun A B f m =>
  match m with Ok a => Ok (f a) | Err e => Err e | Panic s => Panic s end.

(** [fmt.Errorf("ctx: %w", err)] on the error branch. *)
Definition wrapf {A} (ctx : string) (m : res A) : res A :=
  match m with Err e => Err (Wrapf ctx e) | _ => m end.

(** [errors.Is] *)
Fixpoint errors_Is (e target : error) : bool :=
  bool_decide (e = target) || match e with Wrapf _ e' => errors_Is e' target | _ => false end.
Definition is_ok {A} (m : res A) : bool :=
  match m with Ok _ => true | _ => false end.

(** ** Bytes and machine integers *)
Abbreviation byte := Byte.byte.
Abbreviation bytes := (list Byte.byte).

Definition byte_Z (b : byte) : Z := Z.of_N (Byte.to_N b).
Definition Z_byte (z : Z) : byte :=
  match Byte.of_N (Z.to_N (z mod 256)) with Some b => b | None => Byte.x00 end.

(** Conversions of an integer to a type of a given width. *)
Definition uint8 (z : Z) : Z := z mod 2 ^ 8.
Definition uint16 (z : Z) : Z := z mod 2 ^ 16.
Definition uint32 (z : Z) : Z := z mod 2 ^ 32.
Definition uint64 (z : Z) : Z := z mod 2 ^ 64.
(** Go's [int] and [int64] (a 64-bit platform): two's complement. *)
Definition int64 (z : Z) : Z := (z + 2 ^ 63) mod 2 ^ 64 - 2 ^ 63.

Definition in_int64 (z : Z) : Prop := - 2 ^ 63 <= z < 2 ^ 63.
Definition in_uint (w : Z) (z : Z) : Prop := 0 <= z < 2 ^ w.

(** [len] of a Go slice or string. *)
Definition Zlen {A} (l : list A) : Z := Z.of_nat (length l).

(** [binary.BigEndian.PutUint16/32/64] write the low [n] bytes, most
    significant first; [Uint16/32/64] read them back. *)
Fixpoint be_bytes (n : nat) (z : Z) : bytes :=
  match n with
  | O => []
  | S n' => Z_byte (z / 256 ^ Z.of_nat n') :: be_bytes n' z
  end.

Fixpoint be_val (l : bytes) : Z :=
  match l with
  | [] => 0
  | b :: l' => byte_Z b * 256 ^ Zlen l' + be_val l'
  end.

(** Go strings are byte strings. *)
Definition str_bytes (s : string) : bytes := String.list_byte_of_string s.
Definition bytes_str (l : bytes) : string := String.string_of_list_byte l.
Definition str_len (s : string) : Z := Zlen (str_bytes s).

(** Byte-wise lexicographic order of two strings, Go's [<] on strings. *)
Definition str_lt (s t : string) : bool := String.ltb s t.

(** ** 16-byte arrays: [uuid.UUID] and [protocol.MsgID] *)
Record id16 := Id16 {
  id16_bytes : bytes;
  id16_len : Nat.eqb (length id16_bytes) 16 = true
}.

(** [copy(id[:], l)] into a zeroed array. *)
Definition fit16 (l : bytes) : bytes := take 16 (l ++ replicate 16 Byte.x00).

Lemma length_fit16 l : Nat.eqb (length (fit16 l)) 16 = true.
Proof.
  apply Nat.eqb_eq. unfold fit16.
  rewrite length_take, length_app, length_replicate. lia.
Qed.

Definition copy16 (l : bytes) : id16 := Id16 (fit16 l) (length_fit16 l).
Definition zero16 : id16 := copy16 [].

(** ** Iteration order of Go maps

    [range] over a map visits the entries in an unspecified order; a
    definition that iterates over a map takes that order as an instance of
    this class, and its theorems hold for every instance. *)
Class GoRange := {
  range : forall {A : Type}, list A -> list A;
  range_perm : forall (A : Type) (l : list A), range l ≡ₚ l
}.

(** Two concrete orders, for the witnesses. *)
Definition range_id : GoRange :=
  {| range := fun A l => l; range_perm := fun A l => Permutation_refl l |}.
Definition range_rev : GoRange :=
  {| range := fun A l => rev l; range_perm := fun A l => Permutation_sym (Permutation_rev l) |}.

(** ** State, errors and output: the monad of the workers' handlers *)
Definition M (S A : Type) : Type := S -> res A * S.
#[global] Instance M_ret S : MRet (M S) := fun A a s => (Ok a, s).
#[global] Instance M_bind S : MBind (M S) := fun A B f m s =>
  match m s with
  | (Ok a, s') => f a s'
  | (Err e, s') => (Err e, s')
  | (Panic p, s') => (Panic p, s')
  end.

Definition getS {S} : M S S := fun s => (Ok s, s).
Definition modS {S} (f : S -> S) : M S unit := fun s => (Ok tt, f s).
Definition liftR {S A} (r : res A) : M S A := fun s => (r, s).
Definition failM {S A} (e : error) : M S A := fun s => (Err e, s).

(** Run [m] for its effect and keep its error as a value: [if err := m; err != nil]. *)
Definition catchM {S A} (m : M S A) : M S (option error) := fun s =>
  match m s with
  | (Ok _, s') => (Ok None, s')
  | (Err e, s') => (Ok (Some e), s')
  | (Panic p, s') => (Panic p, s')
  end.

(** [for _, x := range l { f(x) }] with an early return on the first error. *)
Fixpoint forM {S A} (l : list A) (f : A -> M S unit) : M S unit :=
  match l with
  | [] => mret tt
  | x :: l' => f x ≫= fun _ => forM l' f
  end.

(** ** Generic lemmas *)
Lemma byte_Z_range b : 0 <= byte_Z b < 256.
Proof. unfold byte_Z. pose proof (Byte.to_N_bounded b). lia. Qed.

Lemma Z_byte_Z b : Z_byte (byte_Z b) = b.
Proof.
  unfold Z_byte. rewrite Z.mod_small by apply byte_Z_range.
  unfold byte_Z. rewrite N2Z.id, Byte.of_to_N. done.
Qed.

Lemma byte_Z_byte z : byte_Z (Z_byte z) = z mod 256.
Proof.
  unfold Z_byte, byte_Z.
  pose proof (Z.mod_pos_bound z 256 ltac:(lia)) as Hb.
  destruct (Byte.of_N (Z.to_N (z mod 256))) as [b|] eqn:E.
  - apply Byte.to_of_N in E. rewrite E. rewrite Z2N.id; lia.
  - apply Byte.of_N_None_iff in E. lia.
Qed.

Lemma length_be_bytes n z : length (be_bytes n z) = n.
Proof. induction n; simpl; congruence. Qed.

Lemma Zlen_be_bytes n z : Zlen (be_bytes n z) = Z.of_nat n.
Proof. unfold Zlen. by rewrite length_be_bytes. Qed.

Lemma be_val_bytes n z : be_val (be_bytes n z) = z mod 256 ^ Z.of_nat n.
Proof.
  induction n as [|n IH]; simpl.
  { by rewrite Z.mod_1_r. }
  rewrite IH, byte_Z_byte, Zlen_be_bytes.
  rewrite Nat2Z.inj_succ, Z.pow_succ_r by lia.
  rewrite (Z.mul_comm 256 (256 ^ Z.of_nat n)).
  rewrite Z.rem_mul_r by lia. lia.
Qed.

Lemma be_val_range l : 0 <= be_val l < 256 ^ Zlen l.
Proof.
  induction l as [|b l IH]; simpl.
  - unfold Zlen; simpl. lia.
  - unfold Zlen in *. simpl length. rewrite Nat2Z.inj_succ, Z.pow_succ_r by lia.
    pose proof (byte_Z_range b). nia.
Qed.

Lemma be_bytes_val l : be_bytes (length l) (be_val l) = l.
Proof.
  induction l as [|b l IH]; simpl; [done|].
  pose proof (be_val_range l) as Hr. unfold Zlen in *.
  f_equal.
  - rewrite Z.div_add_l by lia. rewrite (Z.div_small (be_val l)) by lia.
    rewrite Z.add_0_r. apply Z_byte_Z.
  - transitivity (be_bytes (length l) (be_val l)); [clear IH|exact IH].
    assert (forall n x, be_bytes n (x * 256 ^ Z.of_nat (length l) + be_val l)
      = be_bytes n (be_val l) \/ (length l < n)%nat) as Hgen.
    { intros n x. induction n as [|n IHn]; simpl; [by left|].
      destruct (decide (length l < S n)%nat); [by right|].
      destruct IHn as [->|]; [|lia]. left. f_equal.
      unfold Z_byte. do 3 f_equal.
      replace (Z.of_nat (length l)) with (1 + Z.of_nat (length l - S n) + Z.of_nat n) by lia.
      rewrite !Z.pow_add_r by lia. rewrite Z.mul_assoc.
      rewrite Z.div_add_l by lia.
      replace (x * (256 ^ 1 * 256 ^ Z.of_nat (length l - S n)))
        with (x * 256 ^ Z.of_nat (length l - S n) * 256) by ring.
      rewrite Z.add_comm. by rewrite Z_mod_plus_full. }
    destruct (Hgen (length l) (byte_Z b)) as [H|H]; [exact H|lia].
Qed.

Lemma be_bytes_inj n x y :
  0 <= x < 256 ^ Z.of_nat n -> 0 <= y < 256 ^ Z.of_nat n ->
  be_bytes n x = be_bytes n y -> x = y.
Proof.
  intros Hx Hy H. apply (f_equal be_val) in H.
  rewrite !be_val_bytes, !Z.mod_small in H by done. done.
Qed.

Lemma str_bytes_str s : bytes_str (str_bytes s) = s.
Proof. apply String.string_of_list_byte_of_string. Qed.
Lemma bytes_str_bytes l : str_bytes (bytes_str l) = l.
Proof. apply String.list_byte_of_string_of_list_byte. Qed.
Lemma str_bytes_app s t : str_bytes (s +:+ t) = str_bytes s ++ str_bytes t.
Proof. induction s as [|a s IH]; [done|]. change (String a s +:+ t) with (String a (s +:+ t)).
  change (Ascii.byte_of_ascii a :: str_bytes (s +:+ t)
    = Ascii.byte_of_ascii a :: (str_bytes s ++ str_bytes t)). by rewrite IH. Qed.
#[global] Instance str_bytes_inj : Inj (=) (=) str_bytes.
Proof. intros s t H. rewrite <- (str_bytes_str s), H. apply str_bytes_str. Qed.

Lemma str_len_nonneg s : 0 <= str_len s.
Proof. unfold str_len, Zlen. lia. Qed.

Lemma id16_eq (i j : id16) : id16_bytes i = id16_bytes j -> i = j.
Proof.
  destruct i as [l p], j as [l' q]; simpl. intros ->. f_equal.
  apply Eqdep_dec.UIP_dec. apply Bool.bool_dec.
Qed.
#[global] Instance id16_bytes_inj : Inj (=) (=) id16_bytes.
Proof. intros i j. apply id16_eq. Qed.

Lemma length_id16 i : length (id16_bytes i) = 16%nat.
Proof. apply Nat.eqb_eq, id16_len. Qed.

Lemma copy16_bytes i : copy16 (id16_bytes i) = i.
Proof.
  apply id16_eq. simpl. unfold fit16. rewrite take_app_le by (rewrite length_id16; lia).
  apply take_ge. rewrite length_id16. lia.
Qed.

Lemma id16_bytes_copy16 l : length l = 16%nat -> id16_bytes (copy16 l) = l.
Proof.
  intros H. simpl. unfold fit16. rewrite take_app_le by lia. apply take_ge. lia.
Qed.

#[global] Instance byte_eq_dec : EqDecision byte := Byte.byte_eq_dec.
#[global] Instance byte_countable : Countable byte.
Proof.
  refine (inj_countable Byte.to_N Byte.of_N _). intros b. apply Byte.of_to_N.
Defined.
#[global] Instance id16_eq_dec : EqDecision id16.
Proof.
  refine (fun i j => match decide (id16_bytes i = id16_bytes j) with
                     | left H => left (id16_eq i j H)
                     | right H => right _ end).
  intros ->. done.
Defined.
#[global] Instance id16_countable : Countable id16 :=
  inj_countable' id16_bytes copy16 copy16_bytes.

(** Modular arithmetic at the machine widths. *)
Lemma uint32_small z : in_uint 32 z -> uint32 z = z.
Proof. apply Z.mod_small. Qed.
Lemma uint64_small z : in_uint 64 z -> uint64 z = z.
Proof. apply Z.mod_small. Qed.
Lemma int64_small z : in_int64 z -> int64 z = z.
Proof. unfold int64, in_int64. intros. rewrite Z.mod_small; lia. Qed.
Lemma int64_range z : in_int64 (int64 z).
Proof.
  unfold int64, in_int64. pose proof (Z.mod_pos_bound (z + 2 ^ 63) (2 ^ 64) ltac:(lia)). lia.
Qed.
Lemma int64_eqm x y : x mod 2 ^ 64 = y mod 2 ^ 64 -> int64 x = int64 y.
Proof.
  intros H. unfold int64. f_equal.
  rewrite (Z.add_mod x), (Z.add_mod y) by lia. by rewrite H.
Qed.
Lemma int64_mod z : int64 z mod 2 ^ 64 = z mod 2 ^ 64.
Proof.
  unfold int64. rewrite Zminus_mod_idemp_l. f_equal. lia.
Qed.
Lemma int64_idemp z : int64 (int64 z) = int64 z.
Proof. apply int64_eqm, int64_mod. Qed.
Lemma int64_add_l x y : int64 (int64 x + y) = int64 (x + y).
Proof. apply int64_eqm. by rewrite Z.add_mod, int64_mod, <- Z.add_mod by lia. Qed.
Lemma int64_add_r x y : int64 (x + int64 y) = int64 (x + y).
Proof. rewrite !(Z.add_comm x). apply int64_add_l. Qed.
Lemma int64_uint64 z : in_int64 z -> int64 (uint64 z) = z.
Proof.
  intros H. rewrite <- (int64_small z) at 2 by done.
  apply int64_eqm. unfold uint64. by rewrite Z.mod_mod by lia.
Qed.
#[export] Hint Rewrite int64_add_l int64_add_r int64_idemp : int64.

(** ** Sums of machine integers *)
Definition sumZ (l : list Z) : Z := foldr Z.add 0 l.

Lemma sumZ_app l k : sumZ (l ++ k) = sumZ l + sumZ k.
Proof. induction l; simpl; lia. Qed.
Lemma sumZ_perm l k : l ≡ₚ k -> sumZ l = sumZ k.
Proof. induction 1; simpl; lia. Qed.
(** Go accumulates [total += c] with wrap-around at each step; the result is
    the exact sum wrapped once. *)
Lemma int64_fold_sum l acc :
  fold_left (fun t c => int64 (t + c)) l (int64 acc) = int64 (acc + sumZ l).
Proof.
  revert acc. induction l as [|c l IH]; intros acc; simpl.
  - by rewrite Z.add_0_r.
  - rewrite int64_add_l, IH. f_equal. lia.
Qed.

(** ** Inverting successful runs *)
Lemma res_bind_ok {A B} (m : res A) (f : A -> res B) b :
  m ≫= f = Ok b <-> exists a, m = Ok a /\ f a = Ok b.
Proof. destruct m; simpl; naive_solver. Qed.

Lemma M_bind_ok {S A B} (m : M S A) (f : A -> M S B) s b s' :
  (m ≫= f) s = (Ok b, s') <-> exists a s1, m s = (Ok a, s1) /\ f a s1 = (Ok b, s').
Proof. unfold mbind, M_bind. destruct (m s) as [[]]; naive_solver. Qed.

(** [unfoldM] exposes the state passing of a handler. *)
Ltac unfoldM :=
  unfold mbind, M_bind, mret, M_ret, getS, modS, liftR, failM, catchM in *; simpl.

(** Reduce [int64] of nested machine additions to one wrap. *)
Ltac norm64 := autorewrite with int64.

#[export] Hint Rewrite @length_app length_be_bytes @length_take @length_drop @length_replicate
  length_id16 : len.
#[export] Hint Resolve str_len_nonneg byte_Z_range be_val_range int64_range : wf.
(** [simpl] must keep encoded integers folded. *)
#[global] Opaque be_bytes be_val fit16.
