(* ===== verification/Maps.v ===== *)
(** * Go maps: iteration, copying and sums

    What the loops over a Go map compute, whatever order [range] takes. *)

From S2P Require Import Prelude.

Section Maps.
Context {GR : GoRange} {K : Type} `{Countable K}.

Lemma range_map_perm {A} (m : gmap K A) : range (map_to_list m) ≡ₚ map_to_list m.
Proof. apply range_perm. Qed.
Lemma range_map_keys {A} (m : gmap K A) : NoDup (range (map_to_list m)).*1.
Proof. rewrite range_perm. apply NoDup_fst_map_to_list. Qed.
Lemma range_map_to_map {A} (m : gmap K A) : list_to_map (range (map_to_list m)) = m.
Proof.
  rewrite (list_to_map_proper _ (map_to_list m)); [apply list_to_map_to_list|apply range_map_keys|].
  apply range_perm.
Qed.
Lemma elem_of_range_map {A} (m : gmap K A) kv : kv ∈ range (map_to_list m) <-> m !! kv.1 = Some kv.2.
Proof. rewrite range_perm. destruct kv. apply elem_of_map_to_list. Qed.

(** [for k, v := range m { u[k] = v }] *)
Lemma fold_insert_keys {A} (l : list (K * A)) (u : gmap K A) : NoDup l.*1 ->
  fold_left (fun u kv => <[kv.1 := kv.2]> u) l u = list_to_map l ∪ u.
Proof.
  revert u. induction l as [|[k v] l IH]; intros u Hnd; simpl in *.
  { by rewrite (left_id_L ∅ (∪)). }
  apply NoDup_cons in Hnd as [Hk Hnd]. rewrite IH by done.
  rewrite <- insert_union_r by (by apply not_elem_of_list_to_map_1).
  by rewrite insert_union_l.
Qed.
Lemma fold_insert {A} (m u : gmap K A) :
  fold_left (fun u kv => <[kv.1 := kv.2]> u) (range (map_to_list m)) u = m ∪ u.
Proof. rewrite fold_insert_keys by apply range_map_keys. by rewrite range_map_to_map. Qed.

(** Sums of the values of a map. *)
Definition sumM (m : gmap K Z) : Z := sumZ (map_to_list m).*2.

Lemma sumM_empty : sumM ∅ = 0.
Proof. unfold sumM. by rewrite map_to_list_empty. Qed.
Lemma sumM_insert m k v : m !! k = None -> sumM (<[k := v]> m) = v + sumM m.
Proof. intros Hk. unfold sumM. erewrite sumZ_perm; [|apply fmap_Permutation, map_to_list_insert, Hk]. done. Qed.
Lemma sumM_range m : sumZ (range (map_to_list m)).*2 = sumM m.
Proof. apply sumZ_perm. by rewrite range_perm. Qed.
(** [for _, v := range m { t += v }] *)
Lemma fold_sum (m : gmap K Z) :
  fold_left (fun t (kv : K * Z) => int64 (t + kv.2)) (range (map_to_list m)) 0 = int64 (sumM m).
Proof.
  rewrite <- sumM_range.
  assert (forall l acc, fold_left (fun t (kv : K * Z) => int64 (t + kv.2)) l acc
    = fold_left (fun t c => int64 (t + c)) l.*2 acc) as Hf.
  { intros l. induction l as [|kv l IH]; intros acc; simpl; [done|]. apply IH. }
  rewrite Hf. change 0 with (int64 0) at 1. by rewrite int64_fold_sum.
Qed.

(** A part of a map of positive numbers sums up to less. *)
Lemma sumM_subseteq (u g : gmap K Z) : u ⊆ g -> (forall k v, g !! k = Some v -> 0 < v) ->
  sumM u <= sumM g /\ (sumM g <= sumM u -> u = g).
Proof.
  revert u. induction g as [|k v g Hk IH] using map_ind; intros u Hu Hpos.
  { assert (u = ∅) as ->; [|by rewrite sumM_empty]. apply map_empty. intros i.
    destruct (u !! i) eqn:E; [|done]. eapply lookup_weaken in E; [|exact Hu]. by rewrite lookup_empty in E. }
  assert (0 < v) as Hv by (apply (Hpos k); apply lookup_insert_eq).
  assert (forall k' v', g !! k' = Some v' -> 0 < v') as Hpos'.
  { intros k' v' Hk'. apply (Hpos k'). rewrite lookup_insert_ne; [done|]. naive_solver. }
  rewrite sumM_insert by done.
  destruct (u !! k) as [v'|] eqn:E.
  - assert (v' = v) as -> by (eapply lookup_weaken in E; [|exact Hu]; rewrite lookup_insert_eq in E; congruence).
    assert (delete k u ⊆ g) as Hd.
    { apply map_subseteq_spec. intros i x Hi. rewrite lookup_delete_Some in Hi. destruct Hi as [Hne Hi].
      eapply lookup_weaken in Hi; [|exact Hu]. by rewrite lookup_insert_ne in Hi. }
    destruct (IH _ Hd Hpos') as [H1 H2]. rewrite <- (insert_delete_id u k v E).
    rewrite sumM_insert by apply lookup_delete_eq. split; [lia|]. intros Hs. rewrite H2 by lia. done.
  - assert (u ⊆ g) as Hd.
    { apply map_subseteq_spec. intros i x Hi. pose proof Hi as Hi'. eapply lookup_weaken in Hi; [|exact Hu].
      rewrite lookup_insert_ne in Hi; [done|]. congruence. }
    destruct (IH _ Hd Hpos') as [H1 H2]. split; lia.
Qed.
End Maps.

(** ** Grouping: [m[f(x)] = append(m[f(x)], x)] *)
Section Group.
Context {K A : Type} `{Countable K} (f : A -> K).

Definition group_add (m : gmap K (list A)) (x : A) : gmap K (list A) :=
  <[f x := default [] (m !! f x) ++ [x]]> m.
Definition group_by (l : list A) : gmap K (list A) := fold_left group_add l ∅.

Definition group_of (k : K) (l : list A) : list A := filter (fun x => f x = k) l.

Lemma group_fold_lookup l m k :
  fold_left group_add l m !! k =
    match group_of k l with [] => m !! k | g => Some (default [] (m !! k) ++ g) end.
Proof.
  revert m. induction l as [|x l IH]; intros m; [done|]. cbn [fold_left]. rewrite IH.
  unfold group_of, group_add. rewrite filter_cons. destruct (decide (f x = k)) as [<-|Hne].
  - rewrite !lookup_insert_eq. destruct (filter _ l); [done|]. simpl. by rewrite <- app_assoc.
  - by rewrite !lookup_insert_ne by done.
Qed.
Lemma group_by_lookup l k g : group_by l !! k = Some g <-> g = group_of k l /\ g <> [].
Proof.
  unfold group_by. rewrite group_fold_lookup, lookup_empty. destruct (group_of k l); simpl; naive_solver.
Qed.
Lemma group_by_keys l k : is_Some (group_by l !! k) <-> k ∈ f <$> l.
Proof.
  split.
  - intros [g Hg]. apply group_by_lookup in Hg as [-> Hne]. destruct (group_of k l) as [|x g] eqn:E; [done|].
    assert (x ∈ group_of k l) as Hx by (rewrite E; set_solver).
    apply list_elem_of_filter in Hx as [<- Hx]. by apply list_elem_of_fmap_2.
  - intros (x & -> & Hx)%list_elem_of_fmap. exists (group_of (f x) l). apply group_by_lookup. split; [done|].
    intros E. assert (x ∈ group_of (f x) l) as Hin by (by apply list_elem_of_filter). rewrite E in Hin. set_solver.
Qed.

(** The groups, in any order of the keys, hold every element once. *)
Lemma group_perm l (ks : list K) : NoDup ks -> (forall x, x ∈ l -> f x ∈ ks) ->
  flat_map (fun k => group_of k l) ks ≡ₚ l.
Proof.
  induction l as [|x l IH]; intros Hnd Hin.
  { clear. induction ks as [|k ks IH]; [done|]. exact IH. }
  assert (f x ∈ ks) as Hx by (apply Hin; set_solver).
  assert (flat_map (fun k => group_of k l) ks ≡ₚ l) as IH' by (apply IH; [done|set_solver]).
  transitivity (x :: flat_map (fun k => group_of k l) ks); [|by rewrite IH']. clear IH IH' Hin.
  induction Hnd as [|k ks Hk Hnd IH]; [set_solver|]. cbn [flat_map].
  unfold group_of at 1. rewrite filter_cons. fold (group_of k l).
  destruct (decide (f x = k)) as [<-|Hne].
  - cbn [app]. apply perm_skip. apply Permutation_app_head.
    assert (forall ks, f x ∉ ks -> flat_map (fun k => group_of k (x :: l)) ks = flat_map (fun k => group_of k l) ks) as Hno.
    { clear. intros ks. induction ks as [|k ks IH]; intros Hn; [done|]. cbn [flat_map].
      rewrite IH by set_solver. f_equal. unfold group_of. rewrite filter_cons, decide_False; [done|]. set_solver. }
    by rewrite Hno.
  - rewrite IH by set_solver. by rewrite Permutation_middle.
Qed.
Lemma group_by_perm {GR : GoRange} l :
  flat_map snd (range (map_to_list (group_by l))) ≡ₚ l.
Proof.
  assert (flat_map snd (range (map_to_list (group_by l)))
    = flat_map (fun k => group_of k l) (range (map_to_list (group_by l))).*1) as ->.
  { assert (forall kg, kg ∈ range (map_to_list (group_by l)) -> kg.2 = group_of kg.1 l) as Hg.
    { intros [k g] Hin. apply elem_of_range_map, group_by_lookup in Hin. by destruct Hin. }
    revert Hg. generalize (range (map_to_list (group_by l))). intros kgs.
    induction kgs as [|kg kgs IH]; intros Hg; [done|]. cbn [flat_map fmap list_fmap].
    rewrite IH by (intros; apply Hg; set_solver). f_equal. apply Hg. set_solver. }
  apply group_perm; [apply range_map_keys|]. intros x Hx.
  destruct (proj2 (group_by_keys l (f x))) as [g Hg]; [by apply list_elem_of_fmap_2|].
  apply list_elem_of_fmap. exists (f x, g). split; [done|]. by apply elem_of_range_map.
Qed.
End Group.
