(* ===== verification/Slices.v ===== *)
(** * Sorting and cutting slices ([sort.Slice], [s[i:j]])

    [sort.Slice] is not stable: all it promises is a permutation in order, so it
    is a parameter with these two laws.  [chunks] cuts a slice into batches. *)

From S2P Require Import Prelude.

Class GoSort := {
  sort_Slice : forall {A : Type}, (A -> string) -> list A -> list A;
  sort_perm : forall (A : Type) (key : A -> string) (l : list A), sort_Slice key l ≡ₚ l;
  sort_sorted : forall (A : Type) (key : A -> string) (l : list A),
    StronglySorted (fun a b => str_lt (key b) (key a) = false) (sort_Slice key l)
}.

Lemma str_lt_le s t : str_lt t s = false <-> String.le s t.
Proof.
  unfold str_lt, String.ltb, String.le, String.leb. rewrite (String.compare_antisym t s).
  by destruct (String.compare s t).
Qed.

(** Distinct keys leave [sort.Slice] no choice, whatever the order of the input. *)
Lemma sort_unique (S1 S2 : GoSort) {A : Type} (key : A -> string) (l1 l2 : list A) :
  l1 ≡ₚ l2 -> (forall a b, a ∈ l1 -> b ∈ l1 -> key a = key b -> a = b) ->
  @sort_Slice S1 A key l1 = @sort_Slice S2 A key l2.
Proof.
  intros Hp Hinj. apply (StronglySorted_unique_strong (fun a b => str_lt (key b) (key a) = false)).
  - intros a b Ha Hb H1%str_lt_le H2%str_lt_le. rewrite (@sort_perm S1) in Ha. rewrite (@sort_perm S2), <- Hp in Hb.
    apply Hinj; [done..|]. by apply (anti_symm String.le).
  - apply sort_sorted.
  - apply sort_sorted.
  - by rewrite (@sort_perm S1), (@sort_perm S2).
Qed.

(** A concrete sort, for the witnesses. *)
Definition merge_by {A : Type} (key : A -> string) : list A -> list A :=
  merge_sort (fun a b => String.le (key a) (key b)).
Lemma merge_by_sorted {A : Type} (key : A -> string) (l : list A) :
  StronglySorted (fun a b => str_lt (key b) (key a) = false) (merge_by key l).
Proof.
  assert (Transitive (fun a b => String.le (key a) (key b))) by (intros a b c; apply transitivity).
  assert (Total (fun a b => String.le (key a) (key b))) by (intros a b; apply (total String.le)).
  assert (StronglySorted (fun a b => String.le (key a) (key b)) (merge_by key l)) as Hsort
    by (apply StronglySorted_merge_sort; apply _).
  induction Hsort as [|a l' Hs IH Ha]; constructor; [done|].
  eapply Forall_impl; [exact Ha|]. intros b Hb. by apply str_lt_le.
Qed.
Definition sort_merge : GoSort := {|
  sort_Slice := fun A => merge_by;
  sort_perm := fun A key l => merge_sort_Permutation _ l;
  sort_sorted := fun A => merge_by_sorted
|}.

(** ** Batches *)
Fixpoint chunks_loop {A} (fuel n : nat) (l : list A) : list (list A) :=
  match fuel, l with
  | O, _ | _, [] => []
  | S fuel', _ => take n l :: chunks_loop fuel' n (drop n l)
  end.
(** [for start := 0; start < len(l); start += n { l[start:min(start+n, len(l))] }] *)
Definition chunks {A} (n : nat) (l : list A) : list (list A) := chunks_loop (length l) n l.

Lemma chunks_loop_spec {A : Type} fuel n (l : list A) : (0 < n)%nat -> (length l <= fuel)%nat ->
  concat (chunks_loop fuel n l) = l /\ Forall (fun c => (0 < length c <= n)%nat) (chunks_loop fuel n l).
Proof.
  intros Hn. revert l. induction fuel as [|fuel IH]; intros [|x l] Hl; simpl in Hl; try (split; [done|constructor]); try lia.
  cbn [chunks_loop]. destruct (IH (drop n (x :: l))) as [H1 H2].
  { rewrite length_drop. simpl. lia. }
  split.
  - cbn [concat]. rewrite H1. apply take_drop.
  - constructor; [|done]. rewrite length_take. simpl. lia.
Qed.
Lemma chunks_spec {A : Type} n (l : list A) : (0 < n)%nat ->
  concat (chunks n l) = l /\ Forall (fun c => (0 < length c <= n)%nat) (chunks n l).
Proof. intros Hn. by apply chunks_loop_spec. Qed.

Lemma chunks_loop_fuel {A : Type} f g n (l : list A) : (0 < n)%nat -> (length l <= f)%nat -> (length l <= g)%nat ->
  chunks_loop f n l = chunks_loop g n l.
Proof.
  intros Hn. revert g l. induction f as [|f IH]; intros [|g] [|x l] Hf Hg; simpl in Hf, Hg; try lia; try done.
  cbn [chunks_loop]. f_equal. apply IH; rewrite length_drop; simpl; lia.
Qed.
Lemma chunks_nil {A : Type} n : @chunks A n [] = [].
Proof. done. Qed.
Lemma chunks_app {A : Type} n (l k : list A) : (0 < n)%nat -> length l = n ->
  chunks n (l ++ k) = l :: chunks n k.
Proof.
  intros Hn Hl. unfold chunks. destruct l as [|x l]; [simpl in Hl; lia|]. cbn [length app chunks_loop].
  change (x :: l ++ k) with ((x :: l) ++ k). rewrite <- Hl, take_app_length, drop_app_length. f_equal.
  apply chunks_loop_fuel; rewrite ?length_app; simpl; lia.
Qed.
Lemma chunks_small {A : Type} n (l : list A) : (0 < length l <= n)%nat -> chunks n l = [l].
Proof.
  intros Hl. unfold chunks. destruct l as [|x l]; [simpl in Hl; lia|]. cbn [length chunks_loop].
  rewrite take_ge, drop_ge by lia. by destruct (length l).
Qed.
Lemma filter_all {A} (P : A -> Prop) `{!forall x, Decision (P x)} l : Forall P l -> filter P l = l.
Proof. induction 1 as [|x l Hx _ IH]; [done|]. by rewrite filter_cons_True, IH. Qed.
