(* ===== verification/Models.v ===== *)
(** * Data of the pipeline

    The records of [src/common/protocol/models.go], the domain types of
    [src/common/domain], the routing keys of [src/common/broker/keytypes.go],
    and [float64] as IEEE 754 bit patterns: the comparisons are the IEEE ones
    on the sign-magnitude value of the pattern, the arithmetic goes through the
    binary64 instance of [SpecFloat]. *)

From S2P Require Import Prelude.
From Stdlib Require Import SpecFloat.

(** ** float64 *)
Record float64 := F64 { f64_bits : Z }.
#[global] Instance float64_eq_dec : EqDecision float64.
Proof. solve_decision. Defined.

Definition f64_wf (f : float64) : Prop := in_uint 64 (f64_bits f).
Definition f64_isnan (f : float64) : bool :=
  bool_decide (2047 * 2 ^ 52 < f64_bits f mod 2 ^ 63).
(** Position of a non-NaN value on the number line. *)
Definition f64_key (f : float64) : Z :=
  if f64_bits f <? 2 ^ 63 then f64_bits f else - (f64_bits f mod 2 ^ 63).
Definition f64_lt (a b : float64) : bool :=
  negb (f64_isnan a) && negb (f64_isnan b) && (f64_key a <? f64_key b).
Definition f64_eq (a b : float64) : bool :=
  negb (f64_isnan a) && negb (f64_isnan b) && (f64_key a =? f64_key b).
Definition f64_gt (a b : float64) : bool := f64_lt b a.
Definition f64_ge (a b : float64) : bool := f64_lt b a || f64_eq a b.

Definition f64_spec (f : float64) : spec_float :=
  let b := f64_bits f in
  let s := 2 ^ 63 <=? b in
  let e := (b / 2 ^ 52) mod 2 ^ 11 in
  let m := b mod 2 ^ 52 in
  if e =? 0 then match m with Zpos p => S754_finite s p (-1074) | _ => S754_zero s end
  else if e =? 2047 then if m =? 0 then S754_infinity s else S754_nan
  else match m + 2 ^ 52 with Zpos p => S754_finite s p (e - 1075) | _ => S754_nan end.

Definition spec_f64 (x : spec_float) : float64 :=
  let sb (s : bool) := if s then 2 ^ 63 else 0 in
  F64 match x with
      | S754_zero s => sb s
      | S754_infinity s => sb s + 2047 * 2 ^ 52
      | S754_nan => 2047 * 2 ^ 52 + 2 ^ 51
      | S754_finite s p e =>
          sb s + (if Zpos p <? 2 ^ 52 then Zpos p
                  else (e + 1075) * 2 ^ 52 + (Zpos p - 2 ^ 52))
      end.

Definition f64_add (a b : float64) := spec_f64 (SFadd 53 1024 (f64_spec a) (f64_spec b)).
Definition f64_mul (a b : float64) := spec_f64 (SFmul 53 1024 (f64_spec a) (f64_spec b)).
Definition f64_div (a b : float64) := spec_f64 (SFdiv 53 1024 (f64_spec a) (f64_spec b)).
Definition f64_of_int (z : Z) : float64 := spec_f64 (binary_normalize 53 1024 z 0 false).

(** ** Message types: a [uint8] *)
Abbreviation MsgType := byte (only parsing).
Definition MsgTypeInvalid : MsgType := Byte.x00.
Definition MsgAccountsBatch : MsgType := Byte.x01.
Definition MsgAccountsEOF : MsgType := Byte.x02.
Definition MsgTransactionsBatch : MsgType := Byte.x03.
Definition MsgTransactionsEOF : MsgType := Byte.x04.
Definition MsgTxQ4 : MsgType := Byte.x05.
Definition MsgTxAccounts : MsgType := Byte.x06.
Definition MsgQuery1Result : MsgType := Byte.x07.
Definition MsgQuery2Result : MsgType := Byte.x08.
Definition MsgQuery3Result : MsgType := Byte.x09.
Definition MsgQuery4Result : MsgType := Byte.x0a.
Definition MsgQuery5Result : MsgType := Byte.x0b.
Definition MsgQuery1ResultEOF : MsgType := Byte.x0c.
Definition MsgQuery2ResultEOF : MsgType := Byte.x0d.
Definition MsgQuery3ResultEOF : MsgType := Byte.x0e.
Definition MsgQuery4ResultEOF : MsgType := Byte.x0f.
Definition MsgQuery5ResultEOF : MsgType := Byte.x10.
Definition MsgQ4HeavyBatch : MsgType := Byte.x11.
Definition MsgQ4HeavyDone : MsgType := Byte.x12.

Definition Q4HeavyRoleSource : byte := Byte.x00.
Definition Q4HeavyRoleSink : byte := Byte.x01.

(** ** Envelopes *)
Record ExternalEnvelope := mkExternalEnvelope {
  ee_MsgType : MsgType;
  ee_Payload : bytes
}.
Record InternalEnvelope := mkInternalEnvelope {
  MsgType_ : MsgType;
  ClientId : id16;
  MsgID : id16;
  Payload : bytes
}.

(** ** Records of the datasets and of the results *)
Record Transaction := mkTransaction {
  Timestamp : string;
  FromBank : string;
  FromAccount : string;
  ToBank : string;
  ToAccount : string;
  AmountReceived : float64;
  ReceivingCurrency : string;
  AmountPaid : float64;
  PaymentCurrency : string;
  PaymentFormat : string;
  IsLaundering : bool
}.
Record AccountData := mkAccountData {
  ad_BankName : string;
  ad_BankID : string;
  ad_AccountNumber : string;
  ad_EntityID : string;
  ad_EntityName : string
}.
Record Query1Result := mkQuery1Result {
  q1_FromBank : string;
  q1_FromAccount : string;
  q1_ToBank : string;
  q1_ToAccount : string;
  q1_AmountPaid : float64
}.
Record Query2Result := mkQuery2Result {
  q2_FromBank : string;
  q2_FromAccount : string;
  q2_BankName : string;
  q2_AmountPaid : float64
}.
Record Query3Result := mkQuery3Result {
  q3_FromBank : string;
  q3_FromAccount : string;
  q3_PaymentFormat : string;
  q3_AmountPaid : float64
}.
Record Query4Result := mkQuery4Result {
  q4_BankID : string;
  q4_ID : string
}.
Record Query5Result := mkQuery5Result { q5_Count : Z }.

#[global] Instance Transaction_eq_dec : EqDecision Transaction.
Proof. solve_decision. Defined.
#[global] Instance InternalEnvelope_eq_dec : EqDecision InternalEnvelope.
Proof. solve_decision. Defined.

(** ** Methods of [protocol.Transaction] *)
Section Strings.
Local Open Scope string_scope.

Definition GetOriginId (t : Transaction) : string := FromAccount t +:+ "-" +:+ FromBank t.
Definition GetDestId (t : Transaction) : string := ToAccount t +:+ "-" +:+ ToBank t.
Definition GetTransactionId (t : Transaction) : string :=
  GetOriginId t +:+ "-" +:+ GetDestId t +:+ "-" +:+ Timestamp t.

Definition GetTransactionField (t : Transaction) (field : string) : string :=
  if decide (field = "origin") then
    if bool_decide (FromAccount t <> "") && bool_decide (FromBank t <> "")
    then GetOriginId t else ""
  else if decide (field = "dest") then
    if bool_decide (ToAccount t <> "") && bool_decide (ToBank t <> "")
    then GetDestId t else ""
  else if decide (field = "BankID") then
    if bool_decide (FromBank t <> "") then FromBank t else ""
  else if decide (field = "ID") then
    if bool_decide (FromAccount t <> "") then FromAccount t else ""
  else "".

(** ** Domain types *)
Record Account := mkAccount { BankID : string; ID : string }.
#[global] Instance Account_eq_dec : EqDecision Account.
Proof. solve_decision. Defined.
#[global] Instance Account_countable : Countable Account :=
  inj_countable' (fun a => (BankID a, ID a)) (fun p => mkAccount p.1 p.2)
    (fun a => match a with mkAccount _ _ => eq_refl end).

Definition GetID (a : Account) : string := BankID a +:+ "-" +:+ ID a.

Record TxQ4PairKey := mkTxQ4PairKey { Src : string; Dst : string }.
#[global] Instance TxQ4PairKey_eq_dec : EqDecision TxQ4PairKey.
Proof. solve_decision. Defined.
#[global] Instance TxQ4PairKey_countable : Countable TxQ4PairKey :=
  inj_countable' (fun k => (Src k, Dst k)) (fun p => mkTxQ4PairKey p.1 p.2)
    (fun k => match k with mkTxQ4PairKey _ _ => eq_refl end).

(** [TxQ4PairKey.Key]. *)
Definition pair_Key (k : TxQ4PairKey) : string := Src k +:+ "::" +:+ Dst k.

Record TxQ4PairEntry := mkTxQ4PairEntry {
  pe_Count : Z;
  SrcAccount : Account;
  DstAccount : Account
}.
Definition pe_Merge (e other : TxQ4PairEntry) : TxQ4PairEntry :=
  mkTxQ4PairEntry (int64 (pe_Count e + pe_Count other)) (SrcAccount e) (DstAccount e).

Record TxQ4PairCount := mkTxQ4PairCount { pc_Key : TxQ4PairKey; pc_Count : Z }.

Definition TxQ4Scatter : string := "scatter".
Definition TxQ4Gather : string := "gather".
Definition TxFieldOrigin : string := "origin".
Definition TxFieldDest : string := "dest".

Definition GetTypeTxQ4ByField (field : string) : string :=
  if decide (field = TxFieldOrigin) then TxQ4Scatter
  else if decide (field = TxFieldDest) then TxQ4Gather
  else "".

(** ** Routing keys *)
Abbreviation KeyType := string (only parsing).
Definition KeyDollarTransaction : KeyType := "tx.usd".
Definition KeyNonDollarTransaction : KeyType := "tx.non-usd".
Definition KeyAllTransaction : KeyType := "tx.*".
Definition KeyControlEOF : KeyType := "control.eof".
Definition KeyNil : KeyType := "".

Definition Dollar : string := "US Dollar".
End Strings.

(** ** Comparisons of floats *)
Lemma f64_lt_trans a b c : f64_lt a b = true -> f64_lt b c = true -> f64_lt a c = true.
Proof. unfold f64_lt. rewrite !andb_true_iff, !Z.ltb_lt. naive_solver lia. Qed.
Lemma f64_lt_irrefl a : f64_lt a a = false.
Proof. unfold f64_lt. rewrite Z.ltb_irrefl. by rewrite andb_false_r. Qed.
Lemma f64_lt_total a b : f64_isnan a = false -> f64_isnan b = false ->
  f64_lt a b = false -> f64_ge a b = true.
Proof.
  unfold f64_ge, f64_lt, f64_eq. intros -> -> H. simpl in *.
  apply Z.ltb_ge in H. apply orb_true_iff.
  destruct (decide (f64_key b < f64_key a)); [left; by apply Z.ltb_lt|right; apply Z.eqb_eq; lia].
Qed.
(** A comparison of [binary64] values agrees with the comparison of the keys
    on sample patterns: 1.5 < 2.0, -2.0 < 1.5, +0 = -0, NaN is unordered. *)
Example f64_samples :
  let one_half := F64 0x3FF8000000000000 in
  let two := F64 0x4000000000000000 in
  let mtwo := F64 0xC000000000000000 in
  f64_lt one_half two = SFltb (f64_spec one_half) (f64_spec two) /\
  f64_lt mtwo one_half = SFltb (f64_spec mtwo) (f64_spec one_half) /\
  f64_eq (F64 0) (F64 (2 ^ 63)) = true /\
  f64_lt (F64 0x7FF8000000000000) two = false /\
  f64_add one_half one_half = F64 0x4008000000000000 /\
  f64_div two one_half = F64 0x3FF5555555555555 /\
  f64_of_int 3 = F64 0x4008000000000000.
Proof. vm_compute. repeat split. Qed.
