(* ===== verification/MsgIDs.v ===== *)
(** * Deterministic message identifiers ([src/common/protocol/msgid.go])

    [SourceMsgID], [DeriveMsgID] and [StageMsgID] hash a buffer with SHA-256
    and keep 16 bytes.  SHA-256 ([crypto/sha256]) is computed here in full, so
    ids are concrete.  The theorems are about the hashed buffers: equal buffers
    mean equal arguments, and buffers of different kinds differ, so an id can
    only repeat through a collision of the truncated hash. *)

From S2P Require Import Prelude Models.

(** ** SHA-256 *)
Module Sha256.
(** The round constants are the fractional parts of the cube roots of the
    first 64 primes, the initial state those of the square roots of the first
    8, as 32-bit words: roots of [p * 2^96] and [p * 2^64], low word. *)
Definition is_prime (n : nat) : bool :=
  forallb (fun d => negb (Nat.eqb (n mod d) 0)) (seq 2 (n - 2)).
Definition primes : list Z := Z.of_nat <$> filter (fun n => is_prime n = true) (seq 2 310).
Fixpoint icbrt (bits : nat) (r x : Z) : Z :=
  match bits with
  | O => r
  | S b => let r' := r + 2 ^ Z.of_nat b in icbrt b (if r' ^ 3 <=? x then r' else r) x
  end.
Definition K : list Z :=
  Eval vm_compute in (fun p => uint32 (icbrt 36 0 (p * 2 ^ 96))) <$> primes.
Definition H0 : list Z :=
  Eval vm_compute in (fun p => uint32 (Z.sqrt (p * 2 ^ 64))) <$> take 8 primes.

Definition rotr (x n : Z) : Z := Z.lor (Z.shiftr x n) (uint32 (Z.shiftl x (32 - n))).
Definition xor3 (a b c : Z) : Z := Z.lxor a (Z.lxor b c).
Definition ssig0 (x : Z) := xor3 (rotr x 7) (rotr x 18) (Z.shiftr x 3).
Definition ssig1 (x : Z) := xor3 (rotr x 17) (rotr x 19) (Z.shiftr x 10).
Definition bsig0 (x : Z) := xor3 (rotr x 2) (rotr x 13) (rotr x 22).
Definition bsig1 (x : Z) := xor3 (rotr x 6) (rotr x 11) (rotr x 25).
Definition ch (e f g : Z) := Z.lxor (Z.land e f) (Z.land (Z.lxor e 0xffffffff) g).
Definition maj (a b c : Z) := xor3 (Z.land a b) (Z.land a c) (Z.land b c).

(** Words of a block, most recent first. *)
Fixpoint schedule (n : nat) (w : list Z) : list Z :=
  match n with
  | O => w
  | S n' =>
      let wt := uint32 (ssig1 (nth 1 w 0) + nth 6 w 0 + ssig0 (nth 14 w 0) + nth 15 w 0) in
      schedule n' (wt :: w)
  end.

Definition round (st : list Z) (kw : Z * Z) : list Z :=
  match st with
  | [a; b; c; d; e; f; g; h] =>
      let t1 := h + bsig1 e + ch e f g + kw.1 + kw.2 in
      let t2 := bsig0 a + maj a b c in
      [uint32 (t1 + t2); a; b; c; uint32 (d + t1); e; f; g]
  | _ => st
  end.

Fixpoint words (n : nat) (l : bytes) : list Z :=
  match n with O => [] | S n' => be_val (take 4 l) :: words n' (drop 4 l) end.

Definition block (st : list Z) (l : bytes) : list Z :=
  let w := rev (schedule 48 (rev (words 16 l))) in
  zip_with (fun x y => uint32 (x + y)) st (fold_left round (combine K w) st).

Fixpoint blocks (n : nat) (st : list Z) (l : bytes) : list Z :=
  match n with O => st | S n' => blocks n' (block st (take 64 l)) (drop 64 l) end.

Definition pad (l : bytes) : bytes :=
  l ++ [Byte.x80] ++ replicate (Z.to_nat ((55 - Zlen l) mod 64)) Byte.x00 ++ be_bytes 8 (8 * Zlen l).

Definition sum256 (l : bytes) : bytes :=
  let p := pad l in concat (be_bytes 4 <$> blocks (length p / 64) H0 p).
End Sha256.

(** ** Identifiers *)
Definition StreamTransactions : byte := Byte.x00.
Definition StreamAccounts : byte := Byte.x01.

Definition hash16 (buf : bytes) : id16 := copy16 (Sha256.sum256 buf).

Definition source_buf (clientID : id16) (stream : byte) (seq : Z) : bytes :=
  id16_bytes clientID ++ [stream] ++ be_bytes 8 seq.
Definition SourceMsgID (clientID : id16) (stream : byte) (seq : Z) : id16 :=
  hash16 (source_buf clientID stream seq).

Definition derive_buf (parent : id16) (discriminator : string) (outIdx : Z) : bytes :=
  id16_bytes parent ++ be_bytes 4 (uint32 (str_len discriminator))
    ++ str_bytes discriminator ++ be_bytes 4 outIdx.
Definition DeriveMsgID (parent : id16) (discriminator : string) (outIdx : Z) : id16 :=
  hash16 (derive_buf parent discriminator outIdx).

Definition stage_buf (clientID : id16) (stage discriminator : string) (outIdx : Z) : bytes :=
  id16_bytes clientID ++ be_bytes 4 (uint32 (str_len stage)) ++ str_bytes stage
    ++ be_bytes 4 (uint32 (str_len discriminator)) ++ str_bytes discriminator
    ++ be_bytes 4 outIdx.
Definition StageMsgID (clientID : id16) (stage discriminator : string) (outIdx : Z) : id16 :=
  hash16 (stage_buf clientID stage discriminator outIdx).

(** ** Test vectors: SHA-256 of "" and of "abc" *)
Example sha256_empty : take 8 (Sha256.sum256 []) =
  be_bytes 8 0xe3b0c44298fc1c14.
Proof. vm_compute. reflexivity. Qed.
Example sha256_abc : Sha256.sum256 (str_bytes "abc") =
  be_bytes 32 0xba7816bf8f01cfea414140de5dae2223b00361a396177a9cb410ff61f20015ad.
Proof. vm_compute. reflexivity. Qed.

(** ** Injectivity of the hashed buffers *)
Lemma app_fixed_inj {A} (l1 l2 k1 k2 : list A) :
  length l1 = length l2 -> l1 ++ k1 = l2 ++ k2 -> l1 = l2 /\ k1 = k2.
Proof. intros Hl H. by apply app_inj_1. Qed.

(** Peel equal-length prefixes off an equation between concatenations. *)
Ltac peel H :=
  apply app_fixed_inj in H; [|autorewrite with len; simpl; lia];
  let H1 := fresh "Heq" in destruct H as [H1 H].

Lemma be4_inj x y : in_uint 32 x -> in_uint 32 y -> be_bytes 4 x = be_bytes 4 y -> x = y.
Proof. intros. by apply (be_bytes_inj 4). Qed.

Lemma be4_len_inj s t :
  in_uint 32 (str_len s) -> in_uint 32 (str_len t) ->
  be_bytes 4 (uint32 (str_len s)) = be_bytes 4 (uint32 (str_len t)) ->
  length (str_bytes s) = length (str_bytes t).
Proof.
  intros Hs Ht H. rewrite !uint32_small in H by done.
  apply be4_inj in H; [|done..]. unfold str_len, Zlen in H. lia.
Qed.

(** A derived identifier hashes its parent, discriminator and index
    unambiguously: the length prefix makes two different argument triples
    produce two different buffers, whatever the discriminators contain. *)
Theorem derive_buf_inj (p p' : id16) (d d' : string) (i i' : Z) :
  in_uint 32 (str_len d) -> in_uint 32 (str_len d') -> in_uint 32 i -> in_uint 32 i' ->
  derive_buf p d i = derive_buf p' d' i' -> p = p' /\ d = d' /\ i = i'.
Proof.
  intros Hd Hd' Hi Hi' H. unfold derive_buf in H.
  peel H. peel H. apply be4_len_inj in Heq0; [|done..].
  apply app_fixed_inj in H as [Hs H]; [|done].
  split_and!; [by apply id16_eq|by apply str_bytes_inj|by apply be4_inj].
Qed.

Lemma stage_buf_inj (c c' : id16) (s s' d d' : string) (i i' : Z) :
  in_uint 32 (str_len s) -> in_uint 32 (str_len s') ->
  in_uint 32 (str_len d) -> in_uint 32 (str_len d') -> in_uint 32 i -> in_uint 32 i' ->
  stage_buf c s d i = stage_buf c' s' d' i' -> c = c' /\ s = s' /\ d = d' /\ i = i'.
Proof.
  intros Hs Hs' Hd Hd' Hi Hi' H. unfold stage_buf in H.
  peel H. peel H. apply be4_len_inj in Heq0; [|done..].
  apply app_fixed_inj in H as [E1 H]; [|done].
  peel H. apply be4_len_inj in Heq1; [|done..].
  apply app_fixed_inj in H as [E2 H]; [|done].
  split_and!; [by apply id16_eq|by apply str_bytes_inj..|by apply be4_inj].
Qed.

Lemma source_buf_inj c c' s s' q q' :
  in_uint 64 q -> in_uint 64 q' ->
  source_buf c s q = source_buf c' s' q' -> c = c' /\ s = s' /\ q = q'.
Proof.
  intros Hq Hq' H. unfold source_buf in H. peel H. peel H.
  split_and!; [by apply id16_eq|congruence|by apply (be_bytes_inj 8)].
Qed.

(** A derived buffer is never a staged one: matching the first length prefix
    forces the total lengths apart. *)
Lemma derive_stage_disjoint p c d s e i j :
  in_uint 32 (str_len d) -> in_uint 32 (str_len s) ->
  derive_buf p d i <> stage_buf c s e j.
Proof.
  intros Hd Hs H. pose proof (f_equal length H) as Hl. unfold derive_buf, stage_buf in H, Hl.
  peel H. peel H. apply be4_len_inj in Heq0; [|done..].
  autorewrite with len in Hl. lia.
Qed.

(** A source buffer is never a derived one as long as the client's sequence
    number stays below 2^40. *)
Lemma source_derive_disjoint c p st q d i :
  0 <= q < 2 ^ 40 -> in_uint 32 (str_len d) -> source_buf c st q <> derive_buf p d i.
Proof.
  intros Hq Hd H. pose proof (f_equal length H) as Hl. unfold source_buf, derive_buf in H, Hl.
  autorewrite with len in Hl. simpl in Hl.
  assert (str_len d = 1) as Hd1 by (unfold str_len, Zlen; lia).
  peel H. rewrite Hd1 in H. apply (f_equal (take 4)) in H.
  with_strategy transparent [be_bytes] simpl in H.
  rewrite Z.div_1_r in H.
  injection H as _ _ _ H. apply (f_equal byte_Z) in H. rewrite !byte_Z_byte in H.
  rewrite (Z.div_small q) in H by lia. done.
Qed.

(** The three kinds of identifiers cannot be confused: a source buffer, a
    derived buffer and a staged buffer are pairwise different (source sequence
    numbers below 2^40), so a derived output never takes the identifier of a
    staged result or of a gateway message by construction. *)
Theorem msgid_kinds_disjoint (c c' p : id16) (st : byte) (q i j : Z) (d s e : string) :
  0 <= q < 2 ^ 40 ->
  in_uint 32 (str_len d) -> in_uint 32 (str_len s) ->
  source_buf c st q <> derive_buf p d i /\
  derive_buf p d i <> stage_buf c' s e j /\
  (source_buf c st q = stage_buf c' s e j -> False).
Proof.
  intros Hq Hd Hs. split_and!.
  - by apply source_derive_disjoint.
  - by apply derive_stage_disjoint.
  - intros H. apply (f_equal length) in H. unfold source_buf, stage_buf in H.
    autorewrite with len in H. simpl in H. lia.
Qed.

Lemma derive_buf_inj_witness :
  derive_buf zero16 "ab" 1 = derive_buf zero16 "ab" 1 /\ ("ab" = "ab")%string.
Proof.
  split; [reflexivity|].
  apply (derive_buf_inj zero16 zero16 "ab" "ab" 1 1); try reflexivity;
    vm_compute; split; congruence.
Defined.

Lemma msgid_kinds_disjoint_witness :
  source_buf zero16 StreamAccounts 5 <> derive_buf zero16 "a" 0.
Proof.
  apply (msgid_kinds_disjoint zero16 zero16 zero16 StreamAccounts 5 0 0 "a" "s" "e");
    vm_compute; split; congruence.
Defined.
