(* ===== verification/Wire.v ===== *)
(** * Byte readers and writers, and the primitives of the codec

    The [bytes.Buffer] a Go encoder appends to is passed explicitly; a
    [bytes.Reader] is the list of the bytes not read yet.  The functions are the
    "primitives" and "batch framing" parts of
    [src/common/protocol/codec/codec.go].  [writes]/[reads] and the
    [RoundTrip] class are the interface the record codecs are proved against. *)

From S2P Require Import Prelude Models.

(** ** Readers *)
Definition reader (A : Type) : Type := bytes -> res (A * bytes).
#[global] Instance reader_ret : MRet reader := fun A a r => Ok (a, r).
#[global] Instance reader_bind : MBind reader := fun A B f m r =>
  match m r with
  | Ok (a, r') => f a r'
  | Err e => Err e
  | Panic s => Panic s
  end.
Definition rwrap {A} (ctx : string) (m : reader A) : reader A := fun r => wrapf ctx (m r).

(** [io.ReadFull] into a buffer of [n] bytes. *)
Definition ReadFull (n : nat) : reader bytes := fun r =>
  if decide (n <= length r)%nat then Ok (take n r, drop n r)
  else Err (if decide (r = []) then EOF else ErrUnexpectedEOF).
(** [bytes.Reader.ReadByte]. *)
Definition ReadByte : reader byte := fun r =>
  match r with b :: r' => Ok (b, r') | [] => Err EOF end.

(** ** Primitives *)
Definition writer : Type := bytes -> res bytes.

Definition writeString (buf : bytes) (s : string) : res bytes :=
  if bool_decide (str_len s > 255) then Err (ErrMsg "string too long")
  else Ok (buf ++ [Z_byte (str_len s)] ++ str_bytes s).

Definition readString : reader string :=
  length ← rwrap "reading string length" ReadByte;
  buf ← rwrap "reading string body" (ReadFull (Z.to_nat (byte_Z length)));
  mret (bytes_str buf).

Definition writeFloat64 (buf : bytes) (f : float64) : bytes := buf ++ be_bytes 8 (f64_bits f).
Definition readFloat64 : reader float64 :=
  b ← ReadFull 8; mret (F64 (be_val b)).

Definition writeInt64 (buf : bytes) (v : Z) : bytes := buf ++ be_bytes 8 (uint64 v).
Definition readInt64 : reader Z :=
  b ← ReadFull 8; mret (int64 (be_val b)).

Definition writeBool (buf : bytes) (b : bool) : bytes :=
  buf ++ [if b then Byte.x01 else Byte.x00].
Definition readBool : reader bool :=
  b ← ReadByte; mret (bool_decide (b = Byte.x01)).

(** ** Batch framing *)
Definition MaxUint16 : Z := 65535.

(** [EncodeAccountBatch], [EncodeTransactionBatch], [EncodeQuery3ResultBatch]
    and their decoders are the same loops written out, with the word for an
    element in their error texts: [noun]. *)
Section Batch.
Context {T : Type} (noun : string).

(** The loop of [encodeBatch] from an element on, appending to [batch]. *)
Fixpoint encodeBatch_loop (encodeOne : bytes -> T -> res bytes) (items : list T)
    (batch : bytes) : res bytes :=
  match items with
  | [] => Ok batch
  | item :: items' =>
      itemBuf ← wrapf ("encoding " +:+ noun) (encodeOne [] item);
      if bool_decide (Zlen itemBuf > MaxUint16) then Err (ErrMsg (noun +:+ " too large"))
      else encodeBatch_loop encodeOne items'
             (batch ++ be_bytes 2 (uint16 (Zlen itemBuf)) ++ itemBuf)
  end.
Definition encodeBatch (items : list T) (encodeOne : bytes -> T -> res bytes) : res bytes :=
  encodeBatch_loop encodeOne items (be_bytes 4 (uint32 (Zlen items))).

(** [count] iterations of the loop of [decodeBatch]; [decodeOne] reads an
    element from a reader bounded to its own body. *)
Fixpoint decodeBatch_loop (decodeOne : reader T) (count : nat) (items : list T)
    : reader (list T) :=
  match count with
  | O => mret items
  | S count' =>
      lengthBytes ← rwrap ("reading length of " +:+ noun) (ReadFull 2);
      itemBytes ← rwrap ("reading " +:+ noun +:+ " body") (ReadFull (Z.to_nat (be_val lengthBytes)));
      item ← (fun r => wrapf ("decoding " +:+ noun)
                         (x ← decodeOne itemBytes; mret (x.1, r)));
      decodeBatch_loop decodeOne count' (items ++ [item])
  end.
Definition decodeBatch (payload : bytes) (decodeOne : reader T) : res (list T) :=
  '(countBytes, r) ← wrapf "reading batch count" (ReadFull 4 payload);
  '(items, _) ← decodeBatch_loop decodeOne (Z.to_nat (be_val countBytes)) [] r;
  Ok items.
End Batch.

(** ** The round-trip interface *)
Definition writes (w : writer) (bs : bytes) : Prop := forall buf, w buf = Ok (buf ++ bs).
Definition reads {A} (r : reader A) (bs : bytes) (a : A) : Prop :=
  forall rest, r (bs ++ rest) = Ok (a, rest).

(** [enc]/[dec] encode the values satisfying [wf], each into at most [bound]
    bytes; every other value is refused by [enc]. *)
Class RoundTrip {A : Type} (enc : bytes -> A -> res bytes) (dec : reader A)
    (wf : A -> Prop) (bound : Z) := {
  rt_ok : forall a, wf a ->
    exists bs, writes (fun buf => enc buf a) bs /\ reads dec bs a /\ Zlen bs <= bound;
}.

(** ** Lemmas: readers and writers compose *)
Lemma reads_ret {A} (a : A) : reads (mret a) [] a.
Proof. done. Qed.
Lemma reads_bind {A B} (m : reader A) (f : A -> reader B) bs1 bs2 a b :
  reads m bs1 a -> reads (f a) bs2 b -> reads (m ≫= f) (bs1 ++ bs2) b.
Proof.
  intros H1 H2 rest. unfold mbind, reader_bind. rewrite <- app_assoc, H1. apply H2.
Qed.
Lemma reads_bind_r {A B} (m : reader A) (f : A -> reader B) bs a b :
  reads m bs a -> f a = mret b -> reads (m ≫= f) bs b.
Proof.
  intros H1 H2 rest. unfold mbind, reader_bind. rewrite H1, H2. done.
Qed.
Lemma reads_rwrap {A} ctx (m : reader A) bs a : reads m bs a -> reads (rwrap ctx m) bs a.
Proof. intros H rest. unfold rwrap. by rewrite H. Qed.
Lemma writes_bind (w1 : writer) (w2 : bytes -> res bytes) bs1 bs2 :
  writes w1 bs1 -> writes w2 bs2 -> writes (fun buf => w1 buf ≫= w2) (bs1 ++ bs2).
Proof. intros H1 H2 buf. simpl. rewrite H1. simpl. rewrite H2. by rewrite app_assoc. Qed.
Lemma writes_wrapf ctx (w : writer) bs : writes w bs -> writes (fun buf => wrapf ctx (w buf)) bs.
Proof. intros H buf. by rewrite H. Qed.

Lemma ReadFull_app n l r : length l = n -> ReadFull n (l ++ r) = Ok (l, r).
Proof.
  intros <-. unfold ReadFull. rewrite length_app, decide_True by lia.
  by rewrite take_app_length, drop_app_length.
Qed.
Lemma reads_ReadFull n l : length l = n -> reads (ReadFull n) l l.
Proof. intros H rest. by apply ReadFull_app. Qed.
Lemma ReadFull_short n r : (length r < n)%nat -> is_ok (ReadFull n r) = false.
Proof. intros H. unfold ReadFull. rewrite decide_False by lia. done. Qed.

Definition str_ok (s : string) : Prop := str_len s <= 255.
(** The bytes of a length-prefixed string. *)
Definition enc_str (s : string) : bytes := [Z_byte (str_len s)] ++ str_bytes s.

Lemma Z_byte_len s : str_ok s -> Z.to_nat (byte_Z (Z_byte (str_len s))) = length (str_bytes s).
Proof.
  intros H. unfold str_ok in H. rewrite byte_Z_byte, Z.mod_small.
  - unfold str_len, Zlen. lia.
  - pose proof (str_len_nonneg s). lia.
Qed.

Lemma writeString_ok buf s : str_ok s -> writeString buf s = Ok (buf ++ enc_str s).
Proof. intros H. unfold writeString. rewrite bool_decide_eq_false_2; [done|unfold str_ok in H; lia]. Qed.
Lemma readString_ok s rest : str_ok s -> readString (enc_str s ++ rest) = Ok (s, rest).
Proof.
  intros H. unfold readString, mbind, reader_bind, rwrap, enc_str. simpl.
  rewrite Z_byte_len, ReadFull_app by done. simpl. unfold mret, reader_ret. by rewrite str_bytes_str.
Qed.
Lemma Zlen_app {A} (l k : list A) : Zlen (l ++ k) = Zlen l + Zlen k.
Proof. unfold Zlen. rewrite length_app. lia. Qed.
Lemma Zlen_enc_str s : Zlen (enc_str s) = 1 + str_len s.
Proof. unfold enc_str. rewrite Zlen_app. unfold str_len, Zlen. simpl. lia. Qed.
#[global] Opaque enc_str.
Lemma writeString_err buf s : ~ str_ok s -> is_ok (writeString buf s) = false.
Proof. intros H. unfold writeString, str_ok in *. rewrite bool_decide_eq_true_2 by lia. done. Qed.

Lemma readFloat64_ok f rest : f64_wf f ->
  readFloat64 (be_bytes 8 (f64_bits f) ++ rest) = Ok (f, rest).
Proof.
  intros H. unfold readFloat64, mbind, reader_bind.
  rewrite ReadFull_app by apply length_be_bytes. unfold mret, reader_ret.
  rewrite be_val_bytes, Z.mod_small by exact H. by destruct f.
Qed.
Lemma readInt64_ok v rest : in_int64 v ->
  readInt64 (be_bytes 8 (uint64 v) ++ rest) = Ok (v, rest).
Proof.
  intros H. unfold readInt64, mbind, reader_bind.
  rewrite ReadFull_app by apply length_be_bytes. unfold mret, reader_ret.
  rewrite be_val_bytes. change (256 ^ Z.of_nat 8) with (2 ^ 64).
  replace (uint64 v mod 2 ^ 64) with (uint64 v) by (unfold uint64; by rewrite Z.mod_mod).
  by rewrite int64_uint64.
Qed.
Lemma readBool_ok (b : bool) rest :
  readBool ([if b then Byte.x01 else Byte.x00] ++ rest) = Ok (b, rest).
Proof. by destruct b. Qed.

(** [rt_write]: run an encoder on well-formed fields; [rt_read]: run a decoder
    on the bytes of well-formed fields. *)
Ltac rt_write :=
  intros buf; cbn;
  repeat (rewrite writeString_ok by done; cbn);
  unfold writeFloat64, writeInt64, writeBool; rewrite <- ?app_assoc; reflexivity.
Ltac rt_read :=
  intros rest; rewrite <- ?app_assoc;
  cbv [mbind reader_bind rwrap mret reader_ret];
  repeat (first [rewrite readString_ok by done | rewrite readFloat64_ok by done
               | rewrite readInt64_ok by done | rewrite readBool_ok]; cbn [wrapf]);
  reflexivity.
Ltac rt_bound :=
  rewrite ?Zlen_app, ?Zlen_enc_str, ?Zlen_be_bytes; unfold str_ok in *;
  repeat match goal with |- context [str_len ?s] =>
    lazymatch goal with H : 0 <= str_len s |- _ => fail | _ => pose proof (str_len_nonneg s) end end;
  unfold Zlen; simpl; lia.

(** ** The framing of a batch inherits the round trip of its elements *)
Section BatchRoundTrip.
Context {T : Type} (noun : string) (enc : bytes -> T -> res bytes) (dec : reader T) (wf : T -> Prop) (bound : Z).
Context `{RT : !RoundTrip enc dec wf bound} (Hbound : bound <= MaxUint16).

Lemma encodeBatch_loop_ok items batch : Forall wf items ->
  exists bs, encodeBatch_loop noun enc items batch = Ok (batch ++ bs) /\
    (forall acc, reads (decodeBatch_loop noun dec (length items) acc) bs (acc ++ items)) /\
    Zlen bs <= (bound + 2) * Zlen items.
Proof.
  intros Hwf. revert batch. induction Hwf as [|x items Hx _ IH]; intros batch.
  - exists []. simpl. rewrite app_nil_r. split; [done|]. split; [|unfold Zlen; cbn; lia]. intros acc. by rewrite app_nil_r.
  - destruct (rt_ok x Hx) as (bx & Hw & Hr & Hlen).
    destruct (IH (batch ++ be_bytes 2 (uint16 (Zlen bx)) ++ bx)) as (bs & He & Hd & Hsz).
    exists ((be_bytes 2 (uint16 (Zlen bx)) ++ bx) ++ bs). split_and!; [| |unfold Zlen in *; autorewrite with len; cbn [length]; lia].
    + simpl. rewrite (Hw []). simpl. rewrite bool_decide_eq_false_2 by lia.
      rewrite He. by rewrite !app_assoc.
    + intros acc. simpl. rewrite <- app_assoc.
      apply reads_bind with (be_bytes 2 (uint16 (Zlen bx))).
      { apply reads_rwrap, reads_ReadFull, length_be_bytes. }
      assert (be_val (be_bytes 2 (uint16 (Zlen bx))) = Zlen bx) as ->.
      { rewrite be_val_bytes. unfold uint16. change (256 ^ Z.of_nat 2) with (2 ^ 16).
        assert (0 <= Zlen bx <= 65535) by (unfold MaxUint16, Zlen in *; lia).
        rewrite Z.mod_mod by lia. apply Z.mod_small. lia. }
      apply reads_bind with bx.
      { apply reads_rwrap, reads_ReadFull. unfold Zlen. lia. }
      intros rest. unfold mbind at 1, reader_bind at 1.
      specialize (Hr []). rewrite app_nil_r in Hr. rewrite Hr. simpl.
      rewrite (Hd (acc ++ [x]) rest). by rewrite <- app_assoc.
Qed.

Lemma encodeBatch_codec items : Forall wf items -> in_uint 32 (Zlen items) ->
  exists bs, encodeBatch noun items enc = Ok bs /\ decodeBatch noun bs dec = Ok items /\
    Zlen bs <= 4 + (bound + 2) * Zlen items.
Proof.
  intros Hwf Hlen. unfold encodeBatch.
  destruct (encodeBatch_loop_ok items (be_bytes 4 (uint32 (Zlen items))) Hwf) as (bs & -> & Hd & Hsz).
  eexists; split; [done|]. split; [|unfold Zlen in *; autorewrite with len; lia]. unfold decodeBatch.
  rewrite ReadFull_app by apply length_be_bytes. simpl.
  assert (Z.to_nat (be_val (be_bytes 4 (uint32 (Zlen items)))) = length items) as ->.
  { rewrite be_val_bytes, uint32_small by done. rewrite Z.mod_small by done.
    unfold Zlen. lia. }
  specialize (Hd [] []). rewrite app_nil_r in Hd. rewrite Hd. done.
Qed.
Lemma encodeBatch_decodeBatch items : Forall wf items -> in_uint 32 (Zlen items) ->
  exists bs, encodeBatch noun items enc = Ok bs /\ decodeBatch noun bs dec = Ok items.
Proof. intros Hwf Hn. destruct (encodeBatch_codec items Hwf Hn) as (bs & ? & ? & _). by exists bs. Qed.
End BatchRoundTrip.
