(* ===== verification/Codec.v ===== *)
(** * Records and envelopes on the wire ([src/common/protocol/codec/codec.go])

    The external and internal envelopes, account and transaction batches and
    the per-query result records.  [uuid.FromBytes] belongs to
    github.com/google/uuid and is a field of [UuidLib]. *)

From S2P Require Import Prelude Models Wire.

(** What the code relies on of github.com/google/uuid: [FromBytes] accepts a
    16-byte slice, [Parse] undoes [String], whose text is a legal checkpoint
    key and file-name stem. *)
Class UuidLib := {
  uuid_FromBytes : bytes -> option id16;
  uuid_String : id16 -> string;
  uuid_Parse : string -> option id16;
  uuid_FromBytes_16 : forall l, length l = 16%nat -> uuid_FromBytes l = Some (copy16 l);
  uuid_Parse_String : forall u, uuid_Parse (uuid_String u) = Some u;
  uuid_String_chars : forall u, Forall (fun b => b <> Byte.x2f /\ b <> Byte.x5c /\ b <> Byte.x2e)
    (str_bytes (uuid_String u));
  uuid_String_nonempty : forall u, uuid_String u <> EmptyString
}.

(** ** Layout of the headers *)
Definition MsgTypeHeaderBytes : nat := 1.
Definition ClientIDHeaderBytes : nat := 16.
Definition MsgIDHeaderBytes : nat := 16.
Definition PayloadSizeHeaderBytes : nat := 4.
Definition ExternalHeaderSize : nat := 5.
Definition clientIDOffset : nat := 1.
Definition msgIDOffset : nat := 17.
Definition payloadLenOffset : nat := 33.
Definition oldPayloadLenOffset : nat := 17.
Definition InternalHeaderSize : nat := 37.
Definition oldInternalHeaderSize : nat := 21.

(** [l[lo:hi]]. *)
Definition slice (l : bytes) (lo hi : nat) : bytes := take (hi - lo) (drop lo l).
(** [l[lo:hi]] with the bounds check of the run time. *)
Definition slice_chk (l : bytes) (lo hi : Z) : res bytes :=
  if bool_decide (lo <= hi <= Zlen l) then Ok (slice l (Z.to_nat lo) (Z.to_nat hi))
  else Panic "slice bounds out of range".

Definition DecodeExternalHeader (header : bytes) : res (byte * Z) :=
  if bool_decide (length header < 5)%nat then Panic "index out of range"
  else Ok (nth 0 header Byte.x00, be_val (slice header 1 5)).

Definition EncodeExternalEnvelope (envelope : ExternalEnvelope) : bytes :=
  [ee_MsgType envelope] ++ be_bytes 4 (uint32 (Zlen (ee_Payload envelope))) ++ ee_Payload envelope.

Definition EncodeInternalEnvelope (envelope : InternalEnvelope) : bytes :=
  [MsgType_ envelope] ++ id16_bytes (ClientId envelope) ++ id16_bytes (MsgID envelope)
    ++ be_bytes 4 (uint32 (Zlen (Payload envelope))) ++ Payload envelope.

(** [copy(envelope[17:33], id[:])]; a buffer too short for a header is left alone. *)
Definition SetEnvelopeMsgID (envelope : bytes) (id : id16) : bytes :=
  if bool_decide (length envelope < InternalHeaderSize)%nat then envelope
  else take msgIDOffset envelope ++ id16_bytes id ++ drop payloadLenOffset envelope.

Section Envelope.
Context `{!UuidLib}.

(** [header] is the 37-byte prefix the caller slices off. *)
Definition DecodeInternalHeader (header : bytes) : byte * id16 * id16 * Z :=
  let msgType := nth 0 header Byte.x00 in
  match uuid_FromBytes (slice header clientIDOffset msgIDOffset) with
  | None => (msgType, zero16, zero16, 0)
  | Some clientId =>
      (msgType, clientId, copy16 (slice header msgIDOffset payloadLenOffset),
       be_val (slice header payloadLenOffset InternalHeaderSize))
  end.

(** The second half of [DecodeInternalEnvelope]: the layout without a MsgID. *)
Definition decode_old_envelope (message : bytes) : res InternalEnvelope :=
  let short := Err (ErrMsg "internal envelope too short") in
  if bool_decide (oldInternalHeaderSize <= length message)%nat then
    match uuid_FromBytes (slice message clientIDOffset oldPayloadLenOffset) with
    | None => short
    | Some clientId =>
        let payloadLen := be_val (slice message oldPayloadLenOffset oldInternalHeaderSize) in
        if payloadLen <=? uint32 (Zlen message - 21) then
          payload ← slice_chk message 21 (uint32 (21 + payloadLen));
          Ok (mkInternalEnvelope (nth 0 message Byte.x00) clientId zero16 payload)
        else short
    end
  else short.

Definition DecodeInternalEnvelope (message : bytes) : res InternalEnvelope :=
  if bool_decide (InternalHeaderSize <= length message)%nat then
    let '(msgType, clientId, msgID, payloadLen) :=
      DecodeInternalHeader (take InternalHeaderSize message) in
    if payloadLen <=? uint32 (Zlen message - 37) then
      payload ← slice_chk message 37 (uint32 (37 + payloadLen));
      Ok (mkInternalEnvelope msgType clientId msgID payload)
    else decode_old_envelope message
  else decode_old_envelope message.
End Envelope.

(** ** Accounts *)
Definition encodeAccountData (buf : bytes) (a : AccountData) : res bytes :=
  buf ← writeString buf (ad_BankName a);
  buf ← writeString buf (ad_BankID a);
  buf ← writeString buf (ad_AccountNumber a);
  buf ← writeString buf (ad_EntityID a);
  writeString buf (ad_EntityName a).
Definition decodeAccountData : reader AccountData :=
  a ← rwrap "bank name" readString;
  b ← rwrap "bank id" readString;
  c ← rwrap "account number" readString;
  d ← rwrap "entity id" readString;
  e ← rwrap "entity name" readString;
  mret (mkAccountData a b c d e).

Definition EncodeAccountBatch (accounts : list AccountData) : res bytes :=
  encodeBatch "account" accounts encodeAccountData.
Definition DecodeAccountBatch (payload : bytes) : res (list AccountData) :=
  decodeBatch "account" payload decodeAccountData.

Definition encodeTransactionAccount (buf : bytes) (bank number : string) : res bytes :=
  buf ← writeString buf bank; writeString buf number.
Definition decodeTransactionAccount : reader (string * string) :=
  bank ← readString; number ← readString; mret (bank, number).

Definition encodeMoney (buf : bytes) (amount : float64) (currency : string) : res bytes :=
  writeString (writeFloat64 buf amount) currency.
Definition decodeMoney : reader (float64 * string) :=
  amount ← readFloat64; currency ← readString; mret (amount, currency).

(** ** Transactions *)
Definition encodeTransaction (buf : bytes) (t : Transaction) : res bytes :=
  buf ← writeString buf (Timestamp t);
  buf ← encodeTransactionAccount buf (FromBank t) (FromAccount t);
  buf ← encodeTransactionAccount buf (ToBank t) (ToAccount t);
  buf ← encodeMoney buf (AmountReceived t) (ReceivingCurrency t);
  buf ← encodeMoney buf (AmountPaid t) (PaymentCurrency t);
  buf ← writeString buf (PaymentFormat t);
  Ok (writeBool buf (IsLaundering t)).
Definition decodeTransaction : reader Transaction :=
  ts ← readString;
  '(fb, fa) ← decodeTransactionAccount;
  '(tb, ta) ← decodeTransactionAccount;
  '(ar, rc) ← decodeMoney;
  '(ap, pc) ← decodeMoney;
  pf ← readString;
  il ← readBool;
  mret (mkTransaction ts fb fa tb ta ar rc ap pc pf il).

Definition EncodeTransactionBatch (transactions : list Transaction) : res bytes :=
  encodeBatch "tx" transactions encodeTransaction.
Definition DecodeTransactionBatch (payload : bytes) : res (list Transaction) :=
  decodeBatch "tx" payload decodeTransaction.

(** ** Query results *)
Definition encodeQuery1Result (buf : bytes) (r : Query1Result) : res bytes :=
  buf ← encodeTransactionAccount buf (q1_FromBank r) (q1_FromAccount r);
  buf ← encodeTransactionAccount buf (q1_ToBank r) (q1_ToAccount r);
  Ok (writeFloat64 buf (q1_AmountPaid r)).
Definition decodeQuery1Result : reader Query1Result :=
  '(fb, fa) ← rwrap "from account" decodeTransactionAccount;
  '(tb, ta) ← rwrap "to account" decodeTransactionAccount;
  a ← rwrap "amount paid" readFloat64;
  mret (mkQuery1Result fb fa tb ta a).
Definition EncodeQuery1ResultBatch (results : list Query1Result) : res bytes :=
  encodeBatch "result" results encodeQuery1Result.
Definition DecodeQuery1ResultBatch (payload : bytes) : res (list Query1Result) :=
  decodeBatch "result" payload decodeQuery1Result.

(** The error of [writeString(buf, r.BankName)] is dropped by the code: a bank
    name over 255 bytes leaves the buffer as it was. *)
Definition encodeQuery2Result (buf : bytes) (r : Query2Result) : res bytes :=
  buf ← encodeTransactionAccount buf (q2_FromBank r) (q2_FromAccount r);
  let buf := match writeString buf (q2_BankName r) with Ok b => b | _ => buf end in
  Ok (writeFloat64 buf (q2_AmountPaid r)).
Definition decodeQuery2Result : reader Query2Result :=
  '(fb, fa) ← rwrap "from account" decodeTransactionAccount;
  n ← rwrap "bank name" readString;
  a ← rwrap "amount paid" readFloat64;
  mret (mkQuery2Result fb fa n a).
Definition EncodeQuery2ResultBatch (results : list Query2Result) : res bytes :=
  encodeBatch "result" results encodeQuery2Result.
Definition DecodeQuery2ResultBatch (payload : bytes) : res (list Query2Result) :=
  decodeBatch "result" payload decodeQuery2Result.

Definition encodeQuery3Result (buf : bytes) (r : Query3Result) : res bytes :=
  buf ← encodeTransactionAccount buf (q3_FromBank r) (q3_FromAccount r);
  buf ← writeString buf (q3_PaymentFormat r);
  Ok (writeFloat64 buf (q3_AmountPaid r)).
Definition decodeQuery3Result : reader Query3Result :=
  '(fb, fa) ← rwrap "from account" decodeTransactionAccount;
  f ← rwrap "payment format" readString;
  a ← rwrap "amount paid" readFloat64;
  mret (mkQuery3Result fb fa f a).
Definition EncodeQuery3ResultBatch (results : list Query3Result) : res bytes :=
  encodeBatch "result" results encodeQuery3Result.
Definition DecodeQuery3ResultBatch (payload : bytes) : res (list Query3Result) :=
  decodeBatch "result" payload decodeQuery3Result.

Definition encodeQuery4Result (buf : bytes) (r : Account) : res bytes :=
  buf ← writeString buf (BankID r); writeString buf (ID r).
Definition decodeQuery4Result : reader Query4Result :=
  b ← rwrap "bank id" readString;
  i ← rwrap "id" readString;
  mret (mkQuery4Result b i).
Definition EncodeQuery4ResultEnvelope `{!GoRange} (clientId : id16) (results : gset Account)
    : res bytes :=
  batch ← encodeBatch "result" (range (elements results)) encodeQuery4Result;
  Ok (EncodeInternalEnvelope (mkInternalEnvelope MsgQuery4Result clientId zero16 batch)).
Definition DecodeQuery4ResultPayload (payload : bytes) : res (list Query4Result) :=
  decodeBatch "result" payload decodeQuery4Result.

Definition encodeQuery5Result (buf : bytes) (r : Query5Result) : res bytes :=
  Ok (writeInt64 buf (q5_Count r)).
Definition decodeQuery5Result : reader Query5Result :=
  count ← rwrap "count" readInt64; mret (mkQuery5Result count).
Definition EncodeQuery5Result (result : Query5Result) : res bytes :=
  encodeBatch "result" [result] encodeQuery5Result.
(** [return result[0], err]: the index is evaluated whatever [err] is. *)
Definition DecodeQuery5Result (payload : bytes) : res Query5Result :=
  match decodeBatch "result" payload decodeQuery5Result with
  | Ok (x :: _) => Ok x
  | Panic s => Panic s
  | _ => Panic "index out of range"
  end.

(** ** Well-formed records: every string fits its one-byte length *)
Definition acct_ok (a : AccountData) : Prop :=
  str_ok (ad_BankName a) /\ str_ok (ad_BankID a) /\ str_ok (ad_AccountNumber a) /\
  str_ok (ad_EntityID a) /\ str_ok (ad_EntityName a).
Definition tx_strings (t : Transaction) : list string :=
  [Timestamp t; FromBank t; FromAccount t; ToBank t; ToAccount t; ReceivingCurrency t;
   PaymentCurrency t; PaymentFormat t].
Definition tx_ok (t : Transaction) : Prop :=
  Forall str_ok (tx_strings t) /\ f64_wf (AmountReceived t) /\ f64_wf (AmountPaid t).
Definition q1_ok (r : Query1Result) : Prop :=
  str_ok (q1_FromBank r) /\ str_ok (q1_FromAccount r) /\ str_ok (q1_ToBank r) /\
  str_ok (q1_ToAccount r) /\ f64_wf (q1_AmountPaid r).
Definition q2_ok (r : Query2Result) : Prop :=
  str_ok (q2_FromBank r) /\ str_ok (q2_FromAccount r) /\ str_ok (q2_BankName r) /\
  f64_wf (q2_AmountPaid r).
Definition q3_ok (r : Query3Result) : Prop :=
  str_ok (q3_FromBank r) /\ str_ok (q3_FromAccount r) /\ str_ok (q3_PaymentFormat r) /\
  f64_wf (q3_AmountPaid r).

(** A record codec proof: name the fields, run the encoder, run the decoder,
    bound the size. *)
Ltac rt_record :=
  eexists; split_and!; [rt_write | rt_read | rt_bound].

#[export] Instance account_rt : RoundTrip encodeAccountData decodeAccountData acct_ok 1280.
Proof.
  constructor. intros [] (?&?&?&?&?); simpl in *.
  unfold encodeAccountData, decodeAccountData; simpl. rt_record.
Qed.
#[export] Instance transaction_rt : RoundTrip encodeTransaction decodeTransaction tx_ok 2065.
Proof.
  constructor. intros [] (Hs & ? & ?). unfold tx_strings in Hs. simpl in *.
  rewrite !Forall_cons in Hs. destruct Hs as (?&?&?&?&?&?&?&?&_).
  unfold encodeTransaction, decodeTransaction, encodeTransactionAccount,
    decodeTransactionAccount, encodeMoney, decodeMoney; simpl. rt_record.
Qed.
#[export] Instance query1_rt : RoundTrip encodeQuery1Result decodeQuery1Result q1_ok 1032.
Proof.
  constructor. intros [] (?&?&?&?&?); simpl in *.
  unfold encodeQuery1Result, decodeQuery1Result, encodeTransactionAccount,
    decodeTransactionAccount; simpl. rt_record.
Qed.
#[export] Instance query2_rt : RoundTrip encodeQuery2Result decodeQuery2Result q2_ok 776.
Proof.
  constructor. intros [] (?&?&?&?); simpl in *.
  unfold encodeQuery2Result, decodeQuery2Result, encodeTransactionAccount,
    decodeTransactionAccount; simpl. rt_record.
Qed.
#[export] Instance query3_rt : RoundTrip encodeQuery3Result decodeQuery3Result q3_ok 776.
Proof.
  constructor. intros [] (?&?&?&?); simpl in *.
  unfold encodeQuery3Result, decodeQuery3Result, encodeTransactionAccount,
    decodeTransactionAccount; simpl. rt_record.
Qed.
#[export] Instance query5_rt :
  RoundTrip encodeQuery5Result decodeQuery5Result (fun r => in_int64 (q5_Count r)) 8.
Proof.
  constructor. intros [] ?; simpl in *.
  unfold encodeQuery5Result, decodeQuery5Result; simpl. rt_record.
Qed.

(** ** Transaction batches *)
Lemma tx_batch_codec (txs : list Transaction) : Forall tx_ok txs -> in_uint 32 (Zlen txs) ->
  exists bs, EncodeTransactionBatch txs = Ok bs /\ DecodeTransactionBatch bs = Ok txs.
Proof. intros. by apply (encodeBatch_decodeBatch "tx" _ _ tx_ok 2065). Qed.

(** A batch of a few million records is a message whose length fits its header. *)
Definition maxBatch : nat := Z.to_nat (2 ^ 20).
Lemma tx_batch_sized (txs : list Transaction) : Forall tx_ok txs -> (length txs <= maxBatch)%nat ->
  exists bs, EncodeTransactionBatch txs = Ok bs /\ DecodeTransactionBatch bs = Ok txs /\ Zlen bs < 2 ^ 32.
Proof.
  unfold maxBatch. intros Hwf Hn.
  destruct (encodeBatch_codec "tx" encodeTransaction decodeTransaction tx_ok 2065 ltac:(done) txs Hwf) as (bs & H1 & H2 & H3);
    [unfold in_uint, Zlen; lia|]. exists bs. split; [done|]. split; [done|]. unfold Zlen in *. lia.
Qed.
Lemma acct_batch_sized (accounts : list AccountData) : Forall acct_ok accounts -> (length accounts <= maxBatch)%nat ->
  exists bs, EncodeAccountBatch accounts = Ok bs /\ DecodeAccountBatch bs = Ok accounts /\ Zlen bs < 2 ^ 32.
Proof.
  unfold maxBatch. intros Hwf Hn.
  destruct (encodeBatch_codec "account" encodeAccountData decodeAccountData acct_ok 1280 ltac:(done) accounts Hwf) as (bs & H1 & H2 & H3);
    [unfold in_uint, Zlen; lia|]. exists bs. split; [done|]. split; [done|]. unfold Zlen in *. lia.
Qed.

(** C18. Decoding an encoded transaction batch gives the batch back: any list of
    fewer than 2^32 transactions whose strings fit 255 bytes. *)
Theorem transaction_batch_roundtrip (txs : list Transaction) :
  Forall tx_ok txs -> in_uint 32 (Zlen txs) ->
  exists bs, EncodeTransactionBatch txs = Ok bs /\ DecodeTransactionBatch bs = Ok txs.
Proof. apply tx_batch_codec. Qed.

Lemma encodeString_fails s rest (buf : bytes) :
  (str_len s <=? 255) && is_ok (rest : res bytes) = is_ok (b ← writeString buf s; rest).
Proof.
  unfold writeString.
  destruct (Z.leb_spec (str_len s) 255); [rewrite bool_decide_eq_false_2 by lia|
    rewrite bool_decide_eq_true_2 by lia]; done.
Qed.

Definition str_okb (s : string) : bool := str_len s <=? 255.

Lemma writeString_is_ok buf s : is_ok (writeString buf s) = str_okb s.
Proof.
  unfold writeString, str_okb.
  destruct (Z.leb_spec (str_len s) 255); [rewrite bool_decide_eq_false_2 by lia|
    rewrite bool_decide_eq_true_2 by lia]; done.
Qed.

(** [is_ok] of a sequence of writes, one string at a time. *)
Ltac split_write :=
  match goal with |- context [writeString ?b ?s] =>
    pose proof (writeString_is_ok b s); destruct (writeString b s) as [?|?|?]; simpl in * end.

Lemma encodeTransaction_is_ok buf t :
  is_ok (encodeTransaction buf t) = forallb str_okb (tx_strings t).
Proof.
  unfold encodeTransaction, encodeTransactionAccount, encodeMoney, tx_strings. simpl.
  repeat split_write; repeat match goal with H : _ = str_okb _ |- _ => rewrite <- H; clear H end;
    rewrite ?andb_false_r; done.
Qed.

Lemma encodeTransaction_size t itemBuf :
  encodeTransaction [] t = Ok itemBuf -> Zlen itemBuf <= 2065.
Proof.
  intros He. pose proof (encodeTransaction_is_ok [] t) as Hs. rewrite He in Hs. simpl in Hs.
  symmetry in Hs. unfold str_okb in Hs. rewrite !andb_true_iff, !Z.leb_le in Hs.
  destruct Hs as (?&?&?&?&?&?&?&?&_).
  unfold encodeTransaction, encodeTransactionAccount, encodeMoney in He.
  repeat (rewrite writeString_ok in He by done; simpl in He). simplify_eq.
  unfold writeBool, writeFloat64. rt_bound.
Qed.

Lemma encodeTransactionBatch_loop_ok txs batch :
  is_ok (encodeBatch_loop "tx" encodeTransaction txs batch)
    = forallb (fun t => forallb str_okb (tx_strings t)) txs.
Proof.
  revert batch. induction txs as [|t txs IH]; intros batch; [done|].
  cbn [encodeBatch_loop forallb]. rewrite <- (encodeTransaction_is_ok [] t).
  destruct (encodeTransaction [] t) as [b| |] eqn:E; simpl; [|done..].
  apply encodeTransaction_size in E. rewrite bool_decide_eq_false_2 by (unfold MaxUint16; lia).
  apply IH.
Qed.

(** Encoding a transaction batch fails exactly when some field is longer
    than 255 bytes: a transaction takes at most 2065 bytes, so the "too large"
    branch of the framing is never taken. *)
Theorem transaction_batch_error (txs : list Transaction) :
  is_ok (EncodeTransactionBatch txs) = forallb (fun t => forallb str_okb (tx_strings t)) txs.
Proof. apply encodeTransactionBatch_loop_ok. Qed.

(** ** Envelopes *)
(** A concrete instance, for the witnesses: two letters per byte. *)
Definition letter_enc (b : byte) : bytes :=
  [Z_byte (97 + byte_Z b / 16); Z_byte (97 + byte_Z b mod 16)].
Fixpoint letter_dec (l : bytes) : bytes :=
  match l with
  | h :: w :: l' => Z_byte (16 * (byte_Z h - 97) + (byte_Z w - 97)) :: letter_dec l'
  | _ => []
  end.
Lemma letter_dec_enc l : letter_dec (flat_map letter_enc l) = l.
Proof. induction l as [|b l IH]; [done|]. simpl. rewrite IH. f_equal. by destruct b. Qed.
Lemma letter_enc_chars l :
  Forall (fun b => b <> Byte.x2f /\ b <> Byte.x5c /\ b <> Byte.x2e) (flat_map letter_enc l).
Proof.
  induction l as [|b l IH]; [constructor|]. simpl.
  constructor; [|constructor; [|done]]; destruct b; vm_compute; split_and!; congruence.
Qed.
Lemma letter_nonempty u : bytes_str (flat_map letter_enc (id16_bytes u)) <> EmptyString.
Proof.
  intros H. apply (f_equal str_bytes) in H. rewrite bytes_str_bytes in H.
  pose proof (length_id16 u). destruct (id16_bytes u); [done|]. done.
Qed.
Lemma FromBytes_letters l : length l = 16%nat ->
  (if decide (length l = 16%nat) then Some (copy16 l) else None) = Some (copy16 l).
Proof. intros. by rewrite decide_True. Qed.
Lemma parse_letters u :
  Some (copy16 (letter_dec (str_bytes (bytes_str (flat_map letter_enc (id16_bytes u)))))) = Some u.
Proof. by rewrite bytes_str_bytes, letter_dec_enc, copy16_bytes. Qed.
Definition uuid_letters : UuidLib := {|
  uuid_FromBytes := fun l => if decide (length l = 16%nat) then Some (copy16 l) else None;
  uuid_String := fun u => bytes_str (flat_map letter_enc (id16_bytes u));
  uuid_Parse := fun s => Some (copy16 (letter_dec (str_bytes s)));
  uuid_FromBytes_16 := FromBytes_letters;
  uuid_Parse_String := parse_letters;
  uuid_String_chars := fun u => eq_ind_r (Forall _) (letter_enc_chars _) (bytes_str_bytes _);
  uuid_String_nonempty := letter_nonempty
|}.

Section EnvelopeTheorems.
Context `{!UuidLib}.

Lemma envelope_length e : length (EncodeInternalEnvelope e) = (37 + length (Payload e))%nat.
Proof. unfold EncodeInternalEnvelope. autorewrite with len. simpl. lia. Qed.

Lemma take_drop_mid (a b c : bytes) n m :
  length a = n -> length b = m -> take m (drop n (a ++ b ++ c)) = b.
Proof. intros <- <-. by rewrite drop_app_length, take_app_length. Qed.

Lemma DecodeInternalHeader_encode m (c i : id16) n :
  in_uint 32 n ->
  DecodeInternalHeader ([m] ++ id16_bytes c ++ id16_bytes i ++ be_bytes 4 n) = (m, c, i, n).
Proof.
  intros Hn. unfold DecodeInternalHeader, slice.
  rewrite (take_drop_mid [m] (id16_bytes c)) by (autorewrite with len; done).
  rewrite uuid_FromBytes_16, copy16_bytes by apply length_id16.
  rewrite (app_assoc [m]), (take_drop_mid ([m] ++ id16_bytes c) (id16_bytes i))
    by (autorewrite with len; done).
  rewrite copy16_bytes, (app_assoc _ (id16_bytes i)).
  rewrite <- (app_nil_r (be_bytes 4 n)) at 1.
  rewrite (take_drop_mid _ (be_bytes 4 n) []) by (autorewrite with len; done).
  rewrite be_val_bytes, Z.mod_small by done. done.
Qed.

Lemma decode_internal (e : InternalEnvelope) :
  Zlen (Payload e) < 2 ^ 32 - 37 ->
  DecodeInternalEnvelope (EncodeInternalEnvelope e) = Ok e.
Proof.
  intros Hlen. assert (0 <= Zlen (Payload e)) by (unfold Zlen; lia).
  unfold DecodeInternalEnvelope. rewrite envelope_length, bool_decide_eq_true_2 by (unfold InternalHeaderSize; lia).
  assert (Zlen (EncodeInternalEnvelope e) = 37 + Zlen (Payload e)) as HL.
  { unfold Zlen. rewrite envelope_length. lia. }
  rewrite HL, uint32_small by (unfold in_uint; lia).
  destruct e as [m c i p]. unfold EncodeInternalEnvelope in *; simpl MsgType_ in *;
    simpl ClientId in *; simpl MsgID in *; simpl Payload in *.
  rewrite uint32_small in * by (unfold in_uint; lia).
  rewrite !app_assoc in *. rewrite take_app_le by (autorewrite with len; done).
  rewrite take_ge by (autorewrite with len; done). rewrite <- !app_assoc.
  rewrite DecodeInternalHeader_encode by (unfold in_uint; lia).
  replace (Zlen p <=? 37 + Zlen p - 37) with true by (symmetry; apply Z.leb_le; lia).
  unfold slice_chk. rewrite uint32_small by (unfold in_uint; lia).
  rewrite !app_assoc, HL, bool_decide_eq_true_2 by lia.
  cbn [mbind res_bind]. do 2 f_equal.
  unfold slice. rewrite drop_app_ge by (autorewrite with len; simpl; lia).
  autorewrite with len. simpl. rewrite take_ge; [done|].
  unfold Zlen. rewrite length_drop. lia.
Qed.
(** An internal envelope survives the wire: whatever the message type, the
    client, the message id and the payload (below 2^32-37 bytes, the largest
    whose length and end offset fit a [uint32]). *)
Theorem internal_envelope_roundtrip (e : InternalEnvelope) :
  Zlen (Payload e) < 2 ^ 32 - 37 ->
  DecodeInternalEnvelope (EncodeInternalEnvelope e) = Ok e.
Proof. apply decode_internal. Qed.

(** [SetEnvelopeMsgID] stamps an already framed envelope: the receiver
    decodes the same envelope with the new identifier, every other field kept;
    it leaves a buffer shorter than a header untouched. *)
Theorem set_envelope_msgid (e : InternalEnvelope) (id : id16) (short : bytes) :
  Zlen (Payload e) < 2 ^ 32 - 37 -> Zlen short < 37 ->
  DecodeInternalEnvelope (SetEnvelopeMsgID (EncodeInternalEnvelope e) id)
    = Ok (mkInternalEnvelope (MsgType_ e) (ClientId e) id (Payload e)) /\
  SetEnvelopeMsgID short id = short.
Proof.
  intros Hlen Hs. split.
  - rewrite <- decode_internal by done. f_equal.
    unfold SetEnvelopeMsgID. rewrite envelope_length, bool_decide_eq_false_2
      by (unfold InternalHeaderSize; lia).
    destruct e as [m c i p]. unfold EncodeInternalEnvelope; simpl MsgType_;
      simpl ClientId; simpl MsgID; simpl Payload.
    rewrite (app_assoc [m]), take_app_le by (autorewrite with len; done).
    rewrite take_ge by (autorewrite with len; done).
    rewrite drop_app_ge by (autorewrite with len; unfold payloadLenOffset; simpl; lia).
    rewrite drop_app_ge by (autorewrite with len; unfold payloadLenOffset; simpl; lia).
    autorewrite with len. simpl. by rewrite drop_0.
  - unfold SetEnvelopeMsgID. rewrite bool_decide_eq_true_2; [done|].
    unfold Zlen, InternalHeaderSize in *. lia.
Qed.
End EnvelopeTheorems.

(** [DecodeQuery5Result] decodes what [EncodeQuery5Result] wrote, but it
    indexes the decoded slice before looking at the error: every strict prefix
    of an encoded result panics instead of returning the error its caller
    handles. *)
Theorem query5_roundtrip_truncated_panics (r : Query5Result) (n : nat) :
  in_int64 (q5_Count r) -> (n < 14)%nat ->
  exists bs, EncodeQuery5Result r = Ok bs /\ length bs = 14%nat /\
    DecodeQuery5Result bs = Ok r /\
    DecodeQuery5Result (take n bs) = Panic "index out of range".
Proof.
  intros Hr Hn. pose proof Hr as Hr'.
  set (bs := be_bytes 4 1 ++ be_bytes 2 8 ++ be_bytes 8 (uint64 (q5_Count r))).
  exists bs. assert (EncodeQuery5Result r = Ok bs) as He.
  { unfold EncodeQuery5Result, encodeBatch, encodeQuery5Result, writeInt64. simpl.
    rewrite Zlen_be_bytes. done. }
  split_and!; [done|by unfold bs; autorewrite with len|..].
  - destruct (encodeBatch_decodeBatch "result" encodeQuery5Result decodeQuery5Result _ 8
      ltac:(done) [r]) as (bs' & He' & Hd); [by constructor|vm_compute; split; congruence|].
    unfold EncodeQuery5Result in He. assert (bs' = bs) as -> by congruence.
    unfold DecodeQuery5Result. by rewrite Hd.
  - unfold DecodeQuery5Result, decodeBatch.
    destruct (decide (n < 4)%nat).
    { unfold ReadFull. rewrite decide_False; [done|]. rewrite length_take. lia. }
    unfold bs. rewrite take_app_ge by (autorewrite with len; lia). autorewrite with len.
    rewrite ReadFull_app by apply length_be_bytes. simpl.
    replace (Z.to_nat (be_val (be_bytes 4 1))) with 1%nat by (by vm_compute). simpl.
    unfold mbind, reader_bind, rwrap.
    destruct (decide (n < 6)%nat).
    { unfold ReadFull at 1. rewrite decide_False; [done|]. rewrite length_take. lia. }
    rewrite take_app_ge by (autorewrite with len; lia). autorewrite with len.
    rewrite ReadFull_app by apply length_be_bytes. simpl.
    unfold ReadFull. rewrite decide_False; [done|].
    replace (Z.to_nat (be_val (be_bytes 2 8))) with 8%nat by (by vm_compute).
    rewrite length_take. lia.
Qed.

Definition sample_tx : Transaction := mkTransaction "2022/09/01 00:20" "10" "8000EBD30" "20"
  "8000EBD31" (F64 0x4028000000000000) "US Dollar" (F64 0x4028000000000000) "US Dollar" "Cheque" false.
Lemma sample_tx_ok : tx_ok sample_tx.
Proof. split; [repeat constructor; vm_compute; congruence|split; split; vm_compute; congruence]. Qed.

Lemma transaction_batch_roundtrip_witness :
  exists bs, EncodeTransactionBatch [sample_tx; sample_tx] = Ok bs /\
             DecodeTransactionBatch bs = Ok [sample_tx; sample_tx].
Proof.
  apply (transaction_batch_roundtrip [sample_tx; sample_tx]).
  - repeat constructor; vm_compute; congruence.
  - vm_compute. split; congruence.
Defined.
Lemma internal_envelope_roundtrip_witness :
  let e := mkInternalEnvelope MsgTxQ4 zero16 (copy16 [Byte.x01]) [Byte.x07] in
  @DecodeInternalEnvelope uuid_letters (EncodeInternalEnvelope e) = Ok e.
Proof. apply (@internal_envelope_roundtrip uuid_letters). vm_compute. reflexivity. Defined.
Lemma set_envelope_msgid_witness :
  let e := mkInternalEnvelope MsgTxQ4 zero16 zero16 [Byte.x07] in
  @DecodeInternalEnvelope uuid_letters (SetEnvelopeMsgID (EncodeInternalEnvelope e) (copy16 [Byte.x01]))
    = Ok (mkInternalEnvelope MsgTxQ4 zero16 (copy16 [Byte.x01]) [Byte.x07]).
Proof.
  apply (@set_envelope_msgid uuid_letters (mkInternalEnvelope MsgTxQ4 zero16 zero16 [Byte.x07])
           (copy16 [Byte.x01]) []); vm_compute; reflexivity.
Defined.
Lemma query5_roundtrip_truncated_panics_witness :
  DecodeQuery5Result (take 9 (be_bytes 4 1 ++ be_bytes 2 8 ++ be_bytes 8 77))
    = Panic "index out of range".
Proof.
  destruct (query5_roundtrip_truncated_panics (mkQuery5Result 77) 9) as (bs & He & _ & _ & Hp).
  - vm_compute. split; congruence.
  - lia.
  - vm_compute in He. injection He as <-. exact Hp.
Defined.
