(* ===== verification/CodecQ4.v ===== *)
(** * EOF counts and the query-4 messages ([src/common/protocol/codec/codec.go])

    Maps are written in sorted key order ([sort.Strings]); the loops of the
    decoders follow the declared count, or run until the reader is empty
    ([DecodeAccountsEnvelope], with the length of the payload as fuel: every
    iteration that does not fail consumes at least two bytes). *)

From S2P Require Import Prelude Models Wire Codec.

(** [sort.Strings] *)
Definition sort_Strings (l : list string) : list string := merge_sort String.le l.

(** The keys of a map, in iteration order. *)
Definition map_keys `{!GoRange} {K V} `{Countable K} (m : gmap K V) : list K :=
  (range (map_to_list m)).*1.

(** ** EOF counts *)
Definition writeCount (counts : gmap string Z) (buf : bytes) (key : string) : res bytes :=
  buf ← wrapf "encoding eof count key" (writeString buf key);
  Ok (writeInt64 buf (default 0 (counts !! key))).

(** [for _, x := range l { buf = f(buf, x) }] *)
Fixpoint write_all {A} (f : bytes -> A -> res bytes) (l : list A) (buf : bytes) : res bytes :=
  match l with
  | [] => Ok buf
  | x :: l' => buf ← f buf x; write_all f l' buf
  end.

Definition EncodeEOFCounts `{!GoRange} (counts : gmap string Z) : res bytes :=
  let keys := sort_Strings (map_keys counts) in
  write_all (writeCount counts) keys (be_bytes 4 (uint32 (Z.of_nat (size counts)))).

Definition EncodeEOFCountsEnvelope `{!GoRange} (clientId : id16) (counts : gmap string Z) : res bytes :=
  payload ← wrapf "encoding EOF counts" (EncodeEOFCounts counts);
  Ok (EncodeInternalEnvelope (mkInternalEnvelope MsgTransactionsEOF clientId zero16 payload)).

Fixpoint DecodeEOFCounts_loop (n : nat) (counts : gmap string Z) : reader (gmap string Z) :=
  match n with
  | O => mret counts
  | S n' =>
      key ← rwrap "reading eof count key" readString;
      value ← rwrap "reading eof count value" readInt64;
      DecodeEOFCounts_loop n' (<[key := value]> counts)
  end.
Definition DecodeEOFCounts (payload : bytes) : res (gmap string Z) :=
  '(entryCountBytes, r) ← wrapf "reading eof counts length" (ReadFull 4 payload);
  '(counts, _) ← DecodeEOFCounts_loop (Z.to_nat (be_val entryCountBytes)) ∅ r;
  Ok counts.

Definition IsFlushEOF (counts : gmap string Z) : bool :=
  existsb (fun kv => kv.2 =? -1) (map_to_list counts).

(** ** Phase one: scatter and gather batches *)
Definition EncodeTxQ4PhaseOneBatchEnvelope (clientId : id16) (txType : string)
    (txs : list Transaction) : res bytes :=
  buf ← wrapf "failed to encode TxQ4 batch type" (writeString [] txType);
  txBatch ← wrapf "failed to encode TxQ4 batch transactions" (EncodeTransactionBatch txs);
  Ok (EncodeInternalEnvelope (mkInternalEnvelope MsgTxQ4 clientId zero16 (buf ++ txBatch))).
Definition DecodeTxQ4PhaseOneBatch (payload : bytes) : res (string * list Transaction) :=
  '(txTypeStr, r) ← wrapf "failed to read TxQ4 batch type" (readString payload);
  txs ← wrapf "failed to decode TxQ4 batch transactions"
          (DecodeTransactionBatch (drop (length payload - length r) payload));
  Ok (txTypeStr, txs).

(** ** Phase two: partial pair counts *)
Definition encodeTxQ4PairCount (buf : bytes) (pc : TxQ4PairCount) : res bytes :=
  buf ← writeString buf (Src (pc_Key pc));
  buf ← writeString buf (Dst (pc_Key pc));
  Ok (writeInt64 buf (pc_Count pc)).
Definition decodeTxQ4PairCount : reader TxQ4PairCount :=
  s ← rwrap "pair source" readString;
  d ← rwrap "pair destination" readString;
  count ← rwrap "pair count" readInt64;
  mret (mkTxQ4PairCount (mkTxQ4PairKey s d) count).
Definition EncodeTxQ4PhaseTwoBatchEnvelope (clientId : id16) (pairs : list TxQ4PairCount) : res bytes :=
  payload ← wrapf "failed to encode TxQ4 phase-two batch"
              (encodeBatch "result" pairs encodeTxQ4PairCount);
  Ok (EncodeInternalEnvelope (mkInternalEnvelope MsgTxQ4 clientId zero16 payload)).
Definition DecodeTxQ4PhaseTwoBatch (payload : bytes) : res (list TxQ4PairCount) :=
  decodeBatch "result" payload decodeTxQ4PairCount.

(** ** Phase three: merged pairs *)
Definition writeEntry (m : gmap string TxQ4PairEntry) (buf : bytes) (k : string) : res bytes :=
  match m !! k with
  | None => Panic "nil pointer dereference"
  | Some entry =>
      buf ← writeString buf k;
      let buf := writeInt64 buf (pe_Count entry) in
      buf ← encodeTransactionAccount buf (BankID (SrcAccount entry)) (ID (SrcAccount entry));
      encodeTransactionAccount buf (BankID (DstAccount entry)) (ID (DstAccount entry))
  end.
Definition encodeTxQ4PhaseThree `{!GoRange} (buf : bytes) (m : gmap string TxQ4PairEntry) : res bytes :=
  let keys := sort_Strings (map_keys m) in
  write_all (writeEntry m) keys (writeInt64 buf (Zlen keys)).
Definition EncodeTxQ4PhaseThreeEnvelope `{!GoRange} (clientId : id16)
    (m : gmap string TxQ4PairEntry) : res bytes :=
  buf ← wrapf "failed to encode TxQ4PhaseThree" (encodeTxQ4PhaseThree [] m);
  Ok (EncodeInternalEnvelope (mkInternalEnvelope MsgTxQ4 clientId zero16 buf)).

Fixpoint DecodeTxQ4PhaseThree_loop (n : nat) (m : gmap string TxQ4PairEntry)
    : reader (gmap string TxQ4PairEntry) :=
  match n with
  | O => mret m
  | S n' =>
      key ← rwrap "failed to read key of entry" readString;
      entryCount ← rwrap "failed to read count of entry" readInt64;
      '(srcBank, srcId) ← rwrap "failed to decode source account of entry" decodeTransactionAccount;
      '(dstBank, dstId) ← rwrap "failed to decode destination account of entry" decodeTransactionAccount;
      DecodeTxQ4PhaseThree_loop n'
        (<[key := mkTxQ4PairEntry entryCount (mkAccount srcBank srcId) (mkAccount dstBank dstId)]> m)
  end.
Definition DecodeTxQ4PhaseThreeEnvelope (payload : bytes) : res (gmap string TxQ4PairEntry) :=
  '(count, r) ← wrapf "failed to read count in TxQ4PhaseThree" (readInt64 payload);
  '(m, _) ← DecodeTxQ4PhaseThree_loop (Z.to_nat count) ∅ r;
  Ok m.

(** ** Account lists *)
Definition writeAccount (buf : bytes) (a : Account) : res bytes :=
  wrapf "encoding account" (encodeTransactionAccount buf (BankID a) (ID a)).
Definition EncodeAccountsEnvelope (clientID : id16) (accounts : list Account) : res bytes :=
  buf ← write_all writeAccount accounts [];
  Ok (EncodeInternalEnvelope (mkInternalEnvelope MsgTxAccounts clientID zero16 buf)).
Fixpoint DecodeAccounts_loop (fuel : nat) (accounts : list Account) (r : bytes) : res (list Account) :=
  match r, fuel with
  | [], _ => Ok accounts
  | _, O => Err (ErrMsg "out of fuel")
  | _, S fuel' =>
      '((bankID, accountID), r') ← wrapf "decoding account" (decodeTransactionAccount r);
      DecodeAccounts_loop fuel' (accounts ++ [mkAccount bankID accountID]) r'
  end.
Definition DecodeAccountsEnvelope (payload : bytes) : res (list Account) :=
  DecodeAccounts_loop (length payload) [] payload.

(** ** Exchange of heavy accounts between replicas *)
Definition EncodeQ4HeavyBatchEnvelope (clientID : id16) (senderID : Z) (role : byte)
    (accounts : list Account) : res bytes :=
  let buf := writeInt64 [] senderID ++ [role] ++ be_bytes 4 (uint32 (Zlen accounts)) in
  buf ← write_all (fun b a => wrapf "encoding heavy account"
                     (encodeTransactionAccount b (BankID a) (ID a))) accounts buf;
  Ok (EncodeInternalEnvelope (mkInternalEnvelope MsgQ4HeavyBatch clientID zero16 buf)).
Fixpoint DecodeQ4HeavyBatch_loop (n : nat) (accounts : list Account) : reader (list Account) :=
  match n with
  | O => mret accounts
  | S n' =>
      '(bank, id) ← rwrap "decoding heavy account" decodeTransactionAccount;
      DecodeQ4HeavyBatch_loop n' (accounts ++ [mkAccount bank id])
  end.
Definition DecodeQ4HeavyBatch (payload : bytes) : res (Z * byte * list Account) :=
  '(sid, r) ← wrapf "reading heavy batch sender id" (readInt64 payload);
  '(role, r) ← wrapf "reading heavy batch role" (ReadByte r);
  '(countBytes, r) ← wrapf "reading heavy batch count" (ReadFull 4 r);
  '(accounts, _) ← DecodeQ4HeavyBatch_loop (Z.to_nat (be_val countBytes)) [] r;
  Ok (sid, role, accounts).
Definition EncodeQ4HeavyDoneEnvelope (clientID : id16) (senderID : Z) : res bytes :=
  Ok (EncodeInternalEnvelope (mkInternalEnvelope MsgQ4HeavyDone clientID zero16 (writeInt64 [] senderID))).
Definition DecodeQ4HeavyDone (payload : bytes) : res Z :=
  '(sid, _) ← wrapf "reading heavy done sender id" (readInt64 payload);
  Ok sid.

(** ** Lemmas *)
Definition account_ok (a : Account) : Prop := str_ok (BankID a) /\ str_ok (ID a).
Definition pair_ok (pc : TxQ4PairCount) : Prop :=
  str_ok (Src (pc_Key pc)) /\ str_ok (Dst (pc_Key pc)) /\ in_int64 (pc_Count pc).
#[export] Instance pair_rt : RoundTrip encodeTxQ4PairCount decodeTxQ4PairCount pair_ok 520.
Proof.
  constructor. intros [[] ] (?&?&?); simpl in *.
  unfold encodeTxQ4PairCount, decodeTxQ4PairCount; simpl. rt_record.
Qed.

Lemma map_keys_perm `{!GoRange} {V} (m : gmap string V) : map_keys m ≡ₚ (map_to_list m).*1.
Proof. unfold map_keys. by rewrite range_perm. Qed.
Lemma sort_Strings_perm l : sort_Strings l ≡ₚ l.
Proof. apply merge_sort_Permutation. Qed.
(** Sorting erases the iteration order. *)
Lemma sort_Strings_range l k : l ≡ₚ k -> sort_Strings l = sort_Strings k.
Proof.
  intros H. apply (Sorted_unique String.le); [apply Sorted_merge_sort, _..|].
  by rewrite !sort_Strings_perm.
Qed.
Lemma sorted_keys_range (R1 R2 : GoRange) {V} (m : gmap string V) :
  sort_Strings (@map_keys R1 _ _ _ _ m) = sort_Strings (@map_keys R2 _ _ _ _ m).
Proof. apply sort_Strings_range. by rewrite !map_keys_perm. Qed.

Lemma write_all_ok {A} (f : bytes -> A -> res bytes) (g : A -> bytes) l buf :
  Forall (fun x => forall b, f b x = Ok (b ++ g x)) l ->
  write_all f l buf = Ok (buf ++ flat_map g l).
Proof.
  intros H. revert buf. induction H as [|x l Hx _ IH]; intros buf; simpl.
  - by rewrite app_nil_r.
  - rewrite Hx. simpl. rewrite IH. by rewrite app_assoc.
Qed.

(** The map that inserting the entries of [keys] one by one rebuilds. *)
Lemma rebuild_map {V} (m : gmap string V) (f : string -> V) keys acc :
  keys ≡ₚ (map_to_list m).*1 -> (forall k v, m !! k = Some v -> f k = v) ->
  fold_left (fun a k => <[k := f k]> a) keys acc = m ∪ acc.
Proof.
  intros Hp Hf. assert (forall k, k ∈ keys <-> is_Some (m !! k)) as Hk.
  { intros k. rewrite Hp. rewrite list_elem_of_fmap. split.
    - intros ([k' v] & -> & Hin). apply elem_of_map_to_list in Hin. by exists v.
    - intros [v Hv]. exists (k, v). by rewrite elem_of_map_to_list. }
  apply map_eq. intros k. clear Hp. rewrite lookup_union.
  assert (fold_left (fun a k => <[k := f k]> a) keys acc !! k =
    if decide (k ∈ keys) then Some (f k) else acc !! k) as ->.
  { clear. revert acc. induction keys as [|k' keys IH]; intros acc; simpl; [done|].
    rewrite IH. destruct (decide (k ∈ keys)).
    - rewrite decide_True; [done|]. by constructor.
    - destruct (decide (k = k')) as [->|].
      + rewrite decide_True by constructor. by rewrite lookup_insert_eq.
      + rewrite lookup_insert_ne by done. rewrite decide_False; [done|]. set_solver. }
  destruct (decide (k ∈ keys)) as [Hin|Hn].
  - apply Hk in Hin as [v Hv]. rewrite Hv. rewrite (Hf _ _ Hv). by destruct (acc !! k).
  - destruct (m !! k) eqn:E; [|by destruct (acc !! k)]. exfalso. apply Hn, Hk. by exists v.
Qed.

Definition count_bytes (counts : gmap string Z) (k : string) : bytes :=
  enc_str k ++ be_bytes 8 (uint64 (default 0 (counts !! k))).
Lemma DecodeEOFCounts_loop_ok counts keys acc rest :
  Forall (fun k => str_ok k /\ in_int64 (default 0 (counts !! k))) keys ->
  DecodeEOFCounts_loop (length keys) acc (flat_map (count_bytes counts) keys ++ rest)
    = Ok (fold_left (fun a k => <[k := default 0 (counts !! k)]> a) keys acc, rest).
Proof.
  intros H. revert acc. induction H as [|k keys [Hk Hv] _ IH]; intros acc; [done|].
  simpl. unfold mbind, reader_bind, rwrap, count_bytes at 1. rewrite <- !app_assoc.
  rewrite readString_ok by done. simpl. rewrite readInt64_ok by done. simpl. apply IH.
Qed.

Definition counts_ok (counts : gmap string Z) : Prop :=
  map_Forall (fun k v => str_ok k /\ in_int64 v) counts.

Lemma map_keys_Forall `{!GoRange} {V} (m : gmap string V) (P : string -> Prop) :
  (forall k v, m !! k = Some v -> P k) -> Forall P (sort_Strings (map_keys m)).
Proof.
  intros HP. rewrite sort_Strings_perm, map_keys_perm. apply Forall_forall.
  intros k Hk. apply list_elem_of_fmap in Hk as ([k' v] & -> & Hin).
  apply elem_of_map_to_list in Hin. by apply (HP _ v).
Qed.
Lemma length_map_keys `{!GoRange} {V} (m : gmap string V) :
  length (sort_Strings (map_keys m)) = size m.
Proof. by rewrite sort_Strings_perm, map_keys_perm, length_fmap, length_map_to_list. Qed.

Lemma EncodeEOFCounts_bytes `{!GoRange} counts : counts_ok counts ->
  EncodeEOFCounts counts = Ok (be_bytes 4 (uint32 (Z.of_nat (size counts)))
    ++ flat_map (count_bytes counts) (sort_Strings (map_keys counts))).
Proof.
  intros Hok. unfold EncodeEOFCounts. apply write_all_ok.
  apply map_keys_Forall. intros k v Hk b. destruct (Hok k v Hk) as [Hs _].
  unfold writeCount. rewrite writeString_ok by done. simpl.
  unfold writeInt64, count_bytes. by rewrite app_assoc.
Qed.

(** C19. EOF counts: decoding the encoded map gives the map back, and the bytes
    do not depend on the iteration order of the map: any two orders produce the
    same encoding. *)
Theorem eof_counts_roundtrip (R1 R2 : GoRange) (counts : gmap string Z) :
  counts_ok counts -> Z.of_nat (size counts) < 2 ^ 32 ->
  exists bs, @EncodeEOFCounts R1 counts = Ok bs /\ @EncodeEOFCounts R2 counts = Ok bs /\
             DecodeEOFCounts bs = Ok counts.
Proof.
  intros Hok Hsz. eexists. split; [by apply EncodeEOFCounts_bytes|]. split.
  { rewrite EncodeEOFCounts_bytes by done. by rewrite (sorted_keys_range R2 R1). }
  unfold DecodeEOFCounts. rewrite ReadFull_app by apply length_be_bytes. simpl.
  rewrite be_val_bytes, uint32_small by (unfold in_uint; lia).
  rewrite Z.mod_small by lia. rewrite Nat2Z.id.
  rewrite <- (app_nil_r (flat_map _ _)), <- (@length_map_keys R1).
  rewrite DecodeEOFCounts_loop_ok.
  - simpl. f_equal. rewrite (rebuild_map counts); [by rewrite map_union_empty|..].
    + by rewrite sort_Strings_perm, map_keys_perm.
    + intros k v ->. done.
  - apply map_keys_Forall. intros k v Hk. rewrite Hk. by apply (Hok k v).
Qed.

(** [IsFlushEOF]: some key carries the -1 mark. *)
Lemma IsFlushEOF_spec counts :
  IsFlushEOF counts = true <-> exists k, counts !! k = Some (-1).
Proof.
  unfold IsFlushEOF. rewrite existsb_exists. split.
  - intros ([k v] & Hin & Hv). exists k. apply elem_of_map_to_list.
    apply Z.eqb_eq in Hv. simpl in Hv. subst v. by apply list_elem_of_In.
  - intros (k & Hk). exists (k, -1). split; [|done].
    apply list_elem_of_In. by apply elem_of_map_to_list.
Qed.

Definition entry_ok (k : string) (e : TxQ4PairEntry) : Prop :=
  str_ok k /\ in_int64 (pe_Count e) /\ account_ok (SrcAccount e) /\ account_ok (DstAccount e).
Definition acct_bytes (a : Account) : bytes := enc_str (BankID a) ++ enc_str (ID a).
Definition entry_bytes (m : gmap string TxQ4PairEntry) (k : string) : bytes :=
  match m !! k with
  | Some e => enc_str k ++ be_bytes 8 (uint64 (pe_Count e)) ++ acct_bytes (SrcAccount e)
                ++ acct_bytes (DstAccount e)
  | None => []
  end.

Lemma account_write buf a : account_ok a ->
  encodeTransactionAccount buf (BankID a) (ID a) = Ok (buf ++ acct_bytes a).
Proof.
  intros [H1 H2]. unfold encodeTransactionAccount, acct_bytes.
  rewrite writeString_ok by done. simpl. rewrite writeString_ok by done. by rewrite app_assoc.
Qed.
Lemma account_read a rest : account_ok a ->
  decodeTransactionAccount (acct_bytes a ++ rest) = Ok ((BankID a, ID a), rest).
Proof.
  intros [H1 H2]. unfold decodeTransactionAccount, acct_bytes, mbind, reader_bind.
  rewrite <- app_assoc, readString_ok by done. by rewrite readString_ok by done.
Qed.

Definition dummy_entry : TxQ4PairEntry := mkTxQ4PairEntry 0 (mkAccount "" "") (mkAccount "" "").
Lemma DecodeTxQ4PhaseThree_loop_ok m keys acc rest :
  Forall (fun k => exists e, m !! k = Some e /\ entry_ok k e) keys ->
  DecodeTxQ4PhaseThree_loop (length keys) acc (flat_map (entry_bytes m) keys ++ rest)
    = Ok (fold_left (fun a k => <[k := default dummy_entry (m !! k)]> a) keys acc, rest).
Proof.
  intros H. revert acc. induction H as [|k keys (e & Hk & He) _ IH]; intros acc; [done|].
  destruct He as (? & ? & Hs & Hd). simpl. unfold entry_bytes at 1. rewrite Hk.
  unfold mbind, reader_bind, rwrap. rewrite <- !app_assoc.
  rewrite readString_ok by done. simpl. rewrite readInt64_ok by done. simpl.
  rewrite account_read by done. simpl. rewrite account_read by done. simpl.
  destruct e as [c [] []]. apply IH.
Qed.

(** The merged pairs the accumulator sends to the threshold filter survive
    the wire, whatever the iteration orders at the sender. *)
Theorem phase_three_roundtrip (R1 R2 : GoRange) (m : gmap string TxQ4PairEntry) :
  map_Forall entry_ok m -> Z.of_nat (size m) < 2 ^ 63 ->
  exists bs, @encodeTxQ4PhaseThree R1 [] m = Ok bs /\ @encodeTxQ4PhaseThree R2 [] m = Ok bs /\
             DecodeTxQ4PhaseThreeEnvelope bs = Ok m.
Proof.
  intros Hok Hsz.
  assert (forall R : GoRange, @encodeTxQ4PhaseThree R [] m =
    Ok (be_bytes 8 (uint64 (Z.of_nat (size m)))
        ++ flat_map (entry_bytes m) (sort_Strings (@map_keys R1 _ _ _ _ m)))) as He.
  { intros R. unfold encodeTxQ4PhaseThree, Zlen. rewrite length_map_keys.
    rewrite (sorted_keys_range R R1). unfold writeInt64. simpl.
    apply write_all_ok. apply map_keys_Forall. intros k e Hk b.
    destruct (Hok k e Hk) as (? & ? & ? & ?). unfold writeEntry, entry_bytes. rewrite Hk.
    rewrite writeString_ok by done. simpl. unfold writeInt64.
    rewrite account_write by done. simpl. rewrite account_write by done. by rewrite <- !app_assoc. }
  eexists. split; [apply He|]. split; [apply He|].
  unfold DecodeTxQ4PhaseThreeEnvelope. rewrite readInt64_ok by (unfold in_int64; lia). simpl.
  rewrite Nat2Z.id, <- (@length_map_keys R1), <- (app_nil_r (flat_map _ _)).
  rewrite DecodeTxQ4PhaseThree_loop_ok.
  - simpl. f_equal. rewrite (rebuild_map m); [by rewrite map_union_empty|..].
    + by rewrite sort_Strings_perm, map_keys_perm.
    + intros k v ->. done.
  - apply map_keys_Forall. intros k e Hk. exists e. split; [done|]. by apply (Hok k e).
Qed.

Lemma DecodeAccounts_loop_ok l acc fuel :
  Forall account_ok l -> (length (flat_map acct_bytes l) <= fuel)%nat ->
  DecodeAccounts_loop fuel acc (flat_map acct_bytes l) = Ok (acc ++ l).
Proof.
  intros H. revert acc fuel. induction H as [|a l Ha _ IH]; intros acc fuel Hf.
  { simpl. rewrite app_nil_r. by destruct fuel. }
  pose proof (Zlen_enc_str (BankID a)) as HL. pose proof (str_len_nonneg (BankID a)) as H0.
  simpl flat_map in *. rewrite length_app in Hf. unfold acct_bytes at 1 in Hf.
  rewrite length_app in Hf. unfold Zlen in HL.
  destruct fuel as [|fuel]; [lia|]. cbn [DecodeAccounts_loop].
  destruct (acct_bytes a ++ flat_map acct_bytes l) as [|b0 r0] eqn:E.
  { apply (f_equal length) in E. unfold acct_bytes at 1 in E. rewrite !length_app in E.
    simpl in E. lia. }
  rewrite <- E, account_read by done. cbn [wrapf mbind res_bind].
  rewrite IH by lia. destruct a. by rewrite <- app_assoc.
Qed.
Lemma accounts_roundtrip l : Forall account_ok l ->
  DecodeAccountsEnvelope (flat_map acct_bytes l) = Ok l.
Proof. intros. unfold DecodeAccountsEnvelope. by rewrite DecodeAccounts_loop_ok. Qed.

(** The fuel never runs out: every element takes at least two bytes. *)
Lemma readString_consumes r s r' : readString r = Ok (s, r') -> (length r' < length r)%nat.
Proof.
  unfold readString, mbind, reader_bind, rwrap, ReadByte. destruct r as [|b r]; [done|]. simpl.
  unfold ReadFull. case_decide; [|done]. simpl. unfold mret, reader_ret. intros [= <- <-].
  rewrite length_drop. lia.
Qed.
Lemma DecodeAccounts_fuel fuel acc r : (length r <= fuel)%nat ->
  DecodeAccounts_loop fuel acc r <> Err (ErrMsg "out of fuel").
Proof.
  revert acc r. induction fuel as [|fuel IH]; intros acc r Hr.
  { destruct r; simpl in *; [done|lia]. }
  destruct r as [|b r]; [done|]. cbn [DecodeAccounts_loop].
  destruct (decodeTransactionAccount (b :: r)) as [[[bank id] r']| |] eqn:E; [|done..].
  cbn. apply IH. unfold decodeTransactionAccount, mbind, reader_bind in E.
  destruct (readString (b :: r)) as [[s1 r1]| |] eqn:E1; [|done..].
  destruct (readString r1) as [[s2 r2]| |] eqn:E2; [|done..].
  unfold mret, reader_ret in E. simplify_eq.
  apply readString_consumes in E1, E2. simpl in *. lia.
Qed.

(** [map_Forall] of a literal map, entry by entry. *)
Ltac concrete_map :=
  repeat (apply map_Forall_insert_2; [repeat split; vm_compute; congruence|]);
  first [apply map_Forall_empty | apply map_Forall_singleton; repeat split; vm_compute; congruence].

Definition sample_counts : gmap string Z :=
  {[ "tx.usd" := 3; "" := 8; "tx.non-usd" := 5 ]}.
Lemma eof_counts_roundtrip_witness :
  exists bs, @EncodeEOFCounts range_id sample_counts = Ok bs /\
             @EncodeEOFCounts range_rev sample_counts = Ok bs /\
             DecodeEOFCounts bs = Ok sample_counts.
Proof.
  apply (eof_counts_roundtrip range_id range_rev sample_counts).
  - concrete_map.
  - vm_compute. reflexivity.
Defined.
Definition sample_pairs : gmap string TxQ4PairEntry :=
  {[ "a-1::b-2" := mkTxQ4PairEntry 6 (mkAccount "a" "1") (mkAccount "b" "2");
     "c-1::b-2" := mkTxQ4PairEntry 1 (mkAccount "c" "1") (mkAccount "b" "2") ]}.
Lemma phase_three_roundtrip_witness :
  exists bs, @encodeTxQ4PhaseThree range_id [] sample_pairs = Ok bs /\
             @encodeTxQ4PhaseThree range_rev [] sample_pairs = Ok bs /\
             DecodeTxQ4PhaseThreeEnvelope bs = Ok sample_pairs.
Proof.
  apply (phase_three_roundtrip range_id range_rev sample_pairs).
  - concrete_map.
  - vm_compute. reflexivity.
Defined.
