(* ===== verification/Disk.v ===== *)
(** * A disk with crashes

    The file operations of [src/common/checkpoint/store.go] as requests of a
    small program type.  [run] executes a program without faults; [crashes]
    relates a program and a disk to every disk a crash can leave: each request
    before the crash is complete (the code syncs every file and directory it
    changes before going on), the request the crash interrupts may have had no
    effect, its full effect, or, for writes, a prefix of its data. *)

From S2P Require Import Prelude.

(** A file is named by its directory and its name in it; the stores use flat
    directories and reject keys with separators. *)
Abbreviation path := (string * string)%type (only parsing).
Abbreviation disk := (gmap (string * string) bytes) (only parsing).

Inductive fsreq :=
  | ReadFile (p : path)              (** os.ReadFile *)
  | Stat (p : path)                  (** os.Stat *)
  | WriteFileSync (p : path) (data : bytes)  (** create or truncate, write, sync *)
  | AppendSync (p : path) (data : bytes)     (** open for append or create, write, sync *)
  | Rename (p q : path)
  | Remove (p : path)
  | TruncateSync (p : path) (n : nat)
  | SyncDir (dir : string)
  | ReadDir (dir : string).

(** What a request returns: a file's content, whether a file existed, the names
    of a directory. *)
Inductive fsresp :=
  | RContent (c : option bytes)
  | RExists (b : bool)
  | RNames (l : list string)
  | RDone.

(** [os.ReadDir] sorts by name. *)
Definition dir_names (dir : string) (d : disk) : list string :=
  merge_sort String.le
    (omap (fun kv : (string * string) * bytes => if decide (kv.1.1 = dir) then Some kv.1.2 else None)
       (map_to_list d)).

Definition resp (r : fsreq) (d : disk) : fsresp :=
  match r with
  | ReadFile p => RContent (d !! p)
  | Stat p => RExists (bool_decide (is_Some (d !! p)))
  | Remove p => RExists (bool_decide (is_Some (d !! p)))
  | ReadDir dir => RNames (dir_names dir d)
  | _ => RDone
  end.

Definition effect (r : fsreq) (d : disk) : disk :=
  match r with
  | WriteFileSync p data => <[p := data]> d
  | AppendSync p data => <[p := default [] (d !! p) ++ data]> d
  | Rename p q => match d !! p with Some c => <[q := c]> (delete p d) | None => d end
  | Remove p => delete p d
  | TruncateSync p n => match d !! p with Some c => <[p := take n c]> d | None => d end
  | _ => d
  end.

(** The disks a crash inside a request can leave. *)
Inductive torn : fsreq -> disk -> disk -> Prop :=
  | torn_none r d : torn r d d
  | torn_all r d : torn r d (effect r d)
  | torn_write p data n d : torn (WriteFileSync p data) d (<[p := take n data]> d)
  | torn_append p data n d : torn (AppendSync p data) d (<[p := default [] (d !! p) ++ take n data]> d).

(** ** Programs *)
Inductive prog (A : Type) :=
  | Ret (a : A)
  | Do (r : fsreq) (k : fsresp -> prog A).
Arguments Ret {A} _.
Arguments Do {A} _ _.

Fixpoint prog_bind {A B} (m : prog A) (f : A -> prog B) : prog B :=
  match m with
  | Ret a => f a
  | Do r k => Do r (fun x => prog_bind (k x) f)
  end.

Fixpoint run {A} (m : prog A) (d : disk) : A * disk :=
  match m with
  | Ret a => (a, d)
  | Do r k => run (k (resp r d)) (effect r d)
  end.

Inductive crashes {A} : prog A -> disk -> disk -> Prop :=
  | crash_end a d : crashes (Ret a) d d
  | crash_now r k d d' : torn r d d' -> crashes (Do r k) d d'
  | crash_later r k d d' : crashes (k (resp r d)) (effect r d) d' -> crashes (Do r k) d d'.

(** Functions that return [(T, error)]: the error ends the caller early. *)
Definition io (A : Type) : Type := prog (res A).
#[global] Instance io_ret : MRet io := fun A a => Ret (Ok a).
#[global] Instance io_bind : MBind io := fun A B f m =>
  prog_bind m (fun r => match r with Ok a => f a | Err e => Ret (Err e) | Panic s => Ret (Panic s) end).
Definition fail {A} (e : error) : io A := Ret (Err e).

(** Functions that also change the memory of the worker: [S] is kept on every
    outcome. *)
Definition D (S A : Type) : Type := S -> prog (res A * S).
#[global] Instance D_ret S : MRet (D S) := fun A a s => Ret (Ok a, s).
#[global] Instance D_bind S : MBind (D S) := fun A B f m s =>
  prog_bind (m s) (fun rs => match rs with
                             | (Ok a, s') => f a s'
                             | (Err e, s') => Ret (Err e, s')
                             | (Panic p, s') => Ret (Panic p, s')
                             end).
Definition liftIO {S A} (m : io A) : D S A := fun s => prog_bind m (fun r => Ret (r, s)).
Definition liftM {S A} (m : S -> res A * S) : D S A := fun s => Ret (m s).
Definition getD {S} : D S S := fun s => Ret (Ok s, s).
Definition modD {S} (f : S -> S) : D S unit := fun s => Ret (Ok tt, f s).

(** ** Executing and crashing a sequence *)
Lemma run_bind {A B} (m : prog A) (f : A -> prog B) d :
  run (prog_bind m f) d = run (f (run m d).1) (run m d).2.
Proof. revert d. induction m as [a|r k IH]; intros d; simpl; [done|]. apply IH. Qed.

Lemma crashes_bind {A B} (m : prog A) (f : A -> prog B) d d' :
  crashes (prog_bind m f) d d' ->
  crashes m d d' \/ crashes (f (run m d).1) (run m d).2 d'.
Proof.
  revert d. induction m as [a|r k IH]; intros d; simpl; [by right|].
  intros H. inversion H; subst.
  - left. by constructor.
  - apply IH in H4 as [?|?]; [left|by right]. by apply crash_later.
Qed.

Lemma run_io_bind {A B} (m : io A) (f : A -> io B) d a d1 :
  run m d = (Ok a, d1) -> run (m ≫= f) d = run (f a) d1.
Proof. intros H. unfold mbind, io_bind. by rewrite run_bind, H. Qed.
Lemma crashes_io_bind {A B} (m : io A) (f : A -> io B) d a d1 d' :
  run m d = (Ok a, d1) -> crashes (m ≫= f) d d' -> crashes m d d' \/ crashes (f a) d1 d'.
Proof. intros H Hc. apply crashes_bind in Hc. by rewrite H in Hc. Qed.

Lemma run_D_bind {S A B} (m : D S A) (f : A -> D S B) s d a s1 d1 :
  run (m s) d = ((Ok a, s1), d1) -> run ((m ≫= f) s) d = run (f a s1) d1.
Proof. intros H. unfold mbind, D_bind. by rewrite run_bind, H. Qed.
Lemma crashes_D_bind {S A B} (m : D S A) (f : A -> D S B) s d a s1 d1 d' :
  run (m s) d = ((Ok a, s1), d1) ->
  crashes ((m ≫= f) s) d d' -> crashes (m s) d d' \/ crashes (f a s1) d1 d'.
Proof. intros H Hc. apply crashes_bind in Hc. by rewrite H in Hc. Qed.
Lemma run_liftIO {S A} (m : io A) (s : S) d :
  run (liftIO m s) d = (((run m d).1, s), (run m d).2).
Proof. unfold liftIO. by rewrite run_bind. Qed.
Lemma crashes_liftIO {S A} (m : io A) (s : S) d d' :
  crashes (liftIO m s) d d' -> crashes m d d' \/ d' = (run m d).2.
Proof.
  intros H. apply crashes_bind in H as [?|H]; [by left|]. right. by inversion H.
Qed.

Lemma elem_of_dir_names dir d n : n ∈ dir_names dir d <-> is_Some (d !! (dir, n)).
Proof.
  unfold dir_names. rewrite merge_sort_Permutation, list_elem_of_omap. split.
  - intros [[[dir' n'] c] [Hin H]]. simpl in H. case_decide; simplify_eq.
    apply elem_of_map_to_list in Hin. by eexists.
  - intros [c Hc]. exists ((dir, n), c). split; [by apply elem_of_map_to_list|]. simpl.
    by rewrite decide_True.
Qed.

(** ** What a program can change *)
Definition writes (r : fsreq) : list (string * string) :=
  match r with
  | WriteFileSync p _ | AppendSync p _ | Remove p | TruncateSync p _ => [p]
  | Rename p q => [p; q]
  | _ => []
  end.

Inductive foot {A : Type} (P : string * string -> Prop) : prog A -> Prop :=
  | foot_ret a : foot P (Ret a)
  | foot_do r k : Forall P (writes r) -> (forall x, foot P (k x)) -> foot P (Do r k).

Lemma foot_bind {A B : Type} P (m : prog A) (f : A -> prog B) :
  foot P m -> (forall a, foot P (f a)) -> foot P (prog_bind m f).
Proof. intros Hm Hf. induction Hm; simpl; [done|]. by constructor. Qed.

Lemma foot_mono {A : Type} (P Q : string * string -> Prop) (m : prog A) :
  (forall p, P p -> Q p) -> foot P m -> foot Q m.
Proof.
  intros HPQ Hm. induction Hm; constructor; [|done]. eapply Forall_impl; eauto.
Qed.

Lemma effect_frame P r d q : Forall P (writes r) -> ~ P q -> effect r d !! q = d !! q.
Proof.
  intros HP Hq. assert (forall p, P p -> p <> q) as Hne by naive_solver.
  destruct r; simpl in *; try done; rewrite ?Forall_cons in HP; try case_match;
    rewrite ?lookup_insert_ne, ?lookup_delete_ne by naive_solver; done.
Qed.
Lemma torn_frame P r d d' q : Forall P (writes r) -> ~ P q -> torn r d d' -> d' !! q = d !! q.
Proof.
  intros HP Hq Ht. inversion Ht; subst; [done|by eapply effect_frame|..]; simpl in HP;
    rewrite Forall_cons in HP; apply lookup_insert_ne; naive_solver.
Qed.
Lemma foot_run {A : Type} P (m : prog A) d q : foot P m -> ~ P q -> (run m d).2 !! q = d !! q.
Proof.
  intros Hm Hq. revert d. induction Hm as [a|r k Hr _ IH]; intros d; simpl; [done|].
  rewrite IH. by eapply effect_frame.
Qed.
Lemma foot_crash {A : Type} P (m : prog A) d d' q :
  foot P m -> ~ P q -> crashes m d d' -> d' !! q = d !! q.
Proof.
  intros Hm Hq Hc. revert Hm. induction Hc as [a d|r k d d' Ht|r k d d' Hc IH]; intros Hm.
  - done.
  - inversion Hm; subst. by eapply torn_frame.
  - inversion Hm; subst. rewrite IH by done. by eapply effect_frame.
Qed.
