(* ===== verification/Store.v ===== *)
(** * Checkpoint stores ([src/common/checkpoint/store.go])

    The overwrite store (staged file, then rename) and the append-only record
    log with generations and CRC-32C, as programs over the disk of [Disk]. *)

From S2P Require Import Prelude Disk.

(** ** CRC-32 with the Castagnoli polynomial ([hash/crc32]) *)
Definition crc_poly : Z := 0x82f63b78.
Fixpoint crc_bits (n : nat) (c : Z) : Z :=
  match n with
  | O => c
  | S n' => crc_bits n' (if Z.odd c then Z.lxor (Z.shiftr c 1) crc_poly else Z.shiftr c 1)
  end.
(** [crc32.Update(crc, crcTable, p)] *)
Definition crc_update (crc : Z) (p : bytes) : Z :=
  Z.lxor (fold_left (fun c b => crc_bits 8 (Z.lxor c (byte_Z b))) p (Z.lxor crc 0xffffffff))
    0xffffffff.

(** ** Keys and paths *)
Section Ext.
Local Open Scope string_scope.
Definition fileExt : string := ".ckpt".
Definition tmpExt : string := ".ckpt.tmp".
Definition logExt : string := ".log".

Definition validKey (key : string) : bool :=
  negb (bool_decide (key = "" \/ key = "." \/ key = "..")) &&
  forallb (fun b => negb (bool_decide (b = Byte.x2f \/ b = Byte.x5c))) (str_bytes key).

(** [baseStore.path]: the file [key+ext] of the store's directory. *)
Definition store_path (dir key ext : string) : string * string := (dir, key +:+ ext).

Definition HasSuffix (s suffix : string) : bool :=
  let n := length (str_bytes s) in let m := length (str_bytes suffix) in
  bool_decide (m <= n)%nat && bool_decide (drop (n - m) (str_bytes s) = str_bytes suffix).
Definition TrimSuffix (s suffix : string) : string :=
  if HasSuffix s suffix
  then bytes_str (take (length (str_bytes s) - length (str_bytes suffix)) (str_bytes s)) else s.
End Ext.

Definition overwriteVersion : byte := Byte.x01.
Definition overwriteHeaderLen : nat := 9.
Definition recordHeaderLen : nat := 16.

Definition checkKey (key : string) : io unit :=
  if validKey key then mret tt else fail (ErrMsg "invalid checkpoint key").

(** One request, and the result it returns. *)
Definition req (r : fsreq) : io fsresp := Do r (fun x => Ret (Ok x)).
Definition readFile (p : string * string) : io (option bytes) :=
  x ← req (ReadFile p); mret (match x with RContent c => c | _ => None end).
Definition existed (x : fsresp) : bool := match x with RExists b => b | _ => false end.
Definition writeFileSync (p : string * string) (data : bytes) : io unit :=
  _ ← req (WriteFileSync p data); mret tt.
Definition syncDir (dir : string) : io unit := _ ← req (SyncDir dir); mret tt.
Definition removeIfExists (p : string * string) : io bool :=
  x ← req (Remove p); mret (existed x).
Definition listKeys (dir ext : string) : io (list string) :=
  x ← req (ReadDir dir);
  let names := match x with RNames l => l | _ => [] end in
  mret ((fun n => TrimSuffix n ext) <$> filter (fun n => HasSuffix n ext = true) names).

(** ** The overwrite store *)
Definition encodeOverwrite (gen : Z) (data : bytes) : bytes :=
  [overwriteVersion] ++ be_bytes 8 gen ++ data.
Definition decodeOverwrite (raw : bytes) : res (bytes * Z) :=
  if bool_decide (length raw < overwriteHeaderLen)%nat
  then Err (ErrMsg "overwrite checkpoint too short")
  else if bool_decide (nth 0 raw Byte.x00 <> overwriteVersion)
  then Err (ErrMsg "unsupported overwrite checkpoint version")
  else Ok (drop overwriteHeaderLen raw, be_val (take 8 (drop 1 raw))).

Definition readOverwriteHeader (p : string * string) : io (Z * bool) :=
  c ← readFile p;
  match c with
  | None => mret (0, false)
  | Some raw =>
      if bool_decide (length raw < overwriteHeaderLen)%nat then mret (0, false)
      else if bool_decide (nth 0 raw Byte.x00 <> overwriteVersion) then mret (0, false)
      else mret (be_val (take 8 (drop 1 raw)), true)
  end.

Definition overwrite_Stage (dir key : string) (gen : Z) (data : bytes) : io unit :=
  _ ← checkKey key;
  _ ← writeFileSync (store_path dir key tmpExt) (encodeOverwrite gen data);
  syncDir dir.

Definition overwrite_Promote (dir key : string) (committedGen : Z) : io unit :=
  _ ← checkKey key;
  let tmp := store_path dir key tmpExt in
  '(gen, valid) ← readOverwriteHeader tmp;
  if valid && (gen =? committedGen) then
    _ ← req (Rename tmp (store_path dir key fileExt));
    syncDir dir
  else
    removed ← removeIfExists tmp;
    if (removed : bool) then syncDir dir else mret tt.

(** [None]: no committed checkpoint. *)
Definition overwrite_Load (dir key : string) : io (option (bytes * Z)) :=
  _ ← checkKey key;
  c ← readFile (store_path dir key fileExt);
  match c with
  | None => mret None
  | Some raw => match decodeOverwrite raw with
                | Ok dg => mret (Some dg)
                | Err e => fail e
                | Panic s => Ret (Panic s)
                end
  end.

Definition overwrite_Delete (dir key : string) : io unit :=
  _ ← checkKey key;
  removedCkpt ← removeIfExists (store_path dir key fileExt);
  removedTmp ← removeIfExists (store_path dir key tmpExt);
  if (removedCkpt || removedTmp : bool) then syncDir dir else mret tt.

(** ** The record log *)
Record Rec := mkRec { Gen : Z; RPayload : bytes }.

Definition encodeRecord (gen : Z) (payload : bytes) : bytes :=
  be_bytes 4 (uint32 (Zlen payload)) ++ be_bytes 8 gen
    ++ be_bytes 4 (crc_update (crc_update 0 (be_bytes 8 gen)) payload) ++ payload.

(** [(gen, payload, next)] when a valid record starts at [off]. *)
Definition decodeRecordAt (raw : bytes) (off : nat) : option (Z * bytes * nat) :=
  if bool_decide (length raw < off + recordHeaderLen)%nat then None
  else
    let r := drop off raw in
    let plen := Z.to_nat (be_val (take 4 r)) in
    let stop := (off + recordHeaderLen + plen)%nat in
    if bool_decide (length raw < stop)%nat then None
    else
      let payload := take plen (drop recordHeaderLen r) in
      let want := crc_update (crc_update 0 (take 8 (drop 4 r))) payload in
      if bool_decide (want <> be_val (take 4 (drop 12 r))) then None
      else Some (be_val (take 8 (drop 4 r)), payload, stop).

(** The loop of [Load]; every record takes at least 16 bytes, so the length of
    the file bounds the iterations. *)
Fixpoint load_loop (fuel : nat) (raw : bytes) (off : nat) (recs : list Rec) (maxGen : Z)
    : list Rec * Z :=
  match fuel with
  | O => (recs, maxGen)
  | S fuel' =>
      match decodeRecordAt raw off with
      | None => (recs, maxGen)
      | Some (gen, payload, next) =>
          load_loop fuel' raw next (recs ++ [mkRec gen payload])
            (if maxGen <? gen then gen else maxGen)
      end
  end.
(** The loop of [Truncate]: where the valid prefix up to [committedGen] ends. *)
Fixpoint trunc_loop (fuel : nat) (raw : bytes) (off validEnd : nat) (committedGen : Z) : nat :=
  match fuel with
  | O => validEnd
  | S fuel' =>
      match decodeRecordAt raw off with
      | None => validEnd
      | Some (gen, _, next) =>
          if committedGen <? gen then validEnd else trunc_loop fuel' raw next next committedGen
      end
  end.

Definition append_Append (dir key : string) (gen : Z) (payload : bytes) : io unit :=
  _ ← checkKey key;
  let logPath := store_path dir key logExt in
  st ← req (Stat logPath);
  _ ← req (AppendSync logPath (encodeRecord gen payload));
  if existed st then mret tt else syncDir dir.

Definition append_Load (dir key : string) : io (list Rec * Z) :=
  _ ← checkKey key;
  c ← readFile (store_path dir key logExt);
  match c with
  | None => mret ([], 0)
  | Some raw => mret (load_loop (S (length raw)) raw 0 [] 0)
  end.

Definition append_Truncate (dir key : string) (committedGen : Z) : io unit :=
  _ ← checkKey key;
  let logPath := store_path dir key logExt in
  c ← readFile logPath;
  match c with
  | None => mret tt
  | Some raw =>
      let validEnd := trunc_loop (S (length raw)) raw 0 0 committedGen in
      if bool_decide (validEnd = length raw) then mret tt
      else _ ← req (TruncateSync logPath validEnd); mret tt
  end.

Definition append_Delete (dir key : string) : io unit :=
  _ ← checkKey key;
  removed ← removeIfExists (store_path dir key logExt);
  if (removed : bool) then syncDir dir else mret tt.

(** ** Test vector: CRC-32C of "123456789" *)
Example crc32c_check : crc_update 0 (str_bytes "123456789") = 0xe3069283.
Proof. vm_compute. reflexivity. Qed.

(** ** Framing of records *)
Definition rec_ok (r : Rec) : Prop := in_uint 32 (Zlen (RPayload r)) /\ in_uint 64 (Gen r).
Definition enc_rec (r : Rec) : bytes := encodeRecord (Gen r) (RPayload r).

Lemma length_encodeRecord gen payload :
  length (encodeRecord gen payload) = (16 + length payload)%nat.
Proof. unfold encodeRecord. autorewrite with len. lia. Qed.

Lemma crc_bits_range n c : in_uint 32 c -> in_uint 32 (crc_bits n c).
Proof.
  revert c. induction n as [|n IH]; intros c Hc; simpl; [done|]. apply IH.
  assert (in_uint 32 (Z.shiftr c 1)) as Hs.
  { unfold in_uint in *. rewrite Z.shiftr_div_pow2 by lia.
    split; [apply Z.div_pos; lia|apply Z.div_lt_upper_bound; lia]. }
  destruct (Z.odd c); [|done].
  assert (0 <= Z.lxor (Z.shiftr c 1) crc_poly) by (apply Z.lxor_nonneg; unfold crc_poly, in_uint in *; lia).
  split; [done|]. destruct (decide (Z.lxor (Z.shiftr c 1) crc_poly = 0)) as [->|]; [lia|].
  apply Z.log2_lt_pow2; [lia|].
  pose proof (Z.log2_lxor (Z.shiftr c 1) crc_poly ltac:(apply Hs) ltac:(unfold crc_poly; lia)).
  assert (Z.log2 crc_poly < 32) by (vm_compute; done).
  destruct (decide (Z.shiftr c 1 = 0)) as [->|]; [simpl in *; lia|].
  assert (Z.log2 (Z.shiftr c 1) < 32) by (apply Z.log2_lt_pow2; unfold in_uint in Hs; lia). lia.
Qed.

Lemma lxor_range a b : in_uint 32 a -> in_uint 32 b -> in_uint 32 (Z.lxor a b).
Proof.
  intros Ha Hb. unfold in_uint in *.
  assert (0 <= Z.lxor a b) by (apply Z.lxor_nonneg; lia).
  split; [done|]. destruct (decide (Z.lxor a b = 0)) as [->|]; [lia|].
  apply Z.log2_lt_pow2; [lia|].
  pose proof (Z.log2_lxor a b ltac:(lia) ltac:(lia)).
  assert (forall x, 0 <= x < 2 ^ 32 -> Z.log2 x < 32) as HL.
  { intros x Hx. destruct (decide (x = 0)) as [->|]; [by vm_compute|]. apply Z.log2_lt_pow2; lia. }
  pose proof (HL a Ha). pose proof (HL b Hb). lia.
Qed.

Lemma crc_update_range c p : in_uint 32 c -> in_uint 32 (crc_update c p).
Proof.
  intros Hc. unfold crc_update. assert (in_uint 32 0xffffffff) as HF by (split; vm_compute; congruence).
  apply lxor_range; [|done]. assert (in_uint 32 (Z.lxor c 0xffffffff)) as H by (by apply lxor_range).
  revert H. generalize (Z.lxor c 0xffffffff). induction p as [|b p IH]; intros x Hx; [done|].
  cbn [fold_left]. apply IH, crc_bits_range, lxor_range; [done|]. pose proof (byte_Z_range b). unfold in_uint. lia.
Qed.

(** The fields of a record header by position. *)
Lemma header_fields (a b c p : bytes) :
  length a = 4%nat -> length b = 8%nat -> length c = 4%nat ->
  let r := a ++ b ++ c ++ p in
  take 4 r = a /\ take 8 (drop 4 r) = b /\ take 4 (drop 12 r) = c /\ drop 16 r = p.
Proof.
  intros Ha Hb Hc r. subst r.
  assert (drop 4 (a ++ b ++ c ++ p) = b ++ c ++ p) as H4 by by apply drop_app_length'.
  assert (drop 12 (a ++ b ++ c ++ p) = c ++ p) as H12.
  { change 12%nat with (4 + 8)%nat. rewrite <- drop_drop, H4. by apply drop_app_length'. }
  split_and!.
  - by apply take_app_length'.
  - rewrite H4. by apply take_app_length'.
  - rewrite H12. by apply take_app_length'.
  - change 16%nat with (12 + 4)%nat. rewrite <- drop_drop, H12. by apply drop_app_length'.
Qed.

Lemma record_length (payload : bytes) :
  in_uint 32 (Zlen payload) ->
  Z.to_nat (be_val (be_bytes 4 (uint32 (Zlen payload)))) = length payload.
Proof.
  intros H. rewrite be_val_bytes, uint32_small, Z.mod_small by done. unfold Zlen. lia.
Qed.

(** A record in place is found whatever precedes and follows it. *)
Lemma decodeRecordAt_ok pre r rest : rec_ok r ->
  decodeRecordAt (pre ++ enc_rec r ++ rest) (length pre)
    = Some (Gen r, RPayload r, (length pre + length (enc_rec r))%nat).
Proof.
  intros [Hp Hg]. destruct r as [g p]; simpl in *. unfold enc_rec; simpl.
  rewrite length_encodeRecord. unfold decodeRecordAt, recordHeaderLen. rewrite drop_app_length.
  rewrite bool_decide_eq_false_2 by (rewrite !length_app, length_encodeRecord; lia).
  set (crc := crc_update (crc_update 0 (be_bytes 8 g)) p).
  assert (in_uint 32 crc) as Hcrc.
  { do 2 apply crc_update_range. split; vm_compute; congruence. }
  destruct (header_fields (be_bytes 4 (uint32 (Zlen p))) (be_bytes 8 g) (be_bytes 4 crc) (p ++ rest))
    as (H1 & H2 & H3 & H4); [apply length_be_bytes..|].
  replace (encodeRecord g p ++ rest) with (be_bytes 4 (uint32 (Zlen p)) ++ be_bytes 8 g
    ++ be_bytes 4 crc ++ p ++ rest) by (unfold encodeRecord; by rewrite <- !app_assoc).
  rewrite H1, H2, H3, H4, record_length, take_app_length by done. fold crc.
  rewrite bool_decide_eq_false_2 by (autorewrite with len; lia).
  rewrite !be_val_bytes, !Z.mod_small by done.
  rewrite bool_decide_eq_false_2 by (intros H; by apply H).
  by rewrite Nat.add_assoc.
Qed.

(** A torn record, cut anywhere, is not a record. *)
Lemma decodeRecordAt_torn pre r n : rec_ok r -> (n < length (enc_rec r))%nat ->
  decodeRecordAt (pre ++ take n (enc_rec r)) (length pre) = None.
Proof.
  intros [Hp Hg] Hn. unfold decodeRecordAt, recordHeaderLen. unfold enc_rec in *.
  rewrite length_encodeRecord in Hn. rewrite length_app, length_take, length_encodeRecord.
  case_bool_decide as H1; [done|]. rewrite drop_app_length.
  rewrite take_take, (Nat.min_l 4 n) by lia. unfold encodeRecord.
  rewrite (take_app_length' (be_bytes 4 _)) by (by rewrite length_be_bytes).
  rewrite record_length by done.
  rewrite bool_decide_eq_true_2 by lia. done.
Qed.

(** A log file: the records written so far, then a possibly torn last one. *)
Definition enc_log (recs : list Rec) : bytes := flat_map enc_rec recs.
Definition maxGenOf (g : Z) (recs : list Rec) : Z := fold_left Z.max (Gen <$> recs) g.

(** Bytes at the end of a log that hold no record. *)
Definition no_record (tail : bytes) : Prop :=
  forall pre, decodeRecordAt (pre ++ tail) (length pre) = None.

Lemma no_record_nil : no_record [].
Proof.
  intros pre. unfold decodeRecordAt. rewrite bool_decide_eq_true_2; [done|].
  rewrite app_nil_r. unfold recordHeaderLen. lia.
Qed.
Lemma no_record_torn r n : rec_ok r -> (n < length (enc_rec r))%nat -> no_record (take n (enc_rec r)).
Proof. intros Hr Hn pre. by apply decodeRecordAt_torn. Qed.

Lemma enc_log_app l k : enc_log (l ++ k) = enc_log l ++ enc_log k.
Proof. apply flat_map_app. Qed.
Lemma enc_log_length l : (16 * length l <= length (enc_log l))%nat.
Proof.
  induction l as [|r l IH]; [simpl; lia|].
  unfold enc_log in *. simpl. rewrite length_app. unfold enc_rec at 1.
  rewrite length_encodeRecord. lia.
Qed.
Lemma max_ltb a b : (if a <? b then b else a) = Z.max a b.
Proof. destruct (Z.ltb_spec a b); lia. Qed.

Lemma load_loop_ok fuel pre recs tail acc g :
  Forall rec_ok recs -> no_record tail -> (length recs < fuel)%nat ->
  load_loop fuel (pre ++ enc_log recs ++ tail) (length pre) acc g
    = (acc ++ recs, maxGenOf g recs).
Proof.
  intros Hok Ht. revert fuel pre acc g.
  induction Hok as [|r recs Hr Hok IH]; intros [|fuel] pre acc g Hf; simpl in Hf; [lia| |lia|].
  - simpl. by rewrite Ht, app_nil_r.
  - unfold enc_log; cbn [flat_map load_loop]. fold (enc_log recs).
    rewrite <- app_assoc, decodeRecordAt_ok by done.
    rewrite app_assoc, <- length_app, IH by (done || lia).
    rewrite <- app_assoc, max_ltb. by destruct r.
Qed.

(** The valid prefix ends before the first record of a later generation. *)
Fixpoint upto (g : Z) (recs : list Rec) : list Rec :=
  match recs with
  | [] => []
  | r :: recs' => if g <? Gen r then [] else r :: upto g recs'
  end.

Lemma upto_all g recs : Forall (fun r => Gen r <= g) recs -> upto g recs = recs.
Proof.
  induction 1 as [|r recs Hr _ IH]; simpl; [done|]. rewrite IH. destruct (Z.ltb_spec g (Gen r)); [lia|done].
Qed.

Lemma trunc_loop_ok fuel pre recs tail g :
  Forall rec_ok recs -> no_record tail -> (length recs < fuel)%nat ->
  trunc_loop fuel (pre ++ enc_log recs ++ tail) (length pre) (length pre) g
    = (length pre + length (enc_log (upto g recs)))%nat.
Proof.
  intros Hok Ht. revert fuel pre.
  induction Hok as [|r recs Hr Hok IH]; intros [|fuel] pre Hf; simpl in Hf; [lia| |lia|].
  - simpl. rewrite Ht. lia.
  - unfold enc_log at 1; cbn [flat_map trunc_loop upto]. fold (enc_log recs).
    rewrite <- app_assoc, decodeRecordAt_ok by done.
    destruct (g <? Gen r); [unfold enc_log; simpl; lia|].
    rewrite app_assoc, <- length_app, IH by (done || lia).
    unfold enc_log; simpl. rewrite !length_app. lia.
Qed.

Lemma decode_encodeOverwrite gen data : in_uint 64 gen ->
  decodeOverwrite (encodeOverwrite gen data) = Ok (data, gen).
Proof.
  intros Hg. unfold decodeOverwrite. rewrite bool_decide_eq_false_2
    by (unfold encodeOverwrite, overwriteHeaderLen; simpl; autorewrite with len; lia).
  rewrite bool_decide_eq_false_2 by (intros H; by apply H).
  change (drop overwriteHeaderLen _) with (drop 8 (be_bytes 8 gen ++ data)).
  change (drop 1 _) with (be_bytes 8 gen ++ data).
  rewrite (drop_app_length' (be_bytes 8 gen)), (take_app_length' (be_bytes 8 gen))
    by (by rewrite length_be_bytes).
  by rewrite be_val_bytes, Z.mod_small.
Qed.

(** A cut overwrite file either has no readable header or the right one. *)
Lemma header_torn gen data n c : in_uint 64 gen -> c = take n (encodeOverwrite gen data) ->
  (length c < 9)%nat \/
  (nth 0 c Byte.x00 = overwriteVersion /\ be_val (take 8 (drop 1 c)) = gen).
Proof.
  intros Hg ->. destruct (decide (n < 9)%nat) as [Hn|Hn].
  { left. rewrite length_take. lia. }
  right. destruct n as [|n]; [lia|]. unfold encodeOverwrite. simpl. split; [done|].
  rewrite ?drop_0, take_take, (Nat.min_l 8) by lia.
  rewrite (take_app_length' (be_bytes 8 gen)) by (by rewrite length_be_bytes).
  by rewrite be_val_bytes, Z.mod_small.
Qed.

(** ** What each operation does to the disk, and what a crash inside it leaves *)
Lemma crash_req r d d' : crashes (req r) d d' -> torn r d d' \/ d' = effect r d.
Proof. intros H. inversion H; subst; [by left|]. inversion H4; subst. by right. Qed.

(** A request that a crash leaves done or not done. *)
Definition atomic_req (r : fsreq) : Prop :=
  match r with WriteFileSync _ _ | AppendSync _ _ => False | _ => True end.
Lemma torn_atomic r d d' : atomic_req r -> torn r d d' -> d' = d \/ d' = effect r d.
Proof. intros Ha H. inversion H; subst; simpl in *; tauto. Qed.

(** Invert a crash of a straight-line store operation. *)
Ltac inv_crash :=
  repeat match goal with
  | H : crashes (Ret _) _ _ |- _ => inversion H; subst; clear H
  | H : crashes (Do _ _) _ _ |- _ => inversion H; subst; clear H; simpl in *
  | H : torn _ _ _ |- _ => inversion H; subst; clear H; simpl in *
  end.

Ltac io_simpl :=
  cbv [mbind io_bind mret io_ret writeFileSync readFile syncDir req removeIfExists fail] in *;
  cbn [prog_bind] in *.
Ltac solve_torn :=
  first [ by left | right; by eexists | right; eexists (length _); by rewrite firstn_all ].

Lemma checkKey_ok key : validKey key = true -> checkKey key = mret tt.
Proof. unfold checkKey. by intros ->. Qed.

Lemma run_Stage dir key gen data d : validKey key = true ->
  run (overwrite_Stage dir key gen data) d
    = (Ok tt, <[store_path dir key tmpExt := encodeOverwrite gen data]> d).
Proof. intros Hk. unfold overwrite_Stage. by rewrite checkKey_ok by done. Qed.
Lemma crash_Stage dir key gen data d d' : validKey key = true ->
  crashes (overwrite_Stage dir key gen data) d d' ->
  d' = d \/ exists n, d' = <[store_path dir key tmpExt := take n (encodeOverwrite gen data)]> d.
Proof.
  intros Hk H. unfold overwrite_Stage in H. rewrite checkKey_ok in H by done. io_simpl.
  inv_crash; solve_torn.
Qed.

Lemma run_Append dir key gen payload d : validKey key = true ->
  let p := store_path dir key logExt in
  run (append_Append dir key gen payload) d
    = (Ok tt, <[p := default [] (d !! p) ++ encodeRecord gen payload]> d).
Proof.
  intros Hk. unfold append_Append. rewrite checkKey_ok by done. simpl. by case_bool_decide.
Qed.
Lemma crash_Append dir key gen payload d d' : validKey key = true ->
  let p := store_path dir key logExt in
  crashes (append_Append dir key gen payload) d d' ->
  d' = d \/ exists n, d' = <[p := default [] (d !! p) ++ take n (encodeRecord gen payload)]> d.
Proof.
  intros Hk p H. unfold append_Append in H. rewrite checkKey_ok in H by done. io_simpl. fold p in H.
  inv_crash; try case_bool_decide; inv_crash; solve_torn.
Qed.

(** The header of a staged file. *)
Definition header_of (c : option bytes) : Z * bool :=
  match c with
  | None => (0, false)
  | Some raw =>
      if bool_decide (length raw < overwriteHeaderLen)%nat then (0, false)
      else if bool_decide (nth 0 raw Byte.x00 <> overwriteVersion) then (0, false)
      else (be_val (take 8 (drop 1 raw)), true)
  end.
(** The staged file is the one of generation [g]. *)
Definition staged (g : Z) (c : option bytes) : bool := (header_of c).2 && ((header_of c).1 =? g).

Definition promote_disk (dir key : string) (g : Z) (d : disk) : disk :=
  let tmp := store_path dir key tmpExt in
  if staged g (d !! tmp)
  then effect (Rename tmp (store_path dir key fileExt)) d
  else delete tmp d.

Lemma run_readHeader p d : run (readOverwriteHeader p) d = (Ok (header_of (d !! p)), d).
Proof.
  unfold readOverwriteHeader, header_of. simpl. destruct (d !! p) as [c|]; simpl; [|done].
  by repeat case_bool_decide.
Qed.
Lemma crash_readHeader p d d' : crashes (readOverwriteHeader p) d d' -> d' = d.
Proof.
  unfold readOverwriteHeader. intros H. io_simpl. inv_crash; try done.
  destruct (d !! p) as [c|]; simpl in *; repeat case_bool_decide; by inv_crash.
Qed.

Lemma run_Promote dir key g d : validKey key = true ->
  run (overwrite_Promote dir key g) d = (Ok tt, promote_disk dir key g d).
Proof.
  intros Hk. unfold overwrite_Promote. rewrite checkKey_ok by done. io_simpl.
  rewrite run_bind, run_readHeader. cbn [fst snd].
  unfold promote_disk, staged. destruct (header_of _) as [gen valid]. simpl.
  destruct (valid && (gen =? g)); simpl; [done|]. by case_bool_decide.
Qed.
Lemma crash_Promote dir key g d d' : validKey key = true ->
  crashes (overwrite_Promote dir key g) d d' -> d' = d \/ d' = promote_disk dir key g d.
Proof.
  intros Hk H. unfold overwrite_Promote in H. rewrite checkKey_ok in H by done. io_simpl.
  apply crashes_bind in H as [H|H]; [left; by apply crash_readHeader in H|].
  rewrite run_readHeader in H. cbn [fst snd] in H.
  unfold promote_disk, staged. destruct (header_of _) as [gen valid]. simpl in *.
  destruct (valid && (gen =? g)); simpl in *; [inv_crash; auto|].
  inv_crash; auto; case_bool_decide; simpl in *; inv_crash; auto.
Qed.

#[local] Opaque trunc_loop load_loop.

Lemma run_Load_log dir key d : validKey key = true ->
  run (append_Load dir key) d =
    (Ok match d !! store_path dir key logExt with
        | None => ([], 0)
        | Some raw => load_loop (S (length raw)) raw 0 [] 0
        end, d).
Proof.
  intros Hk. unfold append_Load. rewrite checkKey_ok by done. simpl. by destruct (d !! _).
Qed.
Lemma crash_Load_log dir key d d' : validKey key = true ->
  crashes (append_Load dir key) d d' -> d' = d.
Proof.
  intros Hk H. unfold append_Load in H. rewrite checkKey_ok in H by done. io_simpl.
  inv_crash; auto. destruct (d !! store_path dir key logExt); by inv_crash.
Qed.

Definition truncate_disk (dir key : string) (g : Z) (d : disk) : disk :=
  let p := store_path dir key logExt in
  match d !! p with
  | None => d
  | Some raw => <[p := take (trunc_loop (S (length raw)) raw 0 0 g) raw]> d
  end.
Lemma run_Truncate dir key g d : validKey key = true ->
  run (append_Truncate dir key g) d = (Ok tt, truncate_disk dir key g d).
Proof.
  intros Hk. unfold append_Truncate, truncate_disk. rewrite checkKey_ok by done.
  io_simpl. cbn [run resp effect].
  destruct (d !! store_path dir key logExt) as [raw|] eqn:E; cbn [run resp effect]; [|done].
  case_bool_decide as H; cbn [run resp effect]; [|by rewrite E].
  by rewrite H, firstn_all, insert_id.
Qed.
Lemma crash_Truncate dir key g d d' : validKey key = true ->
  crashes (append_Truncate dir key g) d d' -> d' = d \/ d' = truncate_disk dir key g d.
Proof.
  intros Hk H. unfold append_Truncate, truncate_disk in *. rewrite checkKey_ok in H by done.
  io_simpl. inversion H as [|? ? ? ? Ht|? ? ? ? Hk2]; subst; [inv_crash; auto|]. cbn [resp effect] in Hk2.
  destruct (d !! store_path dir key logExt) as [raw|] eqn:E; [|inv_crash; auto].
  revert Hk2. generalize (trunc_loop (S (length raw)) raw 0 0 g). intros n Hk2.
  case_bool_decide; inversion Hk2 as [|? ? ? ? Ht|? ? ? ? Hk3]; subst; auto.
  - apply torn_atomic in Ht as [?|Ht]; [by left| |done]. right. simpl in Ht. by rewrite E in Ht.
  - inversion Hk3; subst. right. simpl. by rewrite E.
Qed.

Lemma run_Load dir key d : validKey key = true ->
  run (overwrite_Load dir key) d =
    (match d !! store_path dir key fileExt with
     | None => Ok None
     | Some raw => Some <$> decodeOverwrite raw
     end, d).
Proof.
  intros Hk. unfold overwrite_Load. rewrite checkKey_ok by done. simpl.
  destruct (d !! _) as [raw|]; simpl; [|done]. by destruct (decodeOverwrite raw).
Qed.
Lemma crash_Load dir key d d' : validKey key = true ->
  crashes (overwrite_Load dir key) d d' -> d' = d.
Proof.
  intros Hk H. unfold overwrite_Load in H. rewrite checkKey_ok in H by done. io_simpl.
  inv_crash; auto. destruct (d !! _) as [raw|]; simpl in *; [destruct (decodeOverwrite raw)|]; by inv_crash.
Qed.

Lemma run_Delete_log dir key d : validKey key = true ->
  run (append_Delete dir key) d = (Ok tt, delete (store_path dir key logExt) d).
Proof. intros Hk. unfold append_Delete. rewrite checkKey_ok by done. simpl. by case_bool_decide. Qed.
Lemma crash_Delete_log dir key d d' : validKey key = true -> crashes (append_Delete dir key) d d' ->
  d' = d \/ d' = delete (store_path dir key logExt) d.
Proof.
  intros Hk H. unfold append_Delete in H. rewrite checkKey_ok in H by done. io_simpl.
  inv_crash; auto; case_bool_decide; simpl in *; inv_crash; auto.
Qed.
Lemma run_Delete_slot dir key d : validKey key = true ->
  run (overwrite_Delete dir key) d
    = (Ok tt, delete (store_path dir key tmpExt) (delete (store_path dir key fileExt) d)).
Proof.
  intros Hk. unfold overwrite_Delete. rewrite checkKey_ok by done. simpl.
  by destruct (_ || _).
Qed.

(** ** A failed append is not rolled back

    [Append] leaves the bytes of a write that failed part-way (a full disk) in
    the file, and the next [Append] writes behind them. *)
Lemma no_record_torn_then r n tail : rec_ok r -> (4 <= n)%nat ->
  (n + length tail < length (enc_rec r))%nat -> no_record (take n (enc_rec r) ++ tail).
Proof.
  intros [Hp Hg] Hn Hl pre. unfold decodeRecordAt, recordHeaderLen, enc_rec in *.
  rewrite length_encodeRecord in Hl.
  rewrite !length_app, length_take, length_encodeRecord. case_bool_decide as H1; [done|].
  rewrite drop_app_length, (take_app_le _ _ 4) by (rewrite length_take, length_encodeRecord; lia).
  rewrite take_take, (Nat.min_l 4 n) by lia. unfold encodeRecord.
  rewrite (take_app_length' (be_bytes 4 _)) by (by rewrite length_be_bytes).
  rewrite record_length, bool_decide_eq_true_2 by (done || lia). done.
Qed.

(** After a write of a record [r] failed with at least its length field on
    disk, a record appended successfully behind it is not found by [Load] (as
    long as it is short enough to lie within what [r] announced): the log ends
    at the last record before the failure. *)
Theorem failed_append_hides dir key d recs r n g payload :
  validKey key = true -> Forall rec_ok recs -> rec_ok r -> (4 <= n)%nat ->
  (n + 16 + length payload < length (enc_rec r))%nat ->
  d !! store_path dir key logExt = Some (enc_log recs ++ take n (enc_rec r)) ->
  let d' := (run (append_Append dir key g payload) d).2 in
  (run (append_Append dir key g payload) d).1 = Ok tt /\
  (run (append_Load dir key) d').1 = Ok (recs, maxGenOf 0 recs).
Proof.
  intros Hk Hrecs Hr Hn Hlen Hd. cbv zeta. rewrite run_Append by done. split; [done|].
  cbn [snd]. rewrite run_Load_log, lookup_insert_eq, Hd by done. cbn [fst].
  change (default [] (Some ?x)) with x. rewrite <- app_assoc. f_equal.
  apply (load_loop_ok _ [] recs (take n (enc_rec r) ++ encodeRecord g payload) [] 0); [done|..].
  - apply no_record_torn_then; [done..|]. rewrite length_encodeRecord. lia.
  - pose proof (enc_log_length recs). rewrite length_app. lia.
Qed.

Lemma failed_append_hides_witness :
  let r := mkRec 2 (replicate 64 Byte.x07) in
  let d : disk := {[ ("seen", "a.log")%string := enc_log [mkRec 1 [Byte.x01]] ++ take 8 (enc_rec r) ]} in
  let d' := (run (append_Append "seen" "a" 3 [Byte.x02]) d).2 in
  (run (append_Append "seen" "a" 3 [Byte.x02]) d).1 = Ok tt /\
  (run (append_Load "seen" "a") d').1 = Ok ([mkRec 1 [Byte.x01]], 1).
Proof.
  intros r d d'. apply (failed_append_hides "seen" "a" d [mkRec 1 [Byte.x01]] r 8 3 [Byte.x02]).
  - vm_compute. reflexivity.
  - repeat constructor; vm_compute; congruence.
  - split; split; vm_compute; congruence.
  - lia.
  - vm_compute. lia.
  - vm_compute. reflexivity.
Defined.
