(* ===== verification/Coordinator.v ===== *)
(** * Checkpoint coordinator ([src/common/checkpoint/coordinator.go], [checkpoint.go])

    [Coordinator] commits a client's state, end-of-stream state and seen ids as
    one unit: it stages the two overwrite slots, appends one record to the seen
    log (the commit point) and promotes the slots.  The functions the
    coordinator calls on the worker are the records [Checkpointable] and
    [AppendSource], over any type [W] of worker memory. *)

From S2P Require Import Prelude Models Codec Disk Store.

(** ** [checkpoint.go]: three length-prefixed fields *)
Definition checkpointVersion : byte := Byte.x01.
Record Checkpoint := mkCheckpoint { CkDedup : bytes; CkEOF : bytes; CkState : bytes }.

Definition appendField (buf field : bytes) : bytes :=
  buf ++ be_bytes 4 (uint32 (Zlen field)) ++ field.
Definition readField (data : bytes) : res (bytes * bytes) :=
  if Zlen data <? 4 then Err (ErrMsg "truncated length prefix")
  else
    let n := be_val (take 4 data) in
    let data := drop 4 data in
    if uint32 (Zlen data) <? n then Err (ErrMsg "truncated field")
    else Ok (take (Z.to_nat n) data, drop (Z.to_nat n) data).

Definition Checkpoint_Encode (c : Checkpoint) : bytes :=
  appendField (appendField (appendField [checkpointVersion] (CkDedup c)) (CkEOF c)) (CkState c).
Definition Checkpoint_Decode (data : bytes) : res Checkpoint :=
  match data with
  | [] => Err (ErrMsg "checkpoint: empty data")
  | v :: rest =>
      if bool_decide (v <> checkpointVersion) then Err (ErrMsg "checkpoint: unsupported version")
      else
        '(dedup, rest) ← wrapf "checkpoint: dedup field" (readField rest);
        '(eof, rest) ← wrapf "checkpoint: eof field" (readField rest);
        '(state, _) ← wrapf "checkpoint: state field" (readField rest);
        Ok (mkCheckpoint dedup eof state)
  end.

(** ** What the coordinator calls *)
Record Checkpointable (W : Type) := mkCheckpointable {
  SnapshotClient : id16 -> M W bytes;
  RestoreClient : id16 -> bytes -> M W unit
}.
Arguments SnapshotClient {W} _ _.
Arguments RestoreClient {W} _ _ _.
Record AppendSource (W : Type) := mkAppendSource {
  DrainClient : id16 -> M W bytes;
  CommitClient : id16 -> M W unit;
  ReplayClient : id16 -> bytes -> M W unit
}.
Arguments DrainClient {W} _ _.
Arguments CommitClient {W} _ _.
Arguments ReplayClient {W} _ _ _.

(** The fixed fields of [Coordinator] ([coDir] is the argument of
    [NewCoordinator], which also raises an interval below 1 to 1)... *)
Record CoConfig (W : Type) := mkCoConfig {
  coDir : string;
  coSeen : AppendSource W;
  coEof : option (Checkpointable W);
  coState : option (Checkpointable W);
  coInterval : Z
}.
Arguments coDir {W} _.
Arguments coSeen {W} _.
Arguments coEof {W} _.
Arguments coState {W} _.
Arguments coInterval {W} _.
Definition NewCoordinator {W} (dir : string) (seen : AppendSource W)
    (eof state : option (Checkpointable W)) (interval : Z) : CoConfig W :=
  mkCoConfig W dir seen eof state (if interval <? 1 then 1 else interval).

(** ... and the changing ones, together with the memory they are shared with. *)
Record Co (W : Type) := mkCo {
  coDirty : gset id16;
  coAcks : list (W -> W);
  coPending : Z;
  coGen : gmap id16 Z;
  coMem : W
}.
Arguments mkCo {W} _ _ _ _ _.
Arguments coDirty {W} _.
Arguments coAcks {W} _.
Arguments coPending {W} _.
Arguments coGen {W} _.
Arguments coMem {W} _.
Definition newCo {W} (w : W) : Co W := mkCo ∅ [] 0 ∅ w.

Definition setGen {W} (id : id16) (g : Z) (s : Co W) : Co W :=
  mkCo (coDirty s) (coAcks s) (coPending s) (<[id := g]> (coGen s)) (coMem s).
Definition setMem {W} (w : W) (s : Co W) : Co W :=
  mkCo (coDirty s) (coAcks s) (coPending s) (coGen s) w.

(** Run a function of the worker on its memory. *)
Definition onMem {W A} (m : M W A) : D (Co W) A := fun s =>
  let (r, w) := m (coMem s) in Ret (r, setMem w s).
Definition wrapM {S A} (ctx : string) (m : M S A) : M S A := fun s =>
  let (r, s') := m s in (wrapf ctx r, s').

Section Coordinator.
Context `{!UuidLib, !GoRange} {W : Type} (co : CoConfig W).

Definition seenDir : string := (coDir co +:+ "/seen")%string.
Definition eofDir : string := (coDir co +:+ "/eof")%string.
Definition stateDir : string := (coDir co +:+ "/state")%string.

(** [if co.state != nil { snapshot; Stage }], and the same for [co.eof]. *)
Definition stageSlot (ctx dir : string) (src : option (Checkpointable W)) (id : id16) (gen : Z)
    : D (Co W) unit :=
  match src with
  | None => mret tt
  | Some src =>
      data ← onMem (wrapM ctx (SnapshotClient src id));
      liftIO (overwrite_Stage dir (uuid_String id) gen data)
  end.
Definition promoteSlot (dir : string) (src : option (Checkpointable W)) (id : id16) (gen : Z)
    : D (Co W) unit :=
  match src with
  | None => mret tt
  | Some _ => liftIO (overwrite_Promote dir (uuid_String id) gen)
  end.

Definition checkpoint (id : id16) : D (Co W) unit :=
  s ← getD;
  let gen := uint64 (default 0 (coGen s !! id) + 1) in
  _ ← stageSlot "snapshot state" stateDir (coState co) id gen;
  _ ← stageSlot "snapshot eof" eofDir (coEof co) id gen;
  delta ← onMem (wrapM "drain seen" (DrainClient (coSeen co) id));
  _ ← liftIO (append_Append seenDir (uuid_String id) gen delta);
  _ ← modD (setGen id gen);
  _ ← onMem (wrapM "commit seen" (CommitClient (coSeen co) id));
  _ ← promoteSlot stateDir (coState co) id gen;
  promoteSlot eofDir (coEof co) id gen.

Fixpoint forD {S A} (l : list A) (f : A -> D S unit) : D S unit :=
  match l with
  | [] => mret tt
  | x :: l' => _ ← f x; forD l' f
  end.

(** The client sets and the acks are taken out before the checkpoints run: an
    error leaves them dropped. *)
Definition Flush : D (Co W) unit :=
  s ← getD;
  _ ← modD (fun s => mkCo ∅ [] 0 (coGen s) (coMem s));
  _ ← forD (range (elements (coDirty s))) checkpoint;
  forD (coAcks s) (fun ack => modD (fun s => setMem (ack (coMem s)) s)).

Definition Track (id : id16) (ack : W -> W) : D (Co W) unit :=
  _ ← modD (fun s =>
    mkCo (if decide (id = zero16) then coDirty s else {[id]} ∪ coDirty s)
      (coAcks s ++ [ack]) (int64 (coPending s + 1)) (coGen s) (coMem s));
  s ← getD;
  if coInterval co <=? coPending s then Flush else mret tt.

Definition SaveClient (id : id16) : D (Co W) unit := checkpoint id.

(** The generation stored with the data is not compared with [committedGen]. *)
Definition restoreOverwrite (dir : string) (src : Checkpointable W) (id : id16) (key : string)
    (committedGen : Z) : D (Co W) unit :=
  _ ← liftIO (overwrite_Promote dir key committedGen);
  r ← liftIO (overwrite_Load dir key);
  match r with
  | None => mret tt
  | Some (data, _) => onMem (RestoreClient src id data)
  end.

Definition wrapD {S A} (ctx : string) (m : D S A) : D S A := fun s =>
  prog_bind (m s) (fun rs => Ret (wrapf ctx rs.1, rs.2)).

Definition restoreSlot (ctx dir : string) (src : option (Checkpointable W)) (id : id16)
    (key : string) (gen : Z) : D (Co W) unit :=
  match src with
  | None => mret tt
  | Some src => wrapD ctx (restoreOverwrite dir src id key gen)
  end.

(** The body of the loop of [Recover]. *)
Definition recoverKey (key : string) : D (Co W) unit :=
  match uuid_Parse key with
  | None => mret tt
  | Some id =>
      '(recs, committedGen) ← wrapD "recover seen" (liftIO (append_Load seenDir key));
      _ ← wrapD "recover truncate seen" (liftIO (append_Truncate seenDir key committedGen));
      _ ← restoreSlot "recover state" stateDir (coState co) id key committedGen;
      _ ← restoreSlot "recover eof" eofDir (coEof co) id key committedGen;
      _ ← forD recs (fun r =>
        onMem (wrapM "recover replay seen" (ReplayClient (coSeen co) id (RPayload r))));
      modD (setGen id committedGen)
  end.

Definition Recover : D (Co W) unit :=
  keys ← liftIO (listKeys seenDir logExt);
  forD keys recoverKey.

Definition Delete (id : id16) : D (Co W) unit :=
  let key := uuid_String id in
  _ ← liftIO (append_Delete seenDir key);
  _ ← (if coEof co then liftIO (overwrite_Delete eofDir key) else mret tt);
  _ ← (if coState co then liftIO (overwrite_Delete stateDir key) else mret tt);
  modD (fun s => mkCo (coDirty s ∖ {[id]}) (coAcks s) (coPending s) (delete id (coGen s)) (coMem s)).
End Coordinator.
