(* ===== verification/CrashSafety.v ===== *)
(** * Crash safety of checkpoints

    A client's checkpoint on disk is five files.  [durable] says which
    checkpoint (a [View]) the files hold, whatever a crash interrupted;
    [clean] is the stronger state between two checkpoints.  Triples [cht] carry
    a precondition, a postcondition and a condition on every crash. *)

From S2P Require Import Prelude Models Codec Disk Store Coordinator.

(** ** Crash triples *)
Definition cht {A : Type} (P : disk -> Prop) (m : prog A) (Q : A -> disk -> Prop) (C : disk -> Prop) : Prop :=
  forall d, P d -> Q (run m d).1 (run m d).2 /\ forall d', crashes m d d' -> C d'.

Lemma cht_ret {A : Type} (P : disk -> Prop) (a : A) (Q : A -> disk -> Prop) (C : disk -> Prop) :
  (forall d, P d -> Q a d /\ C d) -> cht P (Ret a) Q C.
Proof.
  intros H d HP. split; [by apply H|]. intros d' Hc. inversion Hc; subst. by apply H.
Qed.
Lemma cht_weaken {A : Type} P P' (m : prog A) Q Q' C C' :
  cht P m Q C -> (forall d, P' d -> P d) -> (forall a d, Q a d -> Q' a d) -> (forall d, C d -> C' d) ->
  cht P' m Q' C'.
Proof.
  intros H HP HQ HC d Hd. destruct (H d (HP d Hd)) as [H1 H2]. split; [by apply HQ|].
  intros d' Hc. by apply HC, H2.
Qed.
(** A step of a worker with a known outcome: an error ends the function there. *)
Lemma cht_step {S A B : Type} P P1 (m : D S A) (f : A -> D S B) Q C s r s1 :
  cht P (m s) (fun rs d => rs = (r, s1) /\ P1 d) C ->
  match r with
  | Ok a => cht P1 (f a s1) Q C
  | Err e => forall d, P1 d -> Q (Err e, s1) d /\ C d
  | Panic p => forall d, P1 d -> Q (Panic p, s1) d /\ C d
  end -> cht P ((m ≫= f) s) Q C.
Proof.
  intros Hm Hf d Hd. destruct (Hm d Hd) as [[H1 H2] H3]. unfold mbind, D_bind.
  assert (forall d', crashes (prog_bind (m s) (fun rs => match rs with
      | (Ok a, s') => f a s' | (Err e, s') => Ret (Err e, s') | (Panic p, s') => Ret (Panic p, s')
      end)) d d' -> crashes (m s) d d' \/ crashes (match r with
      | Ok a => f a s1 | Err e => Ret (Err e, s1) | Panic p => Ret (Panic p, s1)
      end) (run (m s) d).2 d') as Hcr.
  { intros d' Hc. apply crashes_bind in Hc as [?|Hc]; [by left|]. right. rewrite H1 in Hc. by destruct r. }
  rewrite run_bind, H1. destruct r as [a|e|p]; [split; [by apply Hf|]|split; [by apply Hf|]..];
    intros d' Hc; apply Hcr in Hc as [?|Hc]; eauto; [by eapply (Hf _ H2)|inversion Hc; subst; by apply Hf..].
Qed.
Lemma cht_onMem {S A : Type} P (m : M S A) (s : Co S) r w C :
  m (coMem s) = (r, w) -> (forall d, P d -> C d) ->
  cht P (onMem m s) (fun rs d => rs = (r, setMem w s) /\ P d) C.
Proof. intros E HC. unfold onMem. rewrite E. apply cht_ret. auto. Qed.
Lemma cht_liftIO {S A : Type} P P1 (m : io A) (s : S) r C :
  cht P m (fun r' d => r' = r /\ P1 d) C -> (forall d, P1 d -> C d) ->
  cht P (liftIO m s) (fun rs d => rs = (r, s) /\ P1 d) C.
Proof.
  intros H HC d Hd. destruct (H d Hd) as [[H1 H2] H3]. rewrite run_liftIO, H1. split; [done|].
  intros d' Hc. apply crashes_liftIO in Hc as [Hc| ->]; eauto.
Qed.

(** ** The files of a client *)
Inductive file := FLog | FTmp (b : bool) | FCk (b : bool).
#[global] Instance file_eq_dec : EqDecision file.
Proof. solve_decision. Defined.

(** A slot is the state ([true]) or the end-of-stream state ([false]). *)
Record View := mkView { vRecs : list Rec; vSlot : bool -> option bytes }.
Definition vGen (v : View) : Z := maxGenOf 0 (vRecs v).

Lemma validKey_uuid {UL : UuidLib} u : validKey (uuid_String u) = true.
Proof.
  unfold validKey. pose proof (uuid_String_chars u) as Hc. apply andb_true_intro. split.
  - apply negb_true_iff, bool_decide_eq_false_2.
    intros [E|[E|E]]; [by apply (uuid_String_nonempty u)|..]; rewrite E in Hc;
      apply Forall_inv in Hc; naive_solver.
  - apply forallb_forall. intros b Hb. apply negb_true_iff, bool_decide_eq_false_2.
    rewrite List.Forall_forall in Hc. destruct (Hc b Hb). naive_solver.
Qed.

#[global] Instance uuid_String_inj {UL : UuidLib} : Inj (=) (=) uuid_String.
Proof.
  intros u u2 E. apply (f_equal uuid_Parse) in E. rewrite !uuid_Parse_String in E. congruence.
Qed.

Section Paths.
Context {UL : UuidLib} {W : Type} (co : CoConfig W).

Definition slotDir (b : bool) : string := if b then stateDir co else eofDir co.
Definition slotSrc (b : bool) : option (Checkpointable W) := if b then coState co else coEof co.
Definition has (b : bool) : bool := if slotSrc b then true else false.

Definition fileDir (f : file) : string :=
  match f with FLog => seenDir co | FTmp b | FCk b => slotDir b end.
Definition ext (f : file) : string :=
  match f with FLog => logExt | FTmp _ => tmpExt | FCk _ => fileExt end.
Definition path_of (f : file) (key : string) : string * string := store_path (fileDir f) key (ext f).

Lemma fileDir_inj f f' : fileDir f = fileDir f' -> ext f = ext f' -> f = f'.
Proof.
  unfold fileDir, slotDir, seenDir, stateDir, eofDir.
  destruct f as [|[]|[]], f' as [|[]|[]]; try done; intros H ?;
    apply (inj (String.append _)) in H; done.
Qed.
Lemma key_ext_inj k k' f f' : k +:+ ext f = k' +:+ ext f' -> k = k' /\ ext f = ext f'.
Proof.
  intros H. assert (ext f = ext f') as He.
  { destruct f, f'; try done; exfalso; apply (f_equal (last ∘ str_bytes)) in H; simpl in H;
      rewrite !str_bytes_app in H; by rewrite !last_app in H. }
  split; [|done]. rewrite He in H. apply (f_equal str_bytes) in H. rewrite !str_bytes_app in H.
  apply app_inv_tail in H. by apply (inj str_bytes).
Qed.
Lemma path_of_inj f f' k k' : path_of f k = path_of f' k' -> f = f' /\ k = k'.
Proof.
  unfold path_of, store_path. intros [= Hd Hk]. apply key_ext_inj in Hk as [-> He].
  split; [|done]. by apply fileDir_inj.
Qed.
Lemma path_of_ne f f' k k' : f <> f' \/ k <> k' -> path_of f k <> path_of f' k'.
Proof. intros H He. apply path_of_inj in He. naive_solver. Qed.
End Paths.

(** ** What the files hold *)
Definition commitView (v : View) (delta : bytes) (st : bool -> option bytes) : View :=
  mkView (vRecs v ++ [mkRec (vGen v + 1) delta]) st.

Lemma maxGenOf_app g l k : maxGenOf g (l ++ k) = maxGenOf (maxGenOf g l) k.
Proof. unfold maxGenOf. by rewrite fmap_app, fold_left_app. Qed.
Lemma vGen_commit v delta st : vGen (commitView v delta st) = vGen v + 1.
Proof. unfold vGen, commitView. simpl. rewrite maxGenOf_app.
  change (Z.max (vGen v) (vGen v + 1) = vGen v + 1). lia. Qed.

Definition file_is (c o : option bytes) : Prop :=
  match o with
  | None => c = None
  | Some data => exists g, in_uint 64 g /\ c = Some (encodeOverwrite g data)
  end.
(** A slot is read from its staged file when that is of generation [g]. *)
Definition slot_is (g : Z) (tmp ck o : option bytes) : Prop :=
  if staged g tmp then 0 < g /\ exists data, tmp = Some (encodeOverwrite g data) /\ o = Some data
  else file_is ck o.

Lemma staged_self g data : in_uint 64 g -> staged g (Some (encodeOverwrite g data)) = true.
Proof.
  intros Hg. unfold staged, header_of. pose proof (decode_encodeOverwrite g data Hg) as Hd.
  unfold decodeOverwrite in Hd. repeat case_bool_decide; try done. simpl. injection Hd as [= Hd].
  by apply Z.eqb_eq.
Qed.
(** A write of a later generation, however cut, is not taken for this one. *)
Lemma staged_torn g data n : in_uint 64 (g + 1) ->
  staged g (Some (take n (encodeOverwrite (g + 1) data))) = false.
Proof.
  intros Hg. unfold staged, header_of.
  destruct (header_torn (g + 1) data n _ Hg eq_refl) as [Hl|[Hv Hb]].
  - by rewrite bool_decide_eq_true_2.
  - case_bool_decide; [done|]. rewrite Hv, bool_decide_eq_false_2 by naive_solver. simpl.
    rewrite Hb. apply Z.eqb_neq. lia.
Qed.

Section Safety.
Context {UL : UuidLib} {GR : GoRange} {W : Type} (co : CoConfig W) (id : id16).

Definition at_file (f : file) (d : disk) : option bytes := d !! path_of co f (uuid_String id).

Definition log_is (tail : bytes) (v : View) (d : disk) : Prop :=
  at_file FLog d = Some (enc_log (vRecs v) ++ tail)
  \/ (at_file FLog d = None /\ vRecs v = [] /\ tail = []).
Definition holds (tail : bytes) (v : View) (d : disk) : Prop :=
  log_is tail v d /\ Forall rec_ok (vRecs v) /\ in_uint 64 (vGen v) /\
  forall b, has co b = true -> slot_is (vGen v) (at_file (FTmp b) d) (at_file (FCk b) d) (vSlot v b).
Definition durable (v : View) (d : disk) : Prop := exists tail, no_record tail /\ holds tail v d.
Definition unstaged (v : View) (b : bool) (d : disk) : Prop :=
  has co b = true -> staged (vGen v) (at_file (FTmp b) d) = false.
Definition clean (v : View) (d : disk) : Prop := holds [] v d /\ forall b, unstaged v b d.

Lemma holds_durable v d : holds [] v d -> durable v d.
Proof. exists []. split; [apply no_record_nil|done]. Qed.
Lemma clean_durable v d : clean v d -> durable v d.
Proof. intros [H _]. by apply holds_durable. Qed.

Lemma at_insert f f' x d :
  at_file f (<[path_of co f' (uuid_String id) := x]> d) = if decide (f' = f) then Some x else at_file f d.
Proof.
  unfold at_file. case_decide as Hd; [subst; apply lookup_insert_eq|].
  apply lookup_insert_ne. apply path_of_ne. by left.
Qed.
Lemma at_delete f f' d :
  at_file f (delete (path_of co f' (uuid_String id)) d) = if decide (f' = f) then None else at_file f d.
Proof.
  unfold at_file. case_decide as Hd; [subst; apply lookup_delete_eq|].
  apply lookup_delete_ne. apply path_of_ne. by left.
Qed.

(** A property that a write to file [f] does not change. *)
Definition frame (f : file) (Fr : disk -> Prop) : Prop :=
  forall d d', (forall f', f' <> f -> at_file f' d' = at_file f' d) -> Fr d -> Fr d'.

(** The staged file of slot [b] holds [o] for the next generation. *)
Definition stg (v : View) (b : bool) (o : option bytes) (d : disk) : Prop :=
  has co b = true -> exists data, o = Some data /\
    at_file (FTmp b) d = Some (encodeOverwrite (vGen v + 1) data).

(** A write to a staged file that is not taken for the current generation. *)
Lemma clean_stage v b x d :
  clean v d -> staged (vGen v) (Some x) = false ->
  clean v (<[path_of co (FTmp b) (uuid_String id) := x]> d).
Proof.
  intros [(Hl & Hr & Hg & Hs) Hu] Hx. split; [split_and!; try done|].
  - unfold log_is. by rewrite !at_insert.
  - intros b' Hb. specialize (Hs b' Hb). unfold slot_is in *. rewrite !at_insert.
    case_decide as E; simplify_eq; rewrite ?(decide_False (P := FTmp _ = FCk _)) by done; [|done].
    rewrite Hx. by rewrite (Hu b' Hb) in Hs.
  - intros b' Hb. rewrite at_insert. case_decide; [done|]. by apply Hu.
Qed.

(** [SnapshotClient] of an optional source. *)
Definition snapO (ctx : string) (b : bool) : M W (option bytes) :=
  match slotSrc co b with
  | None => mret None
  | Some src => data ← wrapM ctx (SnapshotClient src id); mret (Some data)
  end.

Lemma setMem_id (s : Co W) : setMem (coMem s) s = s.
Proof. by destruct s. Qed.

Lemma stage_cht ctx b v s Fr r w :
  in_uint 64 (vGen v + 1) -> frame (FTmp b) Fr -> snapO ctx b (coMem s) = (r, w) ->
  cht (fun d => clean v d /\ Fr d)
    (stageSlot ctx (slotDir co b) (slotSrc co b) id (vGen v + 1) s)
    (fun rs d => clean v d /\ Fr d /\ rs = ((fun _ => tt) <$> r, setMem w s) /\
                 match r with Ok o => stg v b o d | _ => True end)
    (durable v).
Proof.
  intros Hg HF Hsnap. unfold snapO in Hsnap. unfold stg, has. unfold stageSlot. revert Hsnap.
  destruct (slotSrc co b) as [src|] eqn:Hsrc; intros Hsnap.
  2: { injection Hsnap as <- <-. rewrite setMem_id. apply cht_ret. intros d [Hc Hf].
       split_and!; try done. by apply clean_durable. }
  unfold mbind at 1, M_bind in Hsnap. destruct (wrapM ctx (SnapshotClient src id) (coMem s)) as [r0 w0] eqn:E.
  intros d [Hc Hf]. unfold mbind, D_bind, onMem. rewrite E. cbn [prog_bind].
  destruct r0 as [data|e|p]; injection Hsnap as <- <-; cbn [prog_bind].
  2,3: split; [by split_and!|]; intros d' Hcr; inversion Hcr; subst; by apply clean_durable.
  set (d1 := <[path_of co (FTmp b) (uuid_String id) := encodeOverwrite (vGen v + 1) data]> d).
  assert (forall n, clean v (<[path_of co (FTmp b) (uuid_String id) :=
    take n (encodeOverwrite (vGen v + 1) data)]> d)) as Ht.
  { intros n. apply clean_stage; [done|]. by apply staged_torn. }
  assert (clean v d1) as H1.
  { specialize (Ht (length (encodeOverwrite (vGen v + 1) data))). by rewrite firstn_all in Ht. }
  pose proof (run_Stage (slotDir co b) (uuid_String id) (vGen v + 1) data d (validKey_uuid id)) as Hrun.
  split.
  - rewrite run_liftIO, Hrun. cbn [fst snd]. split_and!; try done.
    + apply (HF d d1); [|done]. intros f' Hf'. unfold d1. by rewrite at_insert, decide_False.
    + intros _. exists data. split; [done|].
      change (at_file (FTmp b) d1 = Some (encodeOverwrite (vGen v + 1) data)).
      unfold d1. by rewrite at_insert, decide_True.
  - intros d' Hcr. apply crashes_liftIO in Hcr as [Hcr| ->]; [|rewrite Hrun; by apply clean_durable].
    apply crash_Stage in Hcr as [->|[n ->]]; [by apply clean_durable| |apply validKey_uuid].
    by apply clean_durable, Ht.
Qed.

(** A change of one file leaves the slots that do not use it alone. *)
Lemma holds_log tail tail' v v' c d :
  holds tail v d -> Forall rec_ok (vRecs v') -> in_uint 64 (vGen v') ->
  (vGen v' = vGen v /\ vSlot v' = vSlot v \/ 0 < vGen v' /\
   forall b, has co b = true -> exists data, vSlot v' b = Some data /\
     at_file (FTmp b) d = Some (encodeOverwrite (vGen v') data)) ->
  c = enc_log (vRecs v') ++ tail' ->
  holds tail' v' (<[path_of co FLog (uuid_String id) := c]> d).
Proof.
  intros (Hl & _ & _ & Hs) Hr Hg Hslots ->. split_and!; try done.
  - left. by rewrite at_insert, decide_True.
  - intros b Hb. rewrite !at_insert, !(decide_False (P := FLog = _)) by done.
    destruct Hslots as [[-> ->]|[Hpos Hst]]; [by apply Hs|].
    destruct (Hst b Hb) as (data & -> & ->). unfold slot_is. rewrite staged_self by done. eauto.
Qed.

Lemma append_cht v delta st :
  in_uint 64 (vGen v + 1) -> in_uint 32 (Zlen delta) ->
  let v' := commitView v delta st in
  cht (fun d => clean v d /\ stg v true (st true) d /\ stg v false (st false) d)
    (append_Append (seenDir co) (uuid_String id) (vGen v + 1) delta)
    (fun r d => r = Ok tt /\ holds [] v' d)
    (fun d => durable v d \/ durable v' d).
Proof.
  intros Hg Hd v' d (Hc & Hst & Hsf). pose proof Hc as [Hh _].
  pose proof Hh as (Hl & Hr & Hgv & _).
  assert (default [] (at_file FLog d) = enc_log (vRecs v)) as Hlog.
  { destruct Hl as [->|(-> & -> & _)]; [apply app_nil_r|done]. }
  set (r := mkRec (vGen v + 1) delta). assert (rec_ok r) as Hrec by done.
  assert (Forall rec_ok (vRecs v')) as Hr' by (apply Forall_app; auto).
  assert (vGen v' = vGen v + 1) as Hg' by apply vGen_commit.
  assert (holds [] v' (<[path_of co FLog (uuid_String id) := enc_log (vRecs v) ++ enc_rec r]> d)) as Hnew.
  { apply (holds_log [] [] v v' _ d Hh Hr'); [by rewrite Hg'| |].
    - right. rewrite Hg'. split; [unfold in_uint in Hgv; lia|]. intros [] Hb; [apply Hst|apply Hsf]; done.
    - unfold v', commitView. simpl. rewrite enc_log_app. simpl. by rewrite !app_nil_r. }
  rewrite run_Append by apply validKey_uuid. split.
  - cbn [fst snd]. split; [done|].
    change (store_path _ _ _) with (path_of co FLog (uuid_String id)). fold (at_file FLog d).
    rewrite Hlog. exact Hnew.
  - intros d' Hcr. apply crash_Append in Hcr as [->|[n ->]]; [|..|apply validKey_uuid].
    { left. by apply clean_durable. }
    change (store_path _ _ _) with (path_of co FLog (uuid_String id)). fold (at_file FLog d).
    rewrite Hlog. change (encodeRecord _ _) with (enc_rec r).
    destruct (decide (n < length (enc_rec r))%nat) as [Hn|Hn].
    + left. exists (take n (enc_rec r)). split; [by apply no_record_torn|].
      eapply (holds_log [] _ v v); eauto.
    + right. rewrite take_ge by lia. by apply holds_durable.
Qed.

Lemma promote_at v b d :
  holds [] v d -> let d' := promote_disk (slotDir co b) (uuid_String id) (vGen v) d in
  has co b = true ->
  holds [] v d' /\ unstaged v b d' /\
  forall f', f' <> FTmp b -> f' <> FCk b -> at_file f' d' = at_file f' d.
Proof.
  intros Hh d' Hb. pose proof Hh as (Hl & Hr & Hg & Hs).
  assert (exists x, d' = match x with
    | Some data => <[path_of co (FCk b) (uuid_String id) := encodeOverwrite (vGen v) data]>
                     (delete (path_of co (FTmp b) (uuid_String id)) d)
    | None => delete (path_of co (FTmp b) (uuid_String id)) d
    end /\ match x with
    | Some data => vSlot v b = Some data
    | None => file_is (at_file (FCk b) d) (vSlot v b)
    end) as (x & -> & Hx).
  { specialize (Hs b Hb). unfold d', promote_disk, slot_is in *.
    change (store_path _ _ tmpExt) with (path_of co (FTmp b) (uuid_String id)).
    change (store_path _ _ fileExt) with (path_of co (FCk b) (uuid_String id)).
    fold (at_file (FTmp b) d). destruct (staged _ _); [|by exists None].
    destruct Hs as (_ & data & Ht & Hv). exists (Some data). unfold effect. unfold at_file in Ht.
    by rewrite Ht. }
  assert (forall f', at_file f' (match x with
    | Some data => <[path_of co (FCk b) (uuid_String id) := encodeOverwrite (vGen v) data]>
                     (delete (path_of co (FTmp b) (uuid_String id)) d)
    | None => delete (path_of co (FTmp b) (uuid_String id)) d
    end) = if decide (f' = FTmp b) then None else if decide (f' = FCk b)
           then match x with Some data => Some (encodeOverwrite (vGen v) data) | None => at_file f' d end
           else at_file f' d) as Hat.
  { intros f'. destruct x; rewrite ?at_insert, at_delete; repeat case_decide; naive_solver. }
  split_and!; [split_and!; try done| |].
  - unfold log_is in *. by rewrite Hat.
  - intros b' Hb'. rewrite !Hat. destruct (decide (FTmp b' = FTmp b)) as [[= ->]|].
    + rewrite (decide_False (P := FCk b = FTmp b)), decide_True by done. unfold slot_is. simpl.
      destruct x; [rewrite Hx; by eexists|done].
    + rewrite !decide_False by naive_solver. by apply Hs.
  - intros _. by rewrite Hat, decide_True.
  - intros f' H1 H2. by rewrite Hat, !decide_False.
Qed.

Lemma promote_cht v b (s : Co W) Fr :
  (forall d d', (forall f', f' <> FTmp b -> f' <> FCk b -> at_file f' d' = at_file f' d) -> Fr d -> Fr d') ->
  cht (fun d => holds [] v d /\ Fr d)
    (promoteSlot (slotDir co b) (slotSrc co b) id (vGen v) s)
    (fun rs d => rs = (Ok tt, s) /\ holds [] v d /\ Fr d /\ unstaged v b d)
    (durable v).
Proof.
  intros HF. unfold promoteSlot. destruct (slotSrc co b) as [src|] eqn:Hsrc.
  2: { apply cht_ret. intros d [Hh Hf]. split; [split_and!; try done|by apply holds_durable].
       unfold unstaged, has. by rewrite Hsrc. }
  assert (has co b = true) as Hb by (unfold has; by rewrite Hsrc).
  intros d [Hh Hf]. destruct (promote_at v b d Hh Hb) as (H1 & H2 & H3).
  rewrite run_liftIO, run_Promote by apply validKey_uuid. split; [split_and!; eauto|].
  intros d' Hcr. apply crashes_liftIO in Hcr as [Hcr| ->];
    [apply crash_Promote in Hcr as [->| ->]; [..|apply validKey_uuid]|rewrite run_Promote by apply validKey_uuid];
    by apply holds_durable.
Qed.

(** Everything a checkpoint saves, read from the worker before the commit. *)
Definition gather : M W ((bool -> option bytes) * bytes) :=
  st ← snapO "snapshot state" true;
  eo ← snapO "snapshot eof" false;
  delta ← wrapM "drain seen" (DrainClient (coSeen co) id);
  mret (fun b : bool => if b then st else eo, delta).

Definition commits : Prop :=
  forall w, exists w', CommitClient (coSeen co) id w = (Ok tt, w').

(** The outcome of [checkpoint] for the view [v] it starts from. *)
Definition checkpoint_post (v : View) (s : Co W) (r : res ((bool -> option bytes) * bytes)) (w : W)
    (rs : res unit * Co W) (d : disk) : Prop :=
  match r with
  | Ok (st, delta) =>
      rs = (Ok tt, setMem (CommitClient (coSeen co) id w).2 (setGen id (vGen v + 1) s)) /\
      clean (commitView v delta st) d
  | Err e => rs = (Err e, setMem w s) /\ clean v d
  | Panic p => rs = (Panic p, setMem w s) /\ clean v d
  end.
Definition checkpoint_crash (v : View) (r : res ((bool -> option bytes) * bytes)) (d : disk) : Prop :=
  durable v d \/ exists st delta, r = Ok (st, delta) /\ durable (commitView v delta st) d.

Lemma frame_stg v b o : frame (FTmp (negb b)) (stg v b o).
Proof.
  intros d d' Hd Hs Hb. destruct (Hs Hb) as (data & ? & ?). exists data. split; [done|].
  rewrite Hd; [done|]. by destruct b.
Qed.

(** The second half of a checkpoint: the record of the log commits it. *)
Lemma commit_cht v s st delta w : in_uint 64 (vGen v + 1) -> commits -> in_uint 32 (Zlen delta) ->
  cht (fun d => clean v d /\ stg v true (st true) d /\ stg v false (st false) d)
    ((_ ← liftIO (append_Append (seenDir co) (uuid_String id) (vGen v + 1) delta);
      _ ← modD (setGen id (vGen v + 1));
      _ ← onMem (wrapM "commit seen" (CommitClient (coSeen co) id));
      _ ← promoteSlot (stateDir co) (coState co) id (vGen v + 1);
      promoteSlot (eofDir co) (coEof co) id (vGen v + 1)) (setMem w s))
    (checkpoint_post v s (Ok (st, delta)) w) (checkpoint_crash v (Ok (st, delta))).
Proof.
  intros Hg Hcommit Hlen. pose proof (append_cht v delta st Hg Hlen) as H4. set (v' := commitView v delta st) in *.
  assert (forall d, durable v' d -> checkpoint_crash v (Ok (st, delta)) d) as Hnew.
  { intros d Hd. right. by exists st, delta. }
  eapply (cht_step _ (holds [] v') _ _ _ _ _ (Ok tt)).
  { apply cht_liftIO; [|by intros; apply Hnew, holds_durable].
    eapply cht_weaken; [exact H4|done|done|]. intros d [?|?]; [by left|by apply Hnew]. }
  cbn beta iota. eapply (cht_step _ (holds [] v') _ _ _ _ _ (Ok tt)).
  { apply cht_ret. intros d Hd. split; [done|]. by apply Hnew, holds_durable. }
  cbn beta iota. destruct (Hcommit w) as [w' E].
  eapply cht_step; [apply (cht_onMem _ _ _ (Ok tt) w')|].
  { unfold wrapM. simpl. by rewrite E. }
  { intros d Hd. by apply Hnew, holds_durable. }
  cbn beta iota. eapply (cht_step _ (fun d => holds [] v' d /\ unstaged v' true d) _ _ _ _ _ (Ok tt)).
  { rewrite <- (vGen_commit v delta st). fold v'.
    eapply cht_weaken; [apply (promote_cht v' true _ (fun _ => True)); done|done| |done].
    intros rs d (-> & ? & _ & ?). eauto. }
  cbn beta iota. rewrite <- (vGen_commit v delta st). fold v'.
  eapply cht_weaken; [apply (promote_cht v' false _ (unstaged v' true))|done| |done].
  - intros d d' Hd Hu Hb. rewrite Hd by done. by apply Hu.
  - intros rs d (-> & Hh & Hu1 & Hu2). unfold checkpoint_post. split; [|by split; [|intros []]].
    rewrite E. unfold v'. by rewrite vGen_commit.
Qed.

Lemma checkpoint_cht v s r w :
  default 0 (coGen s !! id) = vGen v -> in_uint 64 (vGen v + 1) -> commits ->
  gather (coMem s) = (r, w) ->
  (forall st delta, r = Ok (st, delta) -> in_uint 32 (Zlen delta)) ->
  cht (clean v) (checkpoint co id s) (checkpoint_post v s r w) (checkpoint_crash v r).
Proof.
  intros Hgen Hg Hcommit Hgather Hlen. unfold checkpoint.
  assert (forall d, clean v d -> checkpoint_crash v r d) as Hold
    by (intros; left; by apply clean_durable).
  eapply (cht_step _ (clean v) _ _ _ _ s (Ok s) s); [by apply cht_ret; auto|].
  cbn beta zeta iota. rewrite Hgen, uint64_small by done.
  unfold gather, mbind at 1, M_bind in Hgather.
  destruct (snapO "snapshot state" true (coMem s)) as [r1 w1] eqn:E1.
  pose proof (stage_cht "snapshot state" true v s (fun _ => True) r1 w1 Hg (fun _ _ _ H => H) E1) as H1.
  eapply (cht_step _ (fun d => clean v d /\ match r1 with Ok o => stg v true o d | _ => True end)).
  { eapply cht_weaken; [exact H1|done| |by left]. intros rs d (? & _ & -> & ?). eauto. }
  destruct r1 as [o1|e|p]; [|injection Hgather as <- <-; intros d [Hc _]; split; [by split|by apply Hold]..].
  cbn beta iota.
  unfold mbind at 1, M_bind in Hgather.
  destruct (snapO "snapshot eof" false w1) as [r2 w2] eqn:E2.
  pose proof (stage_cht "snapshot eof" false v (setMem w1 s) (stg v true o1) r2 w2 Hg
    (frame_stg v true o1) E2) as H2.
  eapply (cht_step _ (fun d => clean v d /\ stg v true o1 d /\
    match r2 with Ok o => stg v false o d | _ => True end)).
  { eapply cht_weaken; [exact H2|done| |by left]. intros rs d (? & ? & -> & ?). eauto. }
  destruct r2 as [o2|e|p]; [|injection Hgather as <- <-; intros d [Hc _]; split; [by split|by apply Hold]..].
  cbn beta iota.
  unfold mbind at 1, M_bind in Hgather.
  destruct (wrapM "drain seen" (DrainClient (coSeen co) id) w2) as [r3 w3] eqn:E3.
  eapply cht_step; [apply cht_onMem; [exact E3|intros d [? _]; auto]|].
  destruct r3 as [delta|e|p]; injection Hgather as <- <-; [|intros d [Hc _]; split; [by split|by apply Hold]..].
  cbn beta iota.
  apply (commit_cht v s (fun b : bool => if b then o1 else o2)); [done..|by eapply Hlen].
Qed.

(** C9. A checkpoint is atomic: whatever request a crash interrupts, and
    however much of a write it leaves, the files hold the old checkpoint or the
    complete new one; without a crash they hold the new one, and an error of
    the worker's snapshot leaves the old one. *)
Theorem checkpoint_atomic v s r w :
  default 0 (coGen s !! id) = vGen v -> in_uint 64 (vGen v + 1) -> commits ->
  gather (coMem s) = (r, w) ->
  (forall st delta, r = Ok (st, delta) -> in_uint 32 (Zlen delta)) ->
  cht (clean v) (checkpoint co id s) (checkpoint_post v s r w) (checkpoint_crash v r).
Proof. apply checkpoint_cht. Qed.

(** ** Recovery *)
Definition restoreO (ctx : string) (b : bool) (v : View) : M W unit :=
  match slotSrc co b, vSlot v b with
  | Some src, Some data => wrapM ctx (RestoreClient src id data)
  | _, _ => mret tt
  end.
(** What recovery does to the worker's memory, for the view on disk. *)
Definition restoreMem (v : View) : M W unit :=
  _ ← restoreO "recover state" true v;
  _ ← restoreO "recover eof" false v;
  forM (vRecs v) (fun r => wrapM "recover replay seen" (ReplayClient (coSeen co) id (RPayload r))).

Definition recover_post (v : View) (s : Co W) (r : res unit) (w : W)
    (rs : res unit * Co W) (d : disk) : Prop :=
  holds [] v d /\
  match r with
  | Ok _ => rs = (Ok tt, setGen id (vGen v) (setMem w s)) /\ clean v d
  | Err e => rs = (Err e, setMem w s)
  | Panic p => rs = (Panic p, setMem w s)
  end.

Lemma forD_onMem {A} (l : list A) (f : A -> M W unit) (s : Co W) :
  forD l (fun x => onMem (f x)) s
    = Ret (let (r, w) := forM l f (coMem s) in (r, setMem w s)).
Proof.
  revert s. induction l as [|x l IH]; intros s; [by destruct s|].
  cbn [forD forM]. unfold mbind, D_bind, M_bind, onMem at 1.
  destruct (f x (coMem s)) as [[[]|e|p] w]; cbn [prog_bind]; [|done..].
  rewrite IH. cbn [coMem setMem]. by destruct (forM l f w).
Qed.

Lemma cht_wrapD {A : Type} ctx P P1 (m : D (Co W) A) (s s1 : Co W) (r : res A) C :
  cht P (m s) (fun rs d => rs = (r, s1) /\ P1 d) C -> (forall d, P1 d -> C d) ->
  cht P (wrapD ctx m s) (fun rs d => rs = (wrapf ctx r, s1) /\ P1 d) C.
Proof.
  intros H HC d Hd. destruct (H d Hd) as [[H1 H2] H3]. unfold wrapD. rewrite run_bind, H1.
  split; [done|]. intros d' Hc. apply crashes_bind in Hc as [?|Hc]; [by apply H3|].
  inversion Hc; subst. by apply HC.
Qed.

Lemma maxGenOf_ge g l : g <= maxGenOf g l /\ Forall (fun r => Gen r <= maxGenOf g l) l.
Proof.
  revert g. induction l as [|r l IH]; intros g; [unfold maxGenOf; simpl; split; [lia|done]|].
  change (maxGenOf g (r :: l)) with (maxGenOf (Z.max g (Gen r)) l).
  destruct (IH (Z.max g (Gen r))). split; [lia|]. constructor; [lia|done].
Qed.

Lemma load_cht v tail : no_record tail ->
  cht (holds tail v) (append_Load (seenDir co) (uuid_String id))
    (fun r d => r = Ok (vRecs v, vGen v) /\ holds tail v d) (durable v).
Proof.
  intros Ht d Hh. pose proof Hh as (Hl & Hr & _). rewrite run_Load_log by apply validKey_uuid.
  change (store_path _ _ _) with (path_of co FLog (uuid_String id)). fold (at_file FLog d).
  split; cbn [fst snd].
  - split; [|done]. destruct Hl as [->|(-> & Hn & _)]; [|unfold vGen; by rewrite Hn].
    rewrite (load_loop_ok _ [] (vRecs v) tail [] 0); [done..|].
    pose proof (enc_log_length (vRecs v)). rewrite length_app. lia.
  - intros d' Hc. apply crash_Load_log in Hc as ->; [|apply validKey_uuid]. by exists tail.
Qed.

Lemma truncate_cht v tail : no_record tail ->
  cht (holds tail v) (append_Truncate (seenDir co) (uuid_String id) (vGen v))
    (fun r d => r = Ok tt /\ holds [] v d) (durable v).
Proof.
  intros Ht d Hh. pose proof Hh as (Hl & Hr & Hg & _).
  assert (holds [] v (truncate_disk (seenDir co) (uuid_String id) (vGen v) d)) as Hnew.
  { unfold truncate_disk.
    change (store_path _ _ _) with (path_of co FLog (uuid_String id)). fold (at_file FLog d).
    destruct Hl as [Hl|(Hl & Hn & ->)]; rewrite Hl; [|done].
    rewrite (trunc_loop_ok _ [] (vRecs v) tail (vGen v)); [|done..|].
    - rewrite upto_all by apply maxGenOf_ge. simpl. rewrite take_app_length.
      eapply (holds_log tail [] v v); eauto. by rewrite app_nil_r.
    - pose proof (enc_log_length (vRecs v)). rewrite length_app. lia. }
  rewrite run_Truncate by apply validKey_uuid. split; [done|].
  intros d' Hc. apply crash_Truncate in Hc as [->| ->]; [by exists tail| |apply validKey_uuid].
  by apply holds_durable.
Qed.

Lemma load_slot v b d : holds [] v d -> has co b = true -> unstaged v b d ->
  exists o, run (overwrite_Load (slotDir co b) (uuid_String id)) d = (Ok o, d) /\ fst <$> o = vSlot v b.
Proof.
  intros (_ & _ & _ & Hs) Hb Hu. rewrite run_Load by apply validKey_uuid.
  change (store_path _ _ _) with (path_of co (FCk b) (uuid_String id)). fold (at_file (FCk b) d).
  specialize (Hs b Hb). unfold slot_is in Hs. rewrite (Hu Hb) in Hs.
  destruct (vSlot v b) as [data|]; simpl in Hs; [|rewrite Hs; by eexists].
  destruct Hs as (g & Hg & ->). rewrite decode_encodeOverwrite by done. by eexists.
Qed.

Lemma restoreSlot_cht ctx b v (s : Co W) Fr r w :
  (forall d d', (forall f', f' <> FTmp b -> f' <> FCk b -> at_file f' d' = at_file f' d) -> Fr d -> Fr d') ->
  restoreO ctx b v (coMem s) = (r, w) ->
  cht (fun d => holds [] v d /\ Fr d)
    (restoreSlot ctx (slotDir co b) (slotSrc co b) id (uuid_String id) (vGen v) s)
    (fun rs d => rs = (r, setMem w s) /\ holds [] v d /\ Fr d /\ unstaged v b d)
    (durable v).
Proof.
  intros HF Hr. unfold restoreO in Hr. pose proof (promote_cht v b s Fr HF) as Hp.
  unfold restoreSlot, promoteSlot in *. destruct (slotSrc co b) as [src|] eqn:Hsrc.
  2: { injection Hr as <- <-. rewrite setMem_id. apply cht_ret. intros d [Hh Hf].
       split; [split_and!; try done|by apply holds_durable]. unfold unstaged, has. by rewrite Hsrc. }
  assert (has co b = true) as Hb by (unfold has; by rewrite Hsrc).
  set (m := match vSlot v b with Some data => RestoreClient src id data | None => mret tt end).
  assert (exists r0, m (coMem s) = (r0, w) /\ r = wrapf ctx r0) as (r0 & Hm & ->).
  { unfold m. destruct (vSlot v b); [|injection Hr as <- <-; by exists (Ok tt)].
    unfold wrapM in Hr. destruct (RestoreClient src id _ _) as [r0 w0]. injection Hr as <- <-. eauto. }
  apply cht_wrapD; [|intros d (Hh & _); by apply holds_durable].
  unfold restoreOverwrite. eapply (cht_step _ (fun d => holds [] v d /\ Fr d /\ unstaged v b d)).
  { eapply cht_weaken; [exact Hp|done|intros rs d H; exact H|done]. }
  cbn beta iota. intros d (Hh & Hf & Hu). unfold mbind, D_bind.
  destruct (load_slot v b d Hh Hb Hu) as (o & Ho & Hov).
  assert (forall d', crashes (liftIO (S := Co W) (overwrite_Load (slotDir co b) (uuid_String id)) s) d d' -> durable v d') as Hcr.
  { intros d' Hc. apply crashes_liftIO in Hc as [Hc| ->]; [|rewrite Ho; by apply holds_durable].
    apply crash_Load in Hc as ->; [by apply holds_durable|apply validKey_uuid]. }
  assert ((match o with Some (data, _) => onMem (RestoreClient src id data) | None => mret tt end) s
    = Ret (r0, setMem w s)) as Hk.
  { unfold m in Hm. rewrite <- Hov in Hm. destruct o as [[data g]|]; cbn [fmap option_fmap option_map fst] in Hm.
    - unfold onMem. by rewrite Hm.
    - injection Hm as <- <-. by rewrite setMem_id. }
  rewrite run_bind, run_liftIO, Ho. cbn [fst snd]. rewrite Hk. split; [done|].
  intros d' Hc. apply crashes_bind in Hc as [Hc|Hc]; [by apply Hcr|].
  rewrite run_liftIO, Ho in Hc. cbn [fst snd] in Hc. rewrite Hk in Hc. inversion Hc; subst.
  by apply holds_durable.
Qed.

(** Recovery is the inverse of a checkpoint: from any files that hold a
    view, torn or not, it gives the worker exactly the state, end-of-stream
    state and seen records of that view and leaves the files clean; a crash
    inside recovery changes nothing. *)
Theorem recover_restores v s r w :
  restoreMem v (coMem s) = (r, w) ->
  cht (durable v) (recoverKey co (uuid_String id) s) (recover_post v s r w) (durable v).
Proof.
  intros Hmem d (tail & Ht & Hh). revert d Hh.
  enough (cht (holds tail v) (recoverKey co (uuid_String id) s) (recover_post v s r w) (durable v)) as H
    by exact H.
  unfold recoverKey. rewrite uuid_Parse_String.
  eapply (cht_step _ (holds tail v) _ _ _ _ _ (Ok (vRecs v, vGen v)) s).
  { apply (cht_wrapD _ _ (holds tail v) _ s s (Ok (vRecs v, vGen v))); [|by intros; exists tail].
    apply cht_liftIO; [by apply load_cht|by intros; exists tail]. }
  cbn beta iota. eapply (cht_step _ (holds [] v) _ _ _ _ _ (Ok tt) s).
  { apply (cht_wrapD _ _ (holds [] v) _ s s (Ok tt)); [|by apply holds_durable].
    apply cht_liftIO; [by apply truncate_cht|by apply holds_durable]. }
  cbn beta iota. unfold restoreMem, mbind at 1, M_bind in Hmem.
  destruct (restoreO "recover state" true v (coMem s)) as [r1 w1] eqn:E1.
  eapply (cht_step _ (fun d => holds [] v d /\ unstaged v true d) _ _ _ _ _ r1 (setMem w1 s)).
  { eapply cht_weaken; [apply (restoreSlot_cht _ true v s (fun _ => True)); [done|exact E1]|done| |done].
    by intros rs d (-> & ? & _ & ?). }
  destruct r1 as [[]|e|p]; [|injection Hmem as <- <-; intros d [Hd _]; split; [by split|by apply holds_durable]..].
  cbn beta iota. unfold mbind at 1, M_bind in Hmem.
  destruct (restoreO "recover eof" false v w1) as [r2 w2] eqn:E2.
  eapply (cht_step _ (clean v) _ _ _ _ _ r2 (setMem w2 s)).
  { eapply cht_weaken; [apply (restoreSlot_cht _ false v _ (unstaged v true)); [|exact E2]|done| |done].
    - intros d d' Hd Hu Hb. rewrite Hd by done. by apply Hu.
    - intros rs d (-> & Hh & Hu1 & Hu2). split; [done|]. by split; [|intros []]. }
  destruct r2 as [[]|e|p]; [|injection Hmem as <- <-; intros d Hd; split; [by split; [apply Hd|]|by apply clean_durable]..].
  cbn beta iota. eapply (cht_step _ (clean v) _ _ _ _ _ r (setMem w s)).
  { rewrite forD_onMem. cbn [coMem setMem]. rewrite Hmem. apply cht_ret. intros d Hd.
    split; [done|by apply clean_durable]. }
  destruct r as [[]|e|p]; [|intros d Hd; split; [by split; [apply Hd|]|by apply clean_durable]..].
  apply cht_ret. intros d Hd. split; [split; [apply Hd|done]|by apply clean_durable].
Qed.
End Safety.
