(* ===== verification/Recovery.v ===== *)
(** * Recovery of every client, and the life of a worker's checkpoints

    [CrashSafety] follows one client; the operations on a client change no file
    of another, so [Recover] and [Flush] are safe for all clients at once.
    [Lifetime] runs a worker through checkpoints, crashes and recoveries. *)

From S2P Require Import Prelude Models Codec Disk Store Coordinator CrashSafety.

(** ** A program that leaves part of the disk alone *)
Lemma cht_frame {A : Type} F P (m : prog A) Q C Fr :
  cht P m Q C -> foot F m ->
  (forall d d', (forall q, ~ F q -> d' !! q = d !! q) -> Fr d -> Fr d') ->
  cht (fun d => P d /\ Fr d) m (fun a d => Q a d /\ Fr d) (fun d => C d /\ Fr d).
Proof.
  intros H Hf HF d [Hd Hfr]. destruct (H d Hd) as [H1 H2]. split.
  - split; [done|]. apply (HF d); [|done]. intros q Hq. by eapply foot_run.
  - intros d' Hc. split; [by apply H2|]. apply (HF d); [|done]. intros q Hq. by eapply foot_crash.
Qed.

Lemma foot_D_bind {S A B : Type} F (m : D S A) (f : A -> D S B) s :
  foot F (m s) -> (forall a s', foot F (f a s')) -> foot F ((m ≫= f) s).
Proof. intros Hm Hf. apply foot_bind; [done|]. intros [[a|e|p] s']; [done|constructor..]. Qed.
Lemma foot_liftIO {S A : Type} F (m : io A) (s : S) : foot F m -> foot F (liftIO m s).
Proof. intros Hm. apply foot_bind; [done|constructor]. Qed.
Lemma foot_wrapD {S A : Type} F ctx (m : D S A) s : foot F (m s) -> foot F (wrapD ctx m s).
Proof. intros Hm. apply foot_bind; [done|constructor]. Qed.
Lemma foot_onMem {S A : Type} F (m : M S A) (s : Co S) : foot F (onMem m s).
Proof. unfold onMem. destruct (m (coMem s)). constructor. Qed.
Lemma foot_forD {S A : Type} F (l : list A) (f : A -> D S unit) s :
  (forall x s', x ∈ l -> foot F (f x s')) -> foot F (forD l f s).
Proof.
  revert s. induction l as [|x l IH]; intros s H; [constructor|].
  apply foot_D_bind; [apply H; set_solver|]. intros [] s'. apply IH. set_solver.
Qed.

(** The file operations of one store touch the paths they name only. *)
Ltac foot_io :=
  io_simpl; repeat first [ progress intros | case_match | apply foot_bind
    | apply foot_ret | apply foot_do | apply Forall_cons_2 | apply Forall_nil_2 | eassumption ].
Lemma foot_Stage F dir key g data : F (store_path dir key tmpExt) -> foot F (overwrite_Stage dir key g data).
Proof. intros H. unfold overwrite_Stage, checkKey. foot_io. Qed.
Lemma foot_Promote F dir key g : F (store_path dir key tmpExt) -> F (store_path dir key fileExt) ->
  foot F (overwrite_Promote dir key g).
Proof. intros H1 H2. unfold overwrite_Promote, checkKey, readOverwriteHeader. foot_io. Qed.
Lemma foot_Load F dir key : foot F (overwrite_Load dir key).
Proof. unfold overwrite_Load, checkKey. foot_io. Qed.
Lemma foot_Append F dir key g data : F (store_path dir key logExt) -> foot F (append_Append dir key g data).
Proof. intros H. unfold append_Append, checkKey. foot_io. Qed.
Lemma foot_Load_log F dir key : foot F (append_Load dir key).
Proof. unfold append_Load, checkKey. foot_io. Qed.
Lemma foot_Truncate F dir key g : F (store_path dir key logExt) -> foot F (append_Truncate dir key g).
Proof. intros H. unfold append_Truncate, checkKey. foot_io. Qed.

Lemma HasSuffix_app k e : HasSuffix (k +:+ e) e = true.
Proof.
  unfold HasSuffix. rewrite str_bytes_app, length_app.
  replace (length (str_bytes k) + length (str_bytes e) - length (str_bytes e))%nat
    with (length (str_bytes k)) by lia.
  rewrite drop_app_length. apply andb_true_intro. split; apply bool_decide_eq_true_2; [lia|done].
Qed.
Lemma TrimSuffix_app k e : TrimSuffix (k +:+ e) e = k.
Proof.
  unfold TrimSuffix. rewrite HasSuffix_app, str_bytes_app, length_app.
  replace (length (str_bytes k) + length (str_bytes e) - length (str_bytes e))%nat
    with (length (str_bytes k)) by lia.
  by rewrite take_app_length, str_bytes_str.
Qed.

Section Clients.
Context {UL : UuidLib} {GR : GoRange} {W : Type} (co : CoConfig W).

(** The five files of a client. *)
Definition own (id : id16) (p : string * string) : Prop :=
  exists f, p = path_of co f (uuid_String id).

Lemma own_ne id id' f : id <> id' -> ~ own id (path_of co f (uuid_String id')).
Proof.
  intros Hne [f' H]. apply path_of_inj in H as [_ H]. by apply (inj uuid_String) in H.
Qed.
Lemma durable_frame id id' v d d' : id <> id' -> (forall q, ~ own id q -> d' !! q = d !! q) ->
  durable co id' v d -> durable co id' v d'.
Proof.
  intros Hne Hd (tail & Ht & Hl & Hr & Hg & Hs). exists tail. split; [done|].
  unfold holds, log_is, at_file in *. rewrite Hd by by apply own_ne. split_and!; try done.
  intros b Hb. rewrite !Hd by by apply own_ne. by apply Hs.
Qed.
Lemma clean_frame_not (ids : list id16) id v d d' : id ∉ ids ->
  (forall q, ~ (exists id', id' ∈ ids /\ own id' q) -> d' !! q = d !! q) ->
  clean co id v d -> clean co id v d'.
Proof.
  intros Hn Hd [(Hl & Hr & Hg & Hs) Hu]. unfold clean, holds, unstaged, log_is, at_file in *.
  assert (forall f, d' !! path_of co f (uuid_String id) = d !! path_of co f (uuid_String id)) as Hf.
  { intros f. apply Hd. intros (id' & Hin & Ho). eapply own_ne; [|exact Ho]. congruence. }
  rewrite Hf. split; [split_and!; try done|].
  - intros b Hb. rewrite !Hf. by apply Hs.
  - intros b Hb. rewrite !Hf. by apply Hu.
Qed.

Lemma foot_stageSlot id ctx b g (s : Co W) :
  foot (own id) (stageSlot ctx (slotDir co b) (slotSrc co b) id g s).
Proof.
  unfold stageSlot. destruct (slotSrc co b); [|constructor].
  apply foot_D_bind; [apply foot_onMem|]. intros data s'. apply foot_liftIO, foot_Stage.
  by exists (FTmp b).
Qed.
Lemma foot_promoteSlot id b g (s : Co W) :
  foot (own id) (promoteSlot (slotDir co b) (slotSrc co b) id g s).
Proof.
  unfold promoteSlot. destruct (slotSrc co b); [|constructor].
  apply foot_liftIO, foot_Promote; [by exists (FTmp b)|by exists (FCk b)].
Qed.
Lemma foot_checkpoint id s : foot (own id) (checkpoint co id s).
Proof.
  unfold checkpoint. repeat first [ apply foot_D_bind; [|intros] ].
  - constructor.
  - apply (foot_stageSlot id _ true).
  - apply (foot_stageSlot id _ false).
  - apply foot_onMem.
  - apply foot_liftIO, foot_Append. by exists FLog.
  - constructor.
  - apply foot_onMem.
  - apply (foot_promoteSlot id true).
  - apply (foot_promoteSlot id false).
Qed.
Lemma foot_restoreSlot id ctx b g (s : Co W) :
  foot (own id) (restoreSlot ctx (slotDir co b) (slotSrc co b) id (uuid_String id) g s).
Proof.
  unfold restoreSlot. destruct (slotSrc co b); [|constructor]. apply foot_wrapD.
  unfold restoreOverwrite. apply foot_D_bind; [|intros []; intros].
  { apply foot_liftIO, foot_Promote; [by exists (FTmp b)|by exists (FCk b)]. }
  apply foot_D_bind; [apply foot_liftIO, foot_Load|].
  intros [[data g']|] ?; [apply foot_onMem|constructor].
Qed.
Lemma foot_recoverKey id s : foot (own id) (recoverKey co (uuid_String id) s).
Proof.
  unfold recoverKey. rewrite uuid_Parse_String. apply foot_D_bind.
  { apply foot_wrapD, foot_liftIO, foot_Load_log. }
  intros [recs g] s1. repeat first [ apply foot_D_bind; [|intros] ].
  - apply foot_wrapD, foot_liftIO, foot_Truncate. by exists FLog.
  - apply (foot_restoreSlot id _ true).
  - apply (foot_restoreSlot id _ false).
  - apply foot_forD. intros. apply foot_onMem.
  - constructor.
Qed.

(** ** [Recover] on the whole directory *)
(** Every file of the seen directory is the log of a client. *)
Definition tidy (d : disk) : Prop :=
  forall n, is_Some (d !! (seenDir co, n)) -> exists id, n = uuid_String id +:+ logExt.
(** The clients with a log, in the order [Recover] visits them. *)
Definition listed (ids : list id16) (d : disk) : Prop :=
  NoDup ids /\ (forall id, id ∈ ids <-> is_Some (at_file co id FLog d)) /\
  run (listKeys (seenDir co) logExt) d = (Ok (uuid_String <$> ids), d).

(** What recovery does to the memory, and to the generations. *)
Definition restoreAll (V : id16 -> View) (ids : list id16) : M W unit :=
  forM ids (fun id => restoreMem co id (V id)).
Definition setGens (V : id16 -> View) (ids : list id16) (s : Co W) : Co W :=
  fold_left (fun s id => setGen id (vGen (V id)) s) ids s.

Lemma setMem_setGen w id g (s : Co W) : setMem w (setGen id g s) = setGen id g (setMem w s).
Proof. done. Qed.
Lemma setMem_setMem w w' (s : Co W) : setMem w (setMem w' s) = setMem w s.
Proof. done. Qed.

Definition all_durable (V : id16 -> View) (ids : list id16) (d : disk) : Prop :=
  forall id, id ∈ ids -> durable co id (V id) d.
Definition all_clean (V : id16 -> View) (ids : list id16) (d : disk) : Prop :=
  forall id, id ∈ ids -> clean co id (V id) d.

Definition recoverAll_post (V : id16 -> View) (ids : list id16) (s : Co W) (r : res unit) (w : W) (rs : res unit * Co W) (d : disk) : Prop :=
  all_durable V ids d /\
  match r with
  | Ok _ => rs = (Ok tt, setGens V ids (setMem w s)) /\ all_clean V ids d
  | Err e => rs.1 = Err e
  | Panic p => rs.1 = Panic p
  end.

Lemma recover_loop (V : id16 -> View) (ids : list id16) (s : Co W) r w :
  NoDup ids -> restoreAll V ids (coMem s) = (r, w) ->
  cht (all_durable V ids) (forD (uuid_String <$> ids) (recoverKey co) s)
    (recoverAll_post V ids s r w) (all_durable V ids).
Proof.
  intros Hnd. revert s r w. induction Hnd as [|id ids Hid Hnd IH]; intros s r w Hr.
  { injection Hr as <- <-. unfold recoverAll_post. rewrite setMem_id. apply cht_ret. intros d Hd.
    split; [|done]. split; [done|]. split; [done|]. intros id H. by apply elem_of_nil in H. }
  unfold restoreAll in Hr. cbn [forM] in Hr. unfold mbind, M_bind in Hr.
  destruct (restoreMem co id (V id) (coMem s)) as [r1 w1] eqn:E1.
  assert (forall d, all_durable V (id :: ids) d <-> durable co id (V id) d /\ all_durable V ids d) as Hcons.
  { intros d. unfold all_durable. split; [intros H; split; [|intros ??]; apply H; set_solver|].
    intros [H1 H2] id' Hin. apply elem_of_cons in Hin as [->|]; auto. }
  pose proof (cht_frame (own id) _ _ _ _ (all_durable V ids)
    (recover_restores co id (V id) s r1 w1 E1) (foot_recoverKey id s)) as Hhd.
  assert (forall d d', (forall q, ~ own id q -> d' !! q = d !! q) -> all_durable V ids d -> all_durable V ids d') as Hfr.
  { intros d d' Hd Ha id' Hin. apply (durable_frame id id' _ d d'); [set_solver|done|by apply Ha]. }
  specialize (Hhd Hfr). cbn [fmap list_fmap forD].
  set (P1 := fun d => match r1 with Ok _ => clean co id (V id) d | _ => durable co id (V id) d end
                 /\ all_durable V ids d).
  set (s1 := match r1 with Ok _ => setGen id (vGen (V id)) (setMem w1 s) | _ => setMem w1 s end).
  assert (forall d, P1 d -> all_durable V (id :: ids) d) as HP1.
  { intros d [Hd Ha]. apply Hcons. split; [|done]. destruct r1; [by apply clean_durable|done..]. }
  apply (cht_step _ P1 _ _ _ _ s r1 s1).
  - eapply cht_weaken; [exact Hhd|intros d; apply Hcons| |intros d; apply Hcons].
    intros rs d [[Hh Hp] Ha]. unfold P1, s1. destruct r1 as [[]|e|p]; [destruct Hp as [-> Hc]|subst..];
      split; try done; split; try done; by apply holds_durable.
  - destruct r1 as [[]|e|p]; [|injection Hr as <- <-; intros d Hd; split; [split; [by apply HP1|done]|by apply HP1]..].
    subst s1 P1. cbn beta iota in *.
    pose proof (cht_frame (fun p => exists id', id' ∈ ids /\ own id' p) _ _ _ _ (clean co id (V id))
      (IH (setGen id (vGen (V id)) (setMem w1 s)) r w Hr)) as Htl.
    eapply cht_weaken; [apply Htl| | |].
    + apply foot_forD. intros key s' Hkey. apply list_elem_of_fmap in Hkey as (id' & -> & Hin).
      eapply foot_mono; [|apply foot_recoverKey]. eauto.
    + intros d d' Hd. apply (clean_frame_not ids); [done|]. exact Hd.
    + intros d [H1 H2]. done.
    + intros rs d [[Ha Hp] Hc]. split; [apply Hcons; by split; [apply clean_durable|]|].
      destruct r as [[]|e|p]; [|done..]. destruct Hp as [-> Hcl]. split; [done|].
      intros id' Hin. apply elem_of_cons in Hin as [->|]; auto.
    + intros d [Ha Hc]. apply Hcons. by split; [apply clean_durable|].
Qed.

Lemma NoDup_dir_names (dir : string) (d : disk) : NoDup (dir_names dir d).
Proof.
  unfold dir_names. rewrite merge_sort_Permutation.
  pose proof (NoDup_fst_map_to_list d) as Hnd. induction (map_to_list d) as [|[[dir' n] c] l IH]; simpl in *.
  { constructor. }
  apply NoDup_cons in Hnd as [Hn Hnd]. case_decide; [|by apply IH]. subst.
  apply NoDup_cons. split; [|by apply IH]. rewrite list_elem_of_omap. intros ([[dir2 n2] c2] & Hin & Hs).
  simpl in Hs. case_decide; simplify_eq. apply Hn, list_elem_of_fmap. by eexists (_, _, c2).
Qed.

Lemma listed_exists d : tidy d -> exists ids, listed ids d.
Proof.
  intros Ht.
  assert (exists ids, dir_names (seenDir co) d = (fun id => uuid_String id +:+ logExt) <$> ids) as [ids Hids].
  { assert (Forall (fun n => exists id, n = uuid_String id +:+ logExt) (dir_names (seenDir co) d)) as Hf.
    { apply Forall_forall. intros n Hn. apply Ht. by apply elem_of_dir_names. }
    induction Hf as [|n l [id ->] _ [ids ->]]; [by exists []|]. by exists (id :: ids). }
  exists ids. split_and!.
  - eapply NoDup_fmap_1. rewrite <- Hids. apply NoDup_dir_names.
  - intros id. unfold at_file, path_of. simpl. unfold store_path. rewrite <- elem_of_dir_names, Hids.
    rewrite list_elem_of_fmap. split; [eauto|]. intros (id' & H & Hin).
    apply (key_ext_inj _ _ FLog FLog) in H as [H _]. apply (inj uuid_String) in H. by subst.
  - unfold listKeys. io_simpl. cbn [run resp effect]. rewrite Hids. f_equal. f_equal.
    clear Hids. induction ids as [|id ids IH]; [done|]. cbn [fmap list_fmap].
    rewrite filter_cons_True by apply HasSuffix_app. cbn [fmap list_fmap].
    rewrite TrimSuffix_app. f_equal. exact IH.
Qed.

Lemma crash_listKeys dir e d d' : crashes (listKeys dir e) d d' -> d' = d.
Proof. unfold listKeys. intros H. io_simpl. inv_crash; done. Qed.

Lemma recover_all V s d :
  tidy d -> (forall id, is_Some (at_file co id FLog d) -> durable co id (V id) d) ->
  exists ids, listed ids d /\ forall r w, restoreAll V ids (coMem s) = (r, w) ->
    recoverAll_post V ids s r w (run (Recover co s) d).1 (run (Recover co s) d).2 /\
    forall d', crashes (Recover co s) d d' -> all_durable V ids d'.
Proof.
  intros Ht HV. destruct (listed_exists d Ht) as [ids Hl]. exists ids. split; [done|].
  intros r w Hr. destruct Hl as (Hnd & Hin & Hrun).
  assert (all_durable V ids d) as Hd by (intros id Hid; by apply HV, Hin).
  destruct (recover_loop V ids s r w Hnd Hr d Hd) as [H1 H2].
  unfold Recover. split.
  - rewrite (run_D_bind _ _ s d (uuid_String <$> ids) s d) by by rewrite run_liftIO, Hrun. done.
  - intros d' Hc. eapply (crashes_D_bind _ _ s d (uuid_String <$> ids) s d) in Hc as [Hc|Hc];
      [|by apply H2|by rewrite run_liftIO, Hrun].
    apply crashes_liftIO in Hc as [Hc| ->]; [by apply crash_listKeys in Hc as ->|by rewrite Hrun].
Qed.

(** C10. [Recover] on a directory in which every logged client's files hold a
    view, torn or not, restores exactly those clients, each from its view, in
    directory order, and leaves every one of them clean; a crash at any point
    of it loses nothing, so it can be run again. *)
Theorem Recover_restores V s d :
  tidy d -> (forall id, is_Some (at_file co id FLog d) -> durable co id (V id) d) ->
  exists ids, listed ids d /\ forall r w, restoreAll V ids (coMem s) = (r, w) ->
    recoverAll_post V ids s r w (run (Recover co s) d).1 (run (Recover co s) d).2 /\
    forall d', crashes (Recover co s) d d' -> all_durable V ids d'.
Proof. apply recover_all. Qed.

(** ** Forgetting a client *)
Definition gone (id : id16) (f : file) (d : disk) : Prop := at_file co id f d = None.

Lemma has_if {A : Type} b (x y : A) : (if slotSrc co b then x else y) = (if has co b then x else y).
Proof. unfold has. by destruct (slotSrc co b). Qed.

Lemma delete_slot_cht id b (s : Co W) Fr :
  (forall f d, Fr d -> Fr (delete (path_of co f (uuid_String id)) d)) ->
  cht Fr ((if has co b then liftIO (overwrite_Delete (slotDir co b) (uuid_String id)) else mret tt) s)
    (fun rs d => rs = (Ok tt, s) /\ Fr d /\ (has co b = true -> gone id (FTmp b) d /\ gone id (FCk b) d)) Fr.
Proof.
  intros HF. destruct (has co b); [|by apply cht_ret].
  intros d Hd. rewrite run_liftIO, run_Delete_slot by apply validKey_uuid. cbn [fst snd].
  change (store_path _ _ tmpExt) with (path_of co (FTmp b) (uuid_String id)).
  change (store_path _ _ fileExt) with (path_of co (FCk b) (uuid_String id)).
  split.
  - split_and!; [done|exact (HF (FTmp b) _ (HF (FCk b) d Hd))|]. intros _. unfold gone. rewrite !at_delete. by repeat case_decide.
  - intros d' Hc. apply crashes_liftIO in Hc as [Hc| ->].
    + unfold overwrite_Delete in Hc. rewrite checkKey_ok in Hc by apply validKey_uuid. io_simpl.
      inv_crash; repeat case_bool_decide; simpl in *; inv_crash;
        first [done|exact (HF (FCk b) d Hd)|exact (HF (FTmp b) _ (HF (FCk b) d Hd))].
    + rewrite run_Delete_slot by apply validKey_uuid. exact (HF (FTmp b) _ (HF (FCk b) d Hd)).
Qed.

(** C14. [Delete] removes the seen log first: a crash inside it leaves either
    the whole checkpoint or a client that [Recover] no longer lists; when it
    returns none of the client's files is left and its generation is forgotten. *)
Theorem delete_forgets id v s :
  cht (durable co id v) (Delete co id s)
    (fun rs d => rs.1 = Ok tt /\ coGen rs.2 !! id = None /\ gone id FLog d /\
                 forall b, has co b = true -> gone id (FTmp b) d /\ gone id (FCk b) d)
    (fun d => durable co id v d \/ gone id FLog d).
Proof.
  assert (forall f d, gone id FLog d -> gone id FLog (delete (path_of co f (uuid_String id)) d)) as HF.
  { intros f d Hg. unfold gone. rewrite at_delete. by case_decide. }
  unfold Delete. apply (cht_step _ (gone id FLog) _ _ _ _ _ (Ok tt) s).
  - intros d Hd. rewrite run_liftIO, run_Delete_log by apply validKey_uuid.
    change (store_path _ _ _) with (path_of co FLog (uuid_String id)).
    assert (gone id FLog (delete (path_of co FLog (uuid_String id)) d)) as Hg.
    { unfold gone. by rewrite at_delete, decide_True. }
    split; [done|]. intros d' Hc. apply crashes_liftIO in Hc as [Hc| ->].
    + apply crash_Delete_log in Hc as [->| ->]; [by left|by right|apply validKey_uuid].
    + rewrite run_Delete_log by apply validKey_uuid. by right.
  - cbn beta iota.
    set (P1 := fun d => gone id FLog d /\ (has co false = true -> gone id (FTmp false) d /\ gone id (FCk false) d)).
    assert (forall f d, P1 d -> P1 (delete (path_of co f (uuid_String id)) d)) as HF1.
    { intros f d [H1 H2]. split; [by apply HF|]. intros Hb. unfold gone. rewrite !at_delete.
      destruct (H2 Hb). split; by case_decide. }
    apply (cht_step _ P1 _ _ _ _ _ (Ok tt) s).
    { change (coEof co) with (slotSrc co false). rewrite has_if.
      eapply cht_weaken; [exact (delete_slot_cht id false s (gone id FLog) HF)|done|done|by right]. }
    cbn beta iota. apply (cht_step _ (fun d => P1 d /\ (has co true = true -> gone id (FTmp true) d /\ gone id (FCk true) d)) _ _ _ _ _ (Ok tt) s).
    { change (coState co) with (slotSrc co true). rewrite has_if.
      eapply cht_weaken; [exact (delete_slot_cht id true s P1 HF1)|done|done|by intros d [? _]; right]. }
    cbn beta iota. apply cht_ret. intros d [[H1 H2] H3]. split; [|by right].
    cbn [fst snd coGen]. split_and!; [done|apply lookup_delete_eq|done|by intros []].
Qed.

(** ** The life of a worker *)
Definition owned (p : string * string) : Prop := exists id, own id p.

Lemma tidy_frame d d' : (forall q, ~ owned q -> d' !! q = d !! q) -> tidy d -> tidy d'.
Proof.
  intros Hd Ht n Hn.
  assert (forall id, n <> uuid_String id +:+ logExt -> ~ own id (seenDir co, n)) as Hown.
  { intros id Hne [f Hf]. assert (f = FLog) as ->; [|by injection Hf as Hf].
    unfold path_of, store_path in Hf. injection Hf as Hf _.
    unfold fileDir, slotDir, seenDir, stateDir, eofDir in Hf.
    destruct f as [|[]|[]]; [done|..]; by apply (inj (String.append _)) in Hf. }
  destruct (uuid_Parse (TrimSuffix n logExt)) as [id|] eqn:Hp;
    [destruct (decide (n = uuid_String id +:+ logExt)) as [|Hne]; [by eauto|]|];
    (apply Ht; rewrite <- (Hd (seenDir co, n)); [done|]; intros [id2 Ho]; revert Ho; apply Hown;
     intros ->; rewrite TrimSuffix_app, uuid_Parse_String in Hp; naive_solver).
Qed.

Lemma foot_recover_loop ids s :
  foot (fun p => exists id, id ∈ ids /\ own id p) (forD (uuid_String <$> ids) (recoverKey co) s).
Proof.
  apply foot_forD. intros key s' Hkey. apply list_elem_of_fmap in Hkey as (id' & -> & Hin).
  eapply foot_mono; [|apply foot_recoverKey]. eauto.
Qed.

(** A worker that is down, with its disk, or up, with its memory too. *)
Inductive sys := Down (d : disk) | Up (d : disk) (s : Co W).

Variable w0 : W.

(** [w0]: the memory a worker starts with.  The premises of [ckpt_*] bound a
    checkpoint: fewer than 2^64 of them, and less than 4 GiB of seen ids each. *)
Definition bounded (id : id16) (s : Co W) : Prop :=
  in_uint 64 (default 0 (coGen s !! id) + 1) /\
  forall st delta, (gather co id (coMem s)).1 = Ok (st, delta) -> in_uint 32 (Zlen delta).

Inductive step : sys -> sys -> Prop :=
  | work d s w : step (Up d s) (Up d (setMem w s))
  | crash d s : step (Up d s) (Down d)
  | ckpt_done id d s : bounded id s ->
      step (Up d s) (Up (run (checkpoint co id s) d).2 (run (checkpoint co id s) d).1.2)
  | ckpt_crash id d s d' : bounded id s -> crashes (checkpoint co id s) d d' -> step (Up d s) (Down d')
  | recover_crash d d' : crashes (Recover co (newCo w0)) d d' -> step (Down d) (Down d')
  | recover_done d s d' : run (Recover co (newCo w0)) d = ((Ok tt, s), d') -> step (Down d) (Up d' s).

(** The specification: a view per client, changed by whole commits of what some
    memory of the worker held. *)
Inductive commit_step : (id16 -> View) -> (id16 -> View) -> Prop :=
  | commit V id w st delta w' : gather co id w = (Ok (st, delta), w') ->
      commit_step V (fun i => if decide (i = id) then commitView (V id) delta st else V i).
Definition noView : id16 -> View := fun _ => mkView [] (fun _ => None).

Definition refines (V : id16 -> View) (x : sys) : Prop :=
  match x with
  | Down d => tidy d /\ forall id, durable co id (V id) d
  | Up d s => tidy d /\ forall id, clean co id (V id) d /\ default 0 (coGen s !! id) = vGen (V id)
  end.

Lemma durable_nolog id v d : durable co id v d -> at_file co id FLog d = None ->
  clean co id v d /\ vGen v = 0.
Proof.
  intros (tail & _ & Hl & Hr & Hg & Hs) Hn. destruct Hl as [Hl|(_ & Hnil & ->)]; [congruence|].
  assert (vGen v = 0) as H0 by (unfold vGen; by rewrite Hnil). split; [|done].
  split; [split_and!; try done; by right|]. intros b Hb. specialize (Hs b Hb). unfold slot_is in Hs.
  destruct (staged _ _); [lia|done].
Qed.

Lemma coGen_setGens V ids (s : Co W) id :
  coGen (setGens V ids s) !! id = if decide (id ∈ ids) then Some (vGen (V id)) else coGen s !! id.
Proof.
  revert s. induction ids as [|id' ids IH]; intros s; [done|].
  unfold setGens in *. cbn [fold_left]. rewrite IH. cbn [setGen coGen].
  destruct (decide (id = id')) as [->|Hne].
  - rewrite lookup_insert_eq. repeat case_decide; set_solver.
  - rewrite lookup_insert_ne by done. repeat case_decide; set_solver.
Qed.

Lemma frame_others (V : id16 -> View) id d d' : (forall q, ~ own id q -> d' !! q = d !! q) ->
  (forall id', id' <> id -> durable co id' (V id') d -> durable co id' (V id') d') /\
  (forall id', id' <> id -> clean co id' (V id') d -> clean co id' (V id') d').
Proof.
  intros Hd. split; intros id' Hne.
  - by apply (durable_frame id).
  - apply (clean_frame_not [id]); [set_solver|]. intros q Hq. apply Hd. intros Ho. apply Hq. set_solver.
Qed.
Lemma own_owned (id : id16) (d d' : disk) : (forall q, ~ own id q -> d' !! q = d !! q) ->
  forall q, ~ owned q -> d' !! q = d !! q.
Proof. intros H q Hq. apply H. intros Ho. apply Hq. by exists id. Qed.

Lemma gather_outcome id (s : Co W) r w : gather co id (coMem s) = (r, w) -> bounded id s ->
  in_uint 64 (default 0 (coGen s !! id) + 1) /\
  forall st delta, r = Ok (st, delta) -> in_uint 32 (Zlen delta).
Proof. unfold bounded. intros -> [H1 H2]. split; [done|]. exact H2. Qed.

Lemma step_ckpt_done V id d s : (forall i, commits co i) -> bounded id s -> refines V (Up d s) ->
  exists V', rtc commit_step V V' /\
    refines V' (Up (run (checkpoint co id s) d).2 (run (checkpoint co id s) d).1.2).
Proof.
  intros Hcm Hb [Ht Hall]. destruct (gather co id (coMem s)) as [r w] eqn:Eg.
  destruct (gather_outcome id s r w Eg Hb) as [Hg Hlen]. destruct (Hall id) as [Hc Hgen].
  rewrite Hgen in Hg.
  destruct (checkpoint_cht co id (V id) s r w Hgen Hg (Hcm id) Eg Hlen d Hc) as [Hpost _].
  assert (forall q, ~ own id q -> (run (checkpoint co id s) d).2 !! q = d !! q) as Hfr
    by (intros; eapply foot_run; [apply foot_checkpoint|done]).
  destruct (frame_others V id _ _ Hfr) as [_ Hothers].
  assert (tidy (run (checkpoint co id s) d).2) as Ht'
    by (eapply tidy_frame; [eapply own_owned, Hfr|done]).
  destruct (run (checkpoint co id s) d) as [rs d']. cbn [fst snd] in *.
  destruct r as [[st delta]|e|p]; destruct Hpost as [-> Hcl].
  2,3: exists V; split; [done|]; split; [done|]; intros id'; destruct (Hall id') as [H1 H2]; split; [|done];
    destruct (decide (id' = id)) as [->|]; auto.
  eexists. split; [apply rtc_once; by eapply commit|]. split; [done|]. intros id'. cbn beta.
  destruct (decide (id' = id)) as [->|Hne].
  - split; [done|]. cbn [coGen setMem setGen snd]. by rewrite lookup_insert_eq, vGen_commit.
  - destruct (Hall id') as [H1 H2]. split; [by apply Hothers|]. cbn [coGen setMem setGen snd].
    by rewrite lookup_insert_ne by done.
Qed.

Lemma step_ckpt_crash V id d s d' : (forall i, commits co i) -> bounded id s -> refines V (Up d s) ->
  crashes (checkpoint co id s) d d' -> exists V', rtc commit_step V V' /\ refines V' (Down d').
Proof.
  intros Hcm Hb [Ht Hall] Hcr. destruct (gather co id (coMem s)) as [r w] eqn:Eg.
  destruct (gather_outcome id s r w Eg Hb) as [Hg Hlen]. destruct (Hall id) as [Hc Hgen].
  rewrite Hgen in Hg.
  destruct (checkpoint_cht co id (V id) s r w Hgen Hg (Hcm id) Eg Hlen d Hc) as [_ Hpost].
  assert (forall q, ~ own id q -> d' !! q = d !! q) as Hfr
    by (intros; eapply foot_crash; [apply foot_checkpoint|done..]).
  destruct (frame_others V id _ _ Hfr) as [Hothers _].
  assert (tidy d') as Ht' by (eapply tidy_frame; [eapply own_owned, Hfr|done]).
  destruct (Hpost d' Hcr) as [Hold|(st & delta & -> & Hnew)].
  - exists V. split; [done|]. split; [done|]. intros id'. destruct (decide (id' = id)) as [->|]; [done|].
    apply Hothers; [done|]. apply clean_durable, Hall.
  - eexists. split; [apply rtc_once; by eapply commit|]. split; [done|]. intros id'. cbn beta.
    destruct (decide (id' = id)) as [->|]; [done|]. apply Hothers; [done|]. apply clean_durable, Hall.
Qed.

Lemma step_recover V d : refines V (Down d) ->
  (forall d', crashes (Recover co (newCo w0)) d d' -> refines V (Down d')) /\
  (forall d' s, run (Recover co (newCo w0)) d = ((Ok tt, s), d') -> refines V (Up d' s)).
Proof.
  intros [Ht Hd]. destruct (recover_all V (newCo w0) d Ht (fun id _ => Hd id)) as (ids & Hl & Hrec).
  destruct (restoreAll V ids (coMem (newCo w0))) as [r w] eqn:Er. destruct (Hrec r w eq_refl) as [Hrun Hcr].
  destruct Hl as (Hnd & Hin & Hlist).
  assert (forall d', (forall q, ~ (exists id, id ∈ ids /\ own id q) -> d' !! q = d !! q) ->
    tidy d' /\ forall id, id ∉ ids -> clean co id (V id) d' /\ vGen (V id) = 0) as Hfr.
  { intros d' Hq. split; [eapply tidy_frame; [|done]; intros q Ho; apply Hq; intros (id & _ & ?); apply Ho; by exists id|].
    intros id Hn. assert (at_file co id FLog d = None) as Hlog.
    { destruct (at_file co id FLog d) eqn:E; [|done]. exfalso. apply Hn, Hin. by eexists. }
    destruct (durable_nolog id (V id) d (Hd id) Hlog) as [Hc H0]. split; [|done].
    by apply (clean_frame_not ids id (V id) d d'). }
  split.
  - intros d' Hc. assert (forall q, ~ (exists id, id ∈ ids /\ own id q) -> d' !! q = d !! q) as Hq.
    { intros q Hq. unfold Recover in Hc.
      eapply (crashes_D_bind _ _ _ d (uuid_String <$> ids) (newCo w0) d) in Hc as [Hc|Hc];
        [|by apply (foot_crash _ _ _ _ q (foot_recover_loop ids _) Hq Hc)|by rewrite run_liftIO, Hlist].
      apply crashes_liftIO in Hc as [Hc| ->]; [by apply crash_listKeys in Hc as ->|by rewrite Hlist]. }
    destruct (Hfr d' Hq) as [Ht' Hout]. split; [done|]. intros id.
    destruct (decide (id ∈ ids)) as [Hi|Hi]; [by apply (Hcr d' Hc)|by apply clean_durable, Hout].
  - intros d' s Hrun'. rewrite Hrun' in Hrun. cbn [fst snd] in Hrun.
    assert (forall q, ~ (exists id, id ∈ ids /\ own id q) -> d' !! q = d !! q) as Hq.
    { intros q Hq. replace d' with (run (Recover co (newCo w0)) d).2 by by rewrite Hrun'. unfold Recover.
      rewrite (run_D_bind _ _ _ d (uuid_String <$> ids) (newCo w0) d) by by rewrite run_liftIO, Hlist.
      apply (foot_run _ _ _ q (foot_recover_loop ids _) Hq). }
    destruct (Hfr d' Hq) as [Ht' Hout]. split; [done|]. intros id.
    destruct r as [[]|e|p]; destruct Hrun as [_ Hr]; [|done..]. destruct Hr as [[= ->] Hcl].
    rewrite coGen_setGens. case_decide as Hi; [by split; [apply Hcl|]|].
    destruct (Hout id Hi) as [Hc H0]. by split.
Qed.

(** C1. However checkpoints, crashes (also inside a checkpoint, a recovery or a
    write) and recoveries follow one another, the disk always holds, for every
    client, the outcome of a sequence of whole commits: the worker implements
    the atomic specification [commit_step]. *)
Theorem lifetime_refines x : (forall i, commits co i) ->
  rtc step (Down ∅) x -> exists V, rtc commit_step noView V /\ refines V x.
Proof.
  intros Hcm H. assert (exists V, rtc commit_step noView V /\ refines V (Down ∅)) as H0.
  { exists noView. split; [done|]. split; [by intros n [? ?]|]. intros id. exists [].
    split; [apply no_record_nil|]. split_and!; [by right|constructor|done|].
    intros b Hb. done. }
  revert H0. induction H as [x|x y z Hxy _ IH]; [done|]. intros (V & HV & Hx). apply IH. clear IH.
  destruct Hxy as [d s w|d s|id d s Hb|id d s d' Hb Hc|d d' Hc|d s d' Hrun].
  - exists V. split; [done|]. exact Hx.
  - exists V. split; [done|]. destruct Hx as [Ht Hall]. split; [done|]. intros id. by apply clean_durable, Hall.
  - destruct (step_ckpt_done V id d s Hcm Hb Hx) as (V' & HV' & ?). exists V'. split; [by etrans|done].
  - destruct (step_ckpt_crash V id d s d' Hcm Hb Hx Hc) as (V' & HV' & ?). exists V'. split; [by etrans|done].
  - exists V. split; [done|]. by apply (step_recover V d).
  - exists V. split; [done|]. by apply (step_recover V d).
Qed.
End Clients.
