(* ===== verification/Publisher.v ===== *)
(** * Publishing and deduplication ([src/common/messaging])

    [dedupState] with its append-only log of newly seen ids, the sends of
    [Publisher], and [Dispatch], which drops a message whose id its client has
    already completed. *)

From S2P Require Import Prelude Models Codec.

(** ** [dedup.go] *)
Record dedupState := mkDedup {
  seen : gmap id16 (gset id16);
  pending : gmap id16 (list id16)
}.
Definition newDedupState : dedupState := mkDedup ∅ ∅.

(** A nil map or slice and an empty one read the same. *)
Definition seen_of (d : dedupState) (c : id16) : gset id16 := default ∅ (seen d !! c).
Definition pending_of (d : dedupState) (c : id16) : list id16 := default [] (pending d !! c).

Definition alreadySeen (c id : id16) (d : dedupState) : bool := bool_decide (id ∈ seen_of d c).
Definition markSeen (c id : id16) (d : dedupState) : dedupState :=
  let ids := seen_of d c in
  let seen' := match seen d !! c with None => <[c := ∅]> (seen d) | Some _ => seen d end in
  if bool_decide (id ∈ ids) then mkDedup seen' (pending d)
  else mkDedup (<[c := {[id]} ∪ ids]> seen') (<[c := pending_of d c ++ [id]]> (pending d)).
Definition forget (c : id16) (d : dedupState) : dedupState :=
  mkDedup (delete c (seen d)) (delete c (pending d)).
Definition drainClient (c : id16) (d : dedupState) : bytes := flat_map id16_bytes (pending_of d c).
Definition commitDrained (c : id16) (d : dedupState) : dedupState :=
  mkDedup (seen d) (delete c (pending d)).
(** [for i := 0; i+16 <= len(data); i += 16]: each iteration uses 16 bytes. *)
Fixpoint replay_loop (fuel : nat) (data : bytes) (set : gset id16) : gset id16 :=
  match fuel with
  | O => set
  | S fuel' =>
      if bool_decide (length data < 16)%nat then set
      else replay_loop fuel' (drop 16 data) ({[copy16 (take 16 data)]} ∪ set)
  end.
Definition replayClient (c : id16) (data : bytes) (d : dedupState) : dedupState :=
  mkDedup (<[c := replay_loop (S (length data)) data (seen_of d c)]> (seen d)) (pending d).

(** ** [publisher.go] *)
Record Message := mkMessage { RoutingKey : string; Body : bytes }.

(** The broker accepts a message or fails; [script] fixes the outcomes of the
    next sends ([None]: accepted) and [sent] keeps what it accepted. *)
Record Publisher := mkPublisher {
  sent : list Message;
  script : list (option error);
  dedup : dedupState
}.

(** A worker's memory contains a publisher. *)
Class HasPublisher (W : Type) := {
  pub : W -> Publisher;
  setPub : Publisher -> W -> W;
  pub_setPub : forall p w, pub (setPub p w) = p;
  setPub_pub : forall w, setPub (pub w) w = w;
  setPub_setPub : forall p q w, setPub p (setPub q w) = setPub p w
}.
#[global] Instance Publisher_self : HasPublisher Publisher.
Proof. refine {| pub := fun p => p; setPub := fun p _ => p |}; done. Defined.

Section Publisher.
Context `{!UuidLib} {W : Type} `{!HasPublisher W}.

Definition onDedup (f : dedupState -> dedupState) : M W unit :=
  modS (fun w => let p := pub w in setPub (mkPublisher (sent p) (script p) (f (dedup p))) w).

Definition send (key : string) (envelope : bytes) : M W unit := fun w =>
  let p := pub w in
  match script p with
  | Some e :: rest => (Err (Wrapf "sending message to broker" e), setPub (mkPublisher (sent p) rest (dedup p)) w)
  | o => (Ok tt, setPub (mkPublisher (sent p ++ [mkMessage key envelope]) (tail o) (dedup p)) w)
  end.

Definition PublishInternalWithID (c : id16) (msgType : byte) (key : string) (payload : bytes)
    (id : id16) : M W unit :=
  send key (EncodeInternalEnvelope (mkInternalEnvelope msgType c id payload)).
Definition PublishInternal (c : id16) (msgType : byte) (key : string) (payload : bytes) : M W unit :=
  PublishInternalWithID c msgType key payload zero16.
Definition PublishRaw (key : string) (envelope : bytes) : M W unit := send key envelope.
Definition PublishRawWithID (key : string) (envelope : bytes) (id : id16) : M W unit :=
  send key (SetEnvelopeMsgID envelope id).

(** [Dispatch]: the handler of the message's type, unless the id is a repeat. *)
Definition Dispatch (body : bytes) (handlers : byte -> option (InternalEnvelope -> M W unit))
    : M W (id16 * byte) :=
  envelope ← liftR (wrapf "decoding internal envelope" (DecodeInternalEnvelope body));
  match handlers (MsgType_ envelope) with
  | None => failM (ErrMsg "unexpected inbound packet type")
  | Some handler =>
      w ← getS;
      let deduped := negb (bool_decide (MsgID envelope = zero16)) in
      if deduped && alreadySeen (ClientId envelope) (MsgID envelope) (dedup (pub w))
      then mret (zero16, MsgType_ envelope)
      else
        _ ← handler envelope;
        _ ← (if deduped then onDedup (markSeen (ClientId envelope) (MsgID envelope)) else mret tt);
        mret (ClientId envelope, MsgType_ envelope)
  end.

Definition Forget (c : id16) : M W unit := onDedup (forget c).
Definition Pub_DrainClient (c : id16) : M W bytes :=
  w ← getS; mret (drainClient c (dedup (pub w))).
Definition Pub_CommitClient (c : id16) : M W unit := onDedup (commitDrained c).
Definition Pub_ReplayClient (c : id16) (record : bytes) : M W unit := onDedup (replayClient c record).
End Publisher.

(** ** The seen log *)
Lemma seen_markSeen c id d c' :
  seen_of (markSeen c id d) c' = if decide (c' = c) then {[id]} ∪ seen_of d c else seen_of d c'.
Proof.
  unfold markSeen, seen_of at 1. case_bool_decide as Hin; simpl; case_decide as Hc; subst.
  - unfold seen_of in *. destruct (seen d !! c) as [s|] eqn:E; rewrite ?lookup_insert_eq, ?E; simpl in *; set_solver.
  - unfold seen_of. destruct (seen d !! c); by rewrite ?lookup_insert_ne by done.
  - by rewrite lookup_insert_eq.
  - rewrite lookup_insert_ne by done. unfold seen_of. destruct (seen d !! c); by rewrite ?lookup_insert_ne by done.
Qed.
Lemma pending_markSeen c id d c' :
  pending_of (markSeen c id d) c' =
    if decide (c' = c /\ id ∉ seen_of d c) then pending_of d c ++ [id] else pending_of d c'.
Proof.
  unfold markSeen, pending_of at 1. case_bool_decide as Hin; simpl.
  - rewrite decide_False by tauto. done.
  - case_decide as Hc; [destruct Hc as [-> _]; by rewrite lookup_insert_eq|].
    rewrite lookup_insert_ne; [done|]. intros ->. by apply Hc.
Qed.

Lemma replay_loop_spec ids fuel s : (length ids < fuel)%nat ->
  replay_loop fuel (flat_map id16_bytes ids) s = list_to_set ids ∪ s.
Proof.
  revert fuel s. induction ids as [|id ids IH]; intros [|fuel] s Hf; simpl in Hf; try lia.
  - simpl. set_solver.
  - cbn [replay_loop flat_map]. rewrite length_app, length_id16.
    rewrite bool_decide_eq_false_2 by lia.
    rewrite (drop_app_length' (id16_bytes id)), (take_app_length' (id16_bytes id)) by by rewrite length_id16.
    rewrite copy16_bytes, IH by lia. rewrite list_to_set_cons. set_solver.
Qed.
Lemma seen_replay c ids d c' :
  seen_of (replayClient c (flat_map id16_bytes ids) d) c' =
    if decide (c' = c) then list_to_set ids ∪ seen_of d c else seen_of d c'.
Proof.
  unfold replayClient, seen_of at 1. cbn [seen]. case_decide as Hc; subst.
  - rewrite lookup_insert_eq. cbn [default option_rect]. apply replay_loop_spec.
    induction ids as [|id ids IH]; cbn [flat_map length]; [lia|]. rewrite length_app, length_id16. lia.
  - by rewrite lookup_insert_ne by done.
Qed.

(** What a client's record log and dedup state become while messages are
    processed and checkpoints commit (deltas are appended in commit order). *)
Inductive dedup_run (c : id16) : list bytes -> dedupState -> Prop :=
  | run_new : dedup_run c [] newDedupState
  | run_mark log d c' id : dedup_run c log d -> dedup_run c log (markSeen c' id d)
  | run_forget_other log d c' : c' <> c -> dedup_run c log d -> dedup_run c log (forget c' d)
  | run_commit log d : dedup_run c log d -> dedup_run c (log ++ [drainClient c d]) (commitDrained c d)
  | run_commit_other log d c' : c' <> c -> dedup_run c log d -> dedup_run c log (commitDrained c' d).

Definition replay_log (c : id16) (log : list bytes) : dedupState :=
  fold_left (fun d rec => replayClient c rec d) log newDedupState.

(** C13. Replaying a client's record log gives every id it completed up to the
    last commit: the live set is the replayed one and the ids not yet drained;
    right after a commit both are the same. *)
Theorem replay_log_seen c log d : dedup_run c log d ->
  seen_of d c = seen_of (replay_log c log) c ∪ list_to_set (pending_of d c) /\
  seen_of (commitDrained c d) c = seen_of (replay_log c (log ++ [drainClient c d])) c.
Proof.
  intros H.
  assert (seen_of d c = seen_of (replay_log c log) c ∪ list_to_set (pending_of d c)) as Hinv.
  { induction H as [|log d c' id _ IH|log d c' Hne _ IH|log d _ IH|log d c' Hne _ IH].
    - done.
    - rewrite seen_markSeen, pending_markSeen. destruct (decide (c = c')) as [<-|Hne].
      + destruct (decide (id ∈ seen_of d c)).
        * rewrite decide_False by tauto. rewrite <- IH. set_solver.
        * rewrite decide_True by done. rewrite list_to_set_app_L. simpl. rewrite IH. set_solver.
      + rewrite decide_False by (intros [? _]; done). done.
    - unfold forget, pending_of, seen_of at 1; simpl.
      rewrite !lookup_delete_ne by done. exact IH.
    - unfold replay_log. rewrite fold_left_app. cbn [fold_left]. fold (replay_log c log).
      unfold drainClient. rewrite seen_replay, decide_True by done.
      unfold pending_of at 2, commitDrained. simpl. rewrite lookup_delete_eq. simpl.
      change (seen_of (mkDedup (seen d) (delete c (pending d))) c) with (seen_of d c). rewrite IH. set_solver.
    - unfold pending_of, commitDrained. simpl. rewrite lookup_delete_ne by done. exact IH. }
  split; [done|]. unfold replay_log. rewrite fold_left_app. cbn [fold_left]. fold (replay_log c log).
  unfold drainClient. rewrite seen_replay, decide_True by done.
  change (seen_of (commitDrained c d) c) with (seen_of d c). rewrite Hinv. set_solver.
Qed.

(** ** At-least-once delivery, exactly-once handling *)
Section ExactlyOnce.
Context {UL : UuidLib} {W : Type} {HP : HasPublisher W}.
Variable handlers : byte -> option (InternalEnvelope -> M W unit).
(** Handlers send and change the worker's state; they do not touch the dedup state. *)
Hypothesis handlers_dedup : forall t h e w, handlers t = Some h ->
  dedup (pub (h e w).2) = dedup (pub w).

Definition key_of (e : InternalEnvelope) : id16 * id16 := (ClientId e, MsgID e).
Definition was_seen (k : id16 * id16) (w : W) : Prop := k.2 ∈ seen_of (dedup (pub w)) k.1.
Instance was_seen_dec k w : Decision (was_seen k w).
Proof. unfold was_seen. apply _. Defined.

(** Deliver messages one after the other, whatever each returns (a failed one
    is delivered again later), and keep the identified envelopes whose handler
    ran to completion. *)
Fixpoint completed (bodies : list bytes) (w : W) : list InternalEnvelope * W :=
  match bodies with
  | [] => ([], w)
  | b :: bodies' =>
      let (r, w') := Dispatch b handlers w in
      let done :=
        match DecodeInternalEnvelope b with
        | Ok e => if decide (is_ok r = true /\ MsgID e <> zero16 /\ ~ was_seen (key_of e) w)
                  then [e] else []
        | _ => []
        end in
      let (es, w'') := completed bodies' w' in (done ++ es, w'')
  end.

(** What one delivery does to the set of completed ids. *)
Lemma Dispatch_seen b w :
  let (r, w') := Dispatch b handlers w in
  forall k, was_seen k w' <-> was_seen k w \/
    exists e, DecodeInternalEnvelope b = Ok e /\ is_ok r = true /\ MsgID e <> zero16 /\ k = key_of e.
Proof.
  unfold Dispatch, was_seen. unfoldM.
  destruct (DecodeInternalEnvelope b) as [e|x|p] eqn:Ed; simpl; [|naive_solver..].
  destruct (handlers (MsgType_ e)) as [h|] eqn:Eh; simpl; [|naive_solver].
  unfold alreadySeen. pose proof (handlers_dedup _ h e w Eh) as Hd.
  destruct (decide (MsgID e = zero16)) as [Hz|Hz].
  { rewrite (bool_decide_eq_true_2 (MsgID e = zero16)) by done. simpl.
    destruct (h e w) as [[[]|x|p] w']; simpl in *; rewrite Hd; naive_solver. }
  rewrite (bool_decide_eq_false_2 (MsgID e = zero16)) by done. simpl.
  case_bool_decide as Hs; simpl.
  { intros k. split; [tauto|]. intros [?|(e' & [= <-] & _ & _ & ->)]; done. }
  destruct (h e w) as [[[]|x|p] w']; simpl in *; [|rewrite Hd; naive_solver..].
  intros [c id]. unfold onDedup, modS. simpl. rewrite pub_setPub. simpl. rewrite seen_markSeen, Hd.
  unfold key_of. case_decide; subst; simpl; [rewrite elem_of_union, elem_of_singleton|]; naive_solver.
Qed.

(** C12. However often and in whatever order messages are delivered again, the
    handler of an identified message completes at most once, and afterwards
    exactly the completed messages (and those known before) count as seen. *)
Theorem exactly_once bodies w :
  let (es, w') := completed bodies w in
  NoDup (key_of <$> es) /\ (forall k, k ∈ key_of <$> es -> ~ was_seen k w) /\
  forall k, was_seen k w' <-> was_seen k w \/ k ∈ key_of <$> es.
Proof.
  revert w. induction bodies as [|b bodies IH]; intros w; simpl.
  { split_and!; [constructor|set_solver|]. intros k. set_solver. }
  pose proof (Dispatch_seen b w) as Hd. destruct (Dispatch b handlers w) as [r w1].
  specialize (IH w1). destruct (completed bodies w1) as [es w2].
  destruct IH as (Hnd & Hnew & Hseen).
  destruct (DecodeInternalEnvelope b) as [e|x|p] eqn:Ed; simpl.
  2,3: split_and!; [done|intros k Hk Hs; apply (Hnew k Hk), Hd; by left
    |intros k; rewrite Hseen, Hd; split; [|tauto]; intros [[?|(?&?&?)]|?]; [tauto|done|tauto]].
  case_decide as Hc; simpl.
  - destruct Hc as (Hr & Hid & Hns). split_and!.
    + apply NoDup_cons. split; [|done]. intros Hk. apply (Hnew _ Hk), Hd. right. by exists e.
    + intros k Hk. apply elem_of_cons in Hk as [->|Hk]; [done|].
      intros Hs. apply (Hnew k Hk), Hd. by left.
    + intros k. rewrite Hseen, Hd, elem_of_cons. split; [|intros [?|[->|?]]; [tauto| |tauto]].
      * intros [[?|(e' & [= <-] & _ & _ & ->)]|?]; tauto.
      * left. right. by exists e.
  - split_and!; [done|intros k Hk Hs; apply (Hnew k Hk), Hd; by left|].
    intros k. rewrite Hseen, Hd. split; [|tauto].
    intros [[?|(e' & [= <-] & Hr & Hid & ->)]|?]; [tauto| |tauto].
    left. destruct (decide (was_seen (key_of e) w)); [done|]. exfalso. by apply Hc.
Qed.
End ExactlyOnce.

(** ** Examples *)
Definition echo (e : InternalEnvelope) : M Publisher unit := PublishRaw EmptyString (Payload e).
Definition echo_handlers (t : byte) : option (InternalEnvelope -> M Publisher unit) :=
  if decide (t = MsgTransactionsBatch) then Some echo else None.
Definition sample_msg (id : id16) : bytes :=
  EncodeInternalEnvelope (mkInternalEnvelope MsgTransactionsBatch zero16 id [Byte.x2a]).
Definition id1 : id16 := copy16 [Byte.x01].
Definition id2 : id16 := copy16 [Byte.x02].
(** Two messages, the second sent while the broker fails, and both again. *)
Definition sample_bodies : list bytes := [sample_msg id1; sample_msg id2; sample_msg id1; sample_msg id2].
Definition sample_pub : Publisher := mkPublisher [] [None; Some EOF] newDedupState.

Lemma exactly_once_witness :
  let r := @completed uuid_letters Publisher _ echo_handlers sample_bodies sample_pub in
  ((fun e => id16_bytes (MsgID e)) <$> r.1 = [id16_bytes id1; id16_bytes id2] /\ length (sent r.2) = 2%nat) /\
  NoDup (key_of <$> r.1).
Proof.
  pose proof (@exactly_once uuid_letters Publisher _ echo_handlers) as H.
  assert (forall t h e w, echo_handlers t = Some h -> dedup (pub (h e w).2) = dedup (pub w)) as Hh.
  { intros t h e w Ht. unfold echo_handlers in Ht. case_decide; [|done]. injection Ht as <-.
    unfold echo, PublishRaw, send. by destruct (script (pub w)) as [|[]]. }
  specialize (H Hh sample_bodies sample_pub). split; [split; vm_compute; reflexivity|].
  destruct (completed echo_handlers sample_bodies sample_pub) as [es w']. by destruct H.
Defined.

Lemma replay_log_seen_witness :
  let d := markSeen zero16 id2 (commitDrained zero16 (markSeen zero16 id1 newDedupState)) in
  dedup_run zero16 [drainClient zero16 (markSeen zero16 id1 newDedupState)] d /\
  seen_of (commitDrained zero16 d) zero16
    = seen_of (replay_log zero16 ([drainClient zero16 (markSeen zero16 id1 newDedupState)]
                                  ++ [drainClient zero16 d])) zero16.
Proof.
  intros d. assert (dedup_run zero16 [drainClient zero16 (markSeen zero16 id1 newDedupState)] d) as H.
  { apply run_mark, (run_commit zero16 []), run_mark, run_new. }
  split; [exact H|]. apply (replay_log_seen zero16 _ d H).
Defined.
