(* ===== verification/Delivery.v ===== *)
(** * A stage behind a queue

    What a stage of the pipeline makes of the messages of its queue when any
    number of replicas take them, in any order, each message at least once: a
    replica may refuse a message, be refused by its broker, or be killed after
    part of its answer, and the message comes back, to it or to another one.
    [Stage] is what a worker's handler promises: the answers it sends, or, if
    it fails, a beginning of them.  [stage_exact] is what the stage then
    promises to the next one. *)

From S2P Require Import Prelude Models Codec Publisher.

Section Stage.
Context {UL : UuidLib} {W : Type} {HP : HasPublisher W}.

Class Stage := mkStage {
  stType : byte;                              (** the type of the messages it takes *)
  stHandler : InternalEnvelope -> M W unit;
  stGood : InternalEnvelope -> Prop;          (** the messages it can read *)
  answers : InternalEnvelope -> list Message;
  stage_dedup : forall e w, dedup (pub (stHandler e w).2) = dedup (pub w);
  stage_sent : forall e w r w', stGood e -> stHandler e w = (r, w') ->
    exists l, l `prefix_of` answers e /\ sent (pub w') = sent (pub w) ++ l /\ (is_ok r = true -> l = answers e)
}.
Context {ST : Stage}.

Definition table (t : byte) : option (InternalEnvelope -> M W unit) := if decide (t = stType) then Some stHandler else None.
Definition takes (m : Message) (e : InternalEnvelope) : Prop :=
  DecodeInternalEnvelope (Body m) = Ok e /\ MsgType_ e = stType /\ stGood e.

(** The deliveries of the messages [src]: what was sent, which messages were
    acknowledged, and which ids are known as completed.  The memory [w] of the
    replica that gets a delivery is arbitrary - it may have been restored from an
    old checkpoint - but knows no id that no replica completed. *)
Inductive serves (src : list Message) : list Message -> list Message -> gset (id16 * id16) -> Prop :=
  | serves_start : serves src [] [] ∅
  | serves_delivery outs acked done m w r w' more done' :
      serves src outs acked done -> m ∈ src -> (forall k, was_seen k w -> k ∈ done) ->
      Dispatch (Body m) table w = (r, w') -> sent (pub w') = sent (pub w) ++ more ->
      (forall k, k ∈ done' <-> k ∈ done \/ was_seen k w') ->
      serves src (outs ++ more) (if is_ok r then m :: acked else acked) done'
  | serves_killed outs acked done m w r w' more :
      serves src outs acked done -> m ∈ src -> (forall k, was_seen k w -> k ∈ done) ->
      Dispatch (Body m) table w = (r, w') -> sent (pub w) ++ more `prefix_of` sent (pub w') ->
      serves src (outs ++ more) acked done.
(** The queue is empty: every message was acknowledged. *)
Definition drained (src outs : list Message) : Prop := exists acked done, serves src outs acked done /\ forall m, m ∈ src -> m ∈ acked.

(** An id stands for one message. *)
Definition identified (src : list Message) : Prop := forall m m' e e', m ∈ src -> m' ∈ src -> takes m e -> takes m' e' ->
  MsgID e <> zero16 -> key_of e = key_of e' -> e = e'.

Lemma table_dedup t h e w : table t = Some h -> dedup (pub (h e w).2) = dedup (pub w).
Proof. unfold table. case_decide; [|done]. intros [= <-]. apply stage_dedup. Qed.

(** One delivery: the answers, or a beginning of them; nothing only for a
    message that is a repeat. *)
Lemma dispatch_answers m e w r w' : takes m e -> Dispatch (Body m) table w = (r, w') ->
  (MsgID e <> zero16 /\ was_seen (key_of e) w /\ sent (pub w') = sent (pub w)) \/
  exists l, l `prefix_of` answers e /\ sent (pub w') = sent (pub w) ++ l /\ (is_ok r = true -> l = answers e).
Proof.
  intros (Hd & Ht & Hg). unfold Dispatch. unfoldM. rewrite Hd. cbn [wrapf]. unfold table. rewrite decide_True by done.
  destruct (decide (MsgID e = zero16)) as [Hz|Hz].
  - rewrite (bool_decide_eq_true_2 (MsgID e = zero16)) by done. cbn [negb andb].
    destruct (stHandler e w) as [[[]|x|p] w1] eqn:E; cbn; intros [= <- <-]; right;
      destruct (stage_sent _ _ _ _ Hg E) as (l & H1 & H2 & H3); exists l; split_and!; try done; intros; by apply H3.
  - rewrite (bool_decide_eq_false_2 (MsgID e = zero16)) by done. cbn [negb andb]. unfold alreadySeen.
    case_bool_decide as Hs; cbn.
    + intros [= <- <-]. by left.
    + destruct (stHandler e w) as [[[]|x|p] w1] eqn:E; cbn; intros [= <- <-]; right;
        destruct (stage_sent _ _ _ _ Hg E) as (l & H1 & H2 & H3); exists l; unfold onDedup, modS; cbn; rewrite ?pub_setPub; cbn;
        split_and!; try done; intros; by apply H3.
Qed.

Definition answered_in (outs : list Message) (m : Message) : Prop := forall e o, takes m e -> o ∈ answers e -> o ∈ outs.
Record served (src outs acked : list Message) (done : gset (id16 * id16)) : Prop := mkServed {
  served_sound : forall o, o ∈ outs -> exists m e, m ∈ src /\ takes m e /\ o ∈ answers e;
  served_done : forall k, k ∈ done -> exists m e, m ∈ src /\ takes m e /\ key_of e = k /\ MsgID e <> zero16 /\ answered_in outs m;
  served_acked : forall m, m ∈ acked -> answered_in outs m
}.
Lemma answered_mono outs more m : answered_in outs m -> answered_in (outs ++ more) m.
Proof. intros H e o He Ho. apply elem_of_app. left. by eapply H. Qed.
Lemma served_more src outs acked done more : served src outs acked done ->
  (forall o, o ∈ more -> exists m e, m ∈ src /\ takes m e /\ o ∈ answers e) -> served src (outs ++ more) acked done.
Proof.
  intros [H1 H2 H3] Hm. split.
  - intros o [Ho|Ho]%elem_of_app; auto.
  - intros k Hk. destruct (H2 k Hk) as (m & e & ? & ? & ? & ? & ?). exists m, e. split_and!; auto using answered_mono.
  - intros m Hk. by apply answered_mono, H3.
Qed.

Lemma serves_served src outs acked done : (forall m, m ∈ src -> exists e, takes m e) -> identified src ->
  serves src outs acked done -> served src outs acked done.
Proof.
  intros Hsrc Hid. induction 1 as [|outs acked done m w r w' more done' _ IH Hm Hw Hd Hmore Hdone'|outs acked done m w r w' more _ IH Hm Hw Hd Hmore].
  - split; [by intros o Ho%elem_of_nil|set_solver|by intros m Hm%elem_of_nil].
  - destruct (Hsrc m Hm) as [e He]. pose proof (Dispatch_seen table table_dedup (Body m) w) as Hseen. rewrite Hd in Hseen.
    assert (Forall (fun o => o ∈ answers e) more /\ (is_ok r = true -> answered_in (outs ++ more) m)) as [Hin Hok].
    { destruct (dispatch_answers m e w r w' He Hd) as [(Hz & Hs & Hsent)|(l & Hl & Hsent & Hr)]; rewrite Hsent in Hmore.
      - rewrite <- (app_nil_r (sent (pub w))) in Hmore at 1. apply app_inv_head in Hmore as <-. split; [constructor|].
        intros _. destruct (served_done _ _ _ _ IH _ (Hw _ Hs)) as (m' & e' & Hm' & He' & Hk & _ & Ha).
        intros x o Hx Ho. assert (x = e) as -> by (destruct He as [He _], Hx as [Hx _]; congruence).
        assert (e = e') as -> by (eapply (Hid m m'); eauto). apply elem_of_app. left. by eapply Ha.
      - apply app_inv_head in Hmore as <-. destruct Hl as [l' Hl]. split.
        + rewrite Hl. apply Forall_forall. set_solver.
        + intros H x o Hx Ho. assert (x = e) as -> by (destruct He as [He _], Hx as [Hx _]; congruence).
          rewrite (Hr H). set_solver. }
    assert (served src (outs ++ more) acked done) as [H1 H2 H3].
    { apply served_more; [done|]. intros o Ho. exists m, e. split_and!; try done. by eapply Forall_forall in Hin. }
    split; [done| |].
    + intros k Hk. apply Hdone' in Hk as [Hk|Hk]; [auto|]. apply Hseen in Hk as [Hk|(e' & He' & Hr & Hz & ->)]; [auto|].
      assert (e' = e) as -> by (destruct He as [He _]; congruence). exists m, e. split_and!; auto.
    + destruct (is_ok r); [|done]. intros x [->|Hx]%elem_of_cons; auto.
  - destruct (Hsrc m Hm) as [e He]. apply served_more; [done|]. intros o Ho. exists m, e. split_and!; try done.
    destruct (dispatch_answers m e w r w' He Hd) as [(Hz & Hs & Hsent)|(l & [l' Hl] & Hsent & _)]; rewrite Hsent in Hmore.
    + apply prefix_length in Hmore. rewrite length_app in Hmore. destruct more; [by apply elem_of_nil in Ho|cbn in Hmore; lia].
    + apply prefix_app_inv in Hmore as [k Hk]. rewrite Hl, Hk. set_solver.
Qed.

(** However the messages of a queue are delivered and however often replicas
    fail on them or die, once the queue is empty the stage has sent exactly the
    answers to its messages - possibly more than once, never anything else. *)
Lemma stage_exact src outs : (forall m, m ∈ src -> exists e, takes m e) -> identified src -> drained src outs ->
  forall o, o ∈ outs <-> exists m e, m ∈ src /\ takes m e /\ o ∈ answers e.
Proof.
  intros Hsrc Hid (acked & done & Hs & Hall) o. apply serves_served in Hs as [H1 _ H3]; [|done|done]. split; [apply H1|].
  intros (m & e & Hm & He & Ho). eapply H3; eauto.
Qed.

(** ** Ways to serve a message *)
(** By a replica that knows nothing yet; [acked]: it lives to acknowledge it. *)
Lemma serve_fresh src outs acked done m e (w : W) (lives : bool) : serves src outs acked done -> m ∈ src -> takes m e ->
  MsgID e <> zero16 -> seen (dedup (pub w)) = ∅ -> is_ok (Dispatch (Body m) table w).1 = true ->
  serves src (outs ++ answers e) (if lives then m :: acked else acked) (if lives then {[key_of e]} ∪ done else done).
Proof.
  intros Hs Hm He Hz Hw Hok. destruct (Dispatch (Body m) table w) as [r w'] eqn:E. cbn [fst] in Hok.
  assert (forall k, ~ was_seen k w) as Hnone by (intros k; unfold was_seen, seen_of; rewrite Hw, lookup_empty; set_solver).
  destruct (dispatch_answers m e w r w' He E) as [(_ & Hin & _)|(l & _ & Hsent & Hl)]; [by apply Hnone in Hin|].
  rewrite (Hl Hok) in Hsent. destruct lives.
  - pose proof (serves_delivery src outs acked done m w r w' (answers e) ({[key_of e]} ∪ done)) as H.
    rewrite Hok in H. apply H; try done; [by intros k Hk%Hnone|]. intros k. rewrite elem_of_union, elem_of_singleton.
    pose proof (Dispatch_seen table table_dedup (Body m) w) as Hseen. rewrite E in Hseen. rewrite Hseen. destruct He as (Hd & _).
    split; [intros [->|?]; [right; right; by exists e|by left]|]. intros [?|[Hk|(e' & He' & _ & _ & ->)]]; [by right|by apply Hnone in Hk|].
    left. congruence.
  - eapply serves_killed; try done; [by intros k Hk%Hnone|by rewrite Hsent].
Qed.
(** By a replica that completed it: nothing is sent. *)
Lemma serve_again src outs acked done m e (w : W) : serves src outs acked done -> m ∈ src -> takes m e ->
  MsgID e <> zero16 -> (forall k, was_seen k w -> k ∈ done) -> was_seen (key_of e) w -> serves src outs (m :: acked) done.
Proof.
  intros Hs Hm (Hd & Ht & Hg) Hz Hw Hin. rewrite <- (app_nil_r outs).
  apply (serves_delivery src outs acked done m w (Ok (zero16, MsgType_ e)) w []); try done.
  - unfold Dispatch. unfoldM. rewrite Hd. cbn [wrapf]. unfold table. rewrite decide_True by done.
    rewrite bool_decide_eq_false_2 by done. cbn [negb andb]. unfold alreadySeen. by rewrite bool_decide_eq_true_2.
  - by rewrite app_nil_r.
  - intros k. split; [by left|]. intros [?|Hk]; auto.
Qed.
End Stage.
Arguments Stage W {HP}.
