(* ===== verification/Worker.v ===== *)
(** * A worker with checkpoints

    The smallest worker that uses every part of the checkpoint library: a
    publisher, whose dedup state is the append source, and one byte string per
    client as its state; with it the theorems of [CrashSafety] and [Recovery]
    are evaluated on concrete runs. *)

From S2P Require Import Prelude Models Codec Disk Store Coordinator CrashSafety Recovery Publisher.

Record Worker := mkWorker { wPub : Publisher; wState : gmap id16 bytes }.
#[global] Instance Worker_pub : HasPublisher Worker.
Proof.
  refine {| pub := wPub; setPub := fun p w => mkWorker p (wState w) |}; [done| |done]. by intros [].
Defined.

(** The publisher as the coordinator's append source. *)
Definition seenSource {W} `{!HasPublisher W} : AppendSource W :=
  mkAppendSource W Pub_DrainClient Pub_CommitClient Pub_ReplayClient.

Lemma seenSource_commits {W} `{!HasPublisher W} dir eof state n id :
  commits (NewCoordinator (W := W) dir seenSource eof state n) id.
Proof. intros w. by eexists. Qed.

Definition workerState : Checkpointable Worker :=
  mkCheckpointable Worker
    (fun c w => (Ok (default [] (wState w !! c)), w))
    (fun c data w => (Ok tt, mkWorker (wPub w) (<[c := data]> (wState w)))).
Definition workerCo : CoConfig Worker :=
  NewCoordinator "ckpt" seenSource None (Some workerState) 2.

(** ** A run: two completed messages, a checkpoint torn in the state slot, in
    the seen log, or complete *)
Definition w_start : Worker := mkWorker (mkPublisher [] [] newDedupState) ∅.
Definition w_busy : Worker :=
  mkWorker (mkPublisher [] [] (markSeen id1 id2 (markSeen id1 id1 newDedupState))) {[ id1 := [Byte.x61; Byte.x62] ]}.
Definition s_busy : Co Worker := mkCo {[ id1 ]} [] 1 ∅ w_busy.
Definition noClient : View := mkView [] (fun _ => None).

#[local] Instance letters : UuidLib := uuid_letters.
#[local] Instance order : GoRange := range_id.

Lemma clean_empty id : clean workerCo id noClient ∅.
Proof.
  split; [split_and!|].
  - right. split_and!; done.
  - constructor.
  - done.
  - intros b _. done.
  - intros b _. done.
Qed.

Definition busy_data : res ((bool -> option bytes) * bytes) * Worker := gather workerCo id1 w_busy.

Lemma checkpoint_atomic_witness :
  default 0 (coGen s_busy !! id1) = vGen noClient /\
  cht (clean workerCo id1 noClient) (checkpoint workerCo id1 s_busy)
    (checkpoint_post workerCo id1 noClient s_busy busy_data.1 busy_data.2)
    (checkpoint_crash workerCo id1 noClient busy_data.1).
Proof.
  split; [reflexivity|]. apply checkpoint_atomic; [reflexivity|split; vm_compute; congruence|
    apply seenSource_commits|reflexivity|].
  intros st delta [= <- <-]. split; vm_compute; congruence.
Defined.

(** The disk after that checkpoint, and after a crash while the next one
    appends to the seen log. *)
Definition ckpt1 : (res unit * Co Worker) * disk := run (checkpoint workerCo id1 s_busy) ∅.
Definition torn_disk : disk :=
  let p := path_of workerCo FLog (uuid_String id1) in
  <[p := default [] (ckpt1.2 !! p) ++ [Byte.x00; Byte.x00; Byte.x01]]> ckpt1.2.
Definition view1 : View :=
  mkView [mkRec 1 (id16_bytes id1 ++ id16_bytes id2)]
    (fun b => if b then Some [Byte.x61; Byte.x62] else None).

Lemma torn_disk_durable : durable workerCo id1 view1 torn_disk.
Proof.
  exists [Byte.x00; Byte.x00; Byte.x01]. split.
  - assert ([Byte.x00; Byte.x00; Byte.x01] = take 3 (enc_rec (mkRec 0 (replicate 256 Byte.x00)))) as ->
      by (vm_compute; reflexivity).
    apply no_record_torn; [split; split; vm_compute; congruence|vm_compute; lia].
  - split_and!.
    + left. vm_compute. reflexivity.
    + repeat constructor; vm_compute; congruence.
    + split; vm_compute; congruence.
    + intros [] H; [|vm_compute in H; discriminate].
      assert (staged (vGen view1) (at_file workerCo id1 (FTmp true) torn_disk) = false) as Hs
        by (vm_compute; reflexivity).
      unfold slot_is. rewrite Hs. exists 1. split; [split; vm_compute; congruence|].
      vm_compute. reflexivity.
Qed.

Lemma recover_restores_witness :
  durable workerCo id1 view1 torn_disk /\
  cht (durable workerCo id1 view1) (recoverKey workerCo (uuid_String id1) (newCo w_start))
    (recover_post workerCo id1 view1 (newCo w_start) (Ok tt) (restoreMem workerCo id1 view1 w_start).2)
    (durable workerCo id1 view1) /\
  id16_bytes <$> elements (seen_of (dedup (wPub (coMem
    (run (Recover workerCo (newCo w_start)) torn_disk).1.2))) id1) = [id16_bytes id2; id16_bytes id1].
Proof.
  split; [apply torn_disk_durable|]. split.
  - apply recover_restores. reflexivity.
  - vm_compute. reflexivity.
Defined.

(** The torn directory holds the one client's files. *)
Lemma torn_disk_names n : n ∈ dir_names (seenDir workerCo) torn_disk ->
  n = (uuid_String id1 +:+ logExt)%string.
Proof.
  assert (forallb (fun n => String.eqb n (uuid_String id1 +:+ logExt))
    (dir_names (seenDir workerCo) torn_disk) = true) as H by (vm_compute; reflexivity).
  rewrite forallb_forall in H. intros Hn. apply String.eqb_eq, H. by apply list_elem_of_In.
Qed.
Lemma torn_disk_tidy : tidy workerCo torn_disk.
Proof.
  intros n Hn. apply elem_of_dir_names, torn_disk_names in Hn. by exists id1.
Qed.

Lemma Recover_restores_witness :
  tidy workerCo torn_disk /\
  (exists ids, listed workerCo ids torn_disk /\
    forall r w, restoreAll workerCo (fun _ => view1) ids w_start = (r, w) ->
      recoverAll_post workerCo (fun _ => view1) ids (newCo w_start) r w
        (run (Recover workerCo (newCo w_start)) torn_disk).1
        (run (Recover workerCo (newCo w_start)) torn_disk).2 /\
      forall d', crashes (Recover workerCo (newCo w_start)) torn_disk d' ->
        all_durable workerCo (fun _ => view1) ids d').
Proof.
  split; [apply torn_disk_tidy|].
  apply (Recover_restores workerCo (fun _ => view1) (newCo w_start) torn_disk torn_disk_tidy).
  intros id [c Hc].
  assert (is_Some (torn_disk !! (seenDir workerCo, uuid_String id +:+ logExt))) as Hs
    by (by exists c).
  apply elem_of_dir_names, torn_disk_names in Hs. apply (key_ext_inj _ _ FLog FLog) in Hs as [Hs _].
  apply (inj uuid_String) in Hs as ->. apply torn_disk_durable.
Defined.

(** Start, work, a checkpoint that crashes at once, and a recovery. *)
Lemma lifetime_refines_witness :
  exists x, rtc (step workerCo w_start) (Down ∅) x /\
  exists V, rtc (commit_step workerCo) noView V /\ refines workerCo V x.
Proof.
  assert (run (Recover workerCo (newCo w_start)) ∅ = ((Ok tt, newCo w_start), ∅)) as Hr by (vm_compute; reflexivity).
  set (s := setMem w_busy (newCo w_start)).
  assert (bounded workerCo id1 s) as Hb.
  { split; [split; vm_compute; congruence|]. intros st delta [= <- <-]. split; vm_compute; congruence. }
  assert (rtc (step workerCo w_start) (Down ∅)
    (Up (run (checkpoint workerCo id1 s) ∅).2 (run (checkpoint workerCo id1 s) ∅).1.2)) as H.
  { eapply rtc_l; [by apply recover_done|]. eapply rtc_l; [by apply (work _ _ _ _ w_busy)|].
    apply rtc_once. by apply ckpt_done. }
  eexists. split; [exact H|].
  apply (lifetime_refines workerCo w_start _ (seenSource_commits _ _ _ _) H).
Defined.
