(* ===== verification/Acks.v ===== *)
(** * Persist, then acknowledge

    [Flush] over all the clients changed since the last one: the deliveries it
    acknowledges are acknowledged after every changed client was committed, and
    none is when a checkpoint fails. *)

From S2P Require Import Prelude Models Codec Disk Store Coordinator CrashSafety Recovery Publisher Worker.

Section Acks.
Context {UL : UuidLib} {GR : GoRange} {W : Type} (co : CoConfig W).

(** What the checkpoints of [ids], one after the other, read from the worker. *)
Abbreviation output := (id16 * ((bool -> option bytes) * bytes))%type.
Fixpoint gatherAll (ids : list id16) : M W (list output) :=
  match ids with
  | [] => mret []
  | id :: ids' =>
      out ← gather co id;
      _ ← CommitClient (coSeen co) id;
      outs ← gatherAll ids';
      mret ((id, out) :: outs)
  end.
Definition commitAll (outs : list output) (V : id16 -> View) : id16 -> View :=
  fold_left (fun V (o : output) i => if decide (i = o.1) then commitView (V i) o.2.2 o.2.1 else V i) outs V.
Definition runAcks (acks : list (W -> W)) (w : W) : W := fold_left (fun w ack => ack w) acks w.

(** Fewer than 2^64 checkpoints of a client, and less than 4 GiB of ids in each. *)
Fixpoint fits (V : id16 -> View) (ids : list id16) (w : W) : Prop :=
  match ids with
  | [] => True
  | id :: ids' => in_uint 64 (vGen (V id) + 1) /\
      match gather co id w with
      | (Ok (st, delta), w1) => in_uint 32 (Zlen delta) /\ fits V ids' (CommitClient (coSeen co) id w1).2
      | _ => True
      end
  end.
Lemma fits_ext V V' ids w : (forall i, i ∈ ids -> V' i = V i) -> fits V ids w -> fits V' ids w.
Proof.
  revert w. induction ids as [|id ids IH]; intros w HV; [done|]. cbn [fits]. rewrite HV by set_solver.
  intros [H1 H2]. split; [done|]. destruct (gather co id w) as [[[st delta]|e|p] w1]; [|done..].
  destruct H2 as [H2 H3]. split; [done|]. apply IH; [|done]. intros i Hi. apply HV. set_solver.
Qed.

Lemma forD_acks (acks : list (W -> W)) (s : Co W) :
  forD acks (fun ack => modD (fun s => setMem (ack (coMem s)) s)) s = Ret (Ok tt, setMem (runAcks acks (coMem s)) s).
Proof.
  revert s. induction acks as [|ack acks IH]; intros s; [by destruct s|].
  cbn [forD]. unfold mbind, D_bind, modD at 1. cbn [prog_bind]. rewrite IH. done.
Qed.

Definition loop_post (V : id16 -> View) (s : Co W) (r : res (list output)) (w : W)
    (rs : res unit * Co W) (d : disk) : Prop :=
  coMem rs.2 = w /\ coAcks rs.2 = coAcks s /\ coDirty rs.2 = coDirty s /\ coPending rs.2 = coPending s /\
  match r with
  | Ok outs => rs.1 = Ok tt /\
      forall i, clean co i (commitAll outs V i) d /\ default 0 (coGen rs.2 !! i) = vGen (commitAll outs V i)
  | Err e => rs.1 = Err e
  | Panic p => rs.1 = Panic p
  end.
Definition loop_crash (V : id16 -> View) (ids : list id16) (d : disk) : Prop :=
  forall i, durable co i (V i) d \/
    i ∈ ids /\ exists st delta, durable co i (commitView (V i) delta st) d.

(** A checkpoint leaves the files of the other clients alone. *)
Lemma checkpoint_others id V s rg wg : commits co id -> default 0 (coGen s !! id) = vGen (V id) -> in_uint 64 (vGen (V id) + 1) ->
  gather co id (coMem s) = (rg, wg) -> (forall st delta, rg = Ok (st, delta) -> in_uint 32 (Zlen delta)) ->
  cht (fun d => clean co id (V id) d /\ forall i, i <> id -> clean co i (V i) d) (checkpoint co id s)
    (fun rs d => checkpoint_post co id (V id) s rg wg rs d /\ forall i, i <> id -> clean co i (V i) d)
    (fun d => checkpoint_crash co id (V id) rg d /\ forall i, i <> id -> clean co i (V i) d).
Proof.
  intros Hcm Hgen Hg64 Eg Hlen. apply (cht_frame (own co id)); [by apply checkpoint_cht|apply foot_checkpoint|].
  intros d d' Hq Hd i Hi. apply (frame_others co V id d d' Hq); auto.
Qed.
Lemma loop_cht ids V s r w : (forall i, commits co i) -> NoDup ids -> fits V ids (coMem s) ->
  (forall i, default 0 (coGen s !! i) = vGen (V i)) ->
  gatherAll ids (coMem s) = (r, w) ->
  cht (fun d => forall i, clean co i (V i) d) (forD ids (checkpoint co) s) (loop_post V s r w) (loop_crash V ids).
Proof.
  intros Hcm. revert V s r w. induction ids as [|id ids IH]; intros V s r w Hnd Hfit Hgen Hg.
  { injection Hg as <- <-. apply cht_ret. intros d Hd. split.
    { unfold loop_post. cbn [fst snd]. by split_and!. }
    intros i. left. apply clean_durable, Hd. }
  apply NoDup_cons in Hnd as [Hni Hnd]. cbn [gatherAll] in Hg. unfold mbind at 1, M_bind in Hg.
  cbn [fits] in Hfit. destruct Hfit as [Hg64 Hfit]. destruct (gather co id (coMem s)) as [rg wg] eqn:Eg.
  pose proof (checkpoint_others id V s rg wg (Hcm id) (Hgen id) Hg64 Eg) as Hck.
  specialize (Hck ltac:(intros st delta ->; apply Hfit)).
  assert (forall d, checkpoint_crash co id (V id) rg d /\ (forall i, i <> id -> clean co i (V i) d) ->
    loop_crash V (id :: ids) d) as Hcr.
  { intros d [Hc Hd] i. destruct (decide (i = id)) as [->|]; [|left; by apply clean_durable, Hd].
    destruct Hc as [Hc|(st & delta & -> & Hc)]; [by left|right]. split; [set_solver|by exists st, delta]. }
  cbn [forD]. destruct rg as [[st delta]|e|p].
  2,3: injection Hg as <- <-; (eapply (cht_step _ (fun d => checkpoint_crash co id (V id) _ d /\ _) _ _ _ _ _ _ (setMem wg s));
    [eapply cht_weaken; [exact Hck|intros d Hd; split; [apply Hd|auto]| |exact Hcr];
     intros rs d [[-> Hc] Hd]; split; [done|]; split; [left; apply clean_durable, Hc|exact Hd]
    |intros d Hd; split; [done|by apply Hcr]]).
  unfold mbind at 1, M_bind in Hg. destruct (Hcm id wg) as [wc Ec]. rewrite Ec in Hg.
  set (V' := fun i => if decide (i = id) then commitView (V i) delta st else V i).
  set (s1 := setMem wc (setGen id (vGen (V id) + 1) s)).
  eapply (cht_step _ (fun d => forall i, clean co i (V' i) d) _ _ _ _ s (Ok tt) s1).
  { eapply cht_weaken; [exact Hck|intros d Hd; split; [apply Hd|auto]| |exact Hcr].
    intros rs d [[-> Hc] Hd]. split; [unfold s1; by rewrite Ec|]. intros i. unfold V'.
    destruct (decide (i = id)) as [->|]; auto. }
  cbn beta iota. unfold mbind at 1, M_bind in Hg.
  destruct (gatherAll ids wc) as [ro wo] eqn:Eo.
  assert (w = wo /\ r = match ro with Ok outs => Ok ((id, (st, delta)) :: outs) | Err e => Err e | Panic p => Panic p end)
    as [-> ->] by (destruct ro; by injection Hg).
  assert (cht (fun d => forall i, clean co i (V' i) d) (forD ids (checkpoint co) s1)
    (loop_post V' s1 ro wo) (loop_crash V' ids)) as H.
  { apply IH; [done| | |exact Eo].
    - apply (fits_ext V); [|destruct Hfit as [_ Hfit]; by rewrite Ec in Hfit]. intros i Hi. unfold V'. by rewrite decide_False by (intros ->; done).
    - intros i. unfold V', s1. cbn [coGen setMem setGen]. destruct (decide (i = id)) as [->|].
      + by rewrite lookup_insert_eq, vGen_commit.
      + by rewrite lookup_insert_ne by done. }
  eapply cht_weaken; [exact H|done| |].
  - intros rs d (? & ? & ? & ? & Hr). split_and!; try done. by destruct ro.
  - intros d Hd i. destruct (Hd i) as [Hi|[Hin (st' & delta' & Hi)]]; unfold V' in Hi.
    + case_decide; [|by left]. subst. right. split; [set_solver|by exists st, delta].
    + rewrite decide_False in Hi by (intros ->; done). right. split; [set_solver|by exists st', delta'].
Qed.

Lemma flush_cht V s r w :
  (forall i, commits co i) -> fits V (range (elements (coDirty s))) (coMem s) ->
  (forall i, default 0 (coGen s !! i) = vGen (V i)) ->
  gatherAll (range (elements (coDirty s))) (coMem s) = (r, w) ->
  cht (fun d => forall i, clean co i (V i) d) (Flush co s)
    (fun rs d => coAcks rs.2 = [] /\ coDirty rs.2 = ∅ /\
      match r with
      | Ok outs => rs.1 = Ok tt /\ coMem rs.2 = runAcks (coAcks s) w /\
          forall i, clean co i (commitAll outs V i) d
      | Err e => rs.1 = Err e /\ coMem rs.2 = w
      | Panic p => rs.1 = Panic p /\ coMem rs.2 = w
      end)
    (loop_crash V (range (elements (coDirty s)))).
Proof.
  intros Hcm Hfit Hgen Hg. unfold Flush.
  assert (forall d, (forall i, clean co i (V i) d) -> loop_crash V (range (elements (coDirty s))) d) as Hcr.
  { intros d Hd i. left. apply clean_durable, Hd. }
  eapply (cht_step _ (fun d => forall i, clean co i (V i) d) _ _ _ _ s (Ok s) s); [by apply cht_ret; auto|].
  cbn beta iota. set (s0 := mkCo ∅ [] 0 (coGen s) (coMem s)).
  eapply (cht_step _ (fun d => forall i, clean co i (V i) d) _ _ _ _ s (Ok tt) s0); [by apply cht_ret; auto|].
  cbn beta iota. assert (NoDup (range (elements (coDirty s)))) as Hnd.
  { rewrite range_perm. apply NoDup_elements. }
  intros d Hd. destruct (loop_cht _ V s0 r w Hcm Hnd Hfit Hgen Hg d Hd) as [Hpost Hcrash].
  unfold mbind, D_bind. rewrite run_bind.
  destruct (run (forD (range (elements (coDirty s))) (checkpoint co) s0) d) as [[r1 s1] d1] eqn:Er.
  destruct Hpost as (Hm & Ha & Hdi & _ & Hr). cbn [fst snd] in *.
  split.
  - destruct r as [outs|e|p]; [destruct Hr as [-> Hr]|rewrite Hr; by subst..].
    rewrite forD_acks. cbn [run fst snd setMem coAcks coDirty coMem]. rewrite Ha, Hdi, Hm.
    split; [done|]. split; [done|]. split; [done|]. split; [done|]. intros i. apply Hr.
  - intros d' Hc. apply crashes_bind in Hc as [Hc|Hc]; [by apply Hcrash|].
    rewrite Er in Hc. cbn [fst snd] in Hc. apply Hcrash.
    assert (d' = d1) as ->.
    { destruct r1 as [[]|e|p]; [rewrite forD_acks in Hc|..]; by inversion Hc. }
    clear -Er. revert Er. generalize (forD (range (elements (coDirty s))) (checkpoint co) s0).
    intros m Hm. replace d1 with (run m d).2 by by rewrite Hm. clear Hm.
    revert d. induction m as [a|r k IH]; intros d; [apply crash_end|]. cbn [run]. apply crash_later, IH.
Qed.

(** C32. [Flush] acknowledges only what is durable: the acknowledgements run, all
    of them and in order, exactly when every changed client was committed; after
    a failed checkpoint none runs (and none is kept for later); a crash leaves
    every client at its old view or a whole new one, and no acknowledgement. *)
Theorem acks_after_durable V s r w :
  (forall i, commits co i) -> fits V (range (elements (coDirty s))) (coMem s) ->
  (forall i, default 0 (coGen s !! i) = vGen (V i)) ->
  gatherAll (range (elements (coDirty s))) (coMem s) = (r, w) ->
  cht (fun d => forall i, clean co i (V i) d) (Flush co s)
    (fun rs d => coAcks rs.2 = [] /\ coDirty rs.2 = ∅ /\
      match r with
      | Ok outs => rs.1 = Ok tt /\ coMem rs.2 = runAcks (coAcks s) w /\
          forall i, clean co i (commitAll outs V i) d
      | Err e => rs.1 = Err e /\ coMem rs.2 = w
      | Panic p => rs.1 = Panic p /\ coMem rs.2 = w
      end)
    (loop_crash V (range (elements (coDirty s)))).
Proof. apply flush_cht. Qed.
End Acks.

(** ** Example: the worker of [Worker], two acknowledgements waiting *)
#[local] Instance letters : UuidLib := uuid_letters.
#[local] Instance order : GoRange := range_id.
Definition ackWorker (n : Byte.byte) (w : Worker) : Worker :=
  mkWorker (wPub w) (<[zero16 := default [] (wState w !! zero16) ++ [n]]> (wState w)).
Definition s_waiting : Co Worker :=
  mkCo {[ id1 ]} [ackWorker Byte.x01; ackWorker Byte.x02] 2 ∅ w_busy.

Lemma acks_after_durable_witness :
  (wState (coMem (run (Flush workerCo s_waiting) ∅).1.2) !! zero16 = Some [Byte.x01; Byte.x02]) /\
  coAcks (run (Flush workerCo s_waiting) ∅).1.2 = [].
Proof.
  split; [vm_compute; reflexivity|].
  assert (forall i, clean workerCo i (mkView [] (fun _ => None)) ∅) as Hc by apply clean_empty.
  destruct (gatherAll workerCo (range (elements (coDirty s_waiting))) (coMem s_waiting)) as [r w] eqn:E.
  assert (fits workerCo (fun _ => noClient) (range (elements (coDirty s_waiting))) (coMem s_waiting)) as Hf.
  { vm_compute. repeat split; congruence. }
  destruct (acks_after_durable workerCo (fun _ => noClient) s_waiting r w (seenSource_commits _ _ _ _)
    Hf (fun _ => eq_refl) E ∅ Hc) as [[H _] _]. exact H.
Defined.
