(* ===== verification/Consumer.v ===== *)
(** * The consumer loop of a worker ([Run], [publisher.go] [Dispatch])

    [DispatchD] is [Dispatch] for handlers that also use the checkpoint
    coordinator; [consumeBarrier] is the callback that the workers with a count
    of end-of-stream messages give to [StartConsuming]. *)

From S2P Require Import Prelude Models Codec Disk Coordinator Publisher.

(** ** One send *)
Definition accepted (m : Message) (p : Publisher) : Publisher := mkPublisher (sent p ++ [m]) (tail (script p)) (dedup p).
Definition refused (p : Publisher) : Publisher := mkPublisher (sent p) (tail (script p)) (dedup p).
Lemma send_ok {W : Type} {HP : HasPublisher W} key envelope (w : W) : script (pub w) = [] ->
  send key envelope w = (Ok tt, setPub (accepted (mkMessage key envelope) (pub w)) w).
Proof. intros Hs. unfold send, accepted. by rewrite Hs. Qed.
Lemma send_refused {W : Type} {HP : HasPublisher W} key envelope (w : W) e rest : script (pub w) = Some e :: rest ->
  send key envelope w = (Err (Wrapf "sending message to broker" e), setPub (refused (pub w)) w).
Proof. intros Hs. unfold send, refused. by rewrite Hs. Qed.

(** Keep an error as a value; a panic ends the worker. *)
Definition attempt {S A} (m : D S A) : D S (res A) := fun s =>
  prog_bind (m s) (fun rs => Ret (match rs.1 with
    | Ok a => Ok (Ok a) | Err e => Ok (Err e) | Panic p => Panic p end, rs.2)).
Definition tryD {S A} (m : D S A) : D S (option error) :=
  r ← attempt m; mret (match r with Err e => Some e | _ => None end).

Section Consumer.
Context `{!UuidLib, !GoRange} {W : Type} `{!HasPublisher W} (co : CoConfig W).

Definition DispatchD (body : bytes) (handlers : byte -> option (InternalEnvelope -> D (Co W) unit))
    : D (Co W) (id16 * byte) :=
  envelope ← onMem (liftR (wrapf "decoding internal envelope" (DecodeInternalEnvelope body)));
  match handlers (MsgType_ envelope) with
  | None => onMem (failM (ErrMsg "unexpected inbound packet type"))
  | Some handler =>
      w ← onMem getS;
      let deduped := negb (bool_decide (MsgID envelope = zero16)) in
      if deduped && alreadySeen (ClientId envelope) (MsgID envelope) (dedup (pub w))
      then mret (zero16, MsgType_ envelope)
      else
        _ ← handler envelope;
        _ ← (if deduped then onMem (onDedup (markSeen (ClientId envelope) (MsgID envelope))) else mret tt);
        mret (ClientId envelope, MsgType_ envelope)
  end.

(** The outcome of a delivery: [false] is a negative acknowledgement, after
    which the broker delivers the message again.  [counting]: end-of-stream
    messages of the client are still missing. *)
Definition consumeBarrier (handle : bytes -> D (Co W) (id16 * byte)) (counting : id16 -> W -> bool)
    (finish : id16 -> M W unit) (body : bytes) (ack : W -> W) : D (Co W) bool :=
  r ← attempt (handle body);
  match r with
  | Ok (clientID, msgType) =>
      _ ← tryD (Track co clientID ack);
      if decide (msgType = MsgTransactionsEOF) then
        failed ← tryD (Flush co);
        match failed with
        | Some _ => mret true
        | None =>
            s ← getD;
            if counting clientID (coMem s) then mret true
            else
              _ ← onMem (Forget clientID);
              _ ← onMem (finish clientID);
              _ ← tryD (Delete co clientID);
              mret true
        end
      else mret true
  | _ => mret false
  end.

(** The callback of a worker that synchronises the end of the stream: the
    controller acknowledges an end-of-stream message later, unless it is a
    repeat (the nil client).  The error of [Track] is ignored. *)
Definition consumeSync (handle : bytes -> D (Co W) (id16 * byte)) (body : bytes) (ack : W -> W) : D (Co W) bool :=
  r ← attempt (handle body);
  match r with
  | Ok (clientID, msgType) =>
      if decide (msgType = MsgTransactionsEOF) then
        _ ← (if decide (clientID = zero16) then onMem (modS ack) else mret tt);
        mret true
      else
        _ ← tryD (Track co clientID ack);
        mret true
  | _ => mret false
  end.

(** ** A handler that uses only the memory *)
Definition memHandlers (h : byte -> option (InternalEnvelope -> M W unit)) (t : byte)
    : option (InternalEnvelope -> D (Co W) unit) :=
  f ← h t; Some (fun e => onMem (f e)).

Lemma DispatchD_memory body h s :
  DispatchD body (memHandlers h) s = let (r, w) := Dispatch body h (coMem s) in Ret (r, setMem w s).
Proof.
  destruct s as [di ac pe ge w0]. unfold DispatchD, Dispatch, memHandlers, mbind, D_bind, M_bind, onMem, liftR, getS, mret, D_ret, M_ret, failM, setMem.
  destruct (wrapf _ _) as [e|x|p]; cbn [prog_bind coMem coDirty coAcks coPending coGen]; [|done..].
  destruct (h (MsgType_ e)) as [f|]; cbn [option_bind prog_bind coMem coDirty coAcks coPending coGen]; [|done].
  destruct (negb _); cbn [andb]; [destruct (alreadySeen _ _ _); [done|]|]; cbn [prog_bind coMem coDirty coAcks coPending coGen];
    destruct (f e w0) as [[[]|x|p] w]; cbn [prog_bind coMem coDirty coAcks coPending coGen]; done.
Qed.
End Consumer.
