(* ===== verification/EofSync.v ===== *)
(** * End-of-stream synchronisation ([src/common/eof])

    The replicas of a worker agree that every batch of a client has been
    received before one of them, the leader, lets the end of the stream through.
    A controller's calls to its callbacks, its broker and the acknowledgement of
    the end-of-stream message are events, in the order the code makes them.
    Control messages are Go values here; [ControlText] has their JSON text. *)

From S2P Require Import Prelude Maps Models.

Abbreviation KeyType := string (only parsing).
Abbreviation idCounts := (gmap id16 Z) (only parsing).

(** ** Control messages ([codec.go]) *)
Inductive MsgKind := AmountRequest | AmountResponse | FlushMsg | FlushAck | RetryExceeded.
Record ControlMessage := mkControl {
  Type_ : MsgKind;
  CmClient : id16;
  RequesterID : Z;
  SenderID : Z;
  ReceivedIDs : bytes;
  SentIDsByKey : gmap KeyType bytes
}.

(** ** Id-to-count maps on the wire *)
Definition msgIDLen : nat := 16.
Definition encodeIDCounts `{!GoRange} (set : idCounts) : bytes :=
  flat_map (fun kv : id16 * Z => id16_bytes kv.1 ++ be_bytes 4 (uint32 kv.2)) (range (map_to_list set)).
Fixpoint decodeIDCounts_loop (fuel : nat) (data : bytes) (set : idCounts) : idCounts :=
  match fuel with
  | O => set
  | S fuel' =>
      if bool_decide (length data < msgIDLen + 4)%nat then set
      else decodeIDCounts_loop fuel' (drop (msgIDLen + 4) data)
             (<[copy16 (take msgIDLen data) := be_val (take 4 (drop msgIDLen data))]> set)
  end.
Definition decodeIDCounts (data : bytes) : idCounts :=
  decodeIDCounts_loop (S (length data)) data ∅.
Definition encodeSentIDCounts `{!GoRange} (sets : gmap KeyType idCounts) : gmap KeyType bytes :=
  encodeIDCounts <$> sets.
Definition decodeSentIDCounts (sets : gmap KeyType bytes) : gmap KeyType idCounts :=
  decodeIDCounts <$> sets.

(** ** State ([sync_controller.go]) *)
Record nodeInfo := mkNodeInfo { niRcv : idCounts; niSent : gmap KeyType idCounts }.
(** An acknowledgement function is identified by the delivery it settles. *)
Record client := mkClient {
  msgRcvByID : idCounts;
  msgSentByKeyID : gmap KeyType idCounts;
  expectedTotal : Z;
  retryCount : Z;
  isLeader : bool;
  eofAck : option nat;
  nodesInfo : gmap Z nodeInfo
}.
Definition NewClient : client := mkClient ∅ ∅ 0 0 false None ∅.

Record config := mkConfig {
  nodeID : Z;
  totalNodes : Z;
  maxRetries : Z;
  retryBaseDelay : Z;
  retryStepDelay : Z;
  hasFlush : bool;
  hasLeaderFlush : bool;
  hasRetryExceeded : bool
}.
(** [NewSyncEOFController] replaces a delay that is not positive. *)
Definition defaultRetryBaseDelay : Z := 500000000.
Definition withDefaults (c : config) : config :=
  mkConfig (nodeID c) (totalNodes c) (maxRetries c)
    (if retryBaseDelay c <=? 0 then defaultRetryBaseDelay else retryBaseDelay c)
    (retryStepDelay c) (hasFlush c) (hasLeaderFlush c) (hasRetryExceeded c).

Inductive event :=
  | Sent (m : ControlMessage)
  | OnFlush (c : id16)
  | OnLeaderFlush (c : id16) (counts : gmap KeyType Z)
  | OnRetryExceeded (c : id16)
  | Acked (delivery : nat)
  | Sleep (ns : Z).

Abbreviation clients := (gmap id16 client) (only parsing).
(** A step of a controller: its new clients and what it did. *)
Definition ctl : Type := clients -> clients * list event.
Definition emit (e : event) : ctl := fun cs => (cs, [e]).
Definition skip : ctl := fun cs => (cs, []).
Definition seq (f g : ctl) : ctl := fun cs =>
  let (cs1, es1) := f cs in let (cs2, es2) := g cs1 in (cs2, es1 ++ es2).
Infix "⨟" := seq (at level 61, left associativity).
Definition when (b : bool) (f : ctl) : ctl := if b then f else skip.
Definition client_of (cs : clients) (c : id16) : client := default NewClient (cs !! c).
Definition updClient (c : id16) (f : client -> client) : ctl := fun cs =>
  (<[c := f (client_of cs c)]> cs, []).

(** ** Local bookkeeping *)
Definition MessageReceived (c id : id16) (processedCount : Z) : ctl :=
  updClient c (fun cl => mkClient (<[id := processedCount]> (msgRcvByID cl)) (msgSentByKeyID cl)
    (expectedTotal cl) (retryCount cl) (isLeader cl) (eofAck cl) (nodesInfo cl)).
Definition setSentID (sets : gmap KeyType idCounts) (key : KeyType) (id : id16) (count : Z)
    : gmap KeyType idCounts :=
  <[key := <[id := count]> (default ∅ (sets !! key))]> sets.
Definition MessageSentWithKey (c : id16) (key : KeyType) (id : id16) (sentCount : Z) : ctl :=
  updClient c (fun cl =>
    let s := msgSentByKeyID cl in
    let s' := if decide (key = KeyNil) then setSentID s KeyNil id sentCount
              else setSentID (setSentID s key id sentCount) KeyNil id sentCount in
    mkClient (msgRcvByID cl) s' (expectedTotal cl) (retryCount cl) (isLeader cl) (eofAck cl) (nodesInfo cl)).
Definition MessageSent (c id : id16) (sentCount : Z) : ctl := MessageSentWithKey c KeyNil id sentCount.

(** ** What the nodes reported *)
Section Controller.
Context `{!GoRange} (cfg : config).

Definition mergeInto (union set : idCounts) : idCounts :=
  fold_left (fun u (kv : id16 * Z) => <[kv.1 := kv.2]> u) (range (map_to_list set)) union.
Definition unionReceived (nodes : gmap Z nodeInfo) : idCounts :=
  fold_left (fun u (n : Z * nodeInfo) => mergeInto u (niRcv n.2)) (range (map_to_list nodes)) ∅.
Definition total (set : idCounts) : Z :=
  fold_left (fun t (kv : id16 * Z) => int64 (t + kv.2)) (range (map_to_list set)) 0.
Definition mergeReceived (nodes : gmap Z nodeInfo) : Z := total (unionReceived nodes).
Definition isReceivedUnionEmpty (nodes : gmap Z nodeInfo) : bool :=
  forallb (fun n : Z * nodeInfo => bool_decide (niRcv n.2 = ∅)) (range (map_to_list nodes)).
Definition mergeSentByKey (nodes : gmap Z nodeInfo) : gmap KeyType Z :=
  total <$> fold_left (fun union (n : Z * nodeInfo) =>
      fold_left (fun union (ks : KeyType * idCounts) =>
          <[ks.1 := mergeInto (default ∅ (union !! ks.1)) ks.2]> union)
        (range (map_to_list (niSent n.2))) union)
    (range (map_to_list nodes)) (∅ : gmap KeyType idCounts).

(** ** Messages to the other nodes *)
(** [EOFBroker.Send] refuses what [UnmarshalControlMessage] does: the nil client. *)
Definition sendControlMessage (m : ControlMessage) : ctl :=
  if decide (CmClient m = zero16) then skip else emit (Sent m).
Definition broadcastAmountRequest (c : id16) : ctl :=
  sendControlMessage (mkControl AmountRequest c (nodeID cfg) 0 [] ∅).
Definition broadcastFlush (c : id16) : ctl :=
  sendControlMessage (mkControl FlushMsg c (nodeID cfg) 0 [] ∅).
Definition broadcastRetryExceeded (c : id16) : ctl :=
  sendControlMessage (mkControl RetryExceeded c 0 0 [] ∅).

Definition cleanupClientState (c : id16) : ctl := fun cs =>
  (delete c cs, match cs !! c with
                | Some cl => if isLeader cl then match eofAck cl with Some a => [Acked a] | None => [] end else []
                | None => []
                end).
Definition runRetryExceededCallback (c : id16) : ctl :=
  when (hasRetryExceeded cfg) (emit (OnRetryExceeded c)) ⨟ cleanupClientState c.

(** [counts = None]: a nil map. *)
Definition SyncEof (c : id16) (counts : option (gmap KeyType Z)) (keyType : KeyType) (ack : option nat) : ctl :=
  let expected := match counts with Some m => default 0 (m !! keyType) | None => 0 end in
  if bool_decide (is_Some counts) && (expected =? -1) then
    broadcastFlush c
    ⨟ when (hasLeaderFlush cfg) (emit (OnLeaderFlush c (default ∅ counts)))
    ⨟ cleanupClientState c
    ⨟ match ack with Some a => emit (Acked a) | None => skip end
  else
    updClient c (fun cl => mkClient (msgRcvByID cl) (msgSentByKeyID cl) expected 0 true ack (nodesInfo cl))
    ⨟ broadcastAmountRequest c.

Definition processAmountRequest (m : ControlMessage) : ctl :=
  updClient (CmClient m) (fun cl => cl)
  ⨟ (fun cs => let cl := client_of cs (CmClient m) in
       sendControlMessage (mkControl AmountResponse (CmClient m) (RequesterID m) (nodeID cfg)
         (encodeIDCounts (msgRcvByID cl)) (encodeSentIDCounts (msgSentByKeyID cl))) cs).

Definition retryAmountRequest (c : id16) : ctl := fun cs =>
  let attempt := int64 (retryCount (client_of cs c) + 1) in
  (updClient c (fun cl => mkClient (msgRcvByID cl) (msgSentByKeyID cl) (expectedTotal cl) attempt
                  (isLeader cl) (eofAck cl) ∅)
   ⨟ (if (0 <? maxRetries cfg) && (maxRetries cfg <? attempt)
       then broadcastRetryExceeded c ⨟ runRetryExceededCallback c
       else
         let delay := if 1 <? attempt
           then int64 (retryBaseDelay cfg + int64 (retryStepDelay cfg * int64 (attempt - 1)))
           else retryBaseDelay cfg in
         emit (Sleep delay) ⨟ broadcastAmountRequest c)) cs.

Definition checkTotalAndFlush (c : id16) : ctl := fun cs =>
  let cl := client_of cs c in
  let totalRcvReported := mergeReceived (nodesInfo cl) in
  let combinedSentByKey := mergeSentByKey (nodesInfo cl) in
  (if expectedTotal cl <=? totalRcvReported then
     when (hasLeaderFlush cfg) (emit (OnLeaderFlush c combinedSentByKey))
     ⨟ broadcastFlush c ⨟ cleanupClientState c
   else if isReceivedUnionEmpty (nodesInfo cl) then cleanupClientState c
   else retryAmountRequest c) cs.

Definition processAmountResponse (m : ControlMessage) : ctl := fun cs =>
  match cs !! CmClient m with
  | None => skip cs
  | Some cl =>
      if negb (isLeader cl) then skip cs
      else
        let info := mkNodeInfo (decodeIDCounts (ReceivedIDs m)) (decodeSentIDCounts (SentIDsByKey m)) in
        let nodes := <[SenderID m := info]> (nodesInfo cl) in
        (updClient (CmClient m) (fun cl => mkClient (msgRcvByID cl) (msgSentByKeyID cl) (expectedTotal cl)
           (retryCount cl) (isLeader cl) (eofAck cl) nodes)
         ⨟ when (Z.of_nat (size nodes) =? totalNodes cfg) (checkTotalAndFlush (CmClient m))) cs
  end.

Definition processFlush (m : ControlMessage) : ctl :=
  when (hasFlush cfg) (emit (OnFlush (CmClient m))) ⨟ cleanupClientState (CmClient m).
Definition processRetryExceeded (m : ControlMessage) : ctl := runRetryExceededCallback (CmClient m).

(** [handleControlMessage]: what does not parse, here the nil client, is refused. *)
Definition handleControlMessage (m : ControlMessage) : ctl :=
  if decide (CmClient m = zero16) then skip else
  match Type_ m with
  | AmountRequest => processAmountRequest m
  | AmountResponse => processAmountResponse m
  | FlushMsg => processFlush m
  | RetryExceeded => processRetryExceeded m
  | FlushAck => skip
  end.

(** ** Checkpoints of a client *)
Record clientCheckpoint := mkClientCheckpoint { RcvByID : bytes; SentByKeyID : gmap KeyType bytes }.
Definition SnapshotClientEof (c : id16) (cs : clients) : option clientCheckpoint :=
  cl ← cs !! c;
  Some (mkClientCheckpoint (encodeIDCounts (msgRcvByID cl)) (encodeSentIDCounts (msgSentByKeyID cl))).
Definition RestoreClientEof (c : id16) (data : option clientCheckpoint) : ctl :=
  match data with
  | None => skip
  | Some cp => updClient c (fun cl => mkClient (decodeIDCounts (RcvByID cp)) (decodeSentIDCounts (SentByKeyID cp))
      (expectedTotal cl) (retryCount cl) (isLeader cl) (eofAck cl) (nodesInfo cl))
  end.

(** [KeyAllTransaction] is "tx.*". *)
Definition SyncKeyFromInputKeys (inputKeys : list string) : KeyType :=
  match inputKeys with
  | [key] => if decide (key <> KeyNil /\ key <> KeyAllTransaction) then key else KeyNil
  | _ => KeyNil
  end.
End Controller.

(** ** Id counts: the wire format and the union *)
Definition counts_ok (set : idCounts) : Prop := forall id n, set !! id = Some n -> in_uint 32 n.

Lemma decode_flat l s fuel : Forall (fun kv : id16 * Z => in_uint 32 kv.2) l -> (length l < fuel)%nat ->
  decodeIDCounts_loop fuel (flat_map (fun kv : id16 * Z => id16_bytes kv.1 ++ be_bytes 4 (uint32 kv.2)) l) s
    = fold_left (fun u kv => <[kv.1 := kv.2]> u) l s.
Proof.
  intros Hok. revert s fuel. induction Hok as [|[id n] l Hn Hok IH]; intros s [|fuel] Hf; simpl in Hf; try lia.
  - done.
  - cbn [flat_map decodeIDCounts_loop fst snd fold_left]. rewrite <- app_assoc.
    rewrite bool_decide_eq_false_2 by (autorewrite with len; unfold msgIDLen; lia).
    rewrite (take_app_length' (id16_bytes id)) by by rewrite length_id16.
    assert (drop msgIDLen (id16_bytes id ++ be_bytes 4 (uint32 n)
      ++ flat_map (fun kv : id16 * Z => id16_bytes kv.1 ++ be_bytes 4 (uint32 kv.2)) l)
      = be_bytes 4 (uint32 n) ++ flat_map (fun kv : id16 * Z => id16_bytes kv.1 ++ be_bytes 4 (uint32 kv.2)) l) as Hd
      by (apply drop_app_length'; by rewrite length_id16).
    rewrite <- drop_drop, Hd, (take_app_length' (be_bytes 4 _)), (drop_app_length' (be_bytes 4 _))
      by by rewrite length_be_bytes.
    simpl in Hn. rewrite be_val_bytes, uint32_small, Z.mod_small, copy16_bytes by done. apply IH. lia.
Qed.

(** The id counts a node reports or saves are read back exactly, whatever
    order the map is written in. *)
Theorem decode_encodeIDCounts {GR : GoRange} set : counts_ok set ->
  decodeIDCounts (encodeIDCounts set) = set.
Proof.
  intros Hok. unfold decodeIDCounts, encodeIDCounts. rewrite decode_flat.
  - by rewrite fold_insert, (right_id_L ∅ (∪)).
  - apply Forall_forall. intros [id n] Hin. apply elem_of_range_map in Hin. by apply (Hok id).
  - assert (forall l : list (id16 * Z), length (flat_map (fun kv : id16 * Z => id16_bytes kv.1 ++
      be_bytes 4 (uint32 kv.2)) l) = (20 * length l)%nat) as ->; [|lia].
    intros l. induction l as [|kv l IH]; [done|]. cbn [flat_map length]. autorewrite with len. lia.
Qed.
Lemma decode_encodeIDCounts_witness :
  counts_ok {[zero16 := 7]} /\ decodeIDCounts (@encodeIDCounts range_rev {[zero16 := 7]}) = {[zero16 := 7]}.
Proof.
  assert (counts_ok {[zero16 := 7]}) as H.
  { intros id n Hn. apply lookup_singleton_Some in Hn as [_ <-]. by split. }
  split; [exact H|]. apply (@decode_encodeIDCounts range_rev _ H).
Defined.

Section Merge.
Context {GR : GoRange}.

Lemma mergeInto_union union set : mergeInto union set = set ∪ union.
Proof. apply fold_insert. Qed.

(** The union of the reports, when no two of them disagree. *)
Lemma unionReceived_spec (g : idCounts) nodes :
  (forall s info, nodes !! s = Some info -> niRcv info ⊆ g) ->
  unionReceived nodes ⊆ g /\
  forall id, is_Some (unionReceived nodes !! id) <->
    exists s info, nodes !! s = Some info /\ is_Some (niRcv info !! id).
Proof.
  intros Hg. unfold unionReceived.
  assert (forall l u, Forall (fun n : Z * nodeInfo => niRcv n.2 ⊆ g) l -> u ⊆ g ->
    let r := fold_left (fun u (n : Z * nodeInfo) => mergeInto u (niRcv n.2)) l u in
    r ⊆ g /\ forall id, is_Some (r !! id) <-> is_Some (u !! id) \/ Exists (fun n => is_Some (niRcv n.2 !! id)) l) as Hl.
  { intros l. induction l as [|n l IH]; intros u Hok Hu; simpl.
    - split; [done|]. intros id. rewrite Exists_nil. tauto.
    - apply Forall_cons in Hok as [Hn Hok]. rewrite mergeInto_union.
      destruct (IH (niRcv n.2 ∪ u) Hok) as [H1 H2]; [by apply map_union_least|].
      split; [done|]. intros id. rewrite H2, Exists_cons, lookup_union_is_Some. tauto. }
  destruct (Hl (range (map_to_list nodes)) ∅) as [H1 H2].
  { apply Forall_forall. intros [s info] Hin. apply elem_of_range_map in Hin. by apply (Hg s). }
  { apply map_empty_subseteq. }
  split; [done|]. intros id. rewrite H2, lookup_empty, Exists_exists. split.
  - intros [[? ?]|([s info] & Hin & Hs)]; [done|]. apply elem_of_range_map in Hin. by exists s, info.
  - intros (s & info & Hs & Hid). right. exists (s, info). by rewrite elem_of_range_map.
Qed.

Lemma mergeReceived_sum nodes : mergeReceived nodes = int64 (sumM (unionReceived nodes)).
Proof. apply fold_sum. Qed.

Lemma mergeReceived_counts (g : idCounts) nodes :
  (forall s info, nodes !! s = Some info -> niRcv info ⊆ g) ->
  (forall id n, g !! id = Some n -> 0 < n) -> sumM g < 2 ^ 63 ->
  (mergeReceived nodes <= sumM g) /\
  (sumM g <= mergeReceived nodes <->
   forall id, is_Some (g !! id) -> exists s info, nodes !! s = Some info /\ is_Some (niRcv info !! id)).
Proof.
  intros Hg Hpos Hmax. destruct (unionReceived_spec g nodes Hg) as [Hu Hin].
  destruct (sumM_subseteq _ _ Hu Hpos) as [Hle Heq].
  assert (0 <= sumM (unionReceived nodes)) as Hnn.
  { destruct (sumM_subseteq ∅ (unionReceived nodes)) as [H0 _]; [apply map_empty_subseteq| |by rewrite sumM_empty in H0].
    intros k v Hk. apply (Hpos k). by eapply lookup_weaken. }
  rewrite mergeReceived_sum, int64_small by (unfold in_int64; lia). split; [done|]. split.
  - intros Hs id Hid. apply Hin. by rewrite Heq.
  - intros Hall. replace (unionReceived nodes) with g; [done|].
    apply map_eq. intros id. destruct (g !! id) as [n|] eqn:E.
    + destruct (proj2 (Hin id)) as [n' Hn']; [apply Hall; by rewrite E|].
      rewrite Hn'. symmetry. eapply lookup_weaken in Hn'; [|exact Hu]. congruence.
    + destruct (unionReceived nodes !! id) eqn:E'; [|done].
      eapply lookup_weaken in E'; [|exact Hu]. congruence.
Qed.

(** The leader counts every batch once, however many nodes report it: with
    reports that agree with the batches [g] of the client, the total reaches
    that of all batches only when every batch is in some report. *)
Theorem mergeReceived_complete (g : idCounts) nodes :
  (forall s info, nodes !! s = Some info -> niRcv info ⊆ g) ->
  (forall id n, g !! id = Some n -> 0 < n) -> sumM g < 2 ^ 63 ->
  (mergeReceived nodes <= sumM g) /\
  (sumM g <= mergeReceived nodes <->
   forall id, is_Some (g !! id) -> exists s info, nodes !! s = Some info /\ is_Some (niRcv info !! id)).
Proof. apply mergeReceived_counts. Qed.
End Merge.

Definition two_nodes : gmap Z nodeInfo :=
  {[ 1 := mkNodeInfo {[zero16 := 5]} ∅; 2 := mkNodeInfo {[zero16 := 5]} ∅ ]}.
Lemma mergeReceived_complete_witness :
  @mergeReceived range_id two_nodes = 5 /\
  @mergeReceived range_id two_nodes <= sumM ({[zero16 := 5]} : idCounts).
Proof.
  split; [vm_compute; reflexivity|].
  refine (proj1 (@mergeReceived_complete range_id {[zero16 := 5]} two_nodes _ _ _)).
  - intros s info Hs. unfold two_nodes in Hs. rewrite lookup_insert_Some, lookup_singleton_Some in Hs.
    by destruct Hs as [[_ <-]|(_ & _ & <-)].
  - intros id n Hn. apply lookup_singleton_Some in Hn as [_ <-]. lia.
  - vm_compute. reflexivity.
Defined.

(** ** Counting what was sent *)
Section SentTotals.
Context {GR : GoRange}.

(** Merging one node's sets into the union, key by key. *)
Definition mergeNode (union : gmap KeyType idCounts) (n : Z * nodeInfo) : gmap KeyType idCounts :=
  fold_left (fun union (ks : KeyType * idCounts) =>
      <[ks.1 := mergeInto (default ∅ (union !! ks.1)) ks.2]> union)
    (range (map_to_list (niSent n.2))) union.

Lemma mergeNode_lookup union n key :
  mergeNode union n !! key =
    match niSent n.2 !! key with
    | Some set => Some (set ∪ default ∅ (union !! key))
    | None => union !! key
    end.
Proof.
  unfold mergeNode. rewrite <- (range_map_to_map (niSent n.2)) at 2.
  pose proof (range_map_keys (niSent n.2)) as Hnd. revert union Hnd.
  generalize (range (map_to_list (niSent n.2))). intros l.
  induction l as [|[k set] l IH]; intros union Hnd; [done|].
  cbn [fmap list_fmap fst] in Hnd. apply NoDup_cons in Hnd as [Hk Hnd]. cbn [fold_left]. rewrite IH by done.
  rewrite mergeInto_union. simpl. destruct (decide (key = k)) as [->|Hne].
  - rewrite (not_elem_of_list_to_map_1 l k) by done. by rewrite !lookup_insert_eq.
  - by rewrite !lookup_insert_ne by done.
Qed.

(** The count the leader passes on for a routing key is the number of
    transactions sent under it, each batch counted once however many replicas
    report having sent it. *)
Theorem mergeSentByKey_exact nodes key (h : idCounts) :
  (forall s info set, nodes !! s = Some info -> niSent info !! key = Some set -> set ⊆ h) ->
  (forall id, is_Some (h !! id) -> exists s info set,
     nodes !! s = Some info /\ niSent info !! key = Some set /\ is_Some (set !! id)) ->
  h <> ∅ -> mergeSentByKey nodes !! key = Some (int64 (sumM h)).
Proof.
  intros Hsub Hall Hne. unfold mergeSentByKey.
  change (fold_left _ (range (map_to_list nodes)) ∅) with (fold_left mergeNode (range (map_to_list nodes)) ∅).
  assert (forall l u, Forall (fun n : Z * nodeInfo => forall set, niSent n.2 !! key = Some set -> set ⊆ h) l ->
    (forall set, u !! key = Some set -> set ⊆ h) ->
    (forall set, fold_left mergeNode l u !! key = Some set -> set ⊆ h) /\
    (forall id, (exists set, u !! key = Some set /\ is_Some (set !! id)) \/
       Exists (fun n : Z * nodeInfo => exists set, niSent n.2 !! key = Some set /\ is_Some (set !! id)) l ->
       exists set, fold_left mergeNode l u !! key = Some set /\ is_Some (set !! id))) as Hl.
  { intros l. induction l as [|n l IH]; intros u Hok Hu.
    - split; [done|]. intros id [H|H]; [done|]. by apply Exists_nil in H.
    - apply Forall_cons in Hok as [Hn Hok]. cbn [fold_left].
      destruct (IH (mergeNode u n) Hok) as [H1 H2].
      { intros set. rewrite mergeNode_lookup. destruct (niSent n.2 !! key) as [s|] eqn:E; [|apply Hu].
        intros [= <-]. apply map_union_least; [by apply Hn|].
        destruct (u !! key) as [s'|]; simpl; [by apply Hu|apply map_empty_subseteq]. }
      split; [done|]. intros id H. apply H2. rewrite Exists_cons in H. setoid_rewrite mergeNode_lookup.
      destruct H as [(set & Hset & Hid)|[(set & Hset & Hid)|H]]; [left|left|by right].
      + rewrite Hset. destruct (niSent n.2 !! key); eexists; split; [done| |done|done].
        apply lookup_union_is_Some. by right.
      + rewrite Hset. eexists. split; [done|]. apply lookup_union_is_Some. by left. }
  destruct (Hl (range (map_to_list nodes)) ∅) as [H1 H2].
  { apply Forall_forall. intros [s info] Hin set Hset. apply elem_of_range_map in Hin. by apply (Hsub s info). }
  { intros set H. by rewrite lookup_empty in H. }
  assert (forall id, is_Some (h !! id) -> exists set,
    fold_left mergeNode (range (map_to_list nodes)) ∅ !! key = Some set /\ is_Some (set !! id)) as H3.
  { intros id Hid. apply H2. right. destruct (Hall id Hid) as (s & info & set & Hs & Hset & Hin).
    apply Exists_exists. exists (s, info). rewrite elem_of_range_map. eauto. }
  apply map_choose in Hne as (id0 & n0 & Hid0). destruct (H3 id0 ltac:(eauto)) as (set & Hset & _).
  rewrite lookup_fmap, Hset. simpl. f_equal. unfold total. rewrite fold_sum. do 2 f_equal.
  specialize (H1 set Hset). apply map_eq. intros id. destruct (h !! id) as [n|] eqn:E.
  - destruct (H3 id ltac:(eauto)) as (set' & Hset' & [n' Hn']). replace set' with set in * by congruence.
    rewrite Hn'. eapply lookup_weaken in Hn'; [|exact H1]. congruence.
  - destruct (set !! id) eqn:E'; [|done]. eapply lookup_weaken in E'; [|exact H1]. congruence.
Qed.

(** ** Saving and restoring a client *)
Definition client_counts_ok (cl : client) : Prop :=
  counts_ok (msgRcvByID cl) /\ forall key set, msgSentByKeyID cl !! key = Some set -> counts_ok set.

(** A restored client has the counts of the saved one, and forgets that it
    was the leader: its end of stream is delivered again. *)
Theorem restore_snapshot c cs cl : cs !! c = Some cl -> client_counts_ok cl ->
  (RestoreClientEof c (SnapshotClientEof c cs) ∅).1
    = {[c := mkClient (msgRcvByID cl) (msgSentByKeyID cl) 0 0 false None ∅]}.
Proof.
  intros Hc [Hr Hs]. unfold SnapshotClientEof. rewrite Hc. cbn [mbind option_bind RestoreClientEof].
  unfold updClient. cbn [fst RcvByID SentByKeyID]. unfold client_of. rewrite lookup_empty.
  cbn [from_option id NewClient expectedTotal retryCount isLeader eofAck nodesInfo].
  rewrite decode_encodeIDCounts by done. unfold decodeSentIDCounts, encodeSentIDCounts.
  rewrite <- map_fmap_compose.
  replace ((decodeIDCounts ∘ encodeIDCounts) <$> msgSentByKeyID cl) with (msgSentByKeyID cl); [done|].
  apply map_eq. intros key. rewrite lookup_fmap. destruct (msgSentByKeyID cl !! key) as [set|] eqn:E; [|done].
  simpl. f_equal. symmetry. by apply decode_encodeIDCounts, (Hs key).
Qed.
End SentTotals.

(** ** Retries end *)
Section Retries.
Context {GR : GoRange}.
Variable cfg : config.

(** [n] rounds in which the reported total stays too low. *)
Fixpoint failing_rounds (n : nat) (c : id16) : ctl :=
  match n with
  | O => skip
  | S n' => retryAmountRequest cfg c ⨟ failing_rounds n' c
  end.
Definition is_request (e : event) : bool :=
  match e with Sent m => match Type_ m with AmountRequest => true | _ => false end | _ => false end.
Definition acks (es : list event) : list nat :=
  omap (fun e => match e with Acked a => Some a | _ => None end) es.

Lemma retry_again c cs cl : c <> zero16 -> cs !! c = Some cl -> 0 <= retryCount cl < maxRetries cfg ->
  in_int64 (maxRetries cfg + 1) ->
  exists d, retryAmountRequest cfg c cs =
    (<[c := mkClient (msgRcvByID cl) (msgSentByKeyID cl) (expectedTotal cl) (retryCount cl + 1)
              (isLeader cl) (eofAck cl) ∅]> cs,
     [Sleep d; Sent (mkControl AmountRequest c (nodeID cfg) 0 [] ∅)]).
Proof.
  intros Hz Hc Hr Hm. unfold retryAmountRequest, client_of. rewrite Hc. cbn [from_option id].
  rewrite int64_small by (unfold in_int64 in *; lia).
  replace ((0 <? maxRetries cfg) && (maxRetries cfg <? retryCount cl + 1)) with false
    by (symmetry; apply andb_false_intro2, Z.ltb_ge; lia).
  eexists. unfold seq, updClient, client_of, emit, broadcastAmountRequest, sendControlMessage.
  rewrite Hc. cbn [from_option id CmClient]. rewrite decide_False by done. reflexivity.
Qed.
Lemma retry_last c cs cl : c <> zero16 -> cs !! c = Some cl -> maxRetries cfg = retryCount cl ->
  0 < maxRetries cfg -> in_int64 (maxRetries cfg + 1) ->
  retryAmountRequest cfg c cs =
    (delete c cs,
     [Sent (mkControl RetryExceeded c 0 0 [] ∅)]
       ++ (if hasRetryExceeded cfg then [OnRetryExceeded c] else [])
       ++ (if isLeader cl then match eofAck cl with Some a => [Acked a] | None => [] end else [])).
Proof.
  intros Hz Hc Hr Hp Hm. unfold retryAmountRequest, client_of. rewrite Hc. cbn [from_option id].
  rewrite int64_small by (unfold in_int64 in *; lia).
  replace ((0 <? maxRetries cfg) && (maxRetries cfg <? retryCount cl + 1)) with true
    by (symmetry; apply andb_true_intro; split; apply Z.ltb_lt; lia).
  unfold seq, updClient, client_of, broadcastRetryExceeded, sendControlMessage, runRetryExceededCallback,
    when, emit, skip, cleanupClientState.
  rewrite Hc. cbn [from_option id CmClient]. rewrite decide_False by done.
  destruct (hasRetryExceeded cfg); unfold seq; rewrite lookup_insert_eq, delete_insert_eq; reflexivity.
Qed.

(** A leader whose batches never add up asks again exactly the configured
    number of times; the next round gives the client up: the event is published,
    the end-of-stream message acknowledged once, and the state dropped. *)
Theorem retries_terminate c cs cl a : c <> zero16 -> cs !! c = Some cl ->
  retryCount cl = 0 -> isLeader cl = true -> eofAck cl = Some a ->
  0 < maxRetries cfg < 2 ^ 62 ->
  let n := Z.to_nat (maxRetries cfg) in
  let (cs1, es1) := failing_rounds n c cs in
  let (cs2, es2) := failing_rounds (S n) c cs in
  (is_Some (cs1 !! c) /\ length (filter is_request es1) = n /\ acks es1 = []) /\
  (cs2 = delete c cs /\ length (filter is_request es2) = n /\ acks es2 = [a]).
Proof.
  intros Hz Hc H0 Hl Ha Hm n.
  assert (forall k cs cl, cs !! c = Some cl -> isLeader cl = true -> eofAck cl = Some a ->
    0 <= retryCount cl -> retryCount cl + Z.of_nat k = maxRetries cfg ->
    (let (cs1, es1) := failing_rounds k c cs in
     is_Some (cs1 !! c) /\ length (filter is_request es1) = k /\ acks es1 = []) /\
    (let (cs2, es2) := failing_rounds (S k) c cs in
     cs2 = delete c cs /\ length (filter is_request es2) = k /\ acks es2 = [a])) as Hk.
  { clear cs cl Hc H0 Hl Ha n. intros k. induction k as [|k IH]; intros cs cl Hc Hl Ha H0 Hs.
    - split; [by split; [eexists|]|]. cbn [failing_rounds]. unfold seq.
      rewrite (retry_last c cs cl) by (done || unfold in_int64; lia). rewrite Hl, Ha.
      destruct (hasRetryExceeded cfg); done.
    - destruct (retry_again c cs cl Hz Hc) as [d Hd]; [lia|unfold in_int64; lia|].
      set (cl' := mkClient _ _ _ _ _ _ _) in Hd.
      destruct (IH (<[c := cl']> cs) cl') as [H1 H2]; [apply lookup_insert_eq|done|done|simpl; lia|simpl; lia|].
      change (failing_rounds (S k) c cs) with ((retryAmountRequest cfg c ⨟ failing_rounds k c) cs).
      change (failing_rounds (S (S k)) c cs) with ((retryAmountRequest cfg c ⨟ failing_rounds (S k) c) cs).
      unfold seq. rewrite Hd.
      destruct (failing_rounds k c _) as [cs1 es1], (failing_rounds (S k) c _) as [cs2 es2].
      destruct H1 as (H1 & H1' & H1''), H2 as (H2 & H2' & H2''). rewrite delete_insert_eq in H2.
      split; (split; [done|]); simpl; (split; [by f_equal|done]). }
  destruct (Hk n cs cl Hc Hl Ha) as [H1 H2]; [lia|unfold n; lia|].
  destruct (failing_rounds n c cs), (failing_rounds (S n) c cs). done.
Qed.

(** The decision waits for one report of every node: a report that is not
    the last one missing is recorded and nothing else happens, so a repeated
    report of a node does not count as another node's. *)
Theorem response_gate c cs cl m : cs !! c = Some cl -> isLeader cl = true -> CmClient m = c ->
  let info := mkNodeInfo (decodeIDCounts (ReceivedIDs m)) (decodeSentIDCounts (SentIDsByKey m)) in
  let nodes := <[SenderID m := info]> (nodesInfo cl) in
  Z.of_nat (size nodes) <> totalNodes cfg ->
  processAmountResponse cfg m cs =
    (<[c := mkClient (msgRcvByID cl) (msgSentByKeyID cl) (expectedTotal cl) (retryCount cl)
              true (eofAck cl) nodes]> cs, []) /\
  (is_Some (nodesInfo cl !! SenderID m) -> size nodes = size (nodesInfo cl)).
Proof.
  intros Hc Hl Hm info nodes Hn. split.
  - unfold processAmountResponse. rewrite Hm, Hc, Hl. cbn [negb]. fold info. fold nodes.
    apply Z.eqb_neq in Hn. rewrite Hn. unfold seq, when, skip, updClient, client_of. rewrite Hc.
    cbn [from_option id]. by rewrite Hl.
  - intros Hs. unfold nodes. by rewrite map_size_insert_Some.
Qed.

(** C20. When every node reports that it has received nothing yet, the leader
    takes the end of the stream for one already processed: it acknowledges it
    and forgets the client, with no flush and no retry, although the batches it
    announces are still to come. *)
Theorem empty_reports_drop_eof c cs cl a : cs !! c = Some cl -> isLeader cl = true ->
  eofAck cl = Some a -> 0 < expectedTotal cl ->
  (forall s info, nodesInfo cl !! s = Some info -> niRcv info = ∅) ->
  checkTotalAndFlush cfg c cs = (delete c cs, [Acked a]).
Proof.
  intros Hc Hl Ha He Hn. unfold checkTotalAndFlush, client_of. rewrite Hc. cbn [from_option id].
  assert (unionReceived (nodesInfo cl) = ∅) as Hu.
  { destruct (unionReceived_spec ∅ (nodesInfo cl)) as [Hu _].
    - intros s info Hs. by rewrite (Hn s info Hs).
    - apply map_empty. intros i. destruct (unionReceived (nodesInfo cl) !! i) eqn:E; [|done].
      eapply lookup_weaken in E; [|exact Hu]. by rewrite lookup_empty in E. }
  rewrite mergeReceived_sum, Hu, (sumM_empty (K := id16)). change (int64 0) with 0.
  replace (expectedTotal cl <=? 0) with false by (symmetry; apply Z.leb_gt; lia).
  assert (isReceivedUnionEmpty (nodesInfo cl) = true) as ->.
  { unfold isReceivedUnionEmpty. apply forallb_forall. intros [s info] Hin.
    apply list_elem_of_In, elem_of_range_map in Hin. apply bool_decide_eq_true_2. by apply (Hn s). }
  unfold cleanupClientState. by rewrite Hc, Hl, Ha.
Qed.
End Retries.

(** ** Concrete inputs *)
#[local] Instance sync_order : GoRange := range_rev.
Definition cA : id16 := copy16 [Byte.x01].
Definition leader (expected : Z) (infos : gmap Z nodeInfo) : client :=
  mkClient {[zero16 := 5]} {[KeyNil := {[zero16 := 2]}]} expected 0 true (Some 9%nat) infos.
Definition cfg3 : config := mkConfig 1 3 2 500 100 true true true.

Lemma mergeSentByKey_exact_witness :
  let info := mkNodeInfo ∅ {[KeyNil := {[zero16 := 4]}]} in
  mergeSentByKey {[1 := info; 2 := info]} !! KeyNil = Some (int64 (sumM ({[zero16 := 4]} : idCounts))).
Proof.
  intros info. apply mergeSentByKey_exact.
  - intros s info' set Hs Hset. rewrite lookup_insert_Some, lookup_singleton_Some in Hs.
    assert (info' = info) as -> by naive_solver. simpl in Hset. by apply lookup_singleton_Some in Hset as [_ <-].
  - intros id [n Hn]. apply lookup_singleton_Some in Hn as [<- <-]. exists 1, info, {[zero16 := 4]}.
    split_and!; [by rewrite lookup_insert_eq|exact (lookup_singleton_eq _ _)|exists 4; exact (lookup_singleton_eq _ _)].
  - intros H. apply (f_equal (fun m : idCounts => m !! zero16)) in H. vm_compute in H. discriminate.
Defined.

Lemma restore_snapshot_witness :
  (RestoreClientEof cA (SnapshotClientEof cA {[cA := leader 10 ∅]}) ∅).1
    = {[cA := mkClient {[zero16 := 5]} {[KeyNil := {[zero16 := 2]}]} 0 0 false None ∅]}.
Proof.
  apply (restore_snapshot cA {[cA := leader 10 ∅]} (leader 10 ∅)).
  - by rewrite lookup_singleton_eq.
  - split.
    + intros id n H. simpl in H. apply lookup_singleton_Some in H as [_ <-]. by split.
    + intros key set H. simpl in H. apply lookup_singleton_Some in H as [_ <-].
      intros id n H. apply lookup_singleton_Some in H as [_ <-]. by split.
Defined.

Lemma retries_terminate_witness :
  let (cs2, es2) := failing_rounds cfg3 3 cA {[cA := leader 10 ∅]} in
  cs2 !! cA = None /\ length (filter is_request es2) = 2%nat /\ acks es2 = [9%nat].
Proof.
  pose proof (retries_terminate cfg3 cA {[cA := leader 10 ∅]} (leader 10 ∅) 9 ltac:(done)
    ltac:(by rewrite lookup_singleton_eq) eq_refl eq_refl eq_refl ltac:(vm_compute; done)) as H.
  change (Z.to_nat (maxRetries cfg3)) with 2%nat in H. cbv zeta in H.
  destruct (failing_rounds cfg3 2 cA _) as [cs1 es1]. destruct (failing_rounds cfg3 3 cA _) as [cs2 es2].
  destruct H as [_ (-> & H2 & H3)]. split; [apply lookup_delete_eq|by split].
Defined.

Lemma response_gate_witness :
  processAmountResponse cfg3 (mkControl AmountResponse cA 1 2 [] ∅) {[cA := leader 10 ∅]}
    = (<[cA := leader 10 (<[2 := mkNodeInfo (decodeIDCounts []) (decodeSentIDCounts ∅)]> ∅)]> {[cA := leader 10 ∅]}, []).
Proof.
  refine (proj1 (response_gate cfg3 cA {[cA := leader 10 ∅]} (leader 10 ∅)
    (mkControl AmountResponse cA 1 2 [] ∅) _ eq_refl eq_refl _)).
  - by rewrite lookup_singleton_eq.
  - simpl. vm_compute. discriminate.
Defined.

Lemma empty_reports_drop_eof_witness :
  checkTotalAndFlush cfg3 cA {[cA := leader 10 {[1 := mkNodeInfo ∅ ∅; 2 := mkNodeInfo ∅ ∅; 3 := mkNodeInfo ∅ ∅]}]}
    = (delete cA {[cA := leader 10 {[1 := mkNodeInfo ∅ ∅; 2 := mkNodeInfo ∅ ∅; 3 := mkNodeInfo ∅ ∅]}]}, [Acked 9]).
Proof.
  apply (empty_reports_drop_eof cfg3 cA _ (leader 10 {[1 := mkNodeInfo ∅ ∅; 2 := mkNodeInfo ∅ ∅; 3 := mkNodeInfo ∅ ∅]}) 9).
  - by rewrite lookup_singleton_eq.
  - reflexivity.
  - reflexivity.
  - reflexivity.
  - intros s info H. cbn [leader nodesInfo] in H. rewrite !lookup_insert_Some, lookup_singleton_Some in H. naive_solver.
Defined.
