(* ===== verification/EofSystem.v ===== *)
(** * The replicas of a worker and the end of a stream

    The controllers of [EofSync] on a network that may delay, reorder and
    repeat control messages, with replicas that restart from an old checkpoint
    or from nothing.  The source of the stream announces the total it counted,
    or -1 for a stream that was cut, which lets the end through at once. *)

From S2P Require Import Prelude Maps Models EofSync.

Section System.
Context {GR : GoRange}.
(** The replicas' configurations, the client, and its batches with their
    transaction counts, as the source of the stream counted them. *)
Variable cfg : Z -> config.
Variable c : id16.
Variable g : idCounts.

Record net := mkNet {
  nodes : Z -> clients;
  inflight : list ControlMessage;
  saved : list clientCheckpoint;
  received : gset id16;       (** batches some replica has processed *)
  aborted : bool;             (** whether the stream was announced as cut *)
  log : list event            (** everything the replicas did *)
}.

Definition sends (es : list event) : list ControlMessage :=
  omap (fun e => match e with Sent m => Some m | _ => None end) es.
(** Replica [i] runs [f]. *)
Definition runAt (i : Z) (f : ctl) (s : net) : net :=
  let (cs, es) := f (nodes s i) in
  mkNet (fun j => if decide (j = i) then cs else nodes s j) (inflight s ++ sends es)
    (saved s) (received s) (aborted s) (log s ++ es).

Inductive netstep : net -> net -> Prop :=
  | net_receive i id n s : g !! id = Some n ->
      netstep s (let s' := runAt i (MessageReceived c id n) s in
                 mkNet (nodes s') (inflight s') (saved s') ({[id]} ∪ received s') (aborted s') (log s'))
  | net_sent i key id n s : netstep s (runAt i (MessageSentWithKey c key id n) s)
  | net_eof i counts key ack s : counts !! key = Some (sumM g) ->
      netstep s (runAt i (SyncEof (cfg i) c (Some counts) key ack) s)
  | net_abort i counts key ack s : counts !! key = Some (-1) ->
      netstep s (let s' := runAt i (SyncEof (cfg i) c (Some counts) key ack) s in
                 mkNet (nodes s') (inflight s') (saved s') (received s') true (log s'))
  | net_deliver i m s : m ∈ inflight s -> netstep s (runAt i (handleControlMessage (cfg i) m) s)
  | net_save i cp s : SnapshotClientEof c (nodes s i) = Some cp ->
      netstep s (mkNet (nodes s) (inflight s) (cp :: saved s) (received s) (aborted s) (log s))
  | net_restart i data s : match data with Some cp => cp ∈ saved s | None => True end ->
      netstep s (mkNet (fun j => if decide (j = i) then (RestoreClientEof c data ∅).1 else nodes s j)
                   (inflight s) (saved s) (received s) (aborted s) (log s)).

Definition net0 : net := mkNet (fun _ => ∅) [] [] ∅ false [].

Hypothesis counts_pos : forall id n, g !! id = Some n -> 0 < n < 2 ^ 32.
Hypothesis counts_sum : sumM g < 2 ^ 63.

(** ** The invariant, over the batches received and whether the stream was cut *)
Abbreviation seen := (gset id16 * bool)%type.
Definition report_ok (R : seen) (m : idCounts) : Prop :=
  m ⊆ g /\ forall id, is_Some (m !! id) -> id ∈ R.1.
Definition complete (R : seen) : Prop := R.2 = true \/ forall id, is_Some (g !! id) -> id ∈ R.1.
Definition grows (R R' : seen) : Prop := R.1 ⊆ R'.1 /\ (R.2 = true -> R'.2 = true).
Definition client_ok (R : seen) (cl : client) : Prop :=
  report_ok R (msgRcvByID cl) /\
  (forall s info, nodesInfo cl !! s = Some info -> report_ok R (niRcv info)) /\
  (isLeader cl = true -> expectedTotal cl = sumM g).
Definition node_ok (R : seen) (cs : clients) : Prop :=
  forall cl, cs !! c = Some cl -> client_ok R cl.
Definition msg_ok (R : seen) (m : ControlMessage) : Prop :=
  CmClient m = c ->
  match Type_ m with
  | AmountResponse => report_ok R (decodeIDCounts (ReceivedIDs m))
  | FlushMsg => complete R
  | _ => True
  end.
Definition event_ok (R : seen) (e : event) : Prop :=
  match e with
  | Sent m => msg_ok R m
  | OnFlush c' => c' = c -> complete R
  | OnLeaderFlush c' _ => c' = c -> complete R
  | _ => True
  end.
Definition ctl_ok (R : seen) (f : ctl) : Prop :=
  forall cs, node_ok R cs -> node_ok R (f cs).1 /\ Forall (event_ok R) (f cs).2.

Lemma report_empty R : report_ok R ∅.
Proof. split; [apply map_empty_subseteq|]. intros id [? H]. by rewrite lookup_empty in H. Qed.
Lemma client_ok_new R : client_ok R NewClient.
Proof.
  split_and!; [apply report_empty| |done]. intros s info H.
  change (nodesInfo NewClient) with (∅ : gmap Z nodeInfo) in H. by rewrite lookup_empty in H.
Qed.
Lemma client_of_ok R cs : node_ok R cs -> client_ok R (client_of cs c).
Proof.
  intros H. unfold client_of. destruct (cs !! c) as [cl|] eqn:E; [by apply H|apply client_ok_new].
Qed.

Lemma ctl_seq R f h : ctl_ok R f -> ctl_ok R h -> ctl_ok R (f ⨟ h).
Proof.
  intros Hf Hh cs Hcs. unfold seq. destruct (Hf cs Hcs) as [H1 H2]. destruct (f cs) as [cs1 es1].
  destruct (Hh cs1 H1) as [H3 H4]. destruct (h cs1) as [cs2 es2]. split; [done|].
  by apply Forall_app.
Qed.
Lemma ctl_emit R e : event_ok R e -> ctl_ok R (emit e).
Proof. intros He cs Hcs. split; [done|]. by constructor. Qed.
Lemma ctl_skip R : ctl_ok R skip.
Proof. intros cs Hcs. by split. Qed.
Lemma ctl_when R b f : ctl_ok R f -> ctl_ok R (when b f).
Proof. intros H. destruct b; [done|apply ctl_skip]. Qed.
Lemma ctl_send R m : msg_ok R m -> ctl_ok R (sendControlMessage m).
Proof. intros H. unfold sendControlMessage. case_decide; [apply ctl_skip|by apply ctl_emit]. Qed.
Lemma ctl_upd R c' f : (c' = c -> forall cl, client_ok R cl -> client_ok R (f cl)) -> ctl_ok R (updClient c' f).
Proof.
  intros Hf cs Hcs. split; [|constructor]. intros cl Hcl. unfold updClient in Hcl. cbn [fst] in Hcl.
  destruct (decide (c' = c)) as [->|Hne].
  - rewrite lookup_insert_eq in Hcl. injection Hcl as <-. by apply Hf, client_of_ok.
  - rewrite lookup_insert_ne in Hcl by done. by apply Hcs.
Qed.
Lemma ctl_cleanup R c' : ctl_ok R (cleanupClientState c').
Proof.
  intros cs Hcs. split.
  - intros cl Hcl. unfold cleanupClientState in Hcl. cbn [fst] in Hcl. apply lookup_delete_Some in Hcl as [_ Hcl]. by apply Hcs.
  - simpl. repeat case_match; repeat constructor.
Qed.

(** Steps that neither flush nor report are fine whatever they do. *)
#[local] Hint Resolve ctl_seq ctl_emit ctl_skip ctl_when ctl_send ctl_cleanup : eofsys.
Lemma ctl_retry_callback R i c' : ctl_ok R (runRetryExceededCallback (cfg i) c').
Proof. unfold runRetryExceededCallback. apply ctl_seq; [|apply ctl_cleanup]. by apply ctl_when, ctl_emit. Qed.

Lemma ctl_flush R i c' counts : (c' = c -> complete R) ->
  ctl_ok R (when (hasLeaderFlush (cfg i)) (emit (OnLeaderFlush c' counts))) /\
  ctl_ok R (broadcastFlush (cfg i) c').
Proof. intros H. split; [by apply ctl_when, ctl_emit|by apply ctl_send]. Qed.

Lemma ctl_retry R i c' : ctl_ok R (retryAmountRequest (cfg i) c').
Proof.
  intros cs Hcs. unfold retryAmountRequest.
  match goal with |- node_ok _ (?f cs).1 /\ _ => assert (ctl_ok R f) as Hf; [|by apply Hf] end.
  apply ctl_seq.
  - apply ctl_upd. intros -> cl (Hr & _ & He). split_and!; [done| |done].
    intros s info H. change (nodesInfo (mkClient _ _ _ _ _ _ ?m)) with m in H. by rewrite lookup_empty in H.
  - case_match.
    + apply ctl_seq; [by apply ctl_send|apply ctl_retry_callback].
    + apply ctl_seq; [by apply ctl_emit|by apply ctl_send].
Qed.

(** The leader's decision: the only place where an end of stream goes through. *)
Lemma check_ok R i c' cs : node_ok R cs -> (c' = c -> isLeader (client_of cs c) = true) ->
  node_ok R (checkTotalAndFlush (cfg i) c' cs).1 /\
  Forall (event_ok R) (checkTotalAndFlush (cfg i) c' cs).2.
Proof.
  intros Hcs Hlead. unfold checkTotalAndFlush.
  destruct (expectedTotal (client_of cs c') <=? mergeReceived (nodesInfo (client_of cs c'))) eqn:Ht.
  - assert (c' = c -> complete R) as Hc.
    { intros ->. destruct (client_of_ok R cs Hcs) as (_ & Hn & He).
      rewrite (He (Hlead eq_refl)) in Ht. apply Z.leb_le in Ht.
      destruct (mergeReceived_counts g (nodesInfo (client_of cs c))) as [_ Hall].
      - intros s info Hs. by apply (Hn s info Hs).
      - intros id n Hid. by apply (counts_pos id n).
      - done.
      - right. intros id Hid. destruct (proj1 Hall Ht id Hid) as (s & info & Hs & Hin).
        by apply (Hn s info Hs). }
    destruct (ctl_flush R i c' (mergeSentByKey (nodesInfo (client_of cs c'))) Hc) as [H1 H2].
    apply (ctl_seq R _ _ (ctl_seq R _ _ H1 H2) (ctl_cleanup R c') cs Hcs).
  - destruct (isReceivedUnionEmpty _); [by apply ctl_cleanup|by apply ctl_retry].
Qed.

Lemma ctl_response R i m : msg_ok R m -> Type_ m = AmountResponse ->
  ctl_ok R (processAmountResponse (cfg i) m).
Proof.
  intros Hm Ht cs Hcs. unfold processAmountResponse.
  destruct (cs !! CmClient m) as [cl|] eqn:Ecl; [|by apply ctl_skip].
  destruct (isLeader cl) eqn:El; [|by apply ctl_skip]. cbn [negb].
  set (nodes' := <[SenderID m := _]> (nodesInfo cl)).
  set (up := updClient _ _). unfold seq.
  assert (node_ok R (up cs).1 /\ (CmClient m = c -> isLeader (client_of (up cs).1 c) = true)) as [H1 H2].
  { split.
    - destruct (decide (CmClient m = c)) as [Hc|Hc].
      + intros cl' Hcl'. unfold up, updClient, client_of in Hcl'. cbn [fst] in Hcl'. rewrite Ecl, Hc, lookup_insert_eq in Hcl'.
        injection Hcl' as <-. rewrite Hc in Ecl. destruct (Hcs cl Ecl) as (Hr & Hn & He).
        split_and!; [done| |done]. simpl. unfold nodes'. intros s info Hs.
        apply lookup_insert_Some in Hs as [[_ <-]|[_ Hs]]; [|by apply (Hn s)]. simpl.
        unfold msg_ok in Hm. rewrite Ht in Hm. by apply Hm.
      + apply (ctl_upd R (CmClient m) _ (fun E => False_ind _ (Hc E)) cs Hcs).
    - intros Hc. unfold up, updClient, client_of. cbn [fst]. rewrite Ecl, Hc, lookup_insert_eq. done. }
  assert ((up cs).2 = []) as Hes by done.
  destruct (up cs) as [cs1 es1]. simpl in H1, H2, Hes. subst es1.
  destruct (Z.of_nat (size nodes') =? totalNodes (cfg i)); [|by split].
  pose proof (check_ok R i (CmClient m) cs1 H1 H2) as [H3 H4]. unfold when.
  destruct (checkTotalAndFlush _ _ cs1) as [cs2 es2]. by split.
Qed.

Lemma report_counts_ok R m : report_ok R m -> counts_ok m.
Proof.
  intros [H _] id n Hid. eapply lookup_weaken in Hid; [|exact H]. apply counts_pos in Hid.
  unfold in_uint. lia.
Qed.

Lemma ctl_handle R i m : msg_ok R m -> ctl_ok R (handleControlMessage (cfg i) m).
Proof.
  intros Hm. unfold handleControlMessage. case_decide; [apply ctl_skip|].
  destruct (Type_ m) eqn:Ht.
  - intros cs Hcs. unfold processAmountRequest, seq.
    pose proof (ctl_upd R (CmClient m) (fun cl => cl) (fun _ _ H => H) cs Hcs) as [H1 _].
    assert ((updClient (CmClient m) (fun cl => cl) cs).2 = []) as He by done.
    destruct (updClient (CmClient m) (fun cl => cl) cs) as [cs1 es1]. simpl in H1, He. subst es1.
    assert (forall x, msg_ok R x -> let r := sendControlMessage x cs1 in
      node_ok R r.1 /\ Forall (event_ok R) r.2) as Hs by (intros x Hx; by apply ctl_send).
    match goal with |- context [sendControlMessage ?x cs1] => specialize (Hs x) end.
    destruct (sendControlMessage _ cs1) as [cs2 es2]. apply Hs. intros Hc. simpl in *.
    rewrite Hc. pose proof (client_of_ok R cs1 H1) as (Hr & _).
    rewrite decode_encodeIDCounts; [done|]. by eapply report_counts_ok.
  - by apply ctl_response.
  - unfold processFlush. apply ctl_seq; [|apply ctl_cleanup]. apply ctl_when, ctl_emit. simpl.
    unfold msg_ok in Hm. by rewrite Ht in Hm.
  - apply ctl_skip.
  - apply ctl_retry_callback.
Qed.

(** ** Every reachable network *)
Definition inv (s : net) : Prop :=
  let R := (received s, aborted s) in
  (forall i, node_ok R (nodes s i)) /\ Forall (msg_ok R) (inflight s) /\
  Forall (fun cp => report_ok R (decodeIDCounts (RcvByID cp))) (saved s) /\
  Forall (event_ok R) (log s).

Lemma report_mono R R' m : grows R R' -> report_ok R m -> report_ok R' m.
Proof. intros [HR _] [H1 H2]. split; [done|]. intros id Hid. by apply HR, H2. Qed.
Lemma complete_mono R R' : grows R R' -> complete R -> complete R'.
Proof. intros [HR Ha] [H|H]; [left; auto|right]. intros id Hid. by apply HR, H. Qed.
Lemma client_mono R R' cl : grows R R' -> client_ok R cl -> client_ok R' cl.
Proof.
  intros HR (H1 & H2 & H3). split_and!; [by eapply report_mono| |done].
  intros s info Hs. eapply report_mono; [done|by eapply H2].
Qed.
Lemma msg_mono R R' m : grows R R' -> msg_ok R m -> msg_ok R' m.
Proof.
  intros HR H Hc. specialize (H Hc). destruct (Type_ m); try done; [by eapply report_mono|by eapply complete_mono].
Qed.
Lemma event_mono R R' e : grows R R' -> event_ok R e -> event_ok R' e.
Proof.
  intros HR H. destruct e; simpl in *; try done; [by eapply msg_mono|intros; eapply complete_mono; eauto..].
Qed.
Lemma inv_mono s R' : grows (received s, aborted s) R' -> inv s ->
  inv (mkNet (nodes s) (inflight s) (saved s) R'.1 R'.2 (log s)).
Proof.
  intros HR (H1 & H2 & H3 & H4). destruct R' as [R' a]. split_and!; simpl.
  - intros i cl Hcl. eapply client_mono; [done|by apply (H1 i)].
  - eapply Forall_impl; [done|]. intros m. by apply msg_mono.
  - eapply Forall_impl; [done|]. intros cp. by apply report_mono.
  - eapply Forall_impl; [done|]. intros e. by apply event_mono.
Qed.

Lemma inv_runAt i f s : ctl_ok (received s, aborted s) f -> inv s -> inv (runAt i f s).
Proof.
  intros Hf (H1 & H2 & H3 & H4). unfold runAt. destruct (Hf (nodes s i) (H1 i)) as [H5 H6].
  destruct (f (nodes s i)) as [cs es]. simpl in *. split_and!; simpl; [|apply Forall_app; split; [done|]|done|by apply Forall_app].
  - intros j. case_decide; [done|apply H1].
  - apply Forall_forall. intros m Hm. unfold sends in Hm. rewrite list_elem_of_omap in Hm.
    destruct Hm as (e & He & Hes). rewrite Forall_forall in H6. specialize (H6 e He).
    destruct e; simplify_eq. done.
Qed.

(** More is known first, then replica [i] moves. *)
Lemma inv_grow i f s R a : grows (received s, aborted s) (R, a) -> ctl_ok (R, a) f -> inv s ->
  let s' := runAt i f s in inv (mkNet (nodes s') (inflight s') (saved s') R a (log s')).
Proof.
  intros HR Hf Hi s'. pose proof (inv_mono s (R, a) HR Hi) as Hi'. apply (inv_runAt i f) in Hi'; [|done].
  unfold s', runAt in *. simpl in Hi'. by destruct (f (nodes s i)).
Qed.
Lemma runAt_seen i f s : received (runAt i f s) = received s /\ aborted (runAt i f s) = aborted s.
Proof. unfold runAt. by destruct (f (nodes s i)). Qed.
Lemma inv_step s s' : inv s -> netstep s s' -> inv s'.
Proof.
  intros Hi Hs. destruct Hs as [i id n s Hg|i key id n s|i counts key ack s Hc|i counts key ack s Hc|i m s Hm|i cp s Hcp|i data s Hd].
  - cbv zeta. destruct (runAt_seen i (MessageReceived c id n) s) as [-> ->]. apply inv_grow; [split; [set_solver|done]| |done].
    apply ctl_upd. intros _ cl ((Hr1 & Hr2) & Hn & He). split_and!.
    + split; simpl; [by apply insert_subseteq_l|].
      intros id' Hid. apply lookup_insert_is_Some in Hid as [<-|[_ Hid]]; [set_solver|by apply Hr2].
    + done.
    + done.
  - apply inv_runAt; [|done]. by apply ctl_upd.
  - apply inv_runAt; [|done]. unfold SyncEof. rewrite Hc. cbn [default].
    assert (0 <= sumM g) as Hnn.
    { destruct (sumM_subseteq ∅ g) as [H0 _]; [apply map_empty_subseteq| |by rewrite sumM_empty in H0].
      intros k v Hk. by apply (counts_pos k). }
    match goal with |- ctl_ok _ (if ?b then _ else ?y) =>
      replace b with false; [change (ctl_ok (received s, aborted s) y)|] end.
    2: { symmetry. apply andb_false_intro2, Z.eqb_neq. simpl. lia. }
    apply ctl_seq; [|by apply ctl_send]. apply ctl_upd. intros _ cl (Hr & Hn & He). by split_and!.
  - cbv zeta. destruct (runAt_seen i (SyncEof (cfg i) c (Some counts) key ack) s) as [-> _]. apply inv_grow; [by split| |done].
    unfold SyncEof. rewrite Hc. cbn [default]. rewrite bool_decide_eq_true_2 by by eexists. change (-1 =? -1) with true. cbn [andb].
    assert (complete (received s, true)) as Hcut by by left. repeat apply ctl_seq; auto with eofsys.
    + by apply (ctl_flush _ i c ∅).
    + by apply (ctl_flush _ i c (default ∅ (Some counts))).
    + destruct ack; [by apply ctl_emit|apply ctl_skip].
  - apply inv_runAt; [|done]. apply ctl_handle. destruct Hi as (_ & Hm' & _).
    rewrite Forall_forall in Hm'. by apply Hm'.
  - destruct Hi as (H1 & H2 & H3 & H4). split_and!; simpl; try done. constructor; [|done].
    unfold SnapshotClientEof in Hcp. destruct (nodes s i !! c) as [cl|] eqn:E; [|done].
    injection Hcp as <-. destruct (H1 i cl E) as (Hr & _). simpl. rewrite decode_encodeIDCounts; [done|].
    by eapply report_counts_ok.
  - destruct Hi as (H1 & H2 & H3 & H4). split_and!; simpl; try done. intros j.
    case_decide; [|apply H1]. assert (node_ok (received s, aborted s) ∅) as He by (intros cl Hcl; by rewrite lookup_empty in Hcl).
    destruct data as [cp|]; [|done]. apply ctl_upd; [|done]. intros _ cl (_ & Hn & Hl).
    rewrite Forall_forall in H3. split_and!; [by apply H3|done..].
Qed.

(** ** The leader that gives up

    How often replica [i] has asked all replicas for their amounts, and whether
    some replica did so as often as it may retry. *)
Definition asks (i : Z) (e : event) : bool :=
  match e with
  | Sent m => match Type_ m with AmountRequest => bool_decide (CmClient m = c /\ RequesterID m = nodeID (cfg i)) | _ => false end
  | _ => false
  end.
Definition asked (i : Z) (l : list event) : Z := Zlen (List.filter (asks i) l).
Definition gaveUp (l : list event) : Prop := exists i, 0 < maxRetries (cfg i) <= asked i l.
(** The events by which a controller gives up on the client. *)
Definition quits (e : event) : Prop :=
  e = OnRetryExceeded c \/ exists m, e = Sent m /\ Type_ m = RetryExceeded /\ CmClient m = c.
Definition retries (cs : clients) : Z := retryCount (client_of cs c).
(** A step of replica [i] counts its retries and, unless [P], gives up only when
    it has no retry left. *)
Definition frugal (i : Z) (P : Prop) (f : ctl) : Prop := forall cs, - 2 ^ 63 <= retries cs ->
  let '(cs', es) := f cs in
  - 2 ^ 63 <= retries cs' /\ retries cs' <= Z.max 0 (retries cs) + asked i es /\
  forall e, e ∈ es -> quits e -> P \/ 0 < maxRetries (cfg i) <= Z.max 0 (retries cs) + asked i es.

Lemma asked_app i l k : asked i (l ++ k) = asked i l + asked i k.
Proof. unfold asked, Zlen. rewrite List.filter_app, length_app. lia. Qed.
Lemma asked_nonneg i l : 0 <= asked i l.
Proof. unfold asked, Zlen. lia. Qed.
Lemma retries_new cs : cs !! c = None -> retries cs = 0.
Proof. unfold retries, client_of. by intros ->. Qed.
Lemma frugal_seq i P f h : frugal i P f -> frugal i P h -> frugal i P (f ⨟ h).
Proof.
  intros Hf Hh cs Hcs. unfold seq. specialize (Hf cs Hcs). destruct (f cs) as [cs1 es1]. destruct Hf as (L1 & U1 & Q1).
  specialize (Hh cs1 L1). destruct (h cs1) as [cs2 es2]. destruct Hh as (L2 & U2 & Q2). rewrite asked_app.
  pose proof (asked_nonneg i es1). pose proof (asked_nonneg i es2). split; [done|]. split; [lia|].
  intros e [He|He]%elem_of_app Hq; [destruct (Q1 e He Hq)|destruct (Q2 e He Hq)]; auto; right; lia.
Qed.
Lemma frugal_emit i P e : (quits e -> P) -> frugal i P (emit e).
Proof.
  intros He cs Hcs. cbn. pose proof (asked_nonneg i [e]). split; [done|]. split; [lia|]. intros e' ->%list_elem_of_singleton Hq. auto.
Qed.
Lemma frugal_skip i P : frugal i P skip.
Proof. intros cs Hcs. cbn. pose proof (asked_nonneg i []). split; [done|]. split; [lia|]. by intros e ?%elem_of_nil. Qed.
Lemma frugal_when i P b f : frugal i P f -> frugal i P (when b f).
Proof. destruct b; [done|]. intros _. apply frugal_skip. Qed.
Lemma frugal_send i P m : (Type_ m = RetryExceeded -> CmClient m = c -> P) -> frugal i P (sendControlMessage m).
Proof.
  intros Hm. unfold sendControlMessage. case_decide; [apply frugal_skip|]. apply frugal_emit. intros [?|(m' & [= <-] & ? & ?)]; [done|auto].
Qed.
Lemma retries_upd c' f cs : retries (updClient c' f cs).1 = if decide (c' = c) then retryCount (f (client_of cs c)) else retries cs.
Proof.
  unfold retries, updClient. cbn [fst]. case_decide as H; unfold client_of; [by rewrite H, lookup_insert_eq|by rewrite lookup_insert_ne].
Qed.
Lemma frugal_upd i P c' f : (forall cl, retryCount (f cl) = retryCount cl \/ retryCount (f cl) = 0) -> frugal i P (updClient c' f).
Proof.
  intros Hf cs Hcs. pose proof (retries_upd c' f cs) as Hr. pose proof (asked_nonneg i []). unfold updClient in *. cbn [fst] in Hr. rewrite Hr.
  split; [|split; [|by intros e ?%elem_of_nil]]; (case_decide; [|lia]); unfold retries in *; destruct (Hf (client_of cs c)) as [-> | ->]; lia.
Qed.
Lemma retries_cleanup c' cs : retries (cleanupClientState c' cs).1 = if decide (c' = c) then 0 else retries cs.
Proof.
  unfold retries, cleanupClientState, client_of. cbn [fst]. case_decide as H; [by rewrite H, lookup_delete_eq|by rewrite lookup_delete_ne].
Qed.
Lemma frugal_cleanup i P c' : frugal i P (cleanupClientState c').
Proof.
  intros cs Hcs. pose proof (retries_cleanup c' cs) as Hr. unfold cleanupClientState in *. cbn [fst] in Hr. rewrite Hr.
  match goal with |- context [asked i ?es] => pose proof (asked_nonneg i es); assert (Forall (fun e => ~ quits e) es) as Hn end.
  { repeat case_match; repeat constructor; intros [?|(? & ? & _)]; done. }
  split; [case_decide; lia|]. split; [case_decide; lia|]. intros e He Hq. rewrite Forall_forall in Hn. by destruct (Hn e He).
Qed.
Lemma frugal_callback i P c' : (c' = c -> P) -> frugal i P (runRetryExceededCallback (cfg i) c').
Proof.
  intros H. unfold runRetryExceededCallback. apply frugal_seq; [|apply frugal_cleanup]. apply frugal_when, frugal_emit.
  intros [[= ->]|(? & ? & _)]; [auto|done].
Qed.
Lemma int64_succ z : - 2 ^ 63 <= z -> - 2 ^ 63 <= int64 (z + 1) <= z + 1.
Proof. intros Hz. pose proof (Z.mod_le (z + 1 + 2 ^ 63) (2 ^ 64)). pose proof (int64_range (z + 1)) as []. unfold int64 in *. lia. Qed.
(** The client's retries stay behind what was asked: one more is one more. *)
Lemma frugal_retry i c' : c' <> zero16 -> frugal i False (retryAmountRequest (cfg i) c').
Proof.
  intros Hz cs Hcs. unfold retryAmountRequest. set (attempt := int64 _). set (cleared := updClient c' _).
  destruct (decide (c' = c)) as [->|Hne].
  - assert (- 2 ^ 63 <= attempt <= retries cs + 1) as Ha by (unfold attempt; apply int64_succ; exact Hcs).
    assert (retries (cleared cs).1 = attempt) as Hr by (unfold cleared; by rewrite retries_upd, decide_True).
    unfold seq at 1. assert (cleared cs = ((cleared cs).1, [])) as -> by done. destruct ((0 <? _) && _) eqn:E.
    + apply andb_true_iff in E as [E1 E2]. apply Z.ltb_lt in E1, E2. unfold broadcastRetryExceeded, sendControlMessage, runRetryExceededCallback.
      rewrite decide_False by done. set (cs1 := (cleared cs).1) in *. pose proof (retries_cleanup c cs1) as Hc. rewrite decide_True in Hc by done.
      unfold seq, when, emit, skip. destruct (cleanupClientState c cs1) as [cs2 es2] eqn:Ec. cbn [fst] in Hc.
      destruct (hasRetryExceeded (cfg i)); cbn [app]; rewrite Ec; cbn [app]; rewrite Hc; match goal with |- context [asked i ?es] => pose proof (asked_nonneg i es) end;
        (split; [lia|]); (split; [lia|]); intros e _ _; right; lia.
    + unfold broadcastAmountRequest, sendControlMessage. rewrite decide_False by done. unfold seq, emit. cbn [app]. rewrite Hr.
      assert (forall n m, asks i (Sent m) = true -> asked i [Sleep n; Sent m] = 1) as H1 by (intros n m Hm; unfold asked; cbn [List.filter asks] in *; by rewrite Hm).
      rewrite H1 by (cbn; by rewrite bool_decide_eq_true_2). split; [lia|]. split; [lia|].
      intros e He [->|(m & -> & Hm & _)]; set_solver.
  - assert (frugal i False cleared) as Hf.
    { intros cs1 Hcs1. pose proof (retries_upd c' (fun cl => mkClient (msgRcvByID cl) (msgSentByKeyID cl) (expectedTotal cl) attempt (isLeader cl) (eofAck cl) ∅) cs1) as Hr.
      fold cleared in Hr. rewrite decide_False in Hr by done. assert (cleared cs1 = ((cleared cs1).1, [])) as -> by done. rewrite Hr.
      pose proof (asked_nonneg i []). split; [done|]. split; [lia|]. by intros e ?%elem_of_nil. }
    match goal with |- let '(_, _) := ?f cs in _ => assert (frugal i False f) as Hg; [|by apply Hg] end.
    apply frugal_seq; [done|]. case_match; [apply frugal_seq; [by apply frugal_send|by apply frugal_callback]|].
    apply frugal_seq; [apply frugal_emit; intros [?|(? & ? & _)]; done|by apply frugal_send].
Qed.
Lemma frugal_check i c' : c' <> zero16 -> frugal i False (checkTotalAndFlush (cfg i) c').
Proof.
  intros Hz cs Hcs. unfold checkTotalAndFlush. destruct (_ <=? _).
  - match goal with |- let '(_, _) := ?f cs in _ => assert (frugal i False f) as Hg; [|by apply Hg] end.
    apply frugal_seq; [apply frugal_seq|apply frugal_cleanup]; [|by apply frugal_send]. apply frugal_when, frugal_emit. intros [?|(? & ? & _)]; done.
  - destruct (isReceivedUnionEmpty _); [by apply frugal_cleanup|by apply frugal_retry].
Qed.
Lemma frugal_weaken i (P Q : Prop) f : (P -> Q) -> frugal i P f -> frugal i Q f.
Proof.
  intros HPQ Hf cs Hcs. specialize (Hf cs Hcs). destruct (f cs) as [cs' es]. destruct Hf as (H1 & H2 & H3). split; [done|]. split; [done|].
  intros e He Hq. destruct (H3 e He Hq); auto.
Qed.
Lemma frugal_handle i m : frugal i (Type_ m = RetryExceeded /\ CmClient m = c) (handleControlMessage (cfg i) m).
Proof.
  unfold handleControlMessage. case_decide as Hz; [apply frugal_skip|]. destruct (Type_ m) eqn:Ht.
  - unfold processAmountRequest. apply frugal_seq; [apply frugal_upd; auto|]. intros cs Hcs. by apply frugal_send.
  - intros cs Hcs. unfold processAmountResponse. destruct (cs !! CmClient m) as [cl|]; [|by apply frugal_skip].
    destruct (negb (isLeader cl)); [by apply frugal_skip|].
    match goal with |- let '(_, _) := ?f cs in _ => assert (frugal i (AmountResponse = RetryExceeded /\ CmClient m = c) f) as Hg; [|by apply Hg] end.
    apply frugal_seq; [apply frugal_upd; auto|]. apply frugal_when. eapply frugal_weaken; [|by apply frugal_check]. done.
  - unfold processFlush. apply frugal_seq; [|apply frugal_cleanup]. apply frugal_when, frugal_emit. intros [?|(? & ? & _)]; done.
  - apply frugal_skip.
  - by apply frugal_callback.
Qed.
Lemma frugal_eof i counts key ack : frugal i False (SyncEof (cfg i) c counts key ack).
Proof.
  unfold SyncEof. destruct (_ && _).
  - repeat apply frugal_seq; [by apply frugal_send| |apply frugal_cleanup|destruct ack; [|apply frugal_skip]].
    + apply frugal_when, frugal_emit. intros [?|(? & ? & _)]; done.
    + apply frugal_emit. intros [?|(? & ? & _)]; done.
  - apply frugal_seq; [apply frugal_upd; auto|by apply frugal_send].
Qed.

Definition counted (s : net) : Prop :=
  (forall i, - 2 ^ 63 <= retries (nodes s i) <= asked i (log s)) /\
  (forall m, m ∈ inflight s -> Type_ m = RetryExceeded -> CmClient m = c -> gaveUp (log s)) /\
  (forall e, e ∈ log s -> quits e -> gaveUp (log s)).
Lemma gaveUp_app l k : gaveUp l -> gaveUp (l ++ k).
Proof. intros (i & H). exists i. rewrite asked_app. pose proof (asked_nonneg i k). lia. Qed.
Lemma counted_runAt i P f s : frugal i P f -> (P -> gaveUp (log s)) -> counted s -> counted (runAt i f s).
Proof.
  intros Hf HP (H1 & H2 & H3). unfold runAt. specialize (Hf (nodes s i) (proj1 (H1 i))). destruct (f (nodes s i)) as [cs es].
  destruct Hf as (L & U & Q). pose proof (asked_nonneg i (log s)) as Hn. specialize (H1 i) as Hi.
  assert (forall e, e ∈ es -> quits e -> gaveUp (log s ++ es)) as Hq.
  { intros e He Hqe. destruct (Q e He Hqe) as [Hp|Hm]; [by apply gaveUp_app, HP|]. exists i. rewrite asked_app. lia. }
  split_and!; cbn.
  - intros j. rewrite asked_app. case_decide as Hj; [subst j; lia|]. specialize (H1 j). pose proof (asked_nonneg j es). lia.
  - intros m [Hm|Hm]%elem_of_app Ht Hc; [by eapply gaveUp_app, H2|]. unfold sends in Hm. rewrite list_elem_of_omap in Hm.
    destruct Hm as (e & He & Hes). destruct e; simplify_eq. eapply Hq; [done|]. right. by eexists.
  - intros e [He|He]%elem_of_app Hqe; [by eapply gaveUp_app, H3|by eapply Hq].
Qed.
Lemma counted_step s s' : counted s -> netstep s s' -> counted s'.
Proof.
  intros Hs Hst. destruct Hst as [i id n s Hg|i key id n s|i counts key ack s Hc|i counts key ack s Hc|i m s Hm|i cp s Hcp|i data s Hd].
  - apply (counted_runAt i False); [apply frugal_upd; auto|done|done].
  - apply (counted_runAt i False); [apply frugal_upd; auto|done|done].
  - apply (counted_runAt i False); [apply frugal_eof|done|done].
  - apply (counted_runAt i False); [apply frugal_eof|done|done].
  - eapply counted_runAt; [apply frugal_handle| |done]. intros [Ht Hc]. destruct Hs as (_ & H2 & _). by apply (H2 m).
  - done.
  - destruct Hs as (H1 & H2 & H3). split_and!; try done. cbn. intros j. case_decide; [|apply H1].
    assert (retries (RestoreClientEof c data ∅).1 = 0) as ->; [|pose proof (asked_nonneg j (log s)); lia].
    destruct data as [cp|]; [|by apply retries_new]. cbn [RestoreClientEof]. by rewrite retries_upd, decide_True.
Qed.

Lemma reachable s : rtc netstep net0 s -> inv s /\ counted s.
Proof.
  intros Hr. assert (inv net0 /\ counted net0) as H0.
  { split; [split_and!; simpl; [|constructor..]; intros i cl H; by rewrite lookup_empty in H|].
    split_and!; cbn; [|by intros m ?%elem_of_nil|by intros e ?%elem_of_nil]. intros i. by rewrite retries_new. }
  revert H0. induction Hr as [x|x y z Hxy _ IH]; [done|]. intros [Hx Hy]. apply IH. split; [by eapply inv_step|by eapply counted_step].
Qed.

(** C3. No early end of stream, however control messages are delayed, reordered
    or repeated and replicas restart, when the source announces the total it
    counted: if a replica was told to flush the client, or let its end through
    as the leader, every batch of the client has been received, unless the
    stream was announced as cut (-1).  The only other way for the end is
    [OnRetryExceeded]: then some replica has sent its request for the amounts
    at least as many times as the retries it is allowed. *)
Theorem eof_waits_for_every_batch s e : rtc netstep net0 s -> e ∈ log s ->
  ((exists counts, e = OnLeaderFlush c counts) \/ e = OnFlush c -> aborted s = true \/ forall id, is_Some (g !! id) -> id ∈ received s) /\
  (e = OnRetryExceeded c -> exists i, 0 < maxRetries (cfg i) <= asked i (log s)).
Proof.
  intros Hr He. destruct (reachable s Hr) as [(_ & _ & _ & Hl) (_ & _ & Hq)]. split.
  - rewrite Forall_forall in Hl. specialize (Hl e He). intros [[counts ->]| ->]; by apply Hl.
  - intros ->. by apply (Hq _ He); left.
Qed.
End System.

(** ** A run of one replica: a batch, the end of the stream, the amounts, the flush *)
Definition one_cfg : Z -> config := fun _ => mkConfig 1 1 3 500 100 true true true.
Definition the_client : id16 := copy16 [Byte.x01].
Definition the_batches : idCounts := {[copy16 [Byte.x02] := 5]}.
Definition msg_at (n : nat) (s : net) : ControlMessage :=
  default (mkControl FlushAck zero16 0 0 [] ∅) (inflight s !! n).
#[local] Instance run_order : GoRange := range_id.
Definition run1 : net :=
  let s' := runAt 1 (MessageReceived the_client (copy16 [Byte.x02]) 5) net0 in
  mkNet (nodes s') (inflight s') (saved s') ({[copy16 [Byte.x02]]} ∪ received net0) (aborted s') (log s').
Definition run2 : net := runAt 1 (SyncEof (one_cfg 1) the_client (Some {[KeyNil := 5]}) KeyNil (Some 7%nat)) run1.
Definition run3 : net := runAt 1 (handleControlMessage (one_cfg 1) (msg_at 0 run2)) run2.
Definition run4 : net := runAt 1 (handleControlMessage (one_cfg 1) (msg_at 1 run3)) run3.
Definition run5 : net := runAt 1 (handleControlMessage (one_cfg 1) (msg_at 2 run4)) run4.

Lemma run5_reachable : rtc (netstep one_cfg the_client the_batches) net0 run5.
Proof.
  eapply rtc_l; [apply (net_receive _ _ _ 1 (copy16 [Byte.x02]) 5); apply lookup_insert_eq|].
  fold run1. eapply rtc_l; [apply (net_eof _ _ _ 1 {[KeyNil := 5]} KeyNil (Some 7%nat)); vm_compute; reflexivity|].
  fold run2. eapply rtc_l; [apply (net_deliver _ _ _ 1 (msg_at 0 run2));
    apply (list_elem_of_lookup_2 _ 0); vm_compute; reflexivity|].
  fold run3. eapply rtc_l; [apply (net_deliver _ _ _ 1 (msg_at 1 run3));
    apply (list_elem_of_lookup_2 _ 1); vm_compute; reflexivity|].
  fold run4. apply rtc_once. apply (net_deliver _ _ _ 1 (msg_at 2 run4)).
  apply (list_elem_of_lookup_2 _ 2). vm_compute. reflexivity.
Qed.

Lemma eof_waits_for_every_batch_witness :
  OnFlush the_client ∈ log run5 /\ aborted run5 = false /\ copy16 [Byte.x02] ∈ received run5.
Proof.
  assert (OnFlush the_client ∈ log run5) as H
    by (apply (list_elem_of_lookup_2 _ 5); vm_compute; reflexivity).
  split; [exact H|]. split; [vm_compute; reflexivity|].
  destruct (eof_waits_for_every_batch one_cfg the_client the_batches
    ltac:(intros id n Hn; unfold the_batches in Hn; apply lookup_singleton_Some in Hn as [_ <-]; lia)
    ltac:(vm_compute; reflexivity) run5 (OnFlush the_client) run5_reachable H) as [H1 _].
  destruct (H1 (or_intror eq_refl)) as [Ha|Hall]; [vm_compute in Ha; discriminate|].
  apply Hall. exists 5. apply lookup_insert_eq.
Defined.
