(* ===== verification/HeavyMonitor.v ===== *)
(** * The barrier of the heavy-account exchange
    ([src/workers/aggregator/heavy_accounts_monitor.go])

    Each replica of query 4's aggregator tells the others its heavy accounts
    and then that it is done.  The monitor seals a client once the replica
    itself and every peer are done. *)

From S2P Require Import Prelude Maps Models.

Record clientDegreeState := mkDegree {
  heavySrcs : gset Account;
  heavySinks : gset Account;
  donePeers : gset Z;
  localDone : bool;
  sealed : bool
}.
Definition newDegree : clientDegreeState := mkDegree ∅ ∅ ∅ false false.

Record HeavyAccountsMonitor := mkMonitor {
  perClient : gmap id16 clientDegreeState;
  selfID : Z;
  peerTarget : Z
}.
Definition NewHeavyAccountsMonitor (self workerAmount : Z) : HeavyAccountsMonitor :=
  mkMonitor ∅ self (Z.max (int64 (workerAmount - 1)) 0).

Definition getLocked (c : id16) (m : HeavyAccountsMonitor) : clientDegreeState :=
  default newDegree (perClient m !! c).
Definition setDegree (c : id16) (ce : clientDegreeState) (m : HeavyAccountsMonitor) : HeavyAccountsMonitor :=
  mkMonitor (<[c := ce]> (perClient m)) (selfID m) (peerTarget m).

(** [isReady] seals the state when it answers yes. *)
Definition isReady (m : HeavyAccountsMonitor) (ce : clientDegreeState) : bool * clientDegreeState :=
  if sealed ce || negb (localDone ce) || (Z.of_nat (size (donePeers ce)) <? peerTarget m) then (false, ce)
  else (true, mkDegree (heavySrcs ce) (heavySinks ce) (donePeers ce) (localDone ce) true).

Definition MergeLocal (c : id16) (srcs sinks : gset Account) (m : HeavyAccountsMonitor)
    : bool * HeavyAccountsMonitor :=
  let ce := getLocked c m in
  if sealed ce then (false, setDegree c ce m)
  else let (ready, ce') := isReady m (mkDegree (heavySrcs ce ∪ srcs) (heavySinks ce ∪ sinks) (donePeers ce) true false)
       in (ready, setDegree c ce' m).

Definition RecordHeavyBatch (c : id16) (senderID : Z) (role : byte) (accounts : list Account)
    (m : HeavyAccountsMonitor) : HeavyAccountsMonitor :=
  if senderID =? selfID m then m
  else
    let ce := getLocked c m in
    if sealed ce then setDegree c ce m
    else if decide (role = Q4HeavyRoleSink)
      then setDegree c (mkDegree (heavySrcs ce) (heavySinks ce ∪ list_to_set accounts) (donePeers ce)
                          (localDone ce) false) m
      else setDegree c (mkDegree (heavySrcs ce ∪ list_to_set accounts) (heavySinks ce) (donePeers ce)
                          (localDone ce) false) m.

Definition RecordDone (c : id16) (senderID : Z) (m : HeavyAccountsMonitor) : bool * HeavyAccountsMonitor :=
  if senderID =? selfID m then (false, m)
  else
    let ce := getLocked c m in
    if sealed ce then (false, setDegree c ce m)
    else let (ready, ce') := isReady m (mkDegree (heavySrcs ce) (heavySinks ce) ({[senderID]} ∪ donePeers ce)
                                          (localDone ce) false)
         in (ready, setDegree c ce' m).

Definition HeavySources (c : id16) (m : HeavyAccountsMonitor) : gset Account :=
  match perClient m !! c with Some ce => heavySrcs ce | None => ∅ end.
Definition HeavySinks (c : id16) (m : HeavyAccountsMonitor) : gset Account :=
  match perClient m !! c with Some ce => heavySinks ce | None => ∅ end.
Definition IsSealed (c : id16) (m : HeavyAccountsMonitor) : bool :=
  match perClient m !! c with Some ce => sealed ce | None => false end.
Definition MonForget (c : id16) (m : HeavyAccountsMonitor) : HeavyAccountsMonitor :=
  mkMonitor (delete c (perClient m)) (selfID m) (peerTarget m).

Record degreeStateSnapshot := mkDegreeSnapshot {
  HeavySrcs_ : list Account;
  HeavySinks_ : list Account;
  DonePeers_ : list Z;
  LocalDone_ : bool;
  Sealed_ : bool
}.
Definition MonSnapshot `{!GoRange} (c : id16) (m : HeavyAccountsMonitor) : option degreeStateSnapshot :=
  ce ← perClient m !! c;
  Some (mkDegreeSnapshot (range (elements (heavySrcs ce))) (range (elements (heavySinks ce)))
          (range (elements (donePeers ce))) (localDone ce) (sealed ce)).
Definition MonRestore (c : id16) (s : degreeStateSnapshot) (m : HeavyAccountsMonitor) : HeavyAccountsMonitor :=
  setDegree c (mkDegree (list_to_set (HeavySrcs_ s)) (list_to_set (HeavySinks_ s))
    (list_to_set (DonePeers_ s)) (LocalDone_ s) (Sealed_ s)) m.

(** ** A replica's view of the exchange *)
Inductive mop :=
  | OpLocal (srcs sinks : gset Account)
  | OpBatch (sender : Z) (role : byte) (accounts : list Account)
  | OpDone (sender : Z).
Definition mstep (c : id16) (op : mop) (m : HeavyAccountsMonitor) : bool * HeavyAccountsMonitor :=
  match op with
  | OpLocal srcs sinks => MergeLocal c srcs sinks m
  | OpBatch s role accs => (false, RecordHeavyBatch c s role accs m)
  | OpDone s => RecordDone c s m
  end.
(** How many of the operations answered "ready", and the final monitor. *)
Fixpoint mrun (c : id16) (ops : list mop) (m : HeavyAccountsMonitor) : nat * HeavyAccountsMonitor :=
  match ops with
  | [] => (O, m)
  | op :: ops' =>
      let (ready, m1) := mstep c op m in
      let (n, m2) := mrun c ops' m1 in ((if ready then S n else n), m2)
  end.

Section Barrier.
Variable self : Z.

(** What the operations say, whether or not the monitor listened. *)
Definition op_srcs (op : mop) : gset Account :=
  match op with
  | OpLocal srcs _ => srcs
  | OpBatch s role accs =>
      if (s =? self) || bool_decide (role = Q4HeavyRoleSink) then ∅ else list_to_set accs
  | OpDone _ => ∅
  end.
Definition op_sinks (op : mop) : gset Account :=
  match op with
  | OpLocal _ sinks => sinks
  | OpBatch s role accs =>
      if (s =? self) || negb (bool_decide (role = Q4HeavyRoleSink)) then ∅ else list_to_set accs
  | OpDone _ => ∅
  end.
Definition op_done (op : mop) : gset Z :=
  match op with OpDone s => if s =? self then ∅ else {[s]} | _ => ∅ end.
Definition op_local (op : mop) : bool := match op with OpLocal _ _ => true | _ => false end.
Definition said {A} `{Countable A} (f : mop -> gset A) (ops : list mop) : gset A := ⋃ (f <$> ops).
Definition all_done (target : Z) (ops : list mop) : bool :=
  existsb op_local ops && (target <=? Z.of_nat (size (said op_done ops))).

Lemma said_app {A} `{Countable A} (f : mop -> gset A) l k : said f (l ++ k) = said f l ∪ said f k.
Proof. unfold said. by rewrite fmap_app, union_list_app_L. Qed.
Lemma said_one {A} `{Countable A} (f : mop -> gset A) op : said f [op] = f op.
Proof. unfold said. simpl. by rewrite (right_id_L ∅ (∪)). Qed.

(** The state that listened to [ops] and has not sealed. *)
Definition open_state (ops : list mop) : clientDegreeState :=
  mkDegree (said op_srcs ops) (said op_sinks ops) (said op_done ops) (existsb op_local ops) false.
Definition seal (ce : clientDegreeState) : clientDegreeState :=
  mkDegree (heavySrcs ce) (heavySinks ce) (donePeers ce) (localDone ce) true.

Lemma getLocked_set c ce m : getLocked c (setDegree c ce m) = ce.
Proof. unfold getLocked, setDegree. simpl. by rewrite lookup_insert_eq. Qed.

(** One operation on an open state either listens, or listens and seals. *)
Lemma mstep_open c op m ops : selfID m = self -> getLocked c m = open_state ops ->
  let r := all_done (peerTarget m) (ops ++ [op]) in
  all_done (peerTarget m) ops = false ->
  let (ready, m') := mstep c op m in
  ready = r /\ selfID m' = self /\ peerTarget m' = peerTarget m /\
  getLocked c m' = (if r then seal (open_state (ops ++ [op])) else open_state (ops ++ [op])).
Proof.
  intros Hs Hg r Hno. unfold all_done in *.
  assert (open_state (ops ++ [op]) = mkDegree (said op_srcs ops ∪ op_srcs op) (said op_sinks ops ∪ op_sinks op)
    (said op_done ops ∪ op_done op) (existsb op_local ops || op_local op) false) as Ho.
  { unfold open_state. by rewrite !said_app, !said_one, existsb_app; cbn [existsb]; rewrite orb_false_r. }
  unfold r. rewrite said_app, said_one, existsb_app. cbn [existsb]. rewrite orb_false_r.
  rewrite Ho. clear Ho r. unfold mstep, MergeLocal, RecordHeavyBatch, RecordDone, isReady.
  destruct op as [srcs sinks|s role accs|s]; cbn [op_srcs op_sinks op_done op_local].
  - rewrite Hg. cbn [sealed open_state heavySrcs heavySinks donePeers localDone negb orb].
    rewrite orb_true_r, (right_id_L ∅ (∪)). cbn [andb].
    rewrite (Z.leb_antisym _ (peerTarget m)). destruct (_ <? peerTarget m); cbn [negb];
      rewrite getLocked_set; by split_and!.
  - rewrite Hs, orb_false_r, (right_id_L ∅ (∪)). rewrite Hno.
    destruct (s =? self) eqn:Es; cbn [orb].
    { rewrite Hg. split_and!; try done. unfold open_state. by rewrite !(right_id_L ∅ (∪)). }
    rewrite Hg. cbn [sealed open_state heavySrcs heavySinks donePeers localDone].
    case_decide as Hr; [rewrite !(bool_decide_eq_true_2 _ Hr)|rewrite !(bool_decide_eq_false_2 _ Hr)]; cbn [negb];
      rewrite getLocked_set, (right_id_L ∅ (∪)); by split_and!.
  - rewrite Hs, orb_false_r, !(right_id_L ∅ (∪)). destruct (s =? self) eqn:Es.
    { rewrite (right_id_L ∅ (∪)), Hno. by split_and!. }
    rewrite Hg. cbn [sealed open_state heavySrcs heavySinks donePeers localDone].
    rewrite (union_comm_L {[s]} (said op_done ops)).
    destruct (existsb op_local ops); cbn [negb orb andb]; [|rewrite getLocked_set; by split_and!].
    rewrite (Z.leb_antisym _ (peerTarget m)). destruct (_ <? peerTarget m); cbn [negb];
      rewrite getLocked_set; by split_and!.
Qed.

Lemma mstep_sealed c op m : sealed (getLocked c m) = true ->
  let (ready, m') := mstep c op m in
  ready = false /\ getLocked c m' = getLocked c m /\ selfID m' = selfID m /\ peerTarget m' = peerTarget m.
Proof.
  intros Hs. destruct op as [srcs sinks|s role accs|s]; simpl; unfold MergeLocal, RecordHeavyBatch, RecordDone;
    try (destruct (s =? selfID m)); rewrite ?Hs, ?getLocked_set; by split_and!.
Qed.
Lemma mrun_sealed c ops m : sealed (getLocked c m) = true ->
  let (n, m') := mrun c ops m in n = O /\ getLocked c m' = getLocked c m.
Proof.
  revert m. induction ops as [|op ops IH]; intros m Hs; [done|]. cbn [mrun].
  pose proof (mstep_sealed c op m Hs) as H. destruct (mstep c op m) as [ready m1].
  destruct H as (-> & H & _). rewrite <- H in Hs. specialize (IH m1 Hs).
  destruct (mrun c ops m1) as [n m2]. by rewrite <- H.
Qed.

Lemma all_done_mono target l k : all_done target l = true -> all_done target (l ++ k) = true.
Proof.
  unfold all_done. intros [H1 H2]%andb_true_iff. rewrite existsb_app, H1, said_app. simpl.
  apply Z.leb_le in H2. apply Z.leb_le.
  assert (size (said op_done l) <= size (said op_done l ∪ said op_done k))%nat by (apply subseteq_size; set_solver).
  lia.
Qed.

(** Where a run stands: still listening, or sealed by one of its operations. *)
Lemma mrun_open c ops pre m : selfID m = self -> getLocked c m = open_state pre ->
  all_done (peerTarget m) pre = false ->
  let (n, m') := mrun c ops m in
  if all_done (peerTarget m) (pre ++ ops)
  then n = 1%nat /\ exists l k, ops = l ++ k /\ all_done (peerTarget m) (pre ++ l) = true /\
       getLocked c m' = seal (open_state (pre ++ l))
  else n = O /\ getLocked c m' = open_state (pre ++ ops).
Proof.
  revert pre m. induction ops as [|op ops IH]; intros pre m Hs Hg Hno; cbn [mrun].
  { by rewrite app_nil_r, Hno. }
  pose proof (mstep_open c op m pre Hs Hg Hno) as Hst. destruct (mstep c op m) as [ready m1].
  destruct Hst as (-> & Hs1 & Ht & Hg1).
  destruct (all_done (peerTarget m) (pre ++ [op])) eqn:Ea.
  - pose proof (mrun_sealed c ops m1) as Hrs. rewrite Hg1 in Hrs. specialize (Hrs eq_refl).
    destruct (mrun c ops m1) as [n m2]. destruct Hrs as [-> Hg2].
    replace (pre ++ op :: ops) with ((pre ++ [op]) ++ ops) by by rewrite <- app_assoc.
    rewrite all_done_mono by done. split; [done|]. by exists [op], ops.
  - rewrite <- Ht in Ea. specialize (IH (pre ++ [op]) m1 Hs1 Hg1 Ea). rewrite Ht in IH.
    destruct (mrun c ops m1) as [n m2]. rewrite <- app_assoc in IH. simpl in IH.
    destruct (all_done _ _); [|done]. destruct IH as (-> & l & k & -> & Hl & Hg2).
    rewrite <- !app_assoc in *. split; [done|]. by exists (op :: l), k.
Qed.

Lemma run_fresh c ops m : selfID m = self -> perClient m !! c = None ->
  let (n, m') := mrun c ops m in
  if all_done (peerTarget m) ops
  then n = 1%nat /\ exists l k, ops = l ++ k /\ all_done (peerTarget m) l = true /\
       getLocked c m' = seal (open_state l)
  else n = O /\ getLocked c m' = open_state ops.
Proof.
  intros Hs Hc. apply (mrun_open c ops [] m Hs); [|done]. unfold getLocked. by rewrite Hc.
Qed.

(** The barrier opens exactly once, at the first moment when the replica
    itself and as many different peers as expected are done: redelivered
    messages, later batches and later ends neither open it again nor early. *)
Theorem barrier_opens_once c ops m : selfID m = self -> perClient m !! c = None ->
  (mrun c ops m).1 = (if all_done (peerTarget m) ops then 1%nat else O) /\
  sealed (getLocked c (mrun c ops m).2) = all_done (peerTarget m) ops.
Proof.
  intros Hs Hc. pose proof (run_fresh c ops m Hs Hc) as H. destruct (mrun c ops m) as [n m'].
  destruct (all_done (peerTarget m) ops); simpl.
  - destruct H as (-> & l & k & _ & _ & ->). done.
  - by destruct H as [-> ->].
Qed.

(** What a sender says after its end it has said before: channels are FIFO and
    a redelivery repeats. *)
Definition fifo (ops : list mop) : Prop :=
  forall l op k, ops = l ++ op :: k ->
    (forall s role accs, op = OpBatch s role accs -> s <> self -> s ∈ said op_done l ->
       op_srcs op ⊆ said op_srcs l /\ op_sinks op ⊆ said op_sinks l) /\
    (op_local op = true -> existsb op_local l = true ->
       op_srcs op ⊆ said op_srcs l /\ op_sinks op ⊆ said op_sinks l).
Definition sender_in (peers : gset Z) (op : mop) : Prop :=
  match op with OpLocal _ _ => True | OpBatch s _ _ | OpDone s => s ∈ peers \/ s = self end.

(** C22. When the barrier opens nothing is missing: the heavy sources and sinks
    the cross-product uses are those of the replica and of every peer, also
    when more messages arrive afterwards. *)
Theorem barrier_complete c ops m peers : selfID m = self -> perClient m !! c = None ->
  peerTarget m = Z.of_nat (size peers) -> self ∉ peers ->
  Forall (sender_in peers) ops -> fifo ops ->
  IsSealed c (mrun c ops m).2 = true ->
  HeavySources c (mrun c ops m).2 = said op_srcs ops /\
  HeavySinks c (mrun c ops m).2 = said op_sinks ops /\
  peers ⊆ said op_done ops.
Proof.
  intros Hs Hc Ht Hself Hsend Hfifo Hseal. pose proof (run_fresh c ops m Hs Hc) as H.
  destruct (mrun c ops m) as [n m']. simpl in *.
  assert (exists ce, perClient m' !! c = Some ce /\ getLocked c m' = ce /\ sealed ce = true) as (ce & Hce & Hl & Hse).
  { unfold IsSealed, getLocked in *. destruct (perClient m' !! c) as [ce|]; [|done]. by exists ce. }
  unfold HeavySources, HeavySinks. rewrite Hce. destruct (all_done (peerTarget m) ops).
  2: { destruct H as [_ H]. rewrite Hl in H. by rewrite H in Hse. }
  destruct H as (_ & l & k & -> & Hdone & H). rewrite Hl in H. rewrite H. cbn [seal heavySrcs heavySinks].
  apply andb_true_iff in Hdone as [Hloc Hdone]. apply Z.leb_le in Hdone.
  apply Forall_app in Hsend as [Hsl Hsk].
  assert (said op_done l ⊆ peers) as Hsub.
  { clear -Hsl Hself. induction Hsl as [|op l Hop _ IH]; [apply empty_subseteq|].
    change (op :: l) with ([op] ++ l). rewrite said_app, said_one.
    destruct op as [| |s]; simpl in *; try set_solver. destruct (Z.eqb_spec s self); set_solver. }
  assert (said op_done l = peers) as Hpeers.
  { apply leibniz_equiv, set_subseteq_size_equiv; [done|]. lia. }
  assert (said op_srcs k ⊆ said op_srcs l /\ said op_sinks k ⊆ said op_sinks l) as [Hk1 Hk2].
  { clear H Hl Hse Hce Hseal. induction k as [|op k IH] using rev_ind; [split; apply empty_subseteq|].
    apply Forall_app in Hsk as [Hsk Hop]. rewrite Forall_singleton in Hop.
    assert (fifo (l ++ k)) as Hf.
    { intros l' op' k' E. apply (Hfifo l' op' (k' ++ [op])). rewrite app_assoc, E. by rewrite <- app_assoc. }
    destruct (IH Hf Hsk) as [IH1 IH2]. rewrite !said_app, !said_one.
    destruct (Hfifo (l ++ k) op []) as [Hb Hlo]; [by rewrite <- app_assoc|].
    assert (op_srcs op ⊆ said op_srcs (l ++ k) /\ op_sinks op ⊆ said op_sinks (l ++ k)) as [H1 H2];
      [|rewrite said_app in H1, H2; clear -H1 H2 IH1 IH2; set_solver].
    destruct op as [srcs sinks|s role accs|s].
    - apply Hlo; [done|]. by rewrite existsb_app, Hloc.
    - destruct (decide (s = self)) as [->|Hne]; [simpl; rewrite Z.eqb_refl; set_solver|].
      eapply Hb; [done|done|]. rewrite said_app, Hpeers. destruct Hop; set_solver.
    - split; apply empty_subseteq. }
  rewrite !said_app. cbn [open_state heavySrcs heavySinks]. rewrite Hpeers. set_solver.
Qed.
End Barrier.

(** [fifo] can be tested. *)
Definition fifo_step (self : Z) (pre : list mop) (op : mop) : bool :=
  let again := bool_decide (op_srcs self op ⊆ said (op_srcs self) pre
                            /\ op_sinks self op ⊆ said (op_sinks self) pre) in
  match op with
  | OpBatch s _ _ => (s =? self) || negb (bool_decide (s ∈ said (op_done self) pre)) || again
  | OpLocal _ _ => negb (existsb op_local pre) || again
  | OpDone _ => true
  end.
Fixpoint fifo_from (self : Z) (pre ops : list mop) : bool :=
  match ops with
  | [] => true
  | op :: ops' => fifo_step self pre op && fifo_from self (pre ++ [op]) ops'
  end.
Lemma fifo_check self ops : fifo_from self [] ops = true -> fifo self ops.
Proof.
  assert (forall pre l op k, fifo_from self pre (l ++ op :: k) = true -> fifo_step self (pre ++ l) op = true) as Hf.
  { intros pre l. revert pre. induction l as [|x l IH]; intros pre op k; cbn [app fifo_from]; intros [H1 H2]%andb_true_iff.
    - by rewrite app_nil_r.
    - apply IH in H2. by rewrite <- app_assoc in H2. }
  intros H l op k ->. apply Hf in H. simpl in H. split.
  - intros s role accs -> Hne Hin. unfold fifo_step in H.
    rewrite (bool_decide_eq_true_2 _ Hin) in H. destruct (Z.eqb_spec s self); [done|]. simpl in H.
    by apply bool_decide_eq_true_1 in H.
  - intros Hl He. destruct op; try done. unfold fifo_step in H. rewrite He in H. simpl in H.
    by apply bool_decide_eq_true_1 in H.
Qed.

(** Saving and restoring the barrier of a client. *)
Lemma restore_snapshot_monitor {GR : GoRange} c m m0 ce : perClient m !! c = Some ce ->
  exists s, MonSnapshot c m = Some s /\ perClient (MonRestore c s m0) !! c = Some ce.
Proof.
  intros Hc. unfold MonSnapshot. rewrite Hc. eexists. split; [reflexivity|].
  unfold MonRestore, setDegree. simpl. rewrite lookup_insert_eq. f_equal.
  assert (forall A `{Countable A} (X : gset A), list_to_set (range (elements X)) = X) as Hr.
  { intros A ? ? X. apply set_eq. intros x. by rewrite elem_of_list_to_set, range_perm, elem_of_elements. }
  rewrite !Hr. by destruct ce.
Qed.

(** ** Three replicas *)
Section Example.
Local Open Scope string_scope.
Definition acc (s : string) : Account := mkAccount "b" s.
Definition trace : list mop :=
  [OpBatch 2 Q4HeavyRoleSource [acc "x"]; OpDone 2; OpDone 2; OpLocal {[acc "y"]} {[acc "z"]};
   OpBatch 3 Q4HeavyRoleSink [acc "w"]; OpDone 1; OpDone 3; OpBatch 2 Q4HeavyRoleSource [acc "x"]].
End Example.
Definition mon1 : HeavyAccountsMonitor := NewHeavyAccountsMonitor 1 3.

Lemma barrier_opens_once_witness :
  (mrun zero16 trace mon1).1 = 1%nat /\ all_done 1 2 trace = true.
Proof.
  assert (all_done 1 2 trace = true) as H by (vm_compute; reflexivity).
  split; [|exact H]. rewrite (proj1 (barrier_opens_once 1 zero16 trace mon1 eq_refl eq_refl)).
  change (peerTarget mon1) with 2. by rewrite H.
Defined.

Lemma barrier_complete_witness :
  fifo 1 trace /\ HeavySources zero16 (mrun zero16 trace mon1).2 = said (op_srcs 1) trace.
Proof.
  assert (fifo 1 trace) as H by (apply fifo_check; vm_compute; reflexivity).
  split; [exact H|].
  apply (barrier_complete 1 zero16 trace mon1 {[2; 3]}); try reflexivity; try exact H.
  - vm_compute. set_solver.
  - repeat constructor; simpl; set_solver.
Defined.
