(* ===== verification/Sharding.v ===== *)
(** * Sharding by hash ([shardByField], [shardByValue])

    FNV-1a over the bytes of a value ([hash/fnv]), the shard's index, and its
    routing key. *)

From stdpp Require Import pretty.
From S2P Require Import Prelude Models.

Definition fnv_offset : Z := 2166136261.
Definition fnv_prime : Z := 16777619.
(** [h := fnv.New32a(); h.Write(data); h.Sum32()] *)
Definition fnv32a (data : bytes) : Z :=
  fold_left (fun h b => uint32 (Z.lxor h (byte_Z b) * fnv_prime)) data fnv_offset.

(** [fmt.Sprintf] of an integer with [%d]. *)
Definition itoa (z : Z) : string := pretty z.

(** [int(h.Sum32()) % amount]: Go's remainder; 0 divides nothing. *)
Definition shardIndex (value : string) (amount : Z) : res Z :=
  if amount =? 0 then Panic "integer divide by zero"
  else let index := Z.rem (fnv32a (str_bytes value)) amount in
       Ok (if index <? 0 then index + amount else index).
Definition shardByValue (prefix : string) (amount : Z) (value : string) : res string :=
  index ← shardIndex value amount;
  Ok (prefix +:+ "_" +:+ itoa index)%string.

Example fnv_empty : fnv32a [] = 0x811c9dc5.
Proof. reflexivity. Qed.
Example fnv_a : fnv32a (str_bytes "a") = 0xe40c292c.
Proof. vm_compute. reflexivity. Qed.
Example fnv_foobar : fnv32a (str_bytes "foobar") = 0xbf9cf968.
Proof. vm_compute. reflexivity. Qed.

Lemma fnv32a_range data : in_uint 32 (fnv32a data).
Proof.
  unfold fnv32a, in_uint. destruct data as [|b data] using rev_ind; [by vm_compute|].
  rewrite fold_left_app. cbn [fold_left]. unfold uint32. apply Z.mod_pos_bound. lia.
Qed.

(** A value always goes to the same shard and to one that exists. *)
Theorem shardIndex_range value amount : 0 < amount ->
  exists i, shardIndex value amount = Ok i /\ 0 <= i < amount.
Proof.
  intros Ha. unfold shardIndex. rewrite (proj2 (Z.eqb_neq _ _)) by lia.
  pose proof (fnv32a_range (str_bytes value)) as Hr. unfold in_uint in Hr.
  pose proof (Z.rem_bound_pos (fnv32a (str_bytes value)) amount ltac:(lia) Ha) as Hb.
  eexists. split; [reflexivity|]. destruct (Z.ltb_spec (Z.rem (fnv32a (str_bytes value)) amount) 0); lia.
Qed.
Lemma shardIndex_range_witness : 0 < 4 /\ exists i, shardIndex "001-8000EBD30" 4 = Ok i /\ 0 <= i < 4.
Proof. split; [lia|]. apply (shardIndex_range "001-8000EBD30" 4). lia. Defined.

Lemma shardByValue_ok prefix amount value : 0 < amount ->
  exists i, shardByValue prefix amount value = Ok (prefix +:+ "_" +:+ itoa i)%string /\ 0 <= i < amount.
Proof.
  intros Ha. destruct (shardIndex_range value amount Ha) as (i & Hi & Hr). exists i. unfold shardByValue.
  rewrite Hi. done.
Qed.
