(* ===== verification/WorkerMem.v ===== *)
(** * The memory of a synchronised worker

    A worker without results of its own has a publisher, an end-of-stream
    controller, and nothing else to remember; [WorkerMem] is that memory, with
    the events of the controller. *)

From S2P Require Import Prelude Maps Models Codec MsgIDs Publisher EofSync.

Record WorkerMem := mkWorkerMem {
  wmPub : Publisher;
  wmEof : gmap id16 client;
  wmEvents : list event
}.
#[global] Instance WorkerMem_pub : HasPublisher WorkerMem.
Proof.
  refine {| pub := wmPub; setPub := fun p w => mkWorkerMem p (wmEof w) (wmEvents w) |};
    [done| |done]. by intros [].
Defined.

(** Call the controller. *)
Definition runCtl (f : ctl) : M WorkerMem unit := fun w =>
  let (cs, es) := f (wmEof w) in (Ok tt, mkWorkerMem (wmPub w) cs (wmEvents w ++ es)).

(** The broker accepts every message from now on. *)
Definition broker_up (w : WorkerMem) : Prop := script (wmPub w) = [].

Definition push (m : Message) (w : WorkerMem) : WorkerMem :=
  mkWorkerMem (mkPublisher (sent (wmPub w) ++ [m]) [] (dedup (wmPub w))) (wmEof w) (wmEvents w).

Lemma send_up key envelope (w : WorkerMem) : broker_up w ->
  send key envelope w = (Ok tt, push (mkMessage key envelope) w).
Proof. unfold broker_up, send. simpl. by intros ->. Qed.
Lemma send_down key envelope (w : WorkerMem) e rest : script (wmPub w) = Some e :: rest ->
  send key envelope w = (Err (Wrapf "sending message to broker" e),
    mkWorkerMem (mkPublisher (sent (wmPub w)) rest (dedup (wmPub w))) (wmEof w) (wmEvents w)).
Proof. unfold send. simpl. by intros ->. Qed.
