(* ===== verification/Router.v ===== *)
(** * Router and spliter ([src/workers/router])

    [Router] sends every transaction of a batch to the shard of one of its
    fields; [Spliter] sends it to two shards for query 4, in the role of its
    origin and of its destination.  Both group a batch first and send one
    message per group. *)

From S2P Require Import Prelude Maps Models MsgIDs Wire Codec CodecQ4 Disk Coordinator Publisher EofSync Sharding WorkerMem.

Section Strings.
Local Open Scope string_scope.
Record Money := mkMoney { Amount : float64; Currency : string }.
Definition accountField (a : Account) (field : string) : string :=
  if decide (field = "BankID") then BankID a
  else if decide (field = "ID") then ID a else "".
Definition moneyField (m : Money) (field : string) : string :=
  if decide (field = "Currency") then Currency m else "".

Record RouterCfg := mkRouterCfg {
  NextWorkerPrefix : string;
  WorkerPrefix : string;
  nextWorkerAmount : Z;
  sectionToRouteBy : string;
  fieldToRouteBy : string;
  fieldsToRouteBy : list string;     (** the spliter's *)
  syncEOFKey : KeyType
}.

Section Cfg.
Variable cfg : RouterCfg.
Definition extractFieldValue (tx : Transaction) : string :=
  if decide (sectionToRouteBy cfg = "origin") then
    accountField (mkAccount (FromBank tx) (FromAccount tx)) (fieldToRouteBy cfg)
  else if decide (sectionToRouteBy cfg = "dest") then
    accountField (mkAccount (ToBank tx) (ToAccount tx)) (fieldToRouteBy cfg)
  else if decide (sectionToRouteBy cfg = "paid") then
    moneyField (mkMoney (AmountPaid tx) (PaymentCurrency tx)) (fieldToRouteBy cfg)
  else if decide (sectionToRouteBy cfg = "format") then PaymentFormat tx
  else "".
Definition shardByField (tx : Transaction) : res string :=
  shardByValue (NextWorkerPrefix cfg) (nextWorkerAmount cfg) (extractFieldValue tx).
End Cfg.

(** [parseRouteField]: the configuration is a JSON value; [None] is a value that
    is not a string. *)
Inductive json := JStr (s : string) | JNum (x : float64) | JMap (m : gmap string (option string)) | JList (l : list (option string)) | JOther.
Definition parseRouteField `{!GoRange} (params : gmap string json) : string * string :=
  match params !! "field" with
  | Some (JMap m) =>
      match omap (fun kv : string * option string => f ← kv.2; Some (kv.1, f)) (range (map_to_list m)) with
      | sf :: _ => sf
      | [] => ("", "")
      end
  | _ => ("", "")
  end.
(** The strings of the list, in [NewSpliter]. *)
Definition parseFields (params : gmap string json) : list string :=
  match params !! "field" with Some (JList l) => omap (fun x => x) l | _ => [] end.
End Strings.

Section Workers.
Context `{!UuidLib, !GoRange} (cfg : RouterCfg) (eofCfg : config).

(** ** Router *)
Definition encodeAndSendBatch (c : id16) (msgType : byte) (payload : bytes) (routingKey : string)
    (batchLength : Z) (id : id16) : M WorkerMem unit :=
  _ ← PublishInternalWithID c msgType routingKey payload id;
  runCtl (MessageSentWithKey c routingKey id batchLength).

(** [for _, tx := range txBatch { m[key(tx)] = append(m[key(tx)], tx) }] *)
Fixpoint groupM {K A} `{Countable K} (key : A -> res K) (l : list A) (m : gmap K (list A)) : res (gmap K (list A)) :=
  match l with
  | [] => Ok m
  | x :: l' => k ← key x; groupM key l' (<[k := default [] (m !! k) ++ [x]]> m)
  end.

Definition sendGroup (e : InternalEnvelope) (kg : string * list Transaction) : M WorkerMem unit :=
  bs ← liftR (EncodeTransactionBatch kg.2);
  encodeAndSendBatch (ClientId e) MsgTransactionsBatch bs kg.1 (Zlen kg.2) (DeriveMsgID (MsgID e) kg.1 0).
Definition Router_handleTransactionMessage (e : InternalEnvelope) : M WorkerMem unit :=
  txBatch ← liftR (DecodeTransactionBatch (Payload e));
  _ ← runCtl (MessageReceived (ClientId e) (MsgID e) (Zlen txBatch));
  groups ← liftR (groupM (shardByField cfg) txBatch ∅);
  forM (range (map_to_list groups)) (sendGroup e).

Definition eofMsgID (c : id16) : id16 := StageMsgID c (WorkerPrefix cfg) "eof" 0.
Definition Router_onLeaderFlush (c : id16) (finalSent : gmap string Z) : M WorkerMem unit :=
  eofCounts ← liftR (EncodeEOFCounts finalSent);
  encodeAndSendBatch c MsgTransactionsEOF eofCounts KeyControlEOF 0 (eofMsgID c).
Definition Router_onRetryExceeded (c : id16) : M WorkerMem unit :=
  eofCounts ← liftR (EncodeEOFCounts {[KeyNil := -1]});
  encodeAndSendBatch c MsgTransactionsEOF eofCounts KeyControlEOF 0 (eofMsgID c).

(** [onflush], shared by both: save everything, then forget the client. *)
Definition Worker_onflush (co : CoConfig WorkerMem) (c : id16) : D (Co WorkerMem) unit :=
  _ ← Flush co;
  _ ← onMem (Forget c);
  Delete co c.

(** [handleEOFMessage]: an error of the flush is ignored. *)
Definition syncHandleEOF (key : KeyType) (co : CoConfig WorkerMem) (ack : option nat) (e : InternalEnvelope)
    : D (Co WorkerMem) unit :=
  counts ← onMem (liftR (DecodeEOFCounts (Payload e)));
  _ ← (fun s => prog_bind (Flush co s) (fun rs => Ret (match rs.1 with Panic p => Panic p | _ => Ok tt end, rs.2)));
  onMem (runCtl (SyncEof eofCfg (ClientId e) (Some counts) key ack)).
Definition Worker_handleEOFMessage (co : CoConfig WorkerMem) (ack : option nat) (e : InternalEnvelope)
    : D (Co WorkerMem) unit := syncHandleEOF (syncEOFKey cfg) co ack e.

(** ** Spliter *)
Definition bucketKey : Type := string * string.  (** (txType, routingKey) *)

Definition sendPhaseOneBatch (c : id16) (txType routingKey : string) (txs : list Transaction)
    (parentID : id16) : M WorkerMem unit :=
  envelope ← liftR (EncodeTxQ4PhaseOneBatchEnvelope c txType txs);
  let id := DeriveMsgID parentID (txType +:+ ":" +:+ routingKey)%string 0 in
  _ ← PublishRawWithID routingKey envelope id;
  runCtl (MessageSentWithKey c routingKey id (Zlen txs)).

(** The roles of one transaction, for every configured field. *)
Definition bucketOf (tx : Transaction) (field : string) : res bucketKey :=
  let value := GetTransactionField tx field in
  if bool_decide (value = EmptyString) then Err (ErrMsg "transaction missing routing field")
  else
    routingKey ← shardByValue (NextWorkerPrefix cfg) (nextWorkerAmount cfg) value;
    Ok (GetTypeTxQ4ByField field, routingKey).
Definition Spliter_handleTransactionBatchMessage (e : InternalEnvelope) : M WorkerMem unit :=
  txBatch ← liftR (DecodeTransactionBatch (Payload e));
  buckets ← liftR (groupM (fun tf : Transaction * string => bucketOf tf.1 tf.2)
    (flat_map (fun tx => (fun field => (tx, field)) <$> fieldsToRouteBy cfg) txBatch) ∅);
  _ ← forM (range (map_to_list buckets)) (fun b =>
        sendPhaseOneBatch (ClientId e) b.1.1 b.1.2 b.2.*1 (MsgID e));
  runCtl (MessageReceived (ClientId e) (MsgID e) (Zlen txBatch)).
Definition Spliter_onLeaderFlush (c : id16) (finalSent : gmap string Z) : M WorkerMem unit :=
  eofEnvelope ← liftR (EncodeEOFCountsEnvelope c finalSent);
  PublishRawWithID KeyControlEOF eofEnvelope (eofMsgID c).
Definition Spliter_onRetryExceeded (c : id16) : M WorkerMem unit :=
  eofEnvelope ← liftR (EncodeEOFCountsEnvelope c {[KeyNil := -1]});
  PublishRawWithID KeyControlEOF eofEnvelope (eofMsgID c).
End Workers.

(** ** Grouping with a total key *)
Lemma groupM_total {K A} `{Countable K} (key : A -> res K) (f : A -> K) l m :
  (forall x, x ∈ l -> key x = Ok (f x)) -> groupM key l m = Ok (fold_left (group_add f) l m).
Proof.
  revert m. induction l as [|x l IH]; intros m Hk; [done|]. cbn [groupM fold_left].
  rewrite Hk by set_solver. cbn [mbind res_bind]. apply IH. set_solver.
Qed.

Section RouterProofs.
Context {UL : UuidLib} {GR : GoRange} (cfg : RouterCfg).
Hypothesis amount_pos : 0 < nextWorkerAmount cfg.

Definition shard_key (tx : Transaction) : string :=
  match shardByField cfg tx with Ok k => k | _ => EmptyString end.
Lemma shard_key_ok tx : shardByField cfg tx = Ok (shard_key tx).
Proof.
  unfold shard_key. unfold shardByField at 1 2.
  by destruct (shardByValue_ok (NextWorkerPrefix cfg) _ (extractFieldValue cfg tx) amount_pos) as (i & -> & _).
Qed.

(** The message for one group. *)
Definition group_msg (e : InternalEnvelope) (kg : string * list Transaction) (bs : bytes) : Message :=
  mkMessage kg.1 (EncodeInternalEnvelope
    (mkInternalEnvelope MsgTransactionsBatch (ClientId e) (DeriveMsgID (MsgID e) kg.1 0) bs)).
Definition count_group (e : InternalEnvelope) (cs : gmap id16 client) (kg : string * list Transaction) : gmap id16 client :=
  (MessageSentWithKey (ClientId e) kg.1 (DeriveMsgID (MsgID e) kg.1 0) (Zlen kg.2) cs).1.

Lemma sendGroup_up e kg w : Forall tx_ok kg.2 -> in_uint 32 (Zlen kg.2) -> broker_up w ->
  exists bs, EncodeTransactionBatch kg.2 = Ok bs /\ DecodeTransactionBatch bs = Ok kg.2 /\
  sendGroup e kg w = (Ok tt, mkWorkerMem (mkPublisher (sent (wmPub w) ++ [group_msg e kg bs]) [] (dedup (wmPub w)))
    (count_group e (wmEof w) kg) (wmEvents w)).
Proof.
  intros Hok Hlen Hup. destruct (tx_batch_codec kg.2 Hok Hlen) as (bs & He & Hd). exists bs.
  split; [done|]. split; [done|]. unfold sendGroup, encodeAndSendBatch, PublishInternalWithID. rewrite He.
  unfold mbind at 1, M_bind, liftR. unfold mbind at 1, M_bind. rewrite send_up by done.
  unfold runCtl, push, MessageSentWithKey, updClient, count_group. simpl. by rewrite app_nil_r.
Qed.

Lemma send_groups e kgs w : Forall (fun kg => Forall tx_ok kg.2 /\ in_uint 32 (Zlen kg.2)) kgs -> broker_up w ->
  exists msgs, Forall2 (fun kg m => exists bs, m = group_msg e kg bs /\ DecodeTransactionBatch bs = Ok kg.2) kgs msgs /\
  forM kgs (sendGroup e) w = (Ok tt, mkWorkerMem (mkPublisher (sent (wmPub w) ++ msgs) [] (dedup (wmPub w)))
    (fold_left (count_group e) kgs (wmEof w)) (wmEvents w)).
Proof.
  intros Hok. revert w. induction Hok as [|kg kgs [Hk Hl] _ IH]; intros w Hup.
  { exists []. split; [constructor|]. destruct w as [[] ? ?]. unfold broker_up in Hup. simpl in *. subst.
    by rewrite app_nil_r. }
  destruct (sendGroup_up e kg w Hk Hl Hup) as (bs & _ & Hd & Hs). cbn [forM].
  unfold mbind, M_bind. rewrite Hs.
  match goal with |- context [forM kgs _ ?w1] => destruct (IH w1 eq_refl) as (msgs & Hm & ->) end.
  exists (group_msg e kg bs :: msgs). split; [constructor; [by exists bs|done]|].
  simpl. by rewrite <- app_assoc.
Qed.

(** C24. The router splits a batch without losing, duplicating or misplacing a
    transaction: for every map order the groups it sends are the batch up to
    order, each under the shard of all its transactions, each decodable, each
    counted once as sent; and the whole batch is counted as received. *)
Theorem router_splits_batch e txs w :
  DecodeTransactionBatch (Payload e) = Ok txs -> Forall tx_ok txs -> in_uint 32 (Zlen txs) -> broker_up w ->
  exists kgs msgs,
    flat_map snd kgs ≡ₚ txs /\ NoDup kgs.*1 /\
    Forall (fun kg : string * list Transaction => kg.2 <> [] /\ Forall (fun tx => shardByField cfg tx = Ok kg.1) kg.2) kgs /\
    Forall2 (fun kg m => exists bs, m = group_msg e kg bs /\ DecodeTransactionBatch bs = Ok kg.2) kgs msgs /\
    Router_handleTransactionMessage cfg e w =
      (Ok tt, mkWorkerMem (mkPublisher (sent (wmPub w) ++ msgs) [] (dedup (wmPub w)))
        (fold_left (count_group e) kgs (MessageReceived (ClientId e) (MsgID e) (Zlen txs) (wmEof w)).1)
        (wmEvents w)).
Proof.
  intros Hd Hok Hlen Hup. set (kgs := range (map_to_list (group_by shard_key txs))).
  assert (flat_map snd kgs ≡ₚ txs) as Hperm by apply group_by_perm.
  assert (Forall (fun kg : string * list Transaction => kg.2 = group_of shard_key kg.1 txs /\ kg.2 <> []) kgs) as Hg.
  { apply Forall_forall. intros [k g] Hin. apply elem_of_range_map, group_by_lookup in Hin. done. }
  assert (Forall (fun kg : string * list Transaction => Forall tx_ok kg.2 /\ in_uint 32 (Zlen kg.2)) kgs) as Hkok.
  { eapply Forall_impl; [exact Hg|]. intros kg [-> _]. split.
    - apply Forall_forall. intros x Hx. apply list_elem_of_filter in Hx as [_ Hx].
      rewrite Forall_forall in Hok. by apply Hok.
    - unfold in_uint, Zlen, group_of in *.
      assert (length (filter (fun x => shard_key x = kg.1) txs) <= length txs)%nat by apply length_filter. lia. }
  set (w1 := mkWorkerMem (wmPub w) (MessageReceived (ClientId e) (MsgID e) (Zlen txs) (wmEof w)).1 (wmEvents w)).
  destruct (send_groups e kgs w1 Hkok Hup) as (msgs & Hm & Hs). exists kgs, msgs.
  split_and!; [done|apply range_map_keys| |done|].
  - eapply Forall_impl; [exact Hg|]. intros kg [Hkg Hne]. split; [done|]. rewrite Hkg.
    apply Forall_forall. intros tx Htx. apply list_elem_of_filter in Htx as [<- _]. apply shard_key_ok.
  - unfold Router_handleTransactionMessage. rewrite Hd.
    unfold mbind, M_bind, liftR, runCtl, MessageReceived, updClient.
    rewrite (groupM_total _ shard_key) by (intros; apply shard_key_ok).
    change (fold_left _ txs ∅) with (group_by shard_key txs). fold kgs. rewrite app_nil_r. exact Hs.
Qed.

(** The router counts a batch as received before it has sent it: when the
    broker refuses the first group the handler fails, nothing has been sent,
    and yet the batch is in the counts the controller reports. *)
Theorem router_counts_unsent_batch e txs w err rest :
  DecodeTransactionBatch (Payload e) = Ok txs -> Forall tx_ok txs -> in_uint 32 (Zlen txs) -> txs <> [] ->
  script (wmPub w) = Some err :: rest ->
  let (r, w') := Router_handleTransactionMessage cfg e w in
  is_ok r = false /\ sent (wmPub w') = sent (wmPub w) /\
  msgRcvByID (client_of (wmEof w') (ClientId e)) !! MsgID e = Some (Zlen txs).
Proof.
  intros Hd Hok Hlen Hne Hdown. unfold Router_handleTransactionMessage. rewrite Hd.
  unfold mbind, M_bind, liftR, runCtl, MessageReceived, updClient.
  rewrite (groupM_total _ shard_key) by (intros; apply shard_key_ok).
  change (fold_left _ txs ∅) with (group_by shard_key txs). rewrite app_nil_r.
  destruct (range (map_to_list (group_by shard_key txs))) as [|[k g] kgs] eqn:E.
  { destruct txs as [|tx txs]; [done|]. pose proof (group_by_perm shard_key (tx :: txs)) as Hp.
    rewrite E in Hp. by apply Permutation_nil_cons in Hp. }
  assert (g = group_of shard_key k txs) as Hg.
  { assert ((k, g) ∈ range (map_to_list (group_by shard_key txs))) as Hin by (rewrite E; set_solver).
    apply elem_of_range_map, group_by_lookup in Hin. by destruct Hin. }
  assert (Forall tx_ok g /\ in_uint 32 (Zlen g)) as [Hgok Hglen].
  { subst g. split.
    - apply Forall_forall. intros x Hx. apply list_elem_of_filter in Hx as [_ Hx].
      rewrite Forall_forall in Hok. by apply Hok.
    - unfold in_uint, Zlen, group_of in *.
      assert (length (filter (fun x => shard_key x = k) txs) <= length txs)%nat by apply length_filter. lia. }
  destruct (tx_batch_codec g Hgok Hglen) as (bs & He & _).
  cbn [forM]. unfold mbind, M_bind, sendGroup, encodeAndSendBatch, PublishInternalWithID, liftR.
  cbn [fst snd]. rewrite He. unfold mbind, M_bind.
  rewrite (send_down _ _ _ err rest) by done. cbn [wmEof wmPub sent is_ok].
  split_and!; [done|done|]. unfold client_of at 1. rewrite lookup_insert_eq. cbn [from_option id msgRcvByID].
  by rewrite lookup_insert_eq.
Qed.

(** The spliter does not: a batch whose handler fails, wherever it fails,
    is not counted as received. *)
Theorem spliter_counts_after_sending e w c :
  let (r, w') := Spliter_handleTransactionBatchMessage cfg e w in
  is_ok r = false -> msgRcvByID (client_of (wmEof w') c) = msgRcvByID (client_of (wmEof w) c).
Proof.
  assert (forall c' (b : bucketKey * list (Transaction * string)) w, let (r, w') := sendPhaseOneBatch (ClientId e) b.1.1 b.1.2 b.2.*1 (MsgID e) w in
    msgRcvByID (client_of (wmEof w') c') = msgRcvByID (client_of (wmEof w) c')) as Hsend.
  { intros c' [[txType k] txs] w0. cbn [fst snd]. unfold sendPhaseOneBatch, mbind, M_bind, liftR.
    destruct (EncodeTxQ4PhaseOneBatchEnvelope _ _ _) as [env|x|p]; [|done..].
    unfold PublishRawWithID, send.
    assert (forall w1, wmEof w1 = wmEof w0 -> msgRcvByID (client_of (wmEof (runCtl (MessageSentWithKey (ClientId e) k
      (DeriveMsgID (MsgID e) (txType +:+ ":" +:+ k)%string 0) (Zlen txs.*1)) w1).2) c') = msgRcvByID (client_of (wmEof w0) c')) as Hctl.
    { intros w1 Hw1. unfold runCtl, MessageSentWithKey, updClient. cbn [snd wmEof]. rewrite Hw1.
      unfold client_of at 1. destruct (decide (ClientId e = c')) as [->|Hne].
      - by rewrite lookup_insert_eq.
      - by rewrite lookup_insert_ne. }
    destruct (script (pub w0)) as [|[err|] rest]; cbn [setPub WorkerMem_pub]; [|done|];
      (match goal with |- context [runCtl ?f ?w1] => specialize (Hctl w1 eq_refl);
         destruct (runCtl f w1) as [r w2] end); exact Hctl. }
  unfold Spliter_handleTransactionBatchMessage. unfold mbind at 1, M_bind, liftR.
  destruct (DecodeTransactionBatch (Payload e)) as [txs|x|p]; [|done..].
  unfold mbind at 1, M_bind. destruct (groupM _ _ ∅) as [buckets|x|p]; [|done..].
  assert (forall bs w, let (r, w') := forM bs (fun b : bucketKey * list (Transaction * string) =>
      sendPhaseOneBatch (ClientId e) b.1.1 b.1.2 b.2.*1 (MsgID e)) w in
    msgRcvByID (client_of (wmEof w') c) = msgRcvByID (client_of (wmEof w) c)) as Hall.
  { intros bs. induction bs as [|b bs IH]; intros w0; [done|]. cbn [forM]. unfold mbind, M_bind.
    specialize (Hsend c b w0). destruct (sendPhaseOneBatch _ _ _ _ _ w0) as [[[]|x|p] w1]; [|done..].
    specialize (IH w1). destruct (forM bs _ w1) as [r w2]. congruence. }
  unfold mbind, M_bind. specialize (Hall (range (map_to_list buckets)) w).
  destruct (forM _ _ w) as [[[]|x|p] w1]; [|intros _; exact Hall..]. done.
Qed.
End RouterProofs.

(** ** Concrete runs *)
Section Example.
Local Open Scope string_scope.
Definition cfgR : RouterCfg := mkRouterCfg "worker_join" "router" 3 "origin" "BankID" ["origin"; "dest"] "".
End Example.
Definition encoded_sample : bytes :=
  match EncodeTransactionBatch [sample_tx; sample_tx] with Ok b => b | _ => [] end.
Definition envR : InternalEnvelope := mkInternalEnvelope MsgTransactionsBatch zero16 (copy16 [Byte.x05]) encoded_sample.
Definition memR (outcomes : list (option error)) : WorkerMem := mkWorkerMem (mkPublisher [] outcomes newDedupState) ∅ [].
#[local] Instance routerUuid : UuidLib := uuid_letters.
#[local] Instance routerOrder : GoRange := range_id.

Lemma encoded_sample_ok :
  DecodeTransactionBatch encoded_sample = Ok [sample_tx; sample_tx] /\
  Forall tx_ok [sample_tx; sample_tx] /\ in_uint 32 (Zlen [sample_tx; sample_tx]).
Proof.
  split_and!; [vm_compute; reflexivity| |split; vm_compute; congruence].
  repeat constructor; apply sample_tx_ok || (vm_compute; congruence).
Qed.

Lemma router_splits_batch_witness :
  exists msgs : list Message, length (sent (wmPub (Router_handleTransactionMessage cfgR envR (memR [])).2)) = 1%nat /\
  sent (wmPub (Router_handleTransactionMessage cfgR envR (memR [])).2) = msgs.
Proof.
  destruct encoded_sample_ok as (Hd & Hok & Hlen).
  destruct (router_splits_batch cfgR ltac:(vm_compute; reflexivity) envR [sample_tx; sample_tx] (memR [])
    Hd Hok Hlen eq_refl) as (kgs & msgs & _ & _ & _ & _ & Hs).
  exists msgs. split; [vm_compute; reflexivity|]. by rewrite Hs.
Defined.

Lemma router_counts_unsent_batch_witness :
  let (r, w') := Router_handleTransactionMessage cfgR envR (memR [Some EOF]) in
  is_ok r = false /\ sent (wmPub w') = [] /\
  msgRcvByID (client_of (wmEof w') zero16) !! copy16 [Byte.x05] = Some 2.
Proof.
  destruct encoded_sample_ok as (Hd & Hok & Hlen).
  exact (router_counts_unsent_batch cfgR ltac:(vm_compute; reflexivity) envR [sample_tx; sample_tx]
    (memR [Some EOF]) EOF [] Hd Hok Hlen ltac:(discriminate) eq_refl).
Defined.

Lemma spliter_counts_after_sending_witness :
  is_ok (Spliter_handleTransactionBatchMessage cfgR envR (memR [Some EOF])).1 = false /\
  msgRcvByID (client_of (wmEof (Spliter_handleTransactionBatchMessage cfgR envR (memR [Some EOF])).2) zero16) = ∅.
Proof.
  pose proof (spliter_counts_after_sending cfgR envR (memR [Some EOF]) zero16) as H.
  assert (is_ok (Spliter_handleTransactionBatchMessage cfgR envR (memR [Some EOF])).1 = false) as Hr
    by (vm_compute; reflexivity).
  split; [exact Hr|]. destruct (Spliter_handleTransactionBatchMessage cfgR envR (memR [Some EOF])) as [r w'].
  exact (H Hr).
Defined.
