(* ===== verification/Aggregator.v ===== *)
(** * Aggregator ([src/workers/aggregator/aggregator.go], [service.go])

    Keeps one aggregate per client and group (max, min, sum, count, average) and
    publishes them, in batches, at the end of the stream. *)

From S2P Require Import Prelude Maps Slices Models MsgIDs Wire Codec CodecQ4 Disk Coordinator Publisher Consumer Sharding Router.

Inductive aggFunction := opMax | opMin | opSum | opCount | opAvg.
#[global] Instance aggFunction_eq_dec : EqDecision aggFunction.
Proof. solve_decision. Defined.
Definition parseOp (rawType : string) : option aggFunction :=
  if decide (rawType = "max"%string) then Some opMax
  else if decide (rawType = "min"%string) then Some opMin
  else if decide (rawType = "sum"%string) then Some opSum
  else if decide (rawType = "count"%string) then Some opCount
  else if decide (rawType = "avg"%string) then Some opAvg else None.

Record AggCfg := mkAggCfg {
  agPrefix : string;
  agWorkerID : Z;
  agFunction : aggFunction;
  agField : string;
  agGrouped : bool;
  agGroupSource : string;
  agGroupField : string
}.

(** [parseParams]: type, field, and the group if there is one. *)
Definition parseParams `{!GoRange} (params : gmap string json)
    : res (aggFunction * string * bool * string * string) :=
  match params !! "type"%string with
  | Some (JStr rawType) =>
      match parseOp rawType with
      | None => Err (ErrMsg "aggregator params: unsupported type")
      | Some op =>
          let field := match params !! "field"%string with Some (JStr f) => f | _ => EmptyString end in
          if bool_decide (field = EmptyString) && bool_decide (op <> opCount)
          then Err (ErrMsg "aggregator params: 'field' is required")
          else
            let groupRaw := match params !! "group"%string with Some (JMap m) => m | _ => ∅ end in
            match range (map_to_list groupRaw) with
            | [] => if bool_decide (op <> opCount)
                    then Err (ErrMsg "aggregator params: ungrouped aggregation only supported for count")
                    else Ok (op, field, false, EmptyString, EmptyString)
            | [(source, Some groupField)] => Ok (op, field, true, source, groupField)
            | [(_, None)] => Err (ErrMsg "aggregator params: group value must be a string")
            | _ => Err (ErrMsg "aggregator params: 'group' supports a single source")
            end
      end
  | _ => Err (ErrMsg "aggregator params: missing or invalid 'type'")
  end.

Record avgSt := mkAvgSt { av_sum : float64; av_count : Z; av_sample : Transaction }.
Definition zeroTx : Transaction :=
  mkTransaction EmptyString EmptyString EmptyString EmptyString EmptyString (F64 0) EmptyString (F64 0)
    EmptyString EmptyString false.
Definition zeroAvg : avgSt := mkAvgSt (F64 0) 0 zeroTx.

Record Aggregator := mkAggregator {
  agPub : Publisher;
  countState : gmap id16 Z;
  state : gmap id16 (gmap string Transaction);
  avgState : gmap id16 (gmap string avgSt);
  agAcked : list nat
}.
#[global] Instance Aggregator_pub : HasPublisher Aggregator.
Proof.
  refine {| pub := agPub; setPub := fun p a => mkAggregator p (countState a) (state a) (avgState a) (agAcked a) |};
    [done| |done]. by intros [].
Defined.
Definition setCount (x : gmap id16 Z) (a : Aggregator) := mkAggregator (agPub a) x (state a) (avgState a) (agAcked a).
Definition setState (x : gmap id16 (gmap string Transaction)) (a : Aggregator) :=
  mkAggregator (agPub a) (countState a) x (avgState a) (agAcked a).
Definition setAvg (x : gmap id16 (gmap string avgSt)) (a : Aggregator) :=
  mkAggregator (agPub a) (countState a) (state a) x (agAcked a).
Definition agAck (n : nat) (a : Aggregator) := mkAggregator (agPub a) (countState a) (state a) (avgState a) (agAcked a ++ [n]).

Definition withAmountPaid (x : float64) (t : Transaction) : Transaction :=
  mkTransaction (Timestamp t) (FromBank t) (FromAccount t) (ToBank t) (ToAccount t) (AmountReceived t)
    (ReceivingCurrency t) x (PaymentCurrency t) (PaymentFormat t) (IsLaundering t).

Section Aggregation.
Context `{!UuidLib, !GoRange, !GoSort} (cfg : AggCfg).

Definition fieldValue (tx : Transaction) : float64 :=
  if decide (agField cfg = "Amount"%string) then AmountPaid tx else F64 0.

Definition combine (current incoming : Transaction) (hasCurrent : bool) : Transaction :=
  if negb hasCurrent then
    match agFunction cfg with
    | opCount => withAmountPaid (f64_of_int 1) incoming
    | _ => incoming
    end
  else
    match agFunction cfg with
    | opMax => if f64_gt (fieldValue incoming) (fieldValue current) then incoming else current
    | opMin => if f64_lt (fieldValue incoming) (fieldValue current) then incoming else current
    | opSum => withAmountPaid (f64_add (AmountPaid current) (fieldValue incoming)) current
    | opCount => withAmountPaid (f64_add (AmountPaid current) (f64_of_int 1)) current
    | opAvg => current
    end.

Definition extractGroupKey (tx : Transaction) : res string :=
  let byAccount (acct : Account) : res string :=
    if decide (agGroupField cfg = "BankID"%string) then
      if decide (BankID acct = EmptyString) then Err (ErrMsg "Account missing BankID") else Ok (BankID acct)
    else if decide (agGroupField cfg = "ID"%string) then
      if decide (ID acct = EmptyString) then Err (ErrMsg "Account missing ID") else Ok (ID acct)
    else Err (ErrMsg "Invalid group field") in
  if decide (agGroupSource cfg = "origin"%string) then byAccount (mkAccount (FromBank tx) (FromAccount tx))
  else if decide (agGroupSource cfg = "dest"%string) then byAccount (mkAccount (ToBank tx) (ToAccount tx))
  else if decide (agGroupSource cfg = "format"%string) then
    if decide (PaymentFormat tx = EmptyString) then Err (ErrMsg "Transaction missing format") else Ok (PaymentFormat tx)
  else Err (ErrMsg "Invalid group source").

(** The body of the loop over a batch; an error leaves the earlier transactions
    of the batch counted. *)
Definition addAvg (c : id16) (key : string) (tx : Transaction) (a : Aggregator) : Aggregator :=
  let groups := default ∅ (avgState a !! c) in
  let current := default zeroAvg (groups !! key) in
  let n := int64 (av_count current + 1) in
  setAvg (<[c := <[key := mkAvgSt (f64_add (av_sum current) (fieldValue tx)) n
                    (if n =? 1 then tx else av_sample current)]> groups]> (avgState a)) a.
Definition addState (c : id16) (key : string) (tx : Transaction) (a : Aggregator) : Aggregator :=
  let groups := default ∅ (state a !! c) in
  setState (<[c := <[key := match groups !! key with
                            | Some current => combine current tx true
                            | None => combine zeroTx tx false
                            end]> groups]> (state a)) a.
Definition addTx (c : id16) (tx : Transaction) : M Aggregator unit :=
  key ← liftR (extractGroupKey tx);
  if decide (agFunction cfg = opAvg) then modS (addAvg c key tx) else modS (addState c key tx).

Definition agg_handleTransactionMessage (e : InternalEnvelope) : M Aggregator unit :=
  transactions ← liftR (DecodeTransactionBatch (Payload e));
  if decide (agFunction cfg = opCount) then
    modS (fun a => setCount (<[ClientId e := int64 (default 0 (countState a !! ClientId e) + Zlen transactions)]>
      (countState a)) a)
  else forM transactions (addTx (ClientId e)).

(** ** The end of the stream *)
Definition flushBatchSize : nat := 100.
Definition agg_stage : string := (agPrefix cfg +:+ "#" +:+ itoa (agWorkerID cfg))%string.
Definition sortByTransactionID (txs : list Transaction) : list Transaction := sort_Slice GetTransactionId txs.

Definition avgResult (st : avgSt) : Transaction :=
  if 0 <? av_count st then withAmountPaid (f64_div (av_sum st) (f64_of_int (av_count st))) (av_sample st)
  else av_sample st.
(** The client's groups are deleted here, before anything is sent. *)
Definition collectResults (c : id16) : M Aggregator (list Transaction) :=
  a ← getS;
  if decide (agFunction cfg = opAvg) then
    let results := (avgResult ∘ snd) <$> range (map_to_list (default ∅ (avgState a !! c))) in
    _ ← modS (setAvg (delete c (avgState a)));
    mret (sortByTransactionID results)
  else
    let results := snd <$> range (map_to_list (default ∅ (state a !! c))) in
    _ ← modS (setState (delete c (state a)));
    mret (sortByTransactionID results).

Definition sendChunk (c : id16) (chunk : list Transaction) (batchIdx : Z) : M Aggregator unit :=
  payload ← liftR (wrapf "encoding aggregated batch" (EncodeTransactionBatch chunk));
  wrapM "sending aggregated batch"
    (PublishInternalWithID c MsgTransactionsBatch KeyNil payload (StageMsgID c agg_stage "result" batchIdx)).
Fixpoint sendChunks (c : id16) (cs : list (list Transaction)) (batchIdx sent : Z) : M Aggregator Z :=
  match cs with
  | [] => mret sent
  | chunk :: cs' =>
      _ ← sendChunk c chunk batchIdx;
      sendChunks c cs' (uint32 (batchIdx + 1)) (int64 (sent + Zlen chunk))
  end.
Definition sendTransactionBatches (c : id16) (results : list Transaction) : M Aggregator Z :=
  sendChunks c (chunks flushBatchSize results) 0 0.

Definition sendTransactionsEOF (c : id16) (sent : Z) : M Aggregator unit :=
  counts ← liftR (wrapf "encoding eof counts" (EncodeEOFCounts {[KeyNil := sent]}));
  PublishInternalWithID c MsgTransactionsEOF KeyControlEOF counts (StageMsgID c agg_stage "eof" 0).
Definition emitUngroupedCount (c : id16) : M Aggregator unit :=
  a ← getS;
  let count := default 0 (countState a !! c) in
  _ ← modS (setCount (delete c (countState a)));
  resultMsg ← liftR (EncodeQuery5Result (mkQuery5Result count));
  _ ← PublishInternalWithID c MsgQuery5Result KeyNil resultMsg (StageMsgID c agg_stage "q5result" 0);
  PublishInternalWithID c MsgQuery5ResultEOF KeyNil [] (StageMsgID c agg_stage "q5eof" 0).

(** Everything [handleEOFMessage] does to the memory; the grouped case then
    flushes the coordinator ([true]). *)
Definition agg_eof (e : InternalEnvelope) : M Aggregator bool :=
  let c := ClientId e in
  match DecodeEOFCounts (Payload e) with
  | Panic p => liftR (Panic p)
  | flushCounts =>
      if (match flushCounts with Ok m => IsFlushEOF m | _ => false end) then
        _ ← modS (fun a => setAvg (delete c (avgState a)) (setState (delete c (state a)) a));
        _ ← sendTransactionsEOF c (-1);
        mret false
      else if negb (agGrouped cfg) && bool_decide (agFunction cfg = opCount) then
        _ ← emitUngroupedCount c;
        mret false
      else
        results ← collectResults c;
        sentCount ← sendTransactionBatches c results;
        _ ← sendTransactionsEOF c sentCount;
        mret true
  end.
End Aggregation.

Section Handlers.
Context `{!UuidLib, !GoRange, !GoSort} (cfg : AggCfg) (co : CoConfig Aggregator).
Definition agg_handleEOFMessage (e : InternalEnvelope) : D (Co Aggregator) unit :=
  flush ← onMem (agg_eof cfg e);
  if (flush : bool) then Flush co else mret tt.
Definition agg_handleMessage (body : bytes) : D (Co Aggregator) (id16 * byte) :=
  DispatchD body (fun t =>
    if decide (t = MsgTransactionsBatch) then Some (fun e => onMem (agg_handleTransactionMessage cfg e))
    else if decide (t = MsgTransactionsEOF) then Some agg_handleEOFMessage else None).
(** The callback of [Run]: every end of the stream is the last one. *)
Definition agg_consume (body : bytes) (ack : nat) : D (Co Aggregator) bool :=
  consumeBarrier co agg_handleMessage (fun _ _ => false) (fun _ => mret tt) body (agAck ack).
End Handlers.

(** The checkpoint of a client, before its JSON text: a nil map and an empty one
    are both read back as no entry. *)
Record aggCheckpoint := mkAggCheckpoint { ag_Count : Z; ag_State : gmap string Transaction; ag_Avg : gmap string avgSt }.
Definition agg_SnapshotClient (c : id16) (a : Aggregator) : aggCheckpoint :=
  mkAggCheckpoint (default 0 (countState a !! c)) (default ∅ (state a !! c)) (default ∅ (avgState a !! c)).
Definition agg_RestoreClient (c : id16) (cp : aggCheckpoint) (a : Aggregator) : Aggregator :=
  let a1 := if decide (ag_Count cp = 0) then a else setCount (<[c := ag_Count cp]> (countState a)) a in
  let a2 := if decide (ag_State cp = ∅) then a1 else setState (<[c := ag_State cp]> (state a1)) a1 in
  if decide (ag_Avg cp = ∅) then a2 else setAvg (<[c := ag_Avg cp]> (avgState a2)) a2.

(** ** Accumulating *)
Section Accumulate.
Context (cfg : AggCfg).

Definition agg_step (cur : option Transaction) (tx : Transaction) : option Transaction :=
  Some (match cur with Some x => combine cfg x tx true | None => combine cfg zeroTx tx false end).
Definition groupsOf (c : id16) (a : Aggregator) : gmap string Transaction := default ∅ (state a !! c).

Lemma addTxs_groups (key : Transaction -> string) c txs a :
  agFunction cfg <> opAvg -> (forall tx, tx ∈ txs -> extractGroupKey cfg tx = Ok (key tx)) ->
  exists a', forM txs (addTx cfg c) a = (Ok tt, a') /\
    forall g, groupsOf c a' !! g = fold_left agg_step (group_of key g txs) (groupsOf c a !! g).
Proof.
  intros Hop. revert a. induction txs as [|tx txs IH]; intros a Hk; [by exists a|].
  cbn [forM]. unfold mbind, M_bind, addTx at 1, liftR. unfold mbind, M_bind. rewrite Hk by set_solver.
  rewrite decide_False by done. unfold modS.
  destruct (IH (addState cfg c (key tx) tx a)) as (a' & -> & Ha'); [intros; apply Hk; set_solver|].
  exists a'. split; [done|]. intros g. rewrite Ha'. unfold group_of. rewrite filter_cons.
  assert (groupsOf c (addState cfg c (key tx) tx a)
    = <[key tx := match groupsOf c a !! key tx with
                  | Some current => combine cfg current tx true
                  | None => combine cfg zeroTx tx false end]> (groupsOf c a)) as ->.
  { unfold groupsOf, addState, setState. cbn [state]. by rewrite lookup_insert_eq. }
  case_decide as Hg; [subst; by rewrite lookup_insert_eq|by rewrite lookup_insert_ne].
Qed.

(** The better of two transactions, for [max] and [min]. *)
Definition better (x y : Transaction) : bool :=
  match agFunction cfg with
  | opMax => f64_gt (fieldValue cfg x) (fieldValue cfg y)
  | _ => f64_lt (fieldValue cfg x) (fieldValue cfg y)
  end.
Lemma better_trans x y z : better x y = true -> better y z = true -> better x z = true.
Proof. unfold better, f64_gt. destruct (agFunction cfg); eauto using f64_lt_trans. Qed.

Lemma better_irrefl x : better x x = false.
Proof. unfold better, f64_gt. destruct (agFunction cfg); apply f64_lt_irrefl. Qed.
Lemma better_asym x y : better x y = true -> better y x = false.
Proof.
  intros Hxy. destruct (better y x) eqn:E; [|done]. pose proof (better_trans _ _ _ Hxy E) as H.
  by rewrite better_irrefl in H.
Qed.

Lemma extremum_fold txs cur m : agFunction cfg = opMax \/ agFunction cfg = opMin ->
  fold_left agg_step txs cur = Some m ->
  (m ∈ txs \/ cur = Some m) /\ (forall tx, tx ∈ txs -> better tx m = false) /\
  (forall x, cur = Some x -> m = x \/ better m x = true).
Proof.
  intros Hop. revert cur. induction txs as [|tx txs IH]; intros cur Hf; cbn [fold_left] in Hf.
  { subst. split_and!; [by right|set_solver|]. intros x [= ->]. by left. }
  destruct (IH _ Hf) as (Hin & Hall & Hcur). clear IH Hf.
  assert (exists x', agg_step cur tx = Some x' /\ (x' = tx \/ cur = Some x') /\
    (x' = tx \/ better tx x' = false) /\ forall x, cur = Some x -> x' = x \/ better x' x = true)
    as (x' & Hs & Hx' & Htx & Hx).
  { destruct cur as [x|].
    - exists (if better tx x then tx else x). split.
      { unfold agg_step, better, combine. by destruct Hop as [-> | ->]. }
      destruct (better tx x) eqn:E; split_and!; eauto; intros y [= <-]; auto.
    - exists tx. split_and!; auto; [|done]. unfold agg_step, combine. by destruct Hop as [-> | ->]. }
  rewrite Hs in Hin, Hcur. specialize (Hcur _ eq_refl). split_and!.
  - destruct Hin as [|[= <-]]; [left; set_solver|]. destruct Hx' as [->|]; [left; set_solver|by right].
  - intros y [->|Hy]%elem_of_cons; [|by apply Hall]. destruct Hcur as [->|Hm].
    + destruct Htx as [->|]; [apply better_irrefl|done].
    + destruct Htx as [->|Hb]; [by apply better_asym|].
      destruct (better tx m) eqn:E; [|done]. by rewrite (better_trans _ _ _ E Hm) in Hb.
  - intros x Hc. destruct Hcur as [->|Hm]; [by apply Hx|].
    destruct (Hx x Hc) as [->|]; [by right|right; by eapply better_trans].
Qed.

(** C33. The maximum (or minimum) the aggregator keeps for a group is one of the
    transactions of that group, and no transaction of the group beats it, over
    all the batches it has handled; a group is kept exactly when it has one. *)
Theorem extremum_of_group (key : Transaction -> string) c (ms : list (InternalEnvelope * list Transaction)) a :
  agFunction cfg = opMax \/ agFunction cfg = opMin -> state a !! c = None ->
  Forall (fun m => ClientId m.1 = c /\ DecodeTransactionBatch (Payload m.1) = Ok m.2) ms ->
  (forall tx, tx ∈ flat_map snd ms -> extractGroupKey cfg tx = Ok (key tx)) ->
  exists a', forM ms.*1 (agg_handleTransactionMessage cfg) a = (Ok tt, a') /\
    forall g, let group := group_of key g (flat_map snd ms) in
      match groupsOf c a' !! g with
      | Some m => m ∈ group /\ forall tx, tx ∈ group -> better tx m = false
      | None => group = []
      end.
Proof.
  intros Hop Hc Hms Hkey.
  assert (exists a', forM ms.*1 (agg_handleTransactionMessage cfg) a = (Ok tt, a') /\
    forall g, groupsOf c a' !! g = fold_left agg_step (group_of key g (flat_map snd ms)) (groupsOf c a !! g))
    as (a' & Hrun & Hg).
  { clear Hc. revert a. induction Hms as [|[e txs] ms [He Hd] _ IH]; intros a; [by exists a|]. simpl in He, Hd.
    cbn [flat_map snd fmap list_fmap forM] in *. unfold mbind, M_bind.
    unfold agg_handleTransactionMessage at 1. unfold mbind, M_bind, liftR. cbn [fst] in *. rewrite Hd. rewrite decide_False by (by destruct Hop as [-> | ->]).
    destruct (addTxs_groups key (ClientId e) txs a) as (a1 & Hr1 & Hg1).
    { by destruct Hop as [-> | ->]. }
    { intros; apply Hkey; set_solver. }
    subst c. rewrite Hr1. destruct (IH ltac:(intros; apply Hkey; set_solver) a1) as (a' & Hr & Hg).
    exists a'. split; [exact Hr|]. intros g. rewrite Hg, Hg1. unfold group_of.
    by rewrite filter_app, fold_left_app. }
  exists a'. split; [done|]. intros g group. specialize (Hg g).
  assert (groupsOf c a !! g = None) as Hn by (unfold groupsOf; by rewrite Hc).
  rewrite Hn in Hg. fold group in Hg. destruct (groupsOf c a' !! g) as [m|].
  - destruct (extremum_fold group None m Hop (eq_sym Hg)) as ([Hin|?] & Hall & _); [by split|done].
  - destruct group as [|tx group]; [done|]. symmetry in Hg. exfalso. revert Hg. clear.
    assert (forall l x, fold_left agg_step l (Some x) <> None) as H.
    { induction l as [|y l IH]; intros x; [done|]. apply IH. }
    apply H.
Qed.
End Accumulate.

(** ** Publishing the results *)
Definition single_count (n : Z) : gmap string Z := {[KeyNil := n]}.

Section Publishing.
Context {UL : UuidLib} (cfg : AggCfg) (c : id16).

Lemma results_tx_ok {GR : GoRange} {GS : GoSort} (m : gmap string Transaction) :
  (forall g tx, m !! g = Some tx -> tx_ok tx) ->
  Forall tx_ok (sortByTransactionID (snd <$> range (map_to_list m))).
Proof.
  intros Hm. apply Forall_forall. intros tx. unfold sortByTransactionID. rewrite sort_perm.
  intros ([g x] & -> & Hin)%list_elem_of_fmap. apply elem_of_range_map in Hin. by eapply Hm.
Qed.
Lemma EncodeEOFCounts_single {GR : GoRange} n : in_int64 n -> exists bs, EncodeEOFCounts (single_count n) = Ok bs.
Proof.
  intros Hn. eexists. apply EncodeEOFCounts_bytes. intros k v Hk.
  unfold single_count in Hk. apply lookup_singleton_Some in Hk as [<- <-]. by split.
Qed.
Lemma take_tx_ok n l : Forall tx_ok l -> (n <= 100)%nat ->
  exists bs, EncodeTransactionBatch (take n l) = Ok bs.
Proof.
  intros Hl Hn. destruct (tx_batch_codec (take n l)) as (bs & Hbs & _); [by apply Forall_take| |by exists bs].
  unfold in_uint, Zlen. rewrite length_take. lia.
Qed.

Definition eof_msg (bs : bytes) : Message :=
  mkMessage KeyControlEOF (EncodeInternalEnvelope
    (mkInternalEnvelope MsgTransactionsEOF c (StageMsgID c (agg_stage cfg) "eof" 0) bs)).

(** A send that fails at the end of the stream loses the results: the
    client's groups are deleted before the first message goes out, so the
    handler fails, and the redelivered end of stream announces zero results. *)
Theorem failed_flush_loses {GR : GoRange} {GS : GoSort} (e : InternalEnvelope) m a groups err :
  ClientId e = c -> DecodeEOFCounts (Payload e) = Ok m -> IsFlushEOF m = false ->
  agGrouped cfg = true -> agFunction cfg <> opAvg ->
  state a !! c = Some groups -> groups <> ∅ -> (forall g tx, groups !! g = Some tx -> tx_ok tx) ->
  script (agPub a) = [Some err] ->
  exists x a1, agg_eof cfg e a = (Err x, a1) /\ sent (agPub a1) = sent (agPub a) /\
  exists bs a2, EncodeEOFCounts (single_count 0) = Ok bs /\
    agg_eof cfg e a1 = (Ok true, a2) /\ sent (agPub a2) = sent (agPub a) ++ [eof_msg bs].
Proof.
  intros Hc Hd Hfl Hgr Hop Hst Hne Hok Hscr. set (results := sortByTransactionID (snd <$> range (map_to_list groups))).
  assert (results <> []) as Hr.
  { intros E. apply Hne, map_to_list_empty_iff. assert (Permutation [] (snd <$> map_to_list groups)) as Hp.
    { rewrite <- E. unfold results, sortByTransactionID. by rewrite sort_perm, range_perm. }
    apply Permutation_nil_l in Hp. symmetry in Hp. by apply fmap_nil_inv in Hp. }
  destruct (take_tx_ok 100 results) as (bs1 & Hbs1); [by apply results_tx_ok|lia|].
  destruct (EncodeEOFCounts_single 0) as (bs & Hbs); [done|].
  set (a1 := setPub (refused (agPub a)) (setState (delete c (state a)) a)).
  assert (exists x, agg_eof cfg e a = (Err x, a1)) as (x & H1).
  { eexists. unfold agg_eof. rewrite Hd, Hfl, Hgr, Hc. cbn [negb andb].
    unfold collectResults, mbind, M_bind, getS, modS, mret, M_ret. rewrite decide_False by done.
    rewrite Hst. cbn [default option_rect from_option id]. fold results. unfold sendTransactionBatches, chunks.
    destruct results as [|y ys] eqn:E; [done|]. cbn [length chunks_loop sendChunks].
    unfold mbind, M_bind, sendChunk, liftR. unfold mbind, M_bind.
    change (take flushBatchSize (y :: ys)) with (take 100 (y :: ys)). rewrite Hbs1. cbn [wrapf].
    unfold wrapM, PublishInternalWithID. rewrite (send_refused _ _ _ err []) by done. reflexivity. }
  exists x, a1. split; [done|]. split; [done|]. exists bs. eexists. split; [done|]. split.
  - unfold agg_eof. rewrite Hd, Hfl, Hgr, Hc. cbn [negb andb].
    unfold collectResults, mbind, M_bind, getS, modS, mret, M_ret. rewrite decide_False by done.
    assert (state a1 !! c = None) as -> by apply lookup_delete_eq. cbn [default option_rect from_option id].
    assert (sortByTransactionID (snd <$> range (map_to_list (∅ : gmap string Transaction))) = []) as ->.
    { apply Permutation_nil_r. unfold sortByTransactionID. by rewrite sort_perm, range_perm. }
    cbn [sendTransactionBatches chunks length chunks_loop sendChunks].
    unfold sendTransactionBatches, chunks. cbn [length chunks_loop sendChunks]. unfold mret, M_ret.
    unfold sendTransactionsEOF, mbind, M_bind, liftR. fold (single_count 0). rewrite Hbs. cbn [wrapf].
    unfold PublishInternalWithID. rewrite send_ok by (cbn; by rewrite Hscr). reflexivity.
  - cbn. reflexivity.
Qed.
End Publishing.

(** ** The results do not depend on map order *)
Definition finalTxs (cfg : AggCfg) (c : id16) (a : Aggregator) : list Transaction :=
  if decide (agFunction cfg = opAvg) then (avgResult ∘ snd) <$> map_to_list (default ∅ (avgState a !! c))
  else snd <$> map_to_list (default ∅ (state a !! c)).

Lemma EncodeEOFCounts_range (R1 R2 : GoRange) counts : @EncodeEOFCounts R1 counts = @EncodeEOFCounts R2 counts.
Proof. unfold EncodeEOFCounts. by rewrite (sorted_keys_range R1 R2). Qed.

Lemma sendTransactionsEOF_range (R1 R2 : GoRange) cfg c n :
  @sendTransactionsEOF R1 cfg c n = @sendTransactionsEOF R2 cfg c n.
Proof. unfold sendTransactionsEOF. by rewrite (EncodeEOFCounts_range R1 R2). Qed.

Lemma sort_results (R1 R2 : GoRange) (S1 S2 : GoSort) {B : Type} (f : B -> Transaction) (m : gmap string B) :
  (forall x y, x ∈ (f ∘ snd) <$> map_to_list m -> y ∈ (f ∘ snd) <$> map_to_list m ->
     GetTransactionId x = GetTransactionId y -> x = y) ->
  @sortByTransactionID S1 ((f ∘ snd) <$> @range R1 _ (map_to_list m))
    = @sortByTransactionID S2 ((f ∘ snd) <$> @range R2 _ (map_to_list m)).
Proof.
  intros Hm. apply sort_unique.
  - by rewrite (@range_perm R1), (@range_perm R2).
  - intros x y. rewrite (@range_perm R1). apply Hm.
Qed.

Lemma collectResults_range (R1 R2 : GoRange) (S1 S2 : GoSort) cfg c a :
  (forall x y, x ∈ finalTxs cfg c a -> y ∈ finalTxs cfg c a -> GetTransactionId x = GetTransactionId y -> x = y) ->
  @collectResults R1 S1 cfg c a = @collectResults R2 S2 cfg c a.
Proof.
  unfold finalTxs, collectResults, mbind, M_bind, getS, modS, mret, M_ret. intros Hinj. case_decide.
  - by rewrite (sort_results R1 R2 S1 S2 avgResult).
  - assert (forall R : GoRange, snd <$> @range R _ (map_to_list (default ∅ (state a !! c)))
      = (id ∘ snd) <$> @range R _ (map_to_list (default ∅ (state a !! c)))) as E by done.
    rewrite !E. by rewrite (sort_results R1 R2 S1 S2 id).
Qed.

(** What the aggregator publishes at the end of the stream (batches, their
    order and therefore their ids) depends neither on the iteration order of its
    maps nor on how [sort.Slice] breaks ties, provided distinct results have
    distinct transaction ids: a restarted worker emits the same messages again. *)
Theorem results_deterministic (R1 R2 : GoRange) (S1 S2 : GoSort) cfg e a :
  (forall x y, x ∈ finalTxs cfg (ClientId e) a -> y ∈ finalTxs cfg (ClientId e) a ->
     GetTransactionId x = GetTransactionId y -> x = y) ->
  @agg_eof R1 S1 cfg e a = @agg_eof R2 S2 cfg e a.
Proof.
  intros Hinj. pose proof (collectResults_range R1 R2 S1 S2 cfg (ClientId e) a Hinj) as Hc.
  unfold agg_eof. destruct (DecodeEOFCounts (Payload e)) as [m|x|p]; [|clear x|done].
  1: destruct (IsFlushEOF m); [unfold mbind, M_bind, modS; by rewrite (sendTransactionsEOF_range R1 R2)|].
  all: destruct (negb (agGrouped cfg) && bool_decide (agFunction cfg = opCount)); [done|];
    unfold mbind, M_bind; rewrite Hc; destruct (@collectResults R2 S2 cfg (ClientId e) a) as [[rs|?|?] a1]; [|done..];
    destruct (sendTransactionBatches cfg (ClientId e) rs a1) as [[n|?|?] a2]; [|done..];
    by rewrite (sendTransactionsEOF_range R1 R2).
Qed.

(** ** Examples *)
Definition max_cfg : AggCfg := mkAggCfg "agg_max" 1 opMax "Amount" true "origin" "BankID".
Definition paid (bank account : string) (amount : Z) : Transaction :=
  mkTransaction "2022/09/01 00:20" bank account "20" "8000" (F64 0) "US Dollar" (f64_of_int amount) "US Dollar" "Wire" false.
Definition new_agg : Aggregator := mkAggregator (mkPublisher [] [] newDedupState) ∅ ∅ ∅ [].
Definition encoded (m : res bytes) : bytes := match m with Ok bs => bs | _ => [] end.
Definition batch_env (txs : list Transaction) : InternalEnvelope :=
  mkInternalEnvelope MsgTransactionsBatch id1 id2 (encoded (EncodeTransactionBatch txs)).
Definition batch1 : list Transaction := [paid "10" "A" 5; paid "11" "B" 7; paid "10" "C" 9].
Definition batch2 : list Transaction := [paid "10" "D" 8].

Lemma extremum_of_group_witness :
  exists a', forM [batch_env batch1; batch_env batch2] (agg_handleTransactionMessage max_cfg) new_agg = (Ok tt, a') /\
    groupsOf id1 a' !! "10"%string = Some (paid "10" "C" 9) /\
    match groupsOf id1 a' !! "10"%string with
    | Some m => m ∈ group_of FromBank "10"%string (batch1 ++ batch2) /\
        forall tx, tx ∈ group_of FromBank "10"%string (batch1 ++ batch2) -> better max_cfg tx m = false
    | None => group_of FromBank "10"%string (batch1 ++ batch2) = []
    end.
Proof.
  destruct (extremum_of_group max_cfg FromBank id1 [(batch_env batch1, batch1); (batch_env batch2, batch2)] new_agg)
    as (a' & Hr & Hg).
  - by left.
  - done.
  - repeat constructor; vm_compute; reflexivity.
  - intros tx. simpl. intros Htx. repeat (apply elem_of_cons in Htx as [->|Htx]; [vm_compute; reflexivity|]).
    by apply not_elem_of_nil in Htx.
  - exists a'. split; [exact Hr|]. split; [|exact (Hg "10"%string)].
    vm_compute in Hr. injection Hr as <-. vm_compute. reflexivity.
Defined.

Definition agg_groups : gmap string Transaction := {["10"%string := paid "10" "C" 9]}.
Definition agg_down : Aggregator :=
  mkAggregator (mkPublisher [] [Some EOF] newDedupState) ∅ {[id1 := agg_groups]} ∅ [].
Definition eof_env : InternalEnvelope :=
  mkInternalEnvelope MsgTransactionsEOF id1 id2 (encoded (@EncodeEOFCounts range_id (single_count 3))).

Lemma failed_flush_loses_witness :
  exists x a1, @agg_eof range_rev sort_merge max_cfg eof_env agg_down = (Err x, a1) /\ sent (agPub a1) = sent (agPub agg_down) /\
  exists bs a2, @EncodeEOFCounts range_rev (single_count 0) = Ok bs /\
    @agg_eof range_rev sort_merge max_cfg eof_env a1 = (Ok true, a2) /\ sent (agPub a2) = sent (agPub agg_down) ++ [eof_msg max_cfg id1 bs].
Proof.
  apply (failed_flush_loses max_cfg id1 eof_env (single_count 3) agg_down agg_groups EOF).
  - reflexivity.
  - vm_compute. reflexivity.
  - vm_compute. reflexivity.
  - reflexivity.
  - discriminate.
  - unfold agg_down. cbn [state]. apply lookup_singleton_eq.
  - apply map_non_empty_singleton.
  - intros g tx Hg. unfold agg_groups in Hg. apply lookup_singleton_Some in Hg as [<- <-].
    split; [repeat constructor; vm_compute; congruence|split; split; vm_compute; congruence].
  - reflexivity.
Defined.

Lemma results_deterministic_witness :
  let a := mkAggregator (mkPublisher [] [] newDedupState) ∅
    {[id1 := <["11"%string := paid "11" "B" 7]> agg_groups]} ∅ [] in
  @agg_eof range_id sort_merge max_cfg eof_env a = @agg_eof range_rev sort_merge max_cfg eof_env a /\
  length (sent (agPub (@agg_eof range_id sort_merge max_cfg eof_env a).2)) = 2%nat.
Proof.
  intros a. split; [|vm_compute; reflexivity]. apply results_deterministic. intros x y Hx Hy.
  assert (finalTxs max_cfg (ClientId eof_env) a ≡ₚ [paid "10" "C" 9; paid "11" "B" 7]) as Hp
    by (vm_compute; apply Permutation_refl || apply Permutation_swap).
  rewrite Hp in Hx, Hy. repeat (apply elem_of_cons in Hx as [->|Hx]); try by apply not_elem_of_nil in Hx.
  all: repeat (apply elem_of_cons in Hy as [->|Hy]); try by apply not_elem_of_nil in Hy.
  all: vm_compute; congruence.
Defined.
