(* ===== verification/Join.v ===== *)
(** * Join, query 2 ([src/workers/join/join.go])

    Joins the transactions of query 2 with the bank names the gateway sends on a
    second queue.  Transactions that arrive before the bank table is complete
    wait in a cache; the client ends when both streams have. *)

From S2P Require Import Prelude Maps Models MsgIDs Wire Codec CodecQ4 Disk Coordinator Publisher Consumer.

Record cachedBatch := mkCached { cb_MsgID : id16; cb_Txs : list Transaction }.

Record JoinCfg := mkJoinCfg { joPrefix : string; previousWorkerAmount : Z }.

(** A Go map to [bool] that only ever stores [true] is the set of its keys. *)
Record Join := mkJoin {
  joPub : Publisher;
  workerEofReceived : gmap id16 Z;
  accountsEofReceived : gset id16;
  finalized : gset id16;
  bankNamesPerCli : gmap id16 (gmap string string);
  txCachePerCl : gmap id16 (list cachedBatch);
  joAcked : list nat
}.
#[global] Instance Join_pub : HasPublisher Join.
Proof.
  refine {| pub := joPub; setPub := fun p j => mkJoin p (workerEofReceived j) (accountsEofReceived j) (finalized j)
    (bankNamesPerCli j) (txCachePerCl j) (joAcked j) |}; [done| |done]. by intros [].
Defined.
Definition joSet (eofs : gmap id16 Z) (accs fin : gset id16) (names : gmap id16 (gmap string string))
    (cache : gmap id16 (list cachedBatch)) (j : Join) : Join :=
  mkJoin (joPub j) eofs accs fin names cache (joAcked j).
Definition joAck (n : nat) (j : Join) : Join :=
  mkJoin (joPub j) (workerEofReceived j) (accountsEofReceived j) (finalized j) (bankNamesPerCli j) (txCachePerCl j) (joAcked j ++ [n]).

Definition toQuery2Result (tx : Transaction) (bankName : string) : Query2Result :=
  mkQuery2Result (FromBank tx) (FromAccount tx) bankName (AmountPaid tx).

(** A transaction without a known bank is dropped. *)
Definition joined (names : gmap string string) (txs : list Transaction) : list Query2Result :=
  omap (fun tx => toQuery2Result tx <$> names !! FromBank tx) txs.

(** [if _, ok := bankNames[id]; !ok { bankNames[id] = name }] *)
Definition addName (names : gmap string string) (info : AccountData) : gmap string string :=
  match names !! ad_BankID info with
  | Some _ => names
  | None => <[ad_BankID info := ad_BankName info]> names
  end.

Section Join.
Context `{!UuidLib, !GoRange} (cfg : JoinCfg).

Definition joinAndEmit (c inputMsgID : id16) (txs : list Transaction) (names : gmap string string) : M Join unit :=
  match joined names txs with
  | [] => mret tt
  | results =>
      payload ← liftR (EncodeQuery2ResultBatch results);
      PublishInternalWithID c MsgQuery2Result KeyNil payload (DeriveMsgID inputMsgID "q2result" 0)
  end.

Definition handleAccountsBatch (e : InternalEnvelope) : M Join unit :=
  accounts ← liftR (DecodeAccountBatch (Payload e));
  modS (fun j => joSet (workerEofReceived j) (accountsEofReceived j) (finalized j)
    (<[ClientId e := fold_left addName accounts (default ∅ (bankNamesPerCli j !! ClientId e))]> (bankNamesPerCli j))
    (txCachePerCl j) j).

(** The test marks the client as finalized before anything is sent. *)
Definition shouldFinalize (c : id16) : M Join bool := fun j =>
  if bool_decide (c ∈ finalized j) then (Ok false, j)
  else if negb (default 0 (workerEofReceived j !! c) =? previousWorkerAmount cfg) then (Ok false, j)
  else if bool_decide (c ∉ accountsEofReceived j) then (Ok false, j)
  else (Ok true, joSet (workerEofReceived j) (accountsEofReceived j) ({[c]} ∪ finalized j) (bankNamesPerCli j) (txCachePerCl j) j).
Definition finalizeClient (c : id16) : M Join unit :=
  _ ← PublishInternalWithID c MsgQuery2ResultEOF KeyNil [] (StageMsgID c (joPrefix cfg) "eof" 0);
  modS (fun j => joSet (delete c (workerEofReceived j)) (accountsEofReceived j ∖ {[c]}) (finalized j)
    (delete c (bankNamesPerCli j)) (delete c (txCachePerCl j)) j).

Definition handleAccountsEOF (e : InternalEnvelope) : M Join unit :=
  let c := ClientId e in
  _ ← modS (fun j => joSet (workerEofReceived j) ({[c]} ∪ accountsEofReceived j) (finalized j) (bankNamesPerCli j) (txCachePerCl j) j);
  j ← getS;
  _ ← forM (default [] (txCachePerCl j !! c)) (fun cb =>
        joinAndEmit c (cb_MsgID cb) (cb_Txs cb) (default ∅ (bankNamesPerCli j !! c)));
  _ ← modS (fun j => joSet (workerEofReceived j) (accountsEofReceived j) (finalized j) (bankNamesPerCli j) (delete c (txCachePerCl j)) j);
  final ← shouldFinalize c;
  if (final : bool) then finalizeClient c else mret tt.

Definition handleTransactionBatch (e : InternalEnvelope) : M Join unit :=
  transactions ← liftR (DecodeTransactionBatch (Payload e));
  j ← getS;
  let c := ClientId e in
  if bool_decide (c ∉ accountsEofReceived j) then
    modS (fun j => joSet (workerEofReceived j) (accountsEofReceived j) (finalized j) (bankNamesPerCli j)
      (<[c := default [] (txCachePerCl j !! c) ++ [mkCached (MsgID e) transactions]]> (txCachePerCl j)) j)
  else joinAndEmit c (MsgID e) transactions (default ∅ (bankNamesPerCli j !! c)).

(** [true]: the coordinator is flushed next. *)
Definition join_txEOF (e : InternalEnvelope) : M Join bool :=
  let c := ClientId e in
  _ ← modS (fun j => joSet (<[c := int64 (default 0 (workerEofReceived j !! c) + 1)]> (workerEofReceived j))
        (accountsEofReceived j) (finalized j) (bankNamesPerCli j) (txCachePerCl j) j);
  final ← shouldFinalize c;
  if (final : bool) then _ ← finalizeClient c; mret false else mret true.
End Join.

Section Process.
Context `{!UuidLib, !GoRange} (cfg : JoinCfg) (co : CoConfig Join).
Definition handleTransactionsEOF (e : InternalEnvelope) : D (Co Join) unit :=
  flush ← onMem (join_txEOF cfg e);
  if (flush : bool) then Flush co else mret tt.
Definition handleAccountsMessage (body : bytes) : D (Co Join) (id16 * byte) :=
  DispatchD body (fun t =>
    if decide (t = MsgAccountsBatch) then Some (fun e => onMem (handleAccountsBatch e))
    else if decide (t = MsgAccountsEOF) then Some (fun e => onMem (handleAccountsEOF cfg e)) else None).
Definition join_handleTransactionMessage (body : bytes) : D (Co Join) (id16 * byte) :=
  DispatchD body (fun t =>
    if decide (t = MsgTransactionsBatch) then Some (fun e => onMem (handleTransactionBatch e))
    else if decide (t = MsgTransactionsEOF) then Some handleTransactionsEOF else None).

(** Both consumers run [process] under one mutex: one message at a time.  The
    errors of [Track], [Flush] and [Delete] are only logged. *)
Definition process (handle : bytes -> D (Co Join) (id16 * byte)) (body : bytes) (ack : nat) : D (Co Join) bool :=
  r ← attempt (handle body);
  match r with
  | Ok (clientID, msgType) =>
      _ ← tryD (Track co clientID (joAck ack));
      s ← getD;
      let final := bool_decide (clientID ∈ finalized (coMem s)) in
      _ ← (if bool_decide (msgType = MsgTransactionsEOF) || final then (_ ← tryD (Flush co); mret tt) else mret tt);
      _ ← (if final then (_ ← onMem (Forget clientID); _ ← tryD (Delete co clientID); mret tt) else mret tt);
      mret true
  | _ => mret false
  end.
End Process.

(** The checkpoint of a client, before its JSON text (which leaves out an empty
    map or list; both read the same). *)
Record joinCheckpoint := mkJoinCheckpoint {
  BankNames : option (gmap string string);
  TxCache : option (list cachedBatch);
  WorkerEOF : Z;
  AccountsEOF : bool;
  Finalized : bool
}.
Definition join_SnapshotClient (c : id16) (j : Join) : joinCheckpoint :=
  mkJoinCheckpoint (bankNamesPerCli j !! c) (txCachePerCl j !! c) (default 0 (workerEofReceived j !! c))
    (bool_decide (c ∈ accountsEofReceived j)) (bool_decide (c ∈ finalized j)).
Definition join_RestoreClient (c : id16) (cp : joinCheckpoint) (j : Join) : Join :=
  joSet (if decide (WorkerEOF cp = 0) then workerEofReceived j else <[c := WorkerEOF cp]> (workerEofReceived j))
    (if AccountsEOF cp then {[c]} ∪ accountsEofReceived j else accountsEofReceived j)
    (if Finalized cp then {[c]} ∪ finalized j else finalized j)
    (match BankNames cp with Some m => <[c := m]> (bankNamesPerCli j) | None => bankNamesPerCli j end)
    (match TxCache cp with Some l => <[c := l]> (txCachePerCl j) | None => txCachePerCl j end) j.

(** ** Arrival order *)
Inductive jev :=
  | JAcc (e : InternalEnvelope) (accounts : list AccountData)
  | JTx (e : InternalEnvelope) (txs : list Transaction).
Definition jev_ok (c : id16) (ev : jev) : Prop :=
  match ev with
  | JAcc e accounts => ClientId e = c /\ DecodeAccountBatch (Payload e) = Ok accounts
  | JTx e txs => ClientId e = c /\ DecodeTransactionBatch (Payload e) = Ok txs
  end.
Definition jstep (ev : jev) : M Join unit :=
  match ev with JAcc e _ => handleAccountsBatch e | JTx e _ => handleTransactionBatch e end.
Definition jtxs (evs : list jev) : list cachedBatch :=
  omap (fun ev => match ev with JTx e txs => Some (mkCached (MsgID e) txs) | _ => None end) evs.
Definition jaccounts (evs : list jev) : list AccountData :=
  flat_map (fun ev => match ev with JAcc _ accounts => accounts | _ => [] end) evs.

(** The message for one batch of transactions, if any of them has a known bank. *)
Definition result_msg (c : id16) (names : gmap string string) (cb : cachedBatch) : option Message :=
  match joined names (cb_Txs cb) with
  | [] => None
  | results =>
      match EncodeQuery2ResultBatch results with
      | Ok payload => Some (mkMessage KeyNil (EncodeInternalEnvelope
          (mkInternalEnvelope MsgQuery2Result c (DeriveMsgID (cb_MsgID cb) "q2result" 0) payload)))
      | _ => None
      end
  end.
Definition encodable (names : gmap string string) (cb : cachedBatch) : Prop :=
  is_ok (EncodeQuery2ResultBatch (joined names (cb_Txs cb))) = true.

Section Order.
Context {UL : UuidLib} (cfg : JoinCfg) (c : id16).

(** A worker of which only the publisher, the names and the cache changed. *)
Definition joPubSent (msgs : list Message) (p : Publisher) : Publisher := mkPublisher (sent p ++ msgs) [] (dedup p).
Definition up (j : Join) : Prop := script (joPub j) = [].

Lemma joinAndEmit_up names cb j : up j -> encodable names cb ->
  joinAndEmit c (cb_MsgID cb) (cb_Txs cb) names j
    = (Ok tt, setPub (joPubSent (option_list (result_msg c names cb)) (joPub j)) j).
Proof.
  intros Hup Henc. unfold joinAndEmit, result_msg. unfold encodable in Henc.
  destruct (joined names (cb_Txs cb)) as [|r rs].
  { unfold joPubSent. cbn. destruct j as [[] ? ? ? ? ? ?]. unfold up in Hup. cbn in *. subst. by rewrite app_nil_r. }
  destruct (EncodeQuery2ResultBatch (r :: rs)) as [payload|?|?]; [|done..].
  unfold mbind, M_bind, liftR, PublishInternalWithID. rewrite send_ok by exact Hup.
  unfold accepted, joPubSent. cbn [pub Join_pub]. unfold up in Hup. by rewrite Hup.
Qed.

Lemma emit_all names cbs j : up j -> Forall (encodable names) cbs ->
  forM cbs (fun cb => joinAndEmit c (cb_MsgID cb) (cb_Txs cb) names) j
    = (Ok tt, setPub (joPubSent (omap (result_msg c names) cbs) (joPub j)) j).
Proof.
  intros Hup Henc. revert j Hup. induction Henc as [|cb cbs Hcb _ IH]; intros j Hup.
  { cbn. unfold joPubSent. destruct j as [[] ? ? ? ? ? ?]. unfold up in Hup. cbn in *. subst. by rewrite app_nil_r. }
  cbn [forM]. unfold mbind at 1, M_bind. rewrite joinAndEmit_up by done. rewrite IH by done.
  unfold joPubSent. cbn. rewrite <- app_assoc. by destruct (result_msg c names cb).
Qed.

Lemma run_before evs j : Forall (jev_ok c) evs -> c ∉ accountsEofReceived j ->
  exists j', forM evs jstep j = (Ok tt, j') /\ joPub j' = joPub j /\
    accountsEofReceived j' = accountsEofReceived j /\ finalized j' = finalized j /\
    workerEofReceived j' = workerEofReceived j /\
    default [] (txCachePerCl j' !! c) = default [] (txCachePerCl j !! c) ++ jtxs evs /\
    default ∅ (bankNamesPerCli j' !! c) = fold_left addName (jaccounts evs) (default ∅ (bankNamesPerCli j !! c)).
Proof.
  intros Hok. revert j. induction Hok as [|ev evs Hev _ IH]; intros j Hn.
  { exists j. cbn. by rewrite app_nil_r. }
  destruct ev as [e accounts|e txs]; destruct Hev as [Hc Hd]; cbn [forM jstep].
  - unfold mbind, M_bind, handleAccountsBatch, liftR. unfold mbind, M_bind. rewrite Hd. unfold modS.
    match goal with |- context [forM evs jstep ?j1] => destruct (IH j1 Hn) as (j' & -> & Hp & Ha & Hf & Hw & Ht & Hm) end.
    exists j'. split; [done|]. split_and!; try done. rewrite Hm. cbn [joSet bankNamesPerCli jaccounts flat_map].
    rewrite Hc, lookup_insert_eq. cbn [default option_rect from_option id]. by rewrite fold_left_app.
  - unfold mbind, M_bind, handleTransactionBatch, liftR, getS. unfold mbind, M_bind. rewrite Hd, Hc.
    rewrite bool_decide_eq_true_2 by done. unfold modS.
    match goal with |- context [forM evs jstep ?j1] => destruct (IH j1 Hn) as (j' & -> & Hp & Ha & Hf & Hw & Ht & Hm) end.
    exists j'. split; [done|]. split_and!; try done. rewrite Ht. cbn [joSet txCachePerCl jtxs omap list_omap].
    rewrite lookup_insert_eq. cbn [default option_rect from_option id]. by rewrite <- app_assoc.
Qed.

Definition only_txs (evs : list jev) : Prop := Forall (fun ev => match ev with JTx _ _ => True | _ => False end) evs.

Lemma run_after evs names j : Forall (jev_ok c) evs -> only_txs evs -> up j -> c ∈ accountsEofReceived j ->
  default ∅ (bankNamesPerCli j !! c) = names -> Forall (encodable names) (jtxs evs) ->
  forM evs jstep j = (Ok tt, setPub (joPubSent (omap (result_msg c names) (jtxs evs)) (joPub j)) j).
Proof.
  intros Hok Honly. revert j. induction Hok as [|ev evs Hev _ IH]; intros j Hup Hin Hnames Henc.
  { cbn. unfold joPubSent. destruct j as [[] ? ? ? ? ? ?]. unfold up in Hup. cbn in *. subst. by rewrite app_nil_r. }
  apply Forall_cons in Honly as [Hev1 Honly]. destruct ev as [|e txs]; [done|]. destruct Hev as [Hc Hd].
  cbn [jtxs omap list_omap] in Henc. apply Forall_cons in Henc as [Henc1 Henc].
  cbn [forM jstep]. unfold mbind, M_bind, handleTransactionBatch, liftR, getS. unfold mbind, M_bind. rewrite Hd, Hc.
  rewrite bool_decide_eq_false_2 by (intros H; by apply H). rewrite Hnames.
  change (MsgID e) with (cb_MsgID (mkCached (MsgID e) txs)). change txs with (cb_Txs (mkCached (MsgID e) txs)) at 1.
  rewrite joinAndEmit_up by done. rewrite IH by done. unfold joPubSent. cbn [jtxs omap list_omap].
  cbn. rewrite <- app_assoc. by destruct (result_msg c names _).
Qed.

(** C34. Query 2 does not depend on when the bank table completes: wherever the
    end of the accounts falls among the transaction batches, the worker emits,
    for every batch and in the order the batches arrived, the join with the
    complete table, once; nothing waits in the cache afterwards. *)
Theorem join_order_irrelevant before after e j :
  Forall (jev_ok c) (before ++ after) -> only_txs after -> ClientId e = c -> up j ->
  bankNamesPerCli j !! c = None -> txCachePerCl j !! c = None -> workerEofReceived j !! c = None ->
  c ∉ accountsEofReceived j -> 0 < previousWorkerAmount cfg ->
  let names := fold_left addName (jaccounts before) ∅ in
  Forall (encodable names) (jtxs (before ++ after)) ->
  exists j', (_ ← forM before jstep; _ ← handleAccountsEOF cfg e; forM after jstep) j = (Ok tt, j') /\
    sent (joPub j') = sent (joPub j) ++ omap (result_msg c names) (jtxs (before ++ after)) /\
    txCachePerCl j' !! c = None.
Proof.
  intros [Hb Ha]%Forall_app Honly Hc Hup Hn0 Ht0 Hw0 Hin Hpos names Henc.
  unfold jtxs in Henc. rewrite omap_app in Henc. apply Forall_app in Henc as [Henc1 Henc2].
  destruct (run_before before j Hb Hin) as (j1 & Hr1 & Hp1 & Ha1 & Hf1 & Hw1 & Ht1 & Hn1).
  rewrite Hn0 in Hn1. rewrite Ht0 in Ht1. cbn [default option_rect from_option id app] in Hn1, Ht1.
  unfold mbind at 1, M_bind. rewrite Hr1. unfold mbind at 1, M_bind.
  assert (exists j2, handleAccountsEOF cfg e j1 = (Ok tt, j2) /\
    joPub j2 = joPubSent (omap (result_msg c names) (jtxs before)) (joPub j) /\
    c ∈ accountsEofReceived j2 /\ bankNamesPerCli j2 = bankNamesPerCli j1 /\ txCachePerCl j2 !! c = None)
    as (j2 & -> & Hp2 & Ha2 & Hn2 & Ht2).
  { unfold handleAccountsEOF. rewrite Hc. unfold mbind, M_bind, modS, getS, joSet at 1 2 3.
    cbn [txCachePerCl bankNamesPerCli]. rewrite Ht1, Hn1. fold names.
    rewrite emit_all; [|unfold up in *; by rewrite <- Hup, <- Hp1|done].
    unfold shouldFinalize, joSet. cbn [finalized workerEofReceived accountsEofReceived setPub Join_pub].
    case_bool_decide; [|rewrite Hw1, Hw0; cbn [default option_rect from_option id];
      rewrite (proj2 (Z.eqb_neq 0 _)) by lia; cbn [negb]];
      (eexists; split; [reflexivity|]; cbn; rewrite Hp1; split_and!; [done|set_solver|done|apply lookup_delete_eq]). }
  rewrite (run_after after names j2); [|done|done| |done| |done].
  - eexists. split; [reflexivity|]. cbn. rewrite Hp2. cbn. split; [|done].
    unfold jtxs at 3. rewrite omap_app. fold (jtxs before) (jtxs after). rewrite omap_app. by rewrite <- app_assoc.
  - unfold up. rewrite Hp2. done.
  - by rewrite Hn2, Hn1.
Qed.
End Order.

(** ** The last message *)
Section LastEOF.
Context {UL : UuidLib} (cfg : JoinCfg) (c : id16).

Lemma finalized_silent es j : Forall (fun e => ClientId e = c) es -> c ∈ finalized j ->
  exists j', forM es (fun e => _ ← join_txEOF cfg e; mret tt) j = (Ok tt, j') /\ sent (joPub j') = sent (joPub j).
Proof.
  intros Hes. revert j. induction Hes as [|e es He _ IH]; intros j Hf; [by exists j|].
  cbn [forM]. unfold mbind, M_bind, join_txEOF, shouldFinalize. unfold mbind, M_bind, modS.
  rewrite He. unfold joSet at 1. cbn [finalized]. rewrite bool_decide_eq_true_2 by done.
  unfold mret, M_ret.
  match goal with |- context [forM es _ ?j1] => destruct (IH j1 Hf) as (j' & Hr & Hs) end.
  exists j'. split; [exact Hr|exact Hs].
Qed.

(** A failed send of the last message loses the end of query 2: the client
    is marked as finalized before the message goes out, so the handler fails,
    and however often the end of the transactions is delivered again nothing is
    ever sent. *)
Theorem failed_final_eof_lost e j err es :
  ClientId e = c -> script (joPub j) = [Some err] ->
  int64 (default 0 (workerEofReceived j !! c) + 1) = previousWorkerAmount cfg ->
  c ∈ accountsEofReceived j -> c ∉ finalized j -> Forall (fun e => ClientId e = c) es ->
  exists x j1, join_txEOF cfg e j = (Err x, j1) /\ sent (joPub j1) = sent (joPub j) /\ script (joPub j1) = [] /\
  exists j2, forM es (fun e => _ ← join_txEOF cfg e; mret tt) j1 = (Ok tt, j2) /\
    sent (joPub j2) = sent (joPub j).
Proof.
  intros Hc Hscr Hn Ha Hf Hes.
  assert (exists x j1, join_txEOF cfg e j = (Err x, j1) /\ sent (joPub j1) = sent (joPub j) /\
    script (joPub j1) = [] /\ c ∈ finalized j1) as (x & j1 & H1 & H2 & H3 & H4).
  { unfold join_txEOF, shouldFinalize. unfold mbind, M_bind, modS. rewrite Hc.
    cbn [joSet finalized workerEofReceived accountsEofReceived bankNamesPerCli txCachePerCl]. rewrite bool_decide_eq_false_2 by done.
    rewrite lookup_insert_eq. cbn [default option_rect from_option id]. rewrite Hn, Z.eqb_refl. cbn [negb].
    rewrite bool_decide_eq_false_2 by (intros H; by apply H).
    unfold finalizeClient, mbind, M_bind, PublishInternalWithID. rewrite (send_refused _ _ _ err []) by done.
    eexists _, _. split; [reflexivity|]. cbn. rewrite Hscr. split_and!; [done|done|set_solver]. }
  exists x, j1. split_and!; [done..|].
  destruct (finalized_silent es j1 Hes H4) as (j2 & Hr & Hs). exists j2. by rewrite Hs.
Qed.
End LastEOF.

(** ** Examples *)
Definition bank (name id : string) : AccountData := mkAccountData name id "9" "e" "x".
Definition q2tx (b : string) : Transaction :=
  mkTransaction "2022/09/01 00:20" b "A" "20" "8000" (F64 0) "US Dollar" (f64_of_int 5) "US Dollar" "Wire" false.
Definition res_bytes (m : res bytes) : bytes := match m with Ok bs => bs | _ => [] end.
Definition acc_env (l : list AccountData) : InternalEnvelope :=
  mkInternalEnvelope MsgAccountsBatch id1 zero16 (res_bytes (EncodeAccountBatch l)).
Definition tx_env (id : id16) (l : list Transaction) : InternalEnvelope :=
  mkInternalEnvelope MsgTransactionsBatch id1 id (res_bytes (EncodeTransactionBatch l)).
Definition accounts_eof : InternalEnvelope := mkInternalEnvelope MsgAccountsEOF id1 zero16 [].
Definition new_join : Join := mkJoin (mkPublisher [] [] newDedupState) ∅ ∅ ∅ ∅ ∅ [].
Definition join_cfg : JoinCfg := mkJoinCfg "join" 2.
Definition jbefore : list jev :=
  [JTx (tx_env id1 [q2tx "1"; q2tx "3"]) [q2tx "1"; q2tx "3"];
   JAcc (acc_env [bank "First" "1"; bank "Again" "1"; bank "Second" "2"]) [bank "First" "1"; bank "Again" "1"; bank "Second" "2"]].
Definition jafter : list jev := [JTx (tx_env id2 [q2tx "2"]) [q2tx "2"]].

Lemma join_order_irrelevant_witness :
  exists j', (_ ← forM jbefore jstep; _ ← handleAccountsEOF join_cfg accounts_eof; forM jafter jstep) new_join = (Ok tt, j') /\
    length (sent (joPub j')) = 2%nat /\
    sent (joPub j') = sent (joPub new_join)
      ++ omap (result_msg id1 (fold_left addName (jaccounts jbefore) ∅)) (jtxs (jbefore ++ jafter)).
Proof.
  destruct (join_order_irrelevant join_cfg id1 jbefore jafter accounts_eof new_join) as (j' & Hr & Hs & _).
  - repeat constructor; vm_compute; reflexivity.
  - repeat constructor.
  - reflexivity.
  - reflexivity.
  - apply lookup_empty.
  - apply lookup_empty.
  - apply lookup_empty.
  - apply not_elem_of_empty.
  - reflexivity.
  - repeat constructor; vm_compute; reflexivity.
  - exists j'. split; [exact Hr|]. split; [|exact Hs]. rewrite Hs. vm_compute. reflexivity.
Defined.

Definition last_join : Join :=
  mkJoin (mkPublisher [] [Some EOF] newDedupState) {[id1 := 1]} {[id1]} ∅ ∅ ∅ [].
Definition txs_eof : InternalEnvelope := mkInternalEnvelope MsgTransactionsEOF id1 id2 [].
Lemma failed_final_eof_lost_witness :
  exists x j1, join_txEOF join_cfg txs_eof last_join = (Err x, j1) /\ sent (joPub j1) = sent (joPub last_join) /\
    script (joPub j1) = [] /\
  exists j2, forM [txs_eof; txs_eof] (fun e => _ ← join_txEOF join_cfg e; mret tt) j1 = (Ok tt, j2) /\
    sent (joPub j2) = sent (joPub last_join).
Proof.
  apply (failed_final_eof_lost join_cfg id1 txs_eof last_join EOF [txs_eof; txs_eof]).
  - reflexivity.
  - reflexivity.
  - unfold last_join. cbn [workerEofReceived]. rewrite lookup_singleton_eq. reflexivity.
  - unfold last_join. cbn [accountsEofReceived]. by apply elem_of_singleton_2.
  - unfold last_join. cbn [finalized]. apply not_elem_of_empty.
  - repeat constructor.
Defined.
