(* ===== verification/Gateway.v ===== *)
(** * Gateway ([src/gateway/internal/gateway], [clientmanagement])

    The gateway numbers the messages of every client, splits the transactions by
    currency, announces the totals at the end, and forwards the results to the
    client's connection, each once. *)

From S2P Require Import Prelude Maps Models MsgIDs Wire Codec CodecQ4 Disk Coordinator Publisher Consumer Join.

Record Client := mkClient { tx_count : Z; tx_usd_count : Z; txSeq : Z; accSeq : Z }.
Definition newClient : Client := mkClient 0 0 0 0.

(** A connection: what was forwarded, the outcomes of the next writes, the
    result ends already sent, and whether [done] is closed. *)
Record Conn := mkConn { cnSent : list bytes; cnScript : list (option error); EOFSent : gmap byte bool; cnDone : bool }.
Definition newConn (script : list (option error)) : Conn :=
  mkConn [] script (list_to_map ((fun t => (t, false)) <$>
    [MsgQuery1ResultEOF; MsgQuery2ResultEOF; MsgQuery3ResultEOF; MsgQuery4ResultEOF; MsgQuery5ResultEOF])) false.

Record Gateway := mkGateway {
  gwPub : Publisher;              (** the broker of transactions and results *)
  accountsBroker : option Publisher;
  clients : gmap id16 Client;
  registry : gmap id16 Conn;
  seenResults : gmap id16 (gset id16);
  gwAcked : list nat
}.
#[global] Instance Gateway_pub : HasPublisher Gateway.
Proof.
  refine {| pub := gwPub; setPub := fun p g => mkGateway p (accountsBroker g) (clients g) (registry g) (seenResults g) (gwAcked g) |};
    [done| |done]. by intros [].
Defined.
Definition gwSetAccounts x g := mkGateway (gwPub g) (Some x) (clients g) (registry g) (seenResults g) (gwAcked g).
Definition gwSetClients x g := mkGateway (gwPub g) (accountsBroker g) x (registry g) (seenResults g) (gwAcked g).
Definition gwSetRegistry x g := mkGateway (gwPub g) (accountsBroker g) (clients g) x (seenResults g) (gwAcked g).
Definition gwSetSeen x g := mkGateway (gwPub g) (accountsBroker g) (clients g) (registry g) x (gwAcked g).
Definition gwAck (n : nat) g := mkGateway (gwPub g) (accountsBroker g) (clients g) (registry g) (seenResults g) (gwAcked g ++ [n]).

(** The functions of the gateway report success as a boolean. *)
Definition okM {S A} (m : M S A) : M S bool := r ← catchM m; mret (match r with None => true | Some _ => false end).

Section Gateway.
Context `{!UuidLib, !GoRange}.

Definition isAccounts (t : byte) : bool := bool_decide (t = MsgAccountsBatch) || bool_decide (t = MsgAccountsEOF).

(** A client that is not known keeps its sequence at zero. *)
Definition nextSourceMsgID (c : id16) (msgType : byte) : M Gateway id16 := fun g =>
  match clients g !! c with
  | None => (Ok (SourceMsgID c (if isAccounts msgType then StreamAccounts else StreamTransactions) 0), g)
  | Some cl =>
      if isAccounts msgType then
        (Ok (SourceMsgID c StreamAccounts (accSeq cl)),
         gwSetClients (<[c := mkClient (tx_count cl) (tx_usd_count cl) (txSeq cl) (uint64 (accSeq cl + 1))]> (clients g)) g)
      else
        (Ok (SourceMsgID c StreamTransactions (txSeq cl)),
         gwSetClients (<[c := mkClient (tx_count cl) (tx_usd_count cl) (uint64 (txSeq cl + 1)) (accSeq cl)]> (clients g)) g)
  end.

Definition sendAccounts (key : string) (body : bytes) : M Gateway unit := fun g =>
  match accountsBroker g with
  | None => (Err (ErrMsg "accounts broker not configured"), g)
  | Some p => let (r, p') := send (W := Publisher) key body p in (r, gwSetAccounts p' g)
  end.
Definition sendMessageToBroker (msgType : byte) (c : id16) (payload : bytes) (routingKey : string) : M Gateway bool :=
  id ← nextSourceMsgID c msgType;
  let envelope := EncodeInternalEnvelope (mkInternalEnvelope msgType c id payload) in
  okM (if isAccounts msgType then sendAccounts routingKey envelope else send routingKey envelope).

Definition handleAccountsBatch (c : id16) (payload : bytes) : M Gateway bool := sendMessageToBroker MsgAccountsBatch c payload KeyNil.
Definition handleAccountsEOF (c : id16) : M Gateway bool := sendMessageToBroker MsgAccountsEOF c [] KeyNil.

Definition sendTransactionBatch (c : id16) (transactions : list Transaction) (routingKey : string) : M Gateway bool :=
  match transactions with
  | [] => mret true
  | _ =>
      match EncodeTransactionBatch transactions with
      | Ok txPayload => sendMessageToBroker MsgTransactionsBatch c txPayload routingKey
      | Err _ => mret false
      | Panic p => liftR (Panic p)
      end
  end.
Definition isDollar (tx : Transaction) : bool := bool_decide (PaymentCurrency tx = Dollar).
Definition handleTransactionsBatch (c : id16) (payload : bytes) : M Gateway bool :=
  match DecodeTransactionBatch payload with
  | Panic p => liftR (Panic p)
  | Err _ => mret false
  | Ok transactions =>
      let dollarTx := filter (fun tx => isDollar tx = true) transactions in
      let nonDollarTx := filter (fun tx => isDollar tx = false) transactions in
      ok ← sendTransactionBatch c dollarTx KeyDollarTransaction;
      if negb ok then mret false else
      ok ← sendTransactionBatch c nonDollarTx KeyNonDollarTransaction;
      if negb ok then mret false else
      _ ← modS (fun g => match clients g !! c with
            | Some cl => gwSetClients (<[c := mkClient (int64 (tx_count cl + Zlen transactions))
                (int64 (tx_usd_count cl + Zlen dollarTx)) (txSeq cl) (accSeq cl)]> (clients g)) g
            | None => g
            end);
      mret true
  end.

Definition eofTotals (txs usd : Z) : gmap string Z :=
  <[KeyNil := txs]> (<[KeyDollarTransaction := usd]>
    (<[KeyNonDollarTransaction := int64 (txs - usd)]> {[KeyAllTransaction := txs]})).
(** The checkpoint of the client is deleted afterwards (see [tryDeleteCheckpoint]). *)
Definition handleTransactionsEOF (c : id16) : M Gateway bool :=
  g ← getS;
  match clients g !! c with
  | None => mret false
  | Some cl =>
      match EncodeEOFCounts (eofTotals (tx_count cl) (tx_usd_count cl)) with
      | Ok eofPayload => sendMessageToBroker MsgTransactionsEOF c eofPayload KeyControlEOF
      | Err _ => mret false
      | Panic p => liftR (Panic p)
      end
  end.

(** The flush end carries the zero id, which no consumer deduplicates. *)
Definition flushTotals : gmap string Z :=
  <[KeyNil := -1]> (<[KeyDollarTransaction := -1]> (<[KeyNonDollarTransaction := -1]> {[KeyAllTransaction := -1]})).
Definition sendFlushEOF (c : id16) : M Gateway bool :=
  match EncodeEOFCounts flushTotals with
  | Ok eofPayload =>
      okM (send KeyControlEOF (EncodeInternalEnvelope (mkInternalEnvelope MsgTransactionsEOF c zero16 eofPayload)))
  | Err _ => mret false
  | Panic p => liftR (Panic p)
  end.
Definition disconnectMessages (c : id16) : M Gateway bool :=
  ok ← sendMessageToBroker MsgAccountsEOF c [] KeyNil;
  ok' ← sendFlushEOF c;
  mret (ok' && ok).
Definition forgetClient (c : id16) : M Gateway unit := modS (fun g => gwSetClients (delete c (clients g)) g).

(** ** Results *)
Definition allEOFSent (cn : Conn) : bool := forallb snd (map_to_list (EOFSent cn)).
Definition ForwardEnvelope (msgType : byte) (payload : bytes) (cn : Conn) : option error * Conn :=
  let body := EncodeExternalEnvelope (mkExternalEnvelope msgType payload) in
  match cnScript cn with
  | Some e :: rest => (Some (Wrapf "forwarding envelope" e), mkConn (cnSent cn) rest (EOFSent cn) (cnDone cn))
  | o =>
      let eofs := match EOFSent cn !! msgType with Some _ => <[msgType := true]> (EOFSent cn) | None => EOFSent cn end in
      let cn' := mkConn (cnSent cn ++ [body]) (tail o) eofs (cnDone cn) in
      (None, mkConn (cnSent cn') (cnScript cn') eofs (cnDone cn || allEOFSent cn'))
  end.

(** [seenResults[c][id]] *)
Definition seenResult (c id : id16) (g : Gateway) : bool := bool_decide (id ∈ default ∅ (seenResults g !! c)).
End Gateway.

(** ** Checkpoints: a client is known or not *)
Definition noopAppendSource : AppendSource Gateway :=
  mkAppendSource Gateway (fun _ => mret []) (fun _ => mret tt) (fun _ _ => mret tt).
Definition gatewayStateCheckpointable : Checkpointable Gateway :=
  mkCheckpointable Gateway (fun _ => mret [Byte.x01])
    (fun c _ => modS (fun g => gwSetClients (<[c := newClient]> (clients g)) g)).
Definition gatewayCo (dir : string) (interval : Z) : CoConfig Gateway :=
  NewCoordinator dir noopAppendSource None (Some gatewayStateCheckpointable) interval.

Section Life.
Context `{!UuidLib, !GoRange} (co : CoConfig Gateway).
Definition persistClientState (c : id16) : D (Co Gateway) bool :=
  failed ← tryD (SaveClient co c); mret (match failed with None => true | Some _ => false end).
Definition tryDeleteCheckpoint (c : id16) : D (Co Gateway) unit := _ ← tryD (Delete co c); mret tt.

Definition handleClientDisconnect (c : id16) : D (Co Gateway) bool :=
  ok ← onMem (disconnectMessages c);
  _ ← tryDeleteCheckpoint c;
  mret ok.
Definition recoverClient (c : id16) : D (Co Gateway) unit :=
  _ ← onMem (sendMessageToBroker MsgAccountsEOF c [] KeyNil);
  _ ← onMem (sendFlushEOF c);
  _ ← tryDeleteCheckpoint c;
  onMem (forgetClient c).
Definition recoverPendingClients : D (Co Gateway) unit :=
  s ← getD;
  forD (range (map_to_list (clients (coMem s))).*1) recoverClient.

(** A result is acknowledged whatever becomes of it. *)
Definition updG (f : Gateway -> Gateway) : D (Co Gateway) unit := onMem (modS f).
Definition forwardResponse (body : bytes) (ack : nat) : D (Co Gateway) unit :=
  match DecodeInternalEnvelope body with
  | Panic p => onMem (liftR (Panic p))
  | Err _ => updG (gwAck ack)
  | Ok envelope =>
      let c := ClientId envelope in
      let deduped := negb (bool_decide (MsgID envelope = zero16)) in
      s ← getD;
      if deduped && seenResult c (MsgID envelope) (coMem s) then updG (gwAck ack)
      else
        match registry (coMem s) !! c with
        | None => updG (fun g => gwAck ack (gwSetSeen (delete c (seenResults g)) g))
        | Some conn =>
            let (failed, conn') := ForwardEnvelope (MsgType_ envelope) (Payload envelope) conn in
            _ ← updG (fun g => gwSetRegistry (<[c := conn']> (registry g)) g);
            match failed with
            | Some _ =>
                _ ← handleClientDisconnect c;
                _ ← updG (fun g => gwSetRegistry (delete c (registry g)) g);
                _ ← onMem (forgetClient c);
                updG (fun g => gwAck ack (gwSetSeen (delete c (seenResults g)) g))
            | None =>
                _ ← updG (fun g => if deduped then gwSetSeen
                      (<[c := {[MsgID envelope]} ∪ default ∅ (seenResults g !! c)]> (seenResults g)) g else g);
                updG (fun g => gwAck ack
                  (if allEOFSent conn' then gwSetSeen (delete c (seenResults g)) g else g))
            end
        end
  end.

(** [HandleClientRequest] on the bytes the connection still delivers: every
    message consumes its five header bytes, so the length is fuel enough. *)
Fixpoint HandleClientRequest_loop (fuel : nat) (c : id16) (input : bytes) : D (Co Gateway) bool :=
  match fuel with
  | O => mret false
  | S fuel' =>
      if bool_decide (length input < ExternalHeaderSize)%nat then mret false
      else
        '(msgType, payloadSize) ← onMem (liftR (DecodeExternalHeader (take ExternalHeaderSize input)));
        let rest := drop ExternalHeaderSize input in
        if Zlen rest <? payloadSize then mret false
        else
          let payload := take (Z.to_nat payloadSize) rest in
          let next := HandleClientRequest_loop fuel' c (drop (Z.to_nat payloadSize) rest) in
          let continue (m : M Gateway bool) : D (Co Gateway) bool := (ok ← onMem m; if (ok : bool) then next else mret false) in
          if decide (msgType = MsgAccountsBatch) then continue (handleAccountsBatch c payload)
          else if decide (msgType = MsgAccountsEOF) then continue (handleAccountsEOF c)
          else if decide (msgType = MsgTransactionsBatch) then continue (handleTransactionsBatch c payload)
          else if decide (msgType = MsgTransactionsEOF) then
            ok ← onMem (handleTransactionsEOF c);
            if (ok : bool) then (_ ← tryDeleteCheckpoint c; mret true) else mret false
          else mret false
  end.
Definition HandleClientRequest (c : id16) (input : bytes) : D (Co Gateway) bool :=
  HandleClientRequest_loop (S (length input)) c input.

(** [Run]: a connection is accepted under a fresh id, and refused again if the
    client cannot be recorded on disk. *)
Definition acceptClient (c : id16) (conn : Conn) : D (Co Gateway) bool :=
  _ ← updG (fun g => gwSetRegistry (<[c := conn]> (registry g)) g);
  _ ← updG (fun g => gwSetClients (<[c := newClient]> (clients g)) g);
  ok ← persistClientState c;
  if (ok : bool) then mret true
  else
    _ ← onMem (forgetClient c);
    _ ← updG (fun g => gwSetRegistry (delete c (registry g)) g);
    mret false.
(** The goroutine of a client; its deferred calls run in reverse.  A client that
    was served waits for its results here, which [forwardResponse] delivers. *)
Definition closeClient (c : id16) : D (Co Gateway) unit :=
  _ ← updG (fun g => gwSetRegistry (delete c (registry g)) g);
  _ ← onMem (forgetClient c);
  tryDeleteCheckpoint c.
Definition serve (c : id16) (input : bytes) : D (Co Gateway) unit :=
  ok ← HandleClientRequest c input;
  _ ← (if (ok : bool) then mret true else handleClientDisconnect c);
  closeClient c.
End Life.

(** ** What the end of the stream announces *)
Definition usd (txs : list Transaction) : list Transaction := filter (fun tx => isDollar tx = true) txs.
Definition nonUsd (txs : list Transaction) : list Transaction := filter (fun tx => isDollar tx = false) txs.

Definition tx_msg (c : id16) (seq : Z) (msgType : byte) (key : string) (payload : bytes) : Message :=
  mkMessage key (EncodeInternalEnvelope (mkInternalEnvelope msgType c (SourceMsgID c StreamTransactions seq) payload)).
(** A group, as it is sent: nothing if it is empty. *)
Inductive group_sent (c : id16) (key : string) (txs : list Transaction) (seq : Z) : list Message -> Z -> Prop :=
  | group_none : txs = [] -> group_sent c key txs seq [] seq
  | group_msg bs : txs <> [] -> EncodeTransactionBatch txs = Ok bs ->
      group_sent c key txs seq [tx_msg c seq MsgTransactionsBatch key bs] (uint64 (seq + 1)).
(** The batches of a client, as they are sent. *)
Inductive batches_sent (c : id16) : list (list Transaction) -> Z -> list Message -> Z -> Prop :=
  | batches_nil seq : batches_sent c [] seq [] seq
  | batches_cons txs rest seq m1 seq1 m2 seq2 ms seq3 :
      group_sent c KeyDollarTransaction (usd txs) seq m1 seq1 ->
      group_sent c KeyNonDollarTransaction (nonUsd txs) seq1 m2 seq2 ->
      batches_sent c rest seq2 ms seq3 ->
      batches_sent c (txs :: rest) seq (m1 ++ m2 ++ ms) seq3.

Section Totals.
Context {UL : UuidLib} {GR : GoRange} (c : id16).

Definition handleAll (payloads : list bytes) : M Gateway bool :=
  fold_right (fun p next => ok ← handleTransactionsBatch c p; if (ok : bool) then next else mret false) (mret true) payloads.

Lemma filter_split (txs : list Transaction) : Zlen txs = Zlen (usd txs) + Zlen (nonUsd txs).
Proof.
  unfold Zlen, usd, nonUsd. induction txs as [|tx txs IH]; [done|]. rewrite !filter_cons.
  destruct (isDollar tx); repeat case_decide; try done; cbn [length]; lia.
Qed.

Lemma sums_split (batches : list (list Transaction)) :
  sumZ (Zlen <$> batches) = sumZ ((Zlen ∘ usd) <$> batches) + sumZ ((Zlen ∘ nonUsd) <$> batches) /\
  0 <= sumZ ((Zlen ∘ usd) <$> batches) /\ 0 <= sumZ ((Zlen ∘ nonUsd) <$> batches).
Proof.
  induction batches as [|txs batches IH]; [done|]. cbn [fmap list_fmap].
  change (sumZ (?a :: ?l)) with (a + sumZ l). rewrite (filter_split txs).
  change ((Zlen ∘ usd) txs) with (Zlen (usd txs)). change ((Zlen ∘ nonUsd) txs) with (Zlen (nonUsd txs)).
  assert (forall l : list Transaction, 0 <= Zlen l) as Hnn by (unfold Zlen; lia).
  pose proof (Hnn (usd txs)). pose proof (Hnn (nonUsd txs)). lia.
Qed.

Definition withTx (cl : Client) (n u seq : Z) : Client := mkClient n u seq (accSeq cl).

Lemma sendMessage_true msgType payload key g cl g' : isAccounts msgType = false -> clients g !! c = Some cl ->
  sendMessageToBroker msgType c payload key g = (Ok true, g') ->
  sent (gwPub g') = sent (gwPub g) ++ [tx_msg c (txSeq cl) msgType key payload] /\
  clients g' !! c = Some (withTx cl (tx_count cl) (tx_usd_count cl) (uint64 (txSeq cl + 1))).
Proof.
  intros Ht Hc. unfold sendMessageToBroker, nextSourceMsgID, mbind, M_bind. rewrite Hc, Ht.
  unfold okM, mbind, M_bind, catchM, send, mret, M_ret. cbn [pub Gateway_pub gwPub gwSetClients].
  destruct (script (gwPub g)) as [|[x|] rest]; intros [= <-]; cbn; rewrite lookup_insert_eq; done.
Qed.

Lemma sendTransactionBatch_true txs key g cl g' : clients g !! c = Some cl ->
  sendTransactionBatch c txs key g = (Ok true, g') ->
  exists ms seq, group_sent c key txs (txSeq cl) ms seq /\ sent (gwPub g') = sent (gwPub g) ++ ms /\
    clients g' !! c = Some (withTx cl (tx_count cl) (tx_usd_count cl) seq).
Proof.
  intros Hc. unfold sendTransactionBatch. destruct txs as [|tx txs].
  { intros [= <-]. exists [], (txSeq cl). split; [by constructor|]. rewrite app_nil_r, Hc. by destruct cl. }
  destruct (EncodeTransactionBatch (tx :: txs)) as [bs|?|?] eqn:E; [|done..]. intros H.
  destruct (sendMessage_true MsgTransactionsBatch bs key g cl g' eq_refl Hc H) as [H1 H2].
  eexists _, _. split; [by apply group_msg|]. done.
Qed.

Lemma handleBatch_true p g cl g' : clients g !! c = Some cl -> handleTransactionsBatch c p g = (Ok true, g') ->
  exists txs m1 seq1 m2 seq2, DecodeTransactionBatch p = Ok txs /\
    group_sent c KeyDollarTransaction (usd txs) (txSeq cl) m1 seq1 /\
    group_sent c KeyNonDollarTransaction (nonUsd txs) seq1 m2 seq2 /\
    sent (gwPub g') = sent (gwPub g) ++ m1 ++ m2 /\
    clients g' !! c = Some (withTx cl (int64 (tx_count cl + Zlen txs)) (int64 (tx_usd_count cl + Zlen (usd txs))) seq2).
Proof.
  intros Hc. unfold handleTransactionsBatch. destruct (DecodeTransactionBatch p) as [txs|?|?]; [|done..].
  fold (usd txs) (nonUsd txs). unfold mbind, M_bind.
  destruct (sendTransactionBatch c (usd txs) KeyDollarTransaction g) as [[[]|?|?] g1] eqn:E1; [|done..].
  destruct (sendTransactionBatch_true _ _ _ _ _ Hc E1) as (m1 & seq1 & Hm1 & Hs1 & Hc1). cbn [negb].
  destruct (sendTransactionBatch c (nonUsd txs) KeyNonDollarTransaction g1) as [[[]|?|?] g2] eqn:E2; [|done..].
  destruct (sendTransactionBatch_true _ _ _ _ _ Hc1 E2) as (m2 & seq2 & Hm2 & Hs2 & Hc2). cbn [negb].
  unfold modS, mret, M_ret. rewrite Hc2. intros [= <-]. exists txs, m1, seq1, m2, seq2.
  split_and!; [done|done|exact Hm2|by rewrite app_assoc, <- Hs1|]. cbn. by rewrite lookup_insert_eq.
Qed.

Lemma handleAll_true payloads g cl g' : clients g !! c = Some cl -> in_int64 (tx_count cl) ->
  in_int64 (tx_usd_count cl) -> handleAll payloads g = (Ok true, g') ->
  exists batches ms seq, Forall2 (fun p txs => DecodeTransactionBatch p = Ok txs) payloads batches /\
    batches_sent c batches (txSeq cl) ms seq /\ sent (gwPub g') = sent (gwPub g) ++ ms /\
    exists n u, clients g' !! c = Some (withTx cl n u seq) /\
      n = int64 (tx_count cl + sumZ (Zlen <$> batches)) /\
      u = int64 (tx_usd_count cl + sumZ ((Zlen ∘ usd) <$> batches)).
Proof.
  revert g cl. induction payloads as [|p payloads IH]; intros g cl Hc Hr1 Hr2; cbn [handleAll fold_right].
  { intros [= <-]. exists [], [], (txSeq cl). split; [constructor|]. split; [constructor|]. rewrite app_nil_r.
    split; [done|]. exists (tx_count cl), (tx_usd_count cl). split; [rewrite Hc; by destruct cl|]. cbn.
    by rewrite !Z.add_0_r, !int64_small. }
  unfold mbind, M_bind. destruct (handleTransactionsBatch c p g) as [[[]|?|?] g1] eqn:E; [|done..].
  destruct (handleBatch_true _ _ _ _ Hc E) as (txs & m1 & s1 & m2 & s2 & Hd & H1 & H2 & Hs & Hc1).
  intros Hrest.
  destruct (IH g1 _ Hc1 (int64_range _) (int64_range _) Hrest) as (batches & ms & seq & Hf & Hb & Hs' & n & u & Hcl & Hn & Hu).
  exists (txs :: batches), (m1 ++ m2 ++ ms), seq. split; [by constructor|]. split; [by eapply batches_cons|].
  split; [by rewrite Hs', Hs, !app_assoc|]. exists n, u. split; [exact Hcl|].
  rewrite Hn, Hu. cbn [withTx tx_count tx_usd_count fmap list_fmap]. rewrite !int64_add_l.
  change (sumZ (?a :: ?l)) with (a + sumZ l). split; f_equal; unfold compose; lia.
Qed.

(** The end of the stream announces exactly what the gateway sent: when a
    client's batches and its end were all accepted, the counts under the two
    currency keys and in total are the numbers of transactions in the messages
    sent under those keys, which carry the consecutive ids 0, 1, 2, ... *)
Theorem eof_announces_sent payloads g g1 g2 :
  clients g !! c = Some newClient -> handleAll payloads g = (Ok true, g1) ->
  handleTransactionsEOF c g1 = (Ok true, g2) ->
  exists batches ms seq counts bs,
    Forall2 (fun p txs => DecodeTransactionBatch p = Ok txs) payloads batches /\
    batches_sent c batches 0 ms seq /\
    sent (gwPub g2) = sent (gwPub g) ++ ms ++ [tx_msg c seq MsgTransactionsEOF KeyControlEOF bs] /\
    EncodeEOFCounts counts = Ok bs /\
    (sumZ (Zlen <$> batches) < 2 ^ 63 ->
      counts !! KeyNil = Some (sumZ (Zlen <$> batches)) /\
      counts !! KeyAllTransaction = Some (sumZ (Zlen <$> batches)) /\
      counts !! KeyDollarTransaction = Some (sumZ ((Zlen ∘ usd) <$> batches)) /\
      counts !! KeyNonDollarTransaction = Some (sumZ ((Zlen ∘ nonUsd) <$> batches))).
Proof.
  intros Hc Hall Heof.
  destruct (handleAll_true payloads g newClient g1 Hc ltac:(done) ltac:(done) Hall)
    as (batches & ms & seq & Hf & Hb & Hs & n & u & Hcl & Hn & Hu).
  unfold handleTransactionsEOF, mbind, M_bind, getS in Heof. rewrite Hcl in Heof. cbn [withTx tx_count tx_usd_count] in Heof.
  destruct (EncodeEOFCounts (eofTotals n u)) as [bs|?|?] eqn:E; [|done..].
  destruct (sendMessage_true MsgTransactionsEOF bs KeyControlEOF g1 _ g2 eq_refl Hcl Heof) as [Hs2 _].
  exists batches, ms, seq, (eofTotals n u), bs. split_and!; [done|done|by rewrite Hs2, Hs, app_assoc|done|].
  intros Hlt. destruct (sums_split batches) as (H1 & H2 & H3). cbn [newClient tx_count tx_usd_count] in Hn, Hu.
  rewrite Z.add_0_l, int64_small in Hn, Hu by (unfold in_int64; lia). subst n u.
  unfold eofTotals. rewrite (int64_small (_ - _)) by (unfold in_int64; lia).
  replace (sumZ (Zlen <$> batches) - sumZ ((Zlen ∘ usd) <$> batches)) with (sumZ ((Zlen ∘ nonUsd) <$> batches)) by lia.
  by split_and!.
Qed.
End Totals.

(** ** The restart of the gateway *)
Lemma setMem_same {W : Type} (s : Co W) : setMem (coMem s) s = s.
Proof. by destruct s. Qed.

Section Restart.
Context {UL : UuidLib} {GR : GoRange} (c : id16).

Definition acc_msg (id : id16) (msgType : byte) (payload : bytes) : Message :=
  mkMessage KeyNil (EncodeInternalEnvelope (mkInternalEnvelope msgType c id payload)).
Definition accounts_up (g : Gateway) (p : Publisher) : Prop := accountsBroker g = Some p /\ script p = [].

Lemma sendAccounts_first msgType payload g cl p : isAccounts msgType = true -> clients g !! c = Some cl -> accSeq cl = 0 ->
  accounts_up g p ->
  exists g', sendMessageToBroker msgType c payload KeyNil g = (Ok true, g') /\
    accountsBroker g' = Some (mkPublisher (sent p ++ [acc_msg (SourceMsgID c StreamAccounts 0) msgType payload]) [] (dedup p)).
Proof.
  intros Ht Hc H0 [Hp Hs]. eexists. split.
  - unfold sendMessageToBroker, nextSourceMsgID, mbind, M_bind. rewrite Hc, Ht, H0.
    unfold okM, mbind, M_bind, catchM, sendAccounts. cbn [accountsBroker gwSetClients]. rewrite Hp.
    unfold send. cbn [pub Publisher_self]. rewrite Hs. reflexivity.
  - reflexivity.
Qed.

(** After a restart the gateway ends the accounts of a client it recovers
    with the id of that client's first accounts batch: the sequence starts at
    zero again.  A join worker that has completed that batch takes the end for a
    repeat and drops it, so the client's accounts never end there. *)
Theorem recovered_accounts_eof_dropped payload g g0 p q cfg (s : Co Join) :
  let id0 := SourceMsgID c StreamAccounts 0 in
  id0 <> zero16 -> clients g !! c = Some newClient -> accounts_up g p -> accounts_up g0 q ->
  id0 ∈ seen_of (dedup (joPub (coMem s))) c ->
  exists g1 g2,
    handleAccountsBatch c payload g = (Ok true, g1) /\
    accountsBroker g1 = Some (mkPublisher (sent p ++ [acc_msg id0 MsgAccountsBatch payload]) [] (dedup p)) /\
    (_ ← RestoreClient gatewayStateCheckpointable c [Byte.x01]; sendMessageToBroker MsgAccountsEOF c [] KeyNil) g0
      = (Ok true, g2) /\
    accountsBroker g2 = Some (mkPublisher (sent q ++ [acc_msg id0 MsgAccountsEOF []]) [] (dedup q)) /\
    handleAccountsMessage cfg (Body (acc_msg id0 MsgAccountsEOF [])) s = Ret (Ok (zero16, MsgAccountsEOF), s).
Proof.
  intros id0 Hne Hc Hp Hq Hseen.
  destruct (sendAccounts_first MsgAccountsBatch payload g newClient p eq_refl Hc eq_refl Hp) as (g1 & H1 & H2).
  set (gr := gwSetClients (<[c := newClient]> (clients g0)) g0).
  destruct (sendAccounts_first MsgAccountsEOF [] gr newClient q eq_refl) as (g2 & H3 & H4);
    [apply lookup_insert_eq|done|exact Hq|].
  exists g1, g2. split_and!; [exact H1|exact H2|exact H3|exact H4|].
  unfold handleAccountsMessage, DispatchD, acc_msg. cbn [Body]. rewrite decode_internal by done.
  cbn [wrapf MsgType_ MsgID ClientId]. unfold mbind, D_bind, onMem, liftR, getS. cbn [prog_bind].
  rewrite decide_False by done. rewrite decide_True by done. cbn [prog_bind].
  rewrite bool_decide_eq_false_2 by done. cbn [negb andb]. unfold alreadySeen. rewrite !setMem_same.
  rewrite bool_decide_eq_true_2 by exact Hseen. done.
Qed.
End Restart.

(** ** Examples *)
Definition gtx (currency : string) : Transaction :=
  mkTransaction "2022/09/01 00:20" "1" "A" "20" "8000" (F64 0) "US Dollar" (f64_of_int 5) currency "Wire" false.
Definition new_gateway : Gateway :=
  mkGateway (mkPublisher [] [] newDedupState) (Some (mkPublisher [] [] newDedupState)) {[id1 := newClient]} ∅ ∅ [].
Definition gpayloads : list bytes :=
  [res_bytes (EncodeTransactionBatch [gtx "US Dollar"; gtx "Euro"]); res_bytes (EncodeTransactionBatch [gtx "Yen"])].

Lemma eof_announces_sent_witness :
  let g1 := (handleAll id1 gpayloads new_gateway).2 in
  let g2 := (@handleTransactionsEOF range_rev id1 g1).2 in
  length (sent (gwPub g2)) = 4%nat /\
  exists batches ms seq counts bs,
    Forall2 (fun p txs => DecodeTransactionBatch p = Ok txs) gpayloads batches /\
    batches_sent id1 batches 0 ms seq /\
    sent (gwPub g2) = sent (gwPub new_gateway) ++ ms ++ [tx_msg id1 seq MsgTransactionsEOF KeyControlEOF bs] /\
    @EncodeEOFCounts range_rev counts = Ok bs /\
    (sumZ (Zlen <$> batches) < 2 ^ 63 ->
      counts !! KeyNil = Some (sumZ (Zlen <$> batches)) /\
      counts !! KeyAllTransaction = Some (sumZ (Zlen <$> batches)) /\
      counts !! KeyDollarTransaction = Some (sumZ ((Zlen ∘ usd) <$> batches)) /\
      counts !! KeyNonDollarTransaction = Some (sumZ ((Zlen ∘ nonUsd) <$> batches))).
Proof.
  intros g1 g2. split; [vm_compute; reflexivity|].
  assert (is_ok (handleAll id1 gpayloads new_gateway).1 = true /\ (handleAll id1 gpayloads new_gateway).1 = Ok true)
    as [_ H1] by (split; vm_compute; reflexivity).
  assert ((@handleTransactionsEOF range_rev id1 g1).1 = Ok true) as H2 by (vm_compute; reflexivity).
  apply (eof_announces_sent (GR := range_rev) id1 gpayloads new_gateway g1 g2).
  - apply lookup_singleton_eq.
  - unfold g1. rewrite <- H1. by destruct (handleAll id1 gpayloads new_gateway).
  - unfold g2. rewrite <- H2. by destruct (@handleTransactionsEOF range_rev id1 g1).
Defined.

Definition seen_join : Join :=
  mkJoin (mkPublisher [] [] (markSeen id1 (SourceMsgID id1 StreamAccounts 0) newDedupState)) ∅ ∅ ∅ ∅ ∅ [].
Lemma recovered_accounts_eof_dropped_witness :
  let empty := mkPublisher [] [] newDedupState in
  let id0 := SourceMsgID id1 StreamAccounts 0 in
  exists g1 g2,
    handleAccountsBatch id1 [] new_gateway = (Ok true, g1) /\
    accountsBroker g1 = Some (mkPublisher (sent empty ++ [acc_msg id1 id0 MsgAccountsBatch []]) [] (dedup empty)) /\
    (_ ← RestoreClient gatewayStateCheckpointable id1 [Byte.x01]; sendMessageToBroker MsgAccountsEOF id1 [] KeyNil)
      (gwSetClients ∅ new_gateway) = (Ok true, g2) /\
    accountsBroker g2 = Some (mkPublisher (sent empty ++ [acc_msg id1 id0 MsgAccountsEOF []]) [] (dedup empty)) /\
    @handleAccountsMessage uuid_letters join_cfg (Body (acc_msg id1 id0 MsgAccountsEOF [])) (newCo seen_join)
      = Ret (Ok (zero16, MsgAccountsEOF), newCo seen_join).
Proof.
  intros empty id0.
  apply (recovered_accounts_eof_dropped (UL := uuid_letters) id1 [] new_gateway (gwSetClients ∅ new_gateway) empty empty
    join_cfg (newCo seen_join)).
  - apply (bool_decide_unpack (SourceMsgID id1 StreamAccounts 0 <> zero16)). vm_compute. exact I.
  - apply lookup_singleton_eq.
  - by split.
  - by split.
  - cbn [coMem newCo seen_join joPub dedup]. rewrite seen_markSeen, decide_True by done. set_solver.
Defined.
