(* ===== verification/Q4Pairs.v ===== *)
(** * Query 4, phase two: bridges between heavy accounts
    ([src/workers/aggregator/scatter_and_gather.go],
    [src/common/broker/scattergather/accounts_exchange.go])

    A replica owns a shard of the accounts.  It remembers, per account, whom it
    pays and who pays it; at the end of the stream the replicas exchange the
    accounts of high degree, and every account is a bridge for each heavy payer
    and heavy payee it connects. *)

From S2P Require Import Prelude Maps Models MsgIDs Wire Codec CodecQ4 Disk Coordinator Publisher Consumer HeavyMonitor Sharding.

Abbreviation groups := (gmap Account (gset Account)) (only parsing).
Abbreviation pairCounts := (gmap TxQ4PairKey Z) (only parsing).

Record sagClient := mkSagClient {
  scatterGroups : groups;
  gatherGroups : groups;
  heavySources_ : gset Account;
  heavySinks_ : gset Account
}.
Definition newSagClient : sagClient := mkSagClient ∅ ∅ ∅ ∅.

Record SagCfg := mkSagCfg {
  sgWorkerPrefix : string;
  sgNextWorkerPrefix : string;
  sgNextWorkerAmount : Z;
  threshold : Z;
  workerID : Z
}.

(** [sgExch] is the exchange between the replicas, which has a connection of
    its own; [sgAcked] the deliveries acknowledged by the worker itself. *)
Record Sag := mkSag {
  sgPub : Publisher;
  sgExch : Publisher;
  sgClients : gmap id16 sagClient;
  sgMonitor : HeavyAccountsMonitor;
  sgPendingAcks : gmap id16 nat;
  sgCompleted : gset id16;
  sgPendScatter : gmap id16 groups;
  sgPendGather : gmap id16 groups;
  sgAcked : list nat
}.
#[global] Instance Sag_pub : HasPublisher Sag.
Proof.
  refine {| pub := sgPub; setPub := fun p a => mkSag p (sgExch a) (sgClients a) (sgMonitor a)
    (sgPendingAcks a) (sgCompleted a) (sgPendScatter a) (sgPendGather a) (sgAcked a) |}; [done| |done]. by intros [].
Defined.
Definition sgSetExch x a := mkSag (sgPub a) x (sgClients a) (sgMonitor a) (sgPendingAcks a)
  (sgCompleted a) (sgPendScatter a) (sgPendGather a) (sgAcked a).
Definition sgSetClients x a := mkSag (sgPub a) (sgExch a) x (sgMonitor a) (sgPendingAcks a)
  (sgCompleted a) (sgPendScatter a) (sgPendGather a) (sgAcked a).
Definition sgSetMonitor x a := mkSag (sgPub a) (sgExch a) (sgClients a) x (sgPendingAcks a)
  (sgCompleted a) (sgPendScatter a) (sgPendGather a) (sgAcked a).
Definition sgSetAcks x a := mkSag (sgPub a) (sgExch a) (sgClients a) (sgMonitor a) x
  (sgCompleted a) (sgPendScatter a) (sgPendGather a) (sgAcked a).
Definition sgSetCompleted x a := mkSag (sgPub a) (sgExch a) (sgClients a) (sgMonitor a) (sgPendingAcks a)
  x (sgPendScatter a) (sgPendGather a) (sgAcked a).
Definition sgSetPending x y a := mkSag (sgPub a) (sgExch a) (sgClients a) (sgMonitor a) (sgPendingAcks a)
  (sgCompleted a) x y (sgAcked a).
Definition sgAck (n : nat) a := mkSag (sgPub a) (sgExch a) (sgClients a) (sgMonitor a) (sgPendingAcks a)
  (sgCompleted a) (sgPendScatter a) (sgPendGather a) (sgAcked a ++ [n]).

(** ** Adjacency *)
Definition neighbors (g : groups) (a : Account) : gset Account := default ∅ (g !! a).
Definition insertEdge (key neighbor : Account) (g : groups) : groups :=
  <[key := {[neighbor]} ∪ neighbors g key]> g.
Definition bufferEdge (c : id16) (key neighbor : Account) (buf : gmap id16 groups) : gmap id16 groups :=
  <[c := insertEdge key neighbor (default ∅ (buf !! c))]> buf.

Record accountAdjacency := mkAdjacency { AdjAccount : Account; Neighbors : list Account }.
Definition adjacencyToSlice `{!GoRange} (g : groups) : list accountAdjacency :=
  (fun kv : Account * gset Account => mkAdjacency kv.1 (range (elements kv.2))) <$> range (map_to_list g).
Definition mergeAdjacency (g : groups) (entries : list accountAdjacency) : groups :=
  fold_left (fun g e => <[AdjAccount e := list_to_set (Neighbors e) ∪ neighbors g (AdjAccount e)]> g) entries g.

Definition sag_getClient (c : id16) (a : Sag) : sagClient := default newSagClient (sgClients a !! c).

Definition srcAcc (tx : Transaction) : Account := mkAccount (FromBank tx) (FromAccount tx).
Definition dstAcc (tx : Transaction) : Account := mkAccount (ToBank tx) (ToAccount tx).

Definition handleScatterTx (c : id16) (tx : Transaction) (a : Sag) : Sag :=
  let cl := sag_getClient c a in
  let set := neighbors (scatterGroups cl) (srcAcc tx) in
  if bool_decide (dstAcc tx ∈ set) then sgSetClients (<[c := cl]> (sgClients a)) a
  else sgSetPending (bufferEdge c (srcAcc tx) (dstAcc tx) (sgPendScatter a)) (sgPendGather a)
    (sgSetClients (<[c := mkSagClient (insertEdge (srcAcc tx) (dstAcc tx) (scatterGroups cl))
       (gatherGroups cl) (heavySources_ cl) (heavySinks_ cl)]> (sgClients a)) a).
Definition handleGatherTx (c : id16) (tx : Transaction) (a : Sag) : Sag :=
  let cl := sag_getClient c a in
  let set := neighbors (gatherGroups cl) (dstAcc tx) in
  if bool_decide (srcAcc tx ∈ set) then sgSetClients (<[c := cl]> (sgClients a)) a
  else sgSetPending (sgPendScatter a) (bufferEdge c (dstAcc tx) (srcAcc tx) (sgPendGather a))
    (sgSetClients (<[c := mkSagClient (scatterGroups cl) (insertEdge (dstAcc tx) (srcAcc tx) (gatherGroups cl))
       (heavySources_ cl) (heavySinks_ cl)]> (sgClients a)) a).

Definition sag_handleTxQ4Message (e : InternalEnvelope) : M Sag unit :=
  '(txType, txs) ← liftR (DecodeTxQ4PhaseOneBatch (Payload e));
  if decide (txType = TxQ4Scatter) then forM txs (fun tx => modS (handleScatterTx (ClientId e) tx))
  else if decide (txType = TxQ4Gather) then forM txs (fun tx => modS (handleGatherTx (ClientId e) tx))
  else failM (ErrMsg "unknown TxQ4 type").

(** ** The cross-product *)
Definition maxPairsBuffered : nat := 100000.
Definition pairKey (s t : Account) : TxQ4PairKey := mkTxQ4PairKey (GetID s) (GetID t).

Section Stream.
Context `{!GoRange} (cfg : SagCfg).

(** The pairs, in the order of the nested loops. *)
Definition crossPairs (scatter gather : groups) (hs ht : gset Account) : list TxQ4PairKey :=
  flat_map (fun bd : Account * gset Account =>
    match gather !! bd.1 with
    | None => []
    | Some srcs =>
        flat_map (fun s =>
          if bool_decide (s ∈ hs) then
            flat_map (fun t => if bool_decide (t ∈ ht) then [pairKey s t] else []) (range (elements bd.2))
          else []) (range (elements srcs))
    end) (range (map_to_list scatter)).

(** [batch[pk]++], and a flush when the batch is full; [limit] is
    [maxPairsBuffered].  The batches, in the order they are flushed. *)
Definition countPair (pk : TxQ4PairKey) (batch : pairCounts) : pairCounts :=
  <[pk := int64 (default 0 (batch !! pk) + 1)]> batch.
Fixpoint batches (limit : nat) (pairs : list TxQ4PairKey) (batch : pairCounts) : list pairCounts :=
  match pairs with
  | [] => if bool_decide (batch = ∅) then [] else [batch]
  | pk :: pairs' =>
      let batch' := countPair pk batch in
      if bool_decide (limit <= size batch')%nat then batch' :: batches limit pairs' ∅
      else batches limit pairs' batch'
  end.

Definition stage : string := (sgWorkerPrefix cfg +:+ "#" +:+ itoa (workerID cfg))%string.

(** One pair: an error of encoding or sending skips it. *)
Definition sendPair (c : id16) (kv : TxQ4PairKey * Z) : M Sag Z :=
  routingKey ← liftR (shardByValue (sgNextWorkerPrefix cfg) (sgNextWorkerAmount cfg)
                        (Src kv.1 +:+ "::" +:+ Dst kv.1)%string);
  match EncodeTxQ4PhaseTwoBatchEnvelope c [mkTxQ4PairCount kv.1 kv.2] with
  | Ok envelope =>
      r ← catchM (PublishRawWithID routingKey envelope (StageMsgID c stage (pair_Key kv.1) 0));
      mret (match r with None => 1 | Some _ => 0 end)
  | Err _ => mret 0
  | Panic p => liftR (Panic p)
  end.
Fixpoint sumMM {S A} (f : A -> M S Z) (l : list A) : M S Z :=
  match l with
  | [] => mret 0
  | x :: l' => n ← f x; m ← sumMM f l'; mret (int64 (n + m))
  end.
Definition sendScatterGatherPhaseTwo (c : id16) (batch : pairCounts) : M Sag Z :=
  sumMM (sendPair c) (range (map_to_list batch)).

(** The loop deletes the adjacency it has processed. *)
Definition streamScatterGatherPhaseTwo (c : id16) : M Sag Z :=
  a ← getS;
  let cl := sag_getClient c a in
  let pairs := crossPairs (scatterGroups cl) (gatherGroups cl)
    (HeavySources c (sgMonitor a)) (HeavySinks c (sgMonitor a)) in
  msgSent ← sumMM (sendScatterGatherPhaseTwo c) (batches maxPairsBuffered pairs ∅);
  _ ← modS (fun a => sgSetClients (<[c := mkSagClient ∅ (gatherGroups cl ∖ scatterGroups cl)
         (heavySources_ cl) (heavySinks_ cl)]> (sgClients a)) a);
  mret msgSent.

(** ** Heavy accounts *)
Definition heavyOf (g : groups) : gset Account :=
  list_to_set (fst <$> filter (fun kv : Account * gset Account => threshold cfg <= Z.of_nat (size kv.2))
                         (range (map_to_list g))).
Definition FindHeavyAccountsForClient (c : id16) (a : Sag) : Sag :=
  let cl := sag_getClient c a in
  sgSetClients (<[c := mkSagClient (scatterGroups cl) (gatherGroups cl)
    (heavyOf (scatterGroups cl) ∪ heavySources_ cl) (heavyOf (gatherGroups cl) ∪ heavySinks_ cl)]> (sgClients a)) a.

Definition xpublish (body : bytes) : M Sag unit := fun a =>
  let (r, x) := send (W := Publisher) EmptyString body (sgExch a) in
  (match r with Err e => Err (Wrapf "HeavyAccountsExchange: publish" e) | r => r end, sgSetExch x a).
Definition heavyBatchSize : nat := 1000.
Definition flushHeavy (c : id16) (role : byte) (batch : list Account) : M Sag unit :=
  match batch with
  | [] => mret tt
  | _ => env ← liftR (wrapf "HeavyAccountsExchange: encode heavy batch"
                        (EncodeQ4HeavyBatchEnvelope c (workerID cfg) role batch));
         xpublish env
  end.
Fixpoint publishBatches_loop (c : id16) (role : byte) (batch accounts : list Account) : M Sag unit :=
  match accounts with
  | [] => flushHeavy c role batch
  | acc :: accounts' =>
      let batch' := batch ++ [acc] in
      if bool_decide (heavyBatchSize <= length batch')%nat
      then _ ← flushHeavy c role batch'; publishBatches_loop c role [] accounts'
      else publishBatches_loop c role batch' accounts'
  end.
Definition publishBatches (c : id16) (role : byte) (accounts : gset Account) : M Sag unit :=
  publishBatches_loop c role [] (range (elements accounts)).
Definition PublishHeavy (c : id16) (srcs sinks : gset Account) : M Sag unit :=
  _ ← publishBatches c Q4HeavyRoleSource srcs;
  _ ← publishBatches c Q4HeavyRoleSink sinks;
  done ← liftR (wrapf "HeavyAccountsExchange: encode done" (EncodeQ4HeavyDoneEnvelope c (workerID cfg)));
  xpublish done.
End Stream.

(** ** Checkpoints of a client: the values, before their JSON text *)
Record scatterGatherCheckpoint := mkSagCheckpoint {
  ScatterGroups : list accountAdjacency;
  GatherGroups : list accountAdjacency;
  HeavySources_cp : list Account;
  HeavySinks_cp : list Account;
  DonePeers_cp : list Z;
  LocalDone_cp : bool;
  Sealed_cp : bool;
  Completed : bool
}.

Section Checkpoints.
Context `{!GoRange}.
Definition isCompleted (c : id16) (a : Sag) : bool := bool_decide (c ∈ sgCompleted a).
(** [None]: no data. *)
Definition sag_SnapshotClient (c : id16) (a : Sag) : option scatterGatherCheckpoint :=
  if isCompleted c a then Some (mkSagCheckpoint [] [] [] [] [] false false true)
  else
    d ← MonSnapshot c (sgMonitor a);
    Some (mkSagCheckpoint [] [] (HeavySrcs_ d) (HeavySinks_ d) (DonePeers_ d) (LocalDone_ d) (Sealed_ d) false).
Definition markCompleted (c : id16) (a : Sag) : Sag := sgSetCompleted ({[c]} ∪ sgCompleted a) a.
Definition sag_RestoreClient (c : id16) (data : option scatterGatherCheckpoint) (a : Sag) : Sag :=
  match data with
  | None => a
  | Some cp =>
      if Completed cp then markCompleted c a
      else if Sealed_cp cp || LocalDone_cp cp || bool_decide (HeavySources_cp cp <> [])
              || bool_decide (HeavySinks_cp cp <> []) || bool_decide (DonePeers_cp cp <> [])
      then sgSetMonitor (MonRestore c (mkDegreeSnapshot (HeavySources_cp cp) (HeavySinks_cp cp)
                           (DonePeers_cp cp) (LocalDone_cp cp) (Sealed_cp cp)) (sgMonitor a)) a
      else a
  end.
Definition sag_DrainClient (c : id16) (a : Sag) : option scatterGatherCheckpoint :=
  let ps := default ∅ (sgPendScatter a !! c) in
  let pg := default ∅ (sgPendGather a !! c) in
  if bool_decide (ps = ∅) && bool_decide (pg = ∅) then None
  else Some (mkSagCheckpoint (adjacencyToSlice ps) (adjacencyToSlice pg) [] [] [] false false false).
Definition sag_CommitClient (c : id16) (a : Sag) : Sag :=
  sgSetPending (delete c (sgPendScatter a)) (delete c (sgPendGather a)) a.
Definition sag_ReplayClient (c : id16) (record : option scatterGatherCheckpoint) (a : Sag) : Sag :=
  match record with
  | None => a
  | Some cp =>
      if isCompleted c a then a
      else let cl := sag_getClient c a in
           sgSetClients (<[c := mkSagClient (mergeAdjacency (scatterGroups cl) (ScatterGroups cp))
             (mergeAdjacency (gatherGroups cl) (GatherGroups cp)) (heavySources_ cl) (heavySinks_ cl)]> (sgClients a)) a
  end.
Definition dropClientState (c : id16) (a : Sag) : Sag :=
  sgSetMonitor (MonForget c (sgMonitor a))
    (sgSetPending (delete c (sgPendScatter a)) (delete c (sgPendGather a))
      (sgSetClients (delete c (sgClients a)) a)).
End Checkpoints.

(** ** The handlers, which save and acknowledge through the coordinator *)
Section Handlers.
Context `{!UuidLib, !GoRange} (cfg : SagCfg) (co : CoConfig Sag).

Definition updMem (f : Sag -> Sag) : D (Co Sag) unit := onMem (modS f).
Definition storePendingAck (c : id16) (ack : nat) (a : Sag) : Sag := sgSetAcks (<[c := ack]> (sgPendingAcks a)) a.
(** [takePendingAck] and, if there is one, the acknowledgement. *)
Definition firePendingAck (c : id16) (a : Sag) : Sag :=
  let a' := sgSetAcks (delete c (sgPendingAcks a)) a in
  match sgPendingAcks a !! c with Some n => sgAck n a' | None => a' end.
Definition sag_eofID (c : id16) : id16 := StageMsgID c (stage cfg) "eof" 0.

Definition onClientReady (c : id16) : D (Co Sag) unit :=
  msgSent ← onMem (streamScatterGatherPhaseTwo cfg c);
  _ ← onMem (match EncodeEOFCountsEnvelope c {[KeyNil := msgSent]} with
             | Ok eofEnvelope => _ ← catchM (PublishRawWithID KeyControlEOF eofEnvelope (sag_eofID c)); mret tt
             | Err _ => mret tt
             | Panic p => liftR (Panic p)
             end);
  _ ← updMem (markCompleted c);
  _ ← SaveClient co c;
  _ ← updMem (firePendingAck c);
  _ ← updMem (dropClientState c);
  onMem (Forget c).

Definition sag_handleEOFMessage (e : InternalEnvelope) (ack : nat) : D (Co Sag) unit :=
  let c := ClientId e in
  match DecodeEOFCounts (Payload e) with
  | Panic p => onMem (liftR (Panic p))
  | flushCounts =>
      if (match flushCounts with Ok m => IsFlushEOF m | _ => false end) then
        _ ← updMem (dropClientState c);
        _ ← onMem (Forget c);
        eofEnvelope ← onMem (liftR (wrapf "encoding flush EOF" (EncodeEOFCountsEnvelope c {[KeyNil := -1]})));
        _ ← onMem (wrapM "sending flush EOF" (PublishRawWithID KeyControlEOF eofEnvelope (sag_eofID c)));
        _ ← updMem (sgAck ack);
        Flush co
      else
        s ← getD;
        if isCompleted c (coMem s) then updMem (sgAck ack)
        else if IsSealed c (sgMonitor (coMem s)) then
          _ ← updMem (storePendingAck c ack);
          onClientReady c
        else
          _ ← updMem (FindHeavyAccountsForClient cfg c);
          s ← getD;
          let cl := sag_getClient c (coMem s) in
          _ ← onMem (wrapM "publishing heavy accounts" (PublishHeavy cfg c (heavySources_ cl) (heavySinks_ cl)));
          _ ← updMem (storePendingAck c ack);
          s ← getD;
          let (ready, m) := MergeLocal c (heavySources_ cl) (heavySinks_ cl) (sgMonitor (coMem s)) in
          _ ← updMem (sgSetMonitor m);
          _ ← (if (ready : bool) then onClientReady c else mret tt);
          Flush co
  end.

(** [processMessage]: a failed message is not acknowledged. *)
Definition sag_processMessage (body : bytes) (ack : nat) : D (Co Sag) unit :=
  e ← onMem (liftR (DecodeInternalEnvelope body));
  if decide (MsgType_ e = MsgTxQ4) then
    _ ← onMem (sag_handleTxQ4Message e);
    _ ← tryD (Track co (ClientId e) (sgAck ack));
    mret tt
  else if decide (MsgType_ e = MsgTransactionsEOF) then sag_handleEOFMessage e ack
  else onMem (failM (ErrMsg "Unexpected inbound packet type")).

Inductive peerContent := PeerBatch (role : byte) (accounts : list Account) | PeerDone.
Definition sag_processPeerMessage (c : id16) (senderID : Z) (m : peerContent) (ack : nat) : D (Co Sag) unit :=
  s ← getD;
  if (senderID =? workerID cfg) || isCompleted c (coMem s) then updMem (sgAck ack)
  else
    let (ready, mon) := match m with
      | PeerDone => RecordDone c senderID (sgMonitor (coMem s))
      | PeerBatch role accounts => (false, RecordHeavyBatch c senderID role accounts (sgMonitor (coMem s)))
      end in
    _ ← updMem (sgSetMonitor mon);
    _ ← SaveClient co c;
    _ ← updMem (sgAck ack);
    if (ready : bool) then (_ ← tryD (onClientReady c); mret tt) else mret tt.

(** [dispatch] of the exchange: an undecodable message is acknowledged and
    dropped. *)
Definition exchange_dispatch (body : bytes) (ack : nat) : D (Co Sag) unit :=
  match DecodeInternalEnvelope body with
  | Panic p => onMem (liftR (Panic p))
  | Err _ => updMem (sgAck ack)
  | Ok envelope =>
      if decide (MsgType_ envelope = MsgQ4HeavyBatch) then
        match DecodeQ4HeavyBatch (Payload envelope) with
        | Ok (senderID, role, accounts) =>
            sag_processPeerMessage (ClientId envelope) senderID (PeerBatch role accounts) ack
        | Err _ => updMem (sgAck ack)
        | Panic p => onMem (liftR (Panic p))
        end
      else if decide (MsgType_ envelope = MsgQ4HeavyDone) then
        match DecodeQ4HeavyDone (Payload envelope) with
        | Ok senderID => sag_processPeerMessage (ClientId envelope) senderID PeerDone ack
        | Err _ => updMem (sgAck ack)
        | Panic p => onMem (liftR (Panic p))
        end
      else updMem (sgAck ack)
  end.
End Handlers.
