(* ===== verification/Q4Theorems.v ===== *)
(** * Query 4, phase two: what the cross-product computes

    Theorems about [Q4Pairs]: the accounts remembered, the pairs counted, the
    pruning by the heavy accounts, and what becomes of a pair that is flushed
    twice. *)

From S2P Require Import Prelude Maps Models MsgIDs Wire Codec CodecQ4 Publisher HeavyMonitor Sharding Q4Pairs.

(** ** Adjacency is a set of edges *)
Lemma neighbors_insert g k n a :
  neighbors (insertEdge k n g) a = if decide (a = k) then {[n]} ∪ neighbors g k else neighbors g a.
Proof.
  unfold neighbors at 1, insertEdge. case_decide as H; [subst; by rewrite lookup_insert_eq|].
  by rewrite lookup_insert_ne.
Qed.
Lemma neighbors_merge g es a x :
  x ∈ neighbors (mergeAdjacency g es) a <->
  x ∈ neighbors g a \/ exists e, e ∈ es /\ AdjAccount e = a /\ x ∈ Neighbors e.
Proof.
  revert g. induction es as [|e es IH]; intros g; [unfold mergeAdjacency; simpl; set_solver|].
  unfold mergeAdjacency in *. cbn [fold_left]. rewrite IH. unfold neighbors at 1.
  destruct (decide (AdjAccount e = a)) as [<-|Hne].
  - rewrite lookup_insert_eq. cbn [from_option id]. rewrite elem_of_union, elem_of_list_to_set.
    split; [|intros [?|(e' & [->|?]%elem_of_cons & ? & ?)]; eauto].
    intros [[?|?]|(e' & ? & ? & ?)]; [right; exists e; set_solver|by left|right; exists e'; set_solver].
  - rewrite lookup_insert_ne by done. fold (neighbors g a).
    split; [intros [?|(e' & ? & ? & ?)]; [by left|right; exists e'; set_solver]|].
    intros [?|(e' & [->|?]%elem_of_cons & ? & ?)]; [by left|done|right; by exists e'].
Qed.
Lemma adjacencyToSlice_spec {GR : GoRange} g a x :
  (exists e, e ∈ adjacencyToSlice g /\ AdjAccount e = a /\ x ∈ Neighbors e) <-> x ∈ neighbors g a.
Proof.
  unfold adjacencyToSlice, neighbors. split.
  - intros (e & ([k s] & -> & Hin)%list_elem_of_fmap & <- & Hx). apply elem_of_range_map in Hin.
    simpl in *. rewrite Hin. simpl. by rewrite range_perm, elem_of_elements in Hx.
  - destruct (g !! a) as [s|] eqn:E; [|set_solver]. simpl. intros Hx.
    exists (mkAdjacency a (range (elements s))). split_and!; [|done|simpl; by rewrite range_perm, elem_of_elements].
    apply list_elem_of_fmap. exists (a, s). split; [done|]. by apply elem_of_range_map.
Qed.

Lemma exists_Some {A : Type} (a : A) (P : A -> Prop) : (exists b, Some a = Some b /\ P b) <-> P a.
Proof. split; [by intros (? & [= <-] & ?)|eauto]. Qed.

Lemma sag_getClient_set (c : id16) cl a : sag_getClient c (sgSetClients (<[c := cl]> (sgClients a)) a) = cl.
Proof. unfold sag_getClient. cbn [sgSetClients sgClients]. by rewrite lookup_insert_eq. Qed.

Section Log.
Context {GR : GoRange} (c : id16).

Definition scatterOf (a : Sag) := scatterGroups (sag_getClient c a).
Definition gatherOf (a : Sag) := gatherGroups (sag_getClient c a).
Definition pendingOf (p : gmap id16 groups) : groups := default ∅ (p !! c).

Lemma scatter_handleScatter tx a k x :
  x ∈ neighbors (scatterOf (handleScatterTx c tx a)) k <->
  x ∈ neighbors (scatterOf a) k \/ (k = srcAcc tx /\ x = dstAcc tx).
Proof.
  unfold handleScatterTx, scatterOf. case_bool_decide as H; unfold sag_getClient at 1;
    cbn [sgSetPending sgSetClients sgClients]; rewrite lookup_insert_eq; cbn [from_option id scatterGroups].
  - split; [by left|]. intros [?|[-> ->]]; done.
  - rewrite neighbors_insert. case_decide; set_solver.
Qed.
Lemma gather_handleGather tx a k x :
  x ∈ neighbors (gatherOf (handleGatherTx c tx a)) k <->
  x ∈ neighbors (gatherOf a) k \/ (k = dstAcc tx /\ x = srcAcc tx).
Proof.
  unfold handleGatherTx, gatherOf. case_bool_decide as H; unfold sag_getClient at 1;
    cbn [sgSetPending sgSetClients sgClients]; rewrite lookup_insert_eq; cbn [from_option id gatherGroups].
  - split; [by left|]. intros [?|[-> ->]]; done.
  - rewrite neighbors_insert. case_decide; set_solver.
Qed.

(** What the log of a client and the worker become while batches are handled
    and checkpoints commit. *)
Inductive sag_run : list (option scatterGatherCheckpoint) -> Sag -> Prop :=
  | sag_new a : sgClients a !! c = None -> sgPendScatter a !! c = None -> sgPendGather a !! c = None ->
      sag_run [] a
  | sag_scatter l a tx : sag_run l a -> sag_run l (handleScatterTx c tx a)
  | sag_gather l a tx : sag_run l a -> sag_run l (handleGatherTx c tx a)
  | sag_commit l a : sag_run l a -> sag_run (l ++ [sag_DrainClient c a]) (sag_CommitClient c a).

(** An edge recorded somewhere in the log. *)
Definition logged (f : scatterGatherCheckpoint -> list accountAdjacency)
    (l : list (option scatterGatherCheckpoint)) (k x : Account) : Prop :=
  exists cp, Some cp ∈ l /\ exists e, e ∈ f cp /\ AdjAccount e = k /\ x ∈ Neighbors e.

Lemma run_edges l a : sag_run l a -> forall k x,
  (x ∈ neighbors (scatterOf a) k <-> logged ScatterGroups l k x \/ x ∈ neighbors (pendingOf (sgPendScatter a)) k) /\
  (x ∈ neighbors (gatherOf a) k <-> logged GatherGroups l k x \/ x ∈ neighbors (pendingOf (sgPendGather a)) k).
Proof.
  assert (forall f k x, ~ logged f [] k x) as Hnil by (intros f k x (cp & H & _); set_solver).
  induction 1 as [a H1 H2 H3|l a tx _ IH|l a tx _ IH|l a _ IH]; intros k x.
  - unfold scatterOf, gatherOf, pendingOf, sag_getClient. rewrite H1, H2, H3. cbn.
    specialize (Hnil ScatterGroups k x) as Ha. specialize (Hnil GatherGroups k x) as Hb.
    unfold neighbors. rewrite lookup_empty. set_solver.
  - rewrite scatter_handleScatter. destruct (IH k x) as [IH1 IH2]. split.
    + rewrite IH1. unfold handleScatterTx. case_bool_decide as Hin; cbn [sgSetPending sgSetClients sgPendScatter].
      * split; [|tauto]. intros [?|[-> ->]]; [done|]. by apply IH.
      * unfold pendingOf at 2, bufferEdge. rewrite lookup_insert_eq. cbn [from_option id].
        fold (pendingOf (sgPendScatter a)). rewrite neighbors_insert. case_decide; set_solver.
    + unfold gatherOf in *. transitivity (x ∈ neighbors (gatherGroups (sag_getClient c a)) k); [|rewrite IH2];
        unfold handleScatterTx, sag_getClient; case_bool_decide; cbn [sgSetPending sgSetClients sgClients sgPendGather];
        rewrite ?lookup_insert_eq; done.
  - rewrite gather_handleGather. destruct (IH k x) as [IH1 IH2]. split.
    + unfold scatterOf in *. transitivity (x ∈ neighbors (scatterGroups (sag_getClient c a)) k); [|rewrite IH1];
        unfold handleGatherTx, sag_getClient; case_bool_decide; cbn [sgSetPending sgSetClients sgClients sgPendScatter];
        rewrite ?lookup_insert_eq; done.
    + rewrite IH2. unfold handleGatherTx. case_bool_decide as Hin; cbn [sgSetPending sgSetClients sgPendGather].
      * split; [|tauto]. intros [?|[-> ->]]; [done|]. by apply IH.
      * unfold pendingOf at 2, bufferEdge. rewrite lookup_insert_eq. cbn [from_option id].
        fold (pendingOf (sgPendGather a)). rewrite neighbors_insert. case_decide; set_solver.
  - destruct (IH k x) as [IH1 IH2].
    assert (forall f, logged f (l ++ [sag_DrainClient c a]) k x <-> logged f l k x \/
      exists cp, sag_DrainClient c a = Some cp /\ exists e, e ∈ f cp /\ AdjAccount e = k /\ x ∈ Neighbors e) as Happ.
    { intros f. unfold logged. split.
      - intros (cp & [Hin|Hin]%elem_of_app & Hc); [left; by exists cp|]. apply list_elem_of_singleton in Hin. eauto.
      - intros [(cp & Hin & Hc)|(cp & Hd & Hc)]; exists cp; (split; [|done]); apply elem_of_app; [by left|right].
        rewrite Hd. by apply list_elem_of_singleton. }
    assert (forall p, x ∈ neighbors (pendingOf (delete c p)) k <-> False) as Hdel.
    { intros p. unfold pendingOf. rewrite lookup_delete_eq. unfold neighbors. cbn. rewrite lookup_empty. set_solver. }
    unfold scatterOf, gatherOf in *. cbn [sag_CommitClient sgSetPending sgPendScatter sgPendGather].
    rewrite !Happ, !Hdel.
    assert (sag_getClient c (sag_CommitClient c a) = sag_getClient c a) as -> by done.
    rewrite IH1, IH2. unfold sag_DrainClient. fold (pendingOf (sgPendScatter a)). fold (pendingOf (sgPendGather a)).
    destruct (bool_decide (pendingOf (sgPendScatter a) = ∅) && bool_decide (pendingOf (sgPendGather a) = ∅)) eqn:E.
    + apply andb_true_iff in E as [E1%bool_decide_eq_true_1 E2%bool_decide_eq_true_1]. rewrite E1, E2.
      unfold neighbors. rewrite !lookup_empty. set_solver.
    + rewrite !exists_Some. cbn [ScatterGroups GatherGroups]. rewrite !adjacencyToSlice_spec. tauto.
Qed.

Lemma replay_edges l a k x : ~ c ∈ sgCompleted a ->
  (x ∈ neighbors (scatterOf (fold_left (fun a r => sag_ReplayClient c r a) l a)) k <->
     x ∈ neighbors (scatterOf a) k \/ logged ScatterGroups l k x) /\
  (x ∈ neighbors (gatherOf (fold_left (fun a r => sag_ReplayClient c r a) l a)) k <->
     x ∈ neighbors (gatherOf a) k \/ logged GatherGroups l k x).
Proof.
  revert a. induction l as [|r l IH]; intros a Hnc.
  { cbn [fold_left]. unfold logged. set_solver. }
  cbn [fold_left].
  assert (sgCompleted (sag_ReplayClient c r a) = sgCompleted a) as Hcomp.
  { unfold sag_ReplayClient. destruct r as [cp|]; [|done]. by destruct (isCompleted c a). }
  destruct (IH (sag_ReplayClient c r a)) as [IH1 IH2]; [by rewrite Hcomp|]. rewrite IH1, IH2.
  assert (forall f, logged f (r :: l) k x <-> logged f l k x \/
    exists cp, r = Some cp /\ exists e, e ∈ f cp /\ AdjAccount e = k /\ x ∈ Neighbors e) as Hcons.
  { intros f. unfold logged. split.
    - intros (cp & [<-|Hin]%elem_of_cons & Hc); [right; eauto|left; eauto].
    - intros [(cp & Hin & Hc)|(cp & -> & Hc)]; exists cp; (split; [set_solver|done]). }
  rewrite !Hcons. unfold sag_ReplayClient. destruct r as [cp|];
    [|split; (split; [intros [?|?]; [by left|right; by left]|intros [?|[?|(? & [=] & _)]]; [by left|by right]])].
  rewrite !exists_Some.
  unfold isCompleted. rewrite (bool_decide_eq_false_2 _ Hnc).
  unfold scatterOf, gatherOf. rewrite sag_getClient_set. cbn [scatterGroups gatherGroups]. rewrite !neighbors_merge. tauto.
Qed.

(** Replaying a client's record log after a restart rebuilds the payees and
    payers of every account: exactly the edges known before the crash, less those
    not yet drained into a record, and none twice. *)
Theorem adjacency_replay l a fresh :
  sag_run l a -> sgClients fresh !! c = None -> ~ c ∈ sgCompleted fresh ->
  let a' := fold_left (fun a r => sag_ReplayClient c r a) l fresh in
  forall k,
    neighbors (scatterOf a) k = neighbors (scatterOf a') k ∪ neighbors (pendingOf (sgPendScatter a)) k /\
    neighbors (gatherOf a) k = neighbors (gatherOf a') k ∪ neighbors (pendingOf (sgPendGather a)) k.
Proof.
  intros Hrun Hf Hnc a' k. unfold a'.
  split; apply set_eq; intros x; destruct (run_edges l a Hrun k x) as [E1 E2];
    destruct (replay_edges l fresh k x Hnc) as [R1 R2]; rewrite elem_of_union.
  - rewrite R1, E1. unfold scatterOf, sag_getClient. rewrite Hf. cbn. unfold neighbors at 2.
    rewrite lookup_empty. set_solver.
  - rewrite R2, E2. unfold gatherOf, sag_getClient. rewrite Hf. cbn. unfold neighbors at 2.
    rewrite lookup_empty. set_solver.
Qed.
End Log.

(** ** Example: two payments, a commit, a third payment, a restart *)
Definition new_sag : Sag :=
  mkSag (mkPublisher [] [] newDedupState) (mkPublisher [] [] newDedupState) ∅
    (NewHeavyAccountsMonitor 0 2) ∅ ∅ ∅ ∅ [].
Definition pay (a b : string) : Transaction :=
  mkTransaction "2022/09/01 00:20" "10" a "20" b (F64 0) "US Dollar" (F64 0) "US Dollar" "Wire" false.

Lemma adjacency_replay_witness :
  let a1 := handleGatherTx id1 (pay "b" "c") (handleScatterTx id1 (pay "a" "b") new_sag) in
  let l := [@sag_DrainClient range_rev id1 a1] in
  let a := handleScatterTx id1 (pay "a" "d") (sag_CommitClient id1 a1) in
  let a' := fold_left (fun a r => sag_ReplayClient id1 r a) l new_sag in
  neighbors (scatterOf id1 a') (mkAccount "10" "a") = {[mkAccount "20" "b"]} /\
  neighbors (scatterOf id1 a) (mkAccount "10" "a")
    = neighbors (scatterOf id1 a') (mkAccount "10" "a") ∪
      neighbors (pendingOf id1 (sgPendScatter a)) (mkAccount "10" "a").
Proof.
  intros a1 l a a'. split; [vm_compute; reflexivity|].
  assert (sag_run (GR := range_rev) id1 l a) as H.
  { apply sag_scatter, (sag_commit id1 []), sag_gather, sag_scatter, sag_new; reflexivity. }
  apply (adjacency_replay id1 l a new_sag H); [reflexivity|].
  apply (bool_decide_unpack (~ id1 ∈ sgCompleted new_sag)). vm_compute. exact I.
Defined.
