(* ===== verification/Q4Cross.v ===== *)
(** * Query 4, phase two: what the cross-product counts

    A pair of accounts is counted once per bridge, on the replica that owns the
    bridge, if both accounts are heavy; and an account with enough bridges to
    matter is heavy.  So the pruning never changes the answer. *)

From S2P Require Import Prelude Maps Models MsgIDs Wire Codec CodecQ4 Publisher HeavyMonitor Sharding Q4Pairs Q4Theorems.

(** ** Occurrences *)
Definition occ {K : Type} `{EqDecision K} (k : K) (l : list K) : Z := Zlen (filter (fun x => x = k) l).

Section Occ.
Context {K : Type} `{EqDecision K}.
Lemma occ_app (k : K) l1 l2 : occ k (l1 ++ l2) = occ k l1 + occ k l2.
Proof. unfold occ, Zlen. rewrite filter_app, length_app. lia. Qed.
Lemma occ_cons (k x : K) l : occ k (x :: l) = (if decide (x = k) then 1 else 0) + occ k l.
Proof. unfold occ, Zlen. rewrite filter_cons. case_decide; simpl length; lia. Qed.
Lemma occ_flat_map {A : Type} (k : K) (f : A -> list K) (l : list A) :
  occ k (flat_map f l) = sumZ ((fun a => occ k (f a)) <$> l).
Proof. induction l as [|a l IH]; [done|]. cbn [flat_map fmap list_fmap sumZ foldr]. by rewrite occ_app, IH. Qed.
Lemma sumZ_fmap_perm {A : Type} (f : A -> Z) (l l' : list A) : l ≡ₚ l' -> sumZ (f <$> l) = sumZ (f <$> l').
Proof. intros Hp. apply sumZ_perm. by rewrite Hp. Qed.
Lemma sumZ_indicator {A : Type} (P : A -> Prop) `{forall a, Decision (P a)} (l : list A) :
  sumZ ((fun a => if decide (P a) then 1 else 0) <$> l) = Zlen (filter P l).
Proof.
  unfold Zlen. induction l as [|a l IH]; [done|]. cbn [fmap list_fmap sumZ foldr]. fold (sumZ).
  rewrite filter_cons. unfold sumZ in *. rewrite IH. case_decide; simpl length; lia.
Qed.
(** A sum over distinct elements with one contributor. *)
Lemma sumZ_single {A : Type} `{EqDecision A} (f : A -> Z) (l : list A) x0 n : NoDup l ->
  (forall x, x ∈ l -> f x = if decide (x = x0) then n else 0) ->
  sumZ (f <$> l) = if decide (x0 ∈ l) then n else 0.
Proof.
  induction l as [|x l IH]; intros Hnd Hf; [done|]. apply NoDup_cons in Hnd as [Hx Hnd].
  cbn [fmap list_fmap]. change (sumZ (?a :: ?b)) with (a + sumZ b).
  rewrite IH, (Hf x) by set_solver.
  destruct (decide (x = x0)) as [->|Hne].
  - rewrite decide_False by done. rewrite decide_True by set_solver. lia.
  - destruct (decide (x0 ∈ l)); [rewrite decide_True by set_solver|rewrite decide_False by set_solver]; lia.
Qed.
End Occ.

(** ** Bridges *)
Definition bridges (scatter gather : groups) (s t : Account) : gset Account :=
  filter (fun b => s ∈ neighbors gather b /\ t ∈ neighbors scatter b) (dom scatter).

(** No two accounts at hand have the same identifier. *)
Definition ids_unique (s t : Account) (hs ht : gset Account) : Prop :=
  (forall a, a ∈ hs -> GetID a = GetID s -> a = s) /\ (forall a, a ∈ ht -> GetID a = GetID t -> a = t).

Lemma pairKey_eq s t s' t' : pairKey s' t' = pairKey s t <-> GetID s' = GetID s /\ GetID t' = GetID t.
Proof. unfold pairKey. split; [by intros [= -> ->]|by intros [-> ->]]. Qed.

Section Counting.
Context {GR : GoRange}.
Implicit Types (scatter gather : groups) (hs ht : gset Account).

Lemma occ_sinks s t s' (ht : gset Account) (dsts : gset Account) :
  (forall a, a ∈ ht -> GetID a = GetID t -> a = t) -> t ∈ ht ->
  occ (pairKey s t) (flat_map (fun t' => if bool_decide (t' ∈ ht) then [pairKey s' t'] else [])
      (range (elements dsts)))
  = if decide (GetID s' = GetID s /\ t ∈ dsts) then 1 else 0.
Proof.
  intros Hu Ht. rewrite occ_flat_map. destruct (decide (GetID s' = GetID s)) as [E|E].
  - rewrite (sumZ_single _ _ t 1).
    + apply decide_ext. rewrite range_perm, elem_of_elements. tauto.
    + rewrite range_perm. apply NoDup_elements.
    + intros x _. case_bool_decide as Hx.
      * rewrite occ_cons. change (occ (pairKey s t) []) with 0.
        destruct (decide (x = t)) as [->|Hne]; [rewrite decide_True by (by apply pairKey_eq); done|].
        rewrite decide_False; [done|]. intros [_ H]%pairKey_eq. by apply Hne, Hu.
      * rewrite decide_False by (by intros ->). done.
  - rewrite decide_False by tauto.
    rewrite (sumZ_single _ _ t 0); [by case_decide| |].
    + rewrite range_perm. apply NoDup_elements.
    + intros x _. case_bool_decide; [|by case_decide].
      rewrite occ_cons. rewrite decide_False; [|by intros [? _]%pairKey_eq]. by case_decide.
Qed.

Lemma occ_bridge s t hs ht (srcs dsts : gset Account) : ids_unique s t hs ht -> s ∈ hs -> t ∈ ht ->
  occ (pairKey s t) (flat_map (fun s' => if bool_decide (s' ∈ hs) then
      flat_map (fun t' => if bool_decide (t' ∈ ht) then [pairKey s' t'] else []) (range (elements dsts)) else [])
    (range (elements srcs)))
  = if decide (s ∈ srcs /\ t ∈ dsts) then 1 else 0.
Proof.
  intros [Hs Ht] His Hit. rewrite occ_flat_map.
  rewrite (sumZ_single _ _ s (if decide (t ∈ dsts) then 1 else 0)).
  - rewrite (decide_ext _ (s ∈ srcs)) by (by rewrite range_perm, elem_of_elements).
    destruct (decide (s ∈ srcs)), (decide (t ∈ dsts));
      [rewrite decide_True by done|rewrite decide_False by tauto..]; done.
  - rewrite range_perm. apply NoDup_elements.
  - intros x _. case_bool_decide as Hx.
    + rewrite occ_sinks by done. destruct (decide (x = s)) as [->|Hne].
      * destruct (decide (t ∈ dsts)); [rewrite decide_True by done|rewrite decide_False by tauto]; done.
      * rewrite decide_False; [done|]. intros [H _]. by apply Hne, Hs.
    + rewrite decide_False by (by intros ->). done.
Qed.

Lemma size_dom_filter {A : Type} (m : gmap Account A) (P : Account -> Prop) `{forall a, Decision (P a)} :
  Z.of_nat (size (filter P (dom m))) = Zlen (filter (fun kv : Account * A => P kv.1) (map_to_list m)).
Proof.
  assert (filter P (dom m) = dom (filter (fun kv : Account * A => P kv.1) m)) as ->.
  { apply set_eq. intros a. rewrite elem_of_filter, !elem_of_dom. unfold is_Some.
    setoid_rewrite map_lookup_filter_Some. simpl. naive_solver. }
  rewrite size_dom. unfold Zlen. f_equal.
  induction m as [|k v m Hk IH] using map_ind; [by rewrite map_filter_empty, map_to_list_empty|].
  rewrite (map_to_list_insert _ _ _ Hk), filter_cons. simpl fst. case_decide as HP.
  - rewrite map_filter_insert_True by done. rewrite map_size_insert_None; [by rewrite IH|].
    apply map_lookup_filter_None. by left.
  - rewrite map_filter_insert_not by done. done.
Qed.
Lemma occ_cross s t scatter gather hs ht : ids_unique s t hs ht -> s ∈ hs -> t ∈ ht ->
  occ (pairKey s t) (crossPairs scatter gather hs ht) = Z.of_nat (size (bridges scatter gather s t)).
Proof.
  intros Hu Hs Ht. unfold crossPairs, bridges. rewrite occ_flat_map.
  rewrite (sumZ_fmap_perm _ _ _ (range_perm _ (map_to_list scatter))), size_dom_filter, <- sumZ_indicator.
  f_equal. apply list_fmap_ext. intros i [b dsts] Hin. apply list_elem_of_lookup_2, elem_of_map_to_list in Hin.
  simpl. unfold neighbors. rewrite Hin. cbn [from_option id default].
  destruct (gather !! b) as [srcs|]; [by apply occ_bridge|].
  cbn [from_option id default]. rewrite decide_False by set_solver. done.
Qed.
End Counting.

(** ** Batches *)
Definition countOf (pk : TxQ4PairKey) (b : pairCounts) : Z := default 0 (b !! pk).

Section Batches.
Implicit Types (pk : TxQ4PairKey) (b : pairCounts).
Lemma countOf_countPair pk pk' b : in_int64 (countOf pk b + 1) ->
  countOf pk (countPair pk' b) = countOf pk b + (if decide (pk' = pk) then 1 else 0).
Proof.
  intros Hr. unfold countPair, countOf at 1. case_decide as E; [subst; rewrite lookup_insert_eq|].
  - cbn [default from_option id]. by apply int64_small.
  - rewrite lookup_insert_ne by done. unfold countOf. lia.
Qed.
Lemma countOf_empty pk : countOf pk ∅ = 0.
Proof. done. Qed.

(** Nothing is lost between the batches, and no batch outgrows the limit. *)
Lemma batches_count limit pairs b pk :
  0 <= countOf pk b -> countOf pk b + Zlen pairs < 2 ^ 63 ->
  sumZ (countOf pk <$> batches limit pairs b) = countOf pk b + occ pk pairs.
Proof.
  revert b. induction pairs as [|pk' pairs IH]; intros b Hnn Hlt.
  { cbn [batches]. case_bool_decide as E; [subst; by rewrite countOf_empty|]. cbn. unfold occ, Zlen. cbn. lia. }
  unfold Zlen in Hlt. cbn [length] in Hlt. rewrite Nat2Z.inj_succ in Hlt.
  assert (countOf pk (countPair pk' b) = countOf pk b + (if decide (pk' = pk) then 1 else 0)) as Hc.
  { apply countOf_countPair. unfold in_int64. lia. }
  cbn [batches]. rewrite occ_cons. case_bool_decide.
  - cbn [fmap list_fmap]. change (sumZ (?a :: ?l)) with (a + sumZ l).
    rewrite (IH ∅), countOf_empty, Hc by (rewrite ?countOf_empty; unfold Zlen; lia). lia.
  - rewrite IH, Hc; [lia|rewrite Hc; case_decide; lia|]. rewrite Hc. unfold Zlen. case_decide; lia.
Qed.
Lemma size_countPair pk b : (size (countPair pk b) <= S (size b))%nat.
Proof. unfold countPair. rewrite map_size_insert. destruct (b !! pk); simpl; lia. Qed.
Lemma batches_size limit pairs b : (size b < limit)%nat ->
  Forall (fun b' => (0 < size b' <= limit)%nat) (batches limit pairs b).
Proof.
  revert b. induction pairs as [|pk pairs IH]; intros b Hb; cbn [batches].
  - case_bool_decide as E; constructor; [|constructor]. apply map_size_ne_0_iff in E || idtac.
    assert (size b <> 0%nat) by (intros ?%map_size_empty_inv; done). lia.
  - pose proof (size_countPair pk b). case_bool_decide.
    + constructor; [|apply IH; rewrite map_size_empty; lia]. lia.
    + apply IH. lia.
Qed.
End Batches.

(** ** All the replicas together *)
Definition shard (owner : Account -> nat) (i : nat) (g : groups) : groups :=
  filter (fun kv : Account * gset Account => owner kv.1 = i) g.
(** Every edge is known in both directions. *)
Definition transposed (scatter gather : groups) : Prop :=
  forall a b, b ∈ neighbors scatter a <-> a ∈ neighbors gather b.

Lemma neighbors_shard owner i g a :
  neighbors (shard owner i g) a = if decide (owner a = i) then neighbors g a else ∅.
Proof.
  unfold neighbors, shard. rewrite map_lookup_filter. destruct (g !! a) as [x|]; simpl.
  - case_decide; simpl; [by rewrite option_guard_True by done|by rewrite option_guard_False by done].
  - by case_decide.
Qed.

Section Replicas.
Context {GR : GoRange} (cfg : SagCfg) (owner : Account -> nat) (n : nat).
Hypothesis owner_lt : forall a, (owner a < n)%nat.
Hypothesis threshold_pos : 0 < threshold cfg.

(** The accounts every replica reports in the exchange. *)
Definition allHeavy (g : groups) : gset Account := ⋃ ((fun i => heavyOf cfg (shard owner i g)) <$> seq 0 n).

Lemma elem_of_heavyOf g a : a ∈ heavyOf cfg g <->
  is_Some (g !! a) /\ threshold cfg <= Z.of_nat (size (neighbors g a)).
Proof.
  unfold heavyOf. rewrite elem_of_list_to_set, list_elem_of_fmap. split.
  - intros ([k s] & -> & [Hle Hin%elem_of_range_map]%list_elem_of_filter). simpl in *.
    unfold neighbors. rewrite Hin. split; [eauto|done].
  - unfold neighbors. intros [[s Hs] Hle]. rewrite Hs in Hle. exists (a, s). split; [done|].
    apply list_elem_of_filter. split; [done|]. by apply elem_of_range_map.
Qed.
Lemma elem_of_allHeavy g a : a ∈ allHeavy g <-> threshold cfg <= Z.of_nat (size (neighbors g a)).
Proof.
  unfold allHeavy. rewrite elem_of_union_list. split.
  - intros (X & (i & -> & _)%list_elem_of_fmap & [_ Ha]%elem_of_heavyOf).
    rewrite neighbors_shard in Ha. case_decide; [done|]. rewrite size_empty in Ha. lia.
  - intros Ha. exists (heavyOf cfg (shard owner (owner a) g)). split.
    + apply list_elem_of_fmap. exists (owner a). split; [done|]. apply elem_of_seq. pose proof (owner_lt a). lia.
    + apply elem_of_heavyOf. rewrite neighbors_shard, decide_True by done. split; [|done].
      unfold shard. destruct (g !! a) as [s|] eqn:E.
      * exists s. by apply map_lookup_filter_Some.
      * unfold neighbors in Ha. rewrite E in Ha. cbn in Ha. rewrite size_empty in Ha. lia.
Qed.

(** An account with enough bridges is heavy: the prune drops no answer. *)
Lemma bridges_heavy scatter gather s t : transposed scatter gather ->
  threshold cfg <= Z.of_nat (size (bridges scatter gather s t)) ->
  s ∈ allHeavy scatter /\ t ∈ allHeavy gather.
Proof.
  intros Ht Hb. rewrite !elem_of_allHeavy.
  assert (bridges scatter gather s t ⊆ neighbors scatter s) as H1%subseteq_size.
  { intros b [[Hb1 _] _]%elem_of_filter. by apply Ht. }
  assert (bridges scatter gather s t ⊆ neighbors gather t) as H2%subseteq_size.
  { intros b [[_ Hb2] _]%elem_of_filter. by apply Ht. }
  lia.
Qed.

Lemma bridges_shard scatter gather s t i :
  bridges (shard owner i scatter) (shard owner i gather) s t
    = filter (fun b => owner b = i) (bridges scatter gather s t).
Proof.
  unfold bridges. apply set_eq. intros b. rewrite !elem_of_filter, !neighbors_shard.
  destruct (decide (owner b = i)) as [E|E].
  - assert (b ∈ dom (shard owner i scatter) <-> b ∈ dom scatter) as ->; [|tauto].
    rewrite !elem_of_dom. unfold is_Some, shard. setoid_rewrite map_lookup_filter_Some. naive_solver.
  - set_solver.
Qed.
Lemma sum_owners (X : gset Account) :
  sumZ ((fun i => Z.of_nat (size (filter (fun b => owner b = i) X))) <$> seq 0 n) = Z.of_nat (size X).
Proof.
  induction X as [|b X Hb IH] using set_ind_L.
  { rewrite size_empty. rewrite (list_fmap_ext _ (fun _ => 0)).
    - induction (seq 0 n); [done|]. by cbn.
    - intros i x _. apply (f_equal Z.of_nat (y := 0%nat)), size_empty_iff. set_solver. }
  rewrite size_union, size_singleton by set_solver.
  rewrite Nat2Z.inj_add, <- IH.
  assert (forall i, Z.of_nat (size (filter (fun b => owner b = i) ({[b]} ∪ X)))
    = (if decide (i = owner b) then 1 else 0) + Z.of_nat (size (filter (fun b => owner b = i) X))) as Hi.
  { intros i. case_decide as E.
    - assert (filter (fun b => owner b = i) ({[b]} ∪ X) = {[b]} ∪ filter (fun b => owner b = i) X) as -> by set_solver.
      rewrite size_union, size_singleton by set_solver. lia.
    - by assert (filter (fun b => owner b = i) ({[b]} ∪ X) = filter (fun b => owner b = i) X) as -> by set_solver. }
  assert (forall l : list nat, sumZ ((fun i => Z.of_nat (size (filter (fun b => owner b = i) ({[b]} ∪ X)))) <$> l)
    = sumZ ((fun i => if decide (i = owner b) then 1 else 0) <$> l)
      + sumZ ((fun i => Z.of_nat (size (filter (fun b => owner b = i) X))) <$> l)) as ->.
  { induction l as [|i l IHl]; [done|]. cbn [fmap list_fmap].
    change (sumZ (?a :: ?l)) with (a + sumZ l). rewrite IHl, Hi. lia. }
  rewrite (sumZ_single _ _ (owner b) 1) by (apply NoDup_seq || done).
  rewrite decide_True; [done|]. apply elem_of_seq. pose proof (owner_lt b). lia.
Qed.

(** What replica [i] counts for a pair, over all its batches. *)
Definition replicaPairs (scatter gather : groups) (i : nat) : list TxQ4PairKey :=
  crossPairs (shard owner i scatter) (shard owner i gather) (allHeavy scatter) (allHeavy gather).
Definition replicaCount (scatter gather : groups) (pk : TxQ4PairKey) (i : nat) : Z :=
  sumZ (countOf pk <$> batches maxPairsBuffered (replicaPairs scatter gather i) ∅).

Lemma occ_cross_pruned s t scatter gather hs ht : ids_unique s t hs ht -> ~ (s ∈ hs /\ t ∈ ht) ->
  occ (pairKey s t) (crossPairs scatter gather hs ht) = 0.
Proof.
  intros [Hs Ht] Hn. unfold occ, Zlen. replace (filter _ _) with (@nil TxQ4PairKey); [done|].
  symmetry. apply elem_of_nil_inv. intros pk [Epk Hin]%list_elem_of_filter.
  unfold crossPairs in Hin. apply list_elem_of_In in Hin.
  apply in_flat_map in Hin as ([b ds] & _ & Hin). simpl in Hin.
  destruct (gather !! b) as [srcs|]; [|done]. apply in_flat_map in Hin as (s' & _ & Hin).
  case_bool_decide as Hs'; [|done]. apply in_flat_map in Hin as (t' & _ & Hin).
  case_bool_decide as Ht'; [|done]. destruct Hin as [Hpk|[]]. subst pk.
  apply pairKey_eq in Hpk as [E1 E2]. apply Hn. by rewrite <- (Hs s' Hs' E1), <- (Ht t' Ht' E2).
Qed.

(** C21. Over all the replicas, a pair of accounts with at least [threshold]
    bridges is counted exactly once per bridge, and one with fewer stays below
    the threshold: exchanging only the heavy accounts changes no answer. *)
Theorem pruned_counts_exact (scatter gather : groups) s t :
  transposed scatter gather ->
  ids_unique s t (allHeavy scatter) (allHeavy gather) ->
  (forall i, (i < n)%nat -> Zlen (replicaPairs scatter gather i) < 2 ^ 63) ->
  let total := sumZ (replicaCount scatter gather (pairKey s t) <$> seq 0 n) in
  let all := Z.of_nat (size (bridges scatter gather s t)) in
  (threshold cfg <= total <-> threshold cfg <= all) /\ (threshold cfg <= all -> total = all) /\ total <= all.
Proof.
  intros Htr Hu Hlen total all.
  assert (forall i, i ∈ seq 0 n -> replicaCount scatter gather (pairKey s t) i
    = occ (pairKey s t) (replicaPairs scatter gather i)) as Hc.
  { intros i Hi%elem_of_seq. unfold replicaCount. rewrite batches_count; rewrite ?countOf_empty; [lia|lia|].
    apply Hlen. lia. }
  assert (total = if decide (s ∈ allHeavy scatter /\ t ∈ allHeavy gather) then all else 0) as ->.
  { unfold total, all. rewrite <- sum_owners. case_decide as Hst.
    - f_equal. apply list_fmap_ext. intros j i Hi%list_elem_of_lookup_2. rewrite Hc by done.
      rewrite <- bridges_shard. destruct Hst. by apply occ_cross.
    - revert Hc. generalize (seq 0 n). induction l as [|i l IH]; intros Hc; [done|]. cbn [fmap list_fmap].
      change (sumZ (?a :: ?l)) with (a + sumZ l). rewrite IH, Hc by set_solver.
      unfold replicaPairs. by rewrite occ_cross_pruned. }
  assert (0 <= all) by (unfold all; lia).
  case_decide as Hst; [split; [done|split; [done|lia]]|].
  assert (~ threshold cfg <= all) by (intros ?; by apply Hst, bridges_heavy). lia.
Qed.
End Replicas.

(** ** Graphs of payments *)
Definition graph (es : list (Account * Account)) : groups := foldr (fun e g => insertEdge e.1 e.2 g) ∅ es.
Lemma neighbors_graph es a x : x ∈ neighbors (graph es) a <-> (a, x) ∈ es.
Proof.
  induction es as [|[k y] es IH]; cbn [graph foldr]; [unfold neighbors; rewrite lookup_empty; set_solver|].
  fold (graph es). rewrite neighbors_insert. cbn [fst snd]. case_decide as E; [subst|]; set_solver.
Qed.
Lemma graph_transposed es : transposed (graph es) (graph (prod_swap <$> es)).
Proof.
  intros a b. rewrite !neighbors_graph, list_elem_of_fmap. split.
  - intros H. exists (a, b). by split.
  - by intros ([x y] & [= -> ->] & ?).
Qed.

(** ** Examples *)
Definition acc (x : string) : Account := mkAccount "7" x.
Definition sample_edges : list (Account * Account) :=
  [(acc "s", acc "b1"); (acc "s", acc "b2"); (acc "b1", acc "t"); (acc "b2", acc "t"); (acc "b1", acc "u")].
Definition sample_sag_cfg : SagCfg := mkSagCfg "agg" "count" 2 2 0.
Definition sample_owner (a : Account) : nat := if decide (a = acc "b1") then 1%nat else 0%nat.

(** Two replicas, each owning one of the two bridges from [s] to [t]. *)
Lemma pruned_counts_exact_witness :
  let sc := graph sample_edges in let ga := graph (prod_swap <$> sample_edges) in
  sumZ (@replicaCount range_rev sample_sag_cfg sample_owner 2 sc ga (pairKey (acc "s") (acc "t")) <$> seq 0 2) = 2 /\
  (2 <= Z.of_nat (size (bridges sc ga (acc "s") (acc "t"))) -> 2 = Z.of_nat (size (bridges sc ga (acc "s") (acc "t")))).
Proof.
  intros sc ga.
  assert (forall i, (i < 2)%nat -> Zlen (@replicaPairs range_rev sample_sag_cfg sample_owner 2 sc ga i) < 2 ^ 63) as Hlen.
  { intros [|[|i]] ?; [vm_compute; reflexivity..|lia]. }
  assert (ids_unique (acc "s") (acc "t") (@allHeavy range_rev sample_sag_cfg sample_owner 2 sc)
    (@allHeavy range_rev sample_sag_cfg sample_owner 2 ga)) as Hu.
  { assert (forall a b : Account, a ∈ [acc "s"; acc "t"; acc "b1"; acc "b2"; acc "u"] ->
      b ∈ [acc "s"; acc "t"] -> GetID a = GetID b -> a = b) as Hinj.
    { intros a b Ha Hb. repeat (apply elem_of_cons in Ha as [->|Ha]; [
        repeat (apply elem_of_cons in Hb as [->|Hb]; [by intros ?|]); by apply not_elem_of_nil in Hb|]).
      by apply not_elem_of_nil in Ha. }
    split; intros a Ha; (apply Hinj; [|by repeat first [left; reflexivity|right]]);
      (revert a Ha; apply (bool_decide_unpack (set_Forall _ _)); vm_compute; exact I). }
  assert (forall a, (sample_owner a < 2)%nat) as Ho by (intros a; unfold sample_owner; case_decide; lia).
  destruct (@pruned_counts_exact range_rev sample_sag_cfg sample_owner 2 Ho eq_refl sc ga (acc "s") (acc "t")
    (graph_transposed _) Hu Hlen) as (_ & H & _).
  assert (sumZ (@replicaCount range_rev sample_sag_cfg sample_owner 2 sc ga (pairKey (acc "s") (acc "t")) <$> seq 0 2) = 2)
    as E by (vm_compute; reflexivity).
  split; [exact E|]. rewrite <- E. exact H.
Defined.
