(* ===== verification/Q4Count.v ===== *)
(** * Query 4, counting and answering
    ([src/workers/aggregator/scattergather.go], [src/workers/filter/scattergather.go],
    [src/workers/join/query4.go])

    [PairCounter] adds up the partial counts of the pairs of its shard and
    publishes them in batches; [PairFilter] keeps the pairs that reach the
    threshold; [Query4] collects the accounts of those pairs. *)

From S2P Require Import Prelude Maps Slices Models MsgIDs Wire Codec CodecQ4 Disk Coordinator Publisher Consumer Sharding HeavyMonitor Q4Pairs.

Record WorkerCfg := mkWorkerCfg { wcPrefix : string; wcWorkerID : Z; prevWorkerAmount : Z; thresholdAmount : Z }.
Definition wc_stage (cfg : WorkerCfg) : string := (wcPrefix cfg +:+ "#" +:+ itoa (wcWorkerID cfg))%string.

(** [strings.Cut(id, "-")]: without a separator the whole is the bank. *)
Definition dash : Ascii.ascii := Ascii.ascii_of_nat 45.
Fixpoint cutDash (s : string) : string * string :=
  match s with
  | EmptyString => (EmptyString, EmptyString)
  | String a s' => if Ascii.eqb a dash then (EmptyString, s')
                   else let (b, r) := cutDash s' in (String a b, r)
  end.
Definition accountFromID (id : string) : Account := let (bankID, accID) := cutDash id in mkAccount bankID accID.

Definition bumpEof (c : id16) (m : gmap id16 Z) : gmap id16 Z := <[c := int64 (default 0 (m !! c) + 1)]> m.

(** ** Counting *)
Module PairCounter.

Record ScatterGather := mkCounter {
  cnPub : Publisher;
  accumulators : gmap id16 pairCounts;
  eofCounters : gmap id16 Z;
  cnAcked : list nat
}.
#[global] Instance ScatterGather_pub : HasPublisher ScatterGather.
Proof.
  refine {| pub := cnPub; setPub := fun p a => mkCounter p (accumulators a) (eofCounters a) (cnAcked a) |};
    [done| |done]. by intros [].
Defined.
Definition setAcc (x : gmap id16 pairCounts) (a : ScatterGather) := mkCounter (cnPub a) x (eofCounters a) (cnAcked a).
Definition setEof (x : gmap id16 Z) (a : ScatterGather) := mkCounter (cnPub a) (accumulators a) x (cnAcked a).
Definition ackCount (n : nat) (a : ScatterGather) := mkCounter (cnPub a) (accumulators a) (eofCounters a) (cnAcked a ++ [n]).
Definition accumulator (c : id16) (a : ScatterGather) : pairCounts := default ∅ (accumulators a !! c).

Definition addPair (m : pairCounts) (pc : TxQ4PairCount) : pairCounts :=
  <[pc_Key pc := int64 (default 0 (m !! pc_Key pc) + pc_Count pc)]> m.
Definition count_handleTxQ4Message (e : InternalEnvelope) : M ScatterGather unit :=
  pairs ← liftR (DecodeTxQ4PhaseTwoBatch (Payload e));
  modS (fun a => setAcc (<[ClientId e := fold_left addPair pairs (accumulator (ClientId e) a)]> (accumulators a)) a).

Section Emit.
Context `{!GoRange, !GoSort} (cfg : WorkerCfg).
Definition countBatchSize : nat := 1000.
Definition entryOf (m : pairCounts) (pk : TxQ4PairKey) : TxQ4PairEntry :=
  mkTxQ4PairEntry (default 0 (m !! pk)) (accountFromID (Src pk)) (accountFromID (Dst pk)).
Definition emitPairs (c : id16) (batch : gmap string TxQ4PairEntry) (batchIdx : Z) : M ScatterGather unit :=
  envelope ← liftR (EncodeTxQ4PhaseThreeEnvelope c batch);
  PublishRawWithID KeyNil envelope (StageMsgID c (wc_stage cfg) "result" batchIdx).
Fixpoint emitLoop (c : id16) (m : pairCounts) (keys : list TxQ4PairKey) (batch : gmap string TxQ4PairEntry)
    (batchIdx msgSent : Z) : M ScatterGather Z :=
  match keys with
  | [] => if bool_decide (batch = ∅) then mret msgSent
          else _ ← emitPairs c batch batchIdx; mret (int64 (msgSent + 1))
  | pk :: keys' =>
      let batch' := <[pair_Key pk := entryOf m pk]> batch in
      if bool_decide (countBatchSize <= size batch')%nat then
        _ ← emitPairs c batch' batchIdx;
        emitLoop c m keys' ∅ (uint32 (batchIdx + 1)) (int64 (msgSent + 1))
      else emitLoop c m keys' batch' batchIdx msgSent
  end.
Definition count_forwardFlushEOF (c : id16) : M ScatterGather unit :=
  eofEnvelope ← liftR (wrapf "encoding flush EOF" (EncodeEOFCountsEnvelope c {[KeyNil := -1]}));
  wrapM "sending flush EOF" (PublishRawWithID KeyControlEOF eofEnvelope (StageMsgID c (wc_stage cfg) "eof" 0)).
(** What [handleEOFMessage] does to the memory; [true]: then it flushes. *)
Definition count_eof (e : InternalEnvelope) : M ScatterGather bool :=
  let c := ClientId e in
  match DecodeEOFCounts (Payload e) with
  | Panic p => liftR (Panic p)
  | flushCounts =>
      if (match flushCounts with Ok m => IsFlushEOF m | _ => false end) then
        _ ← modS (fun a => setEof (delete c (eofCounters a)) (setAcc (delete c (accumulators a)) a));
        _ ← count_forwardFlushEOF c;
        mret true
      else
        _ ← modS (fun a => setEof (bumpEof c (eofCounters a)) a);
        a ← getS;
        if default 0 (eofCounters a !! c) <? prevWorkerAmount cfg then mret false
        else
          let m := accumulator c a in
          msgSent ← emitLoop c m (sort_Slice pair_Key (range (map_to_list m).*1)) ∅ 0 0;
          eofEnvelope ← liftR (EncodeEOFCountsEnvelope c {[KeyNil := msgSent]});
          _ ← PublishRawWithID KeyControlEOF eofEnvelope (StageMsgID c (wc_stage cfg) "eof" 0);
          _ ← modS (fun a => setEof (delete c (eofCounters a)) (setAcc (delete c (accumulators a)) a));
          mret true
  end.
End Emit.

Section Handlers.
Context `{!UuidLib, !GoRange, !GoSort} (cfg : WorkerCfg) (co : CoConfig ScatterGather).
Definition count_handleEOFMessage (e : InternalEnvelope) : D (Co ScatterGather) unit :=
  flush ← onMem (count_eof cfg e);
  if (flush : bool) then Flush co else mret tt.
Definition count_handleMessage (body : bytes) : D (Co ScatterGather) (id16 * byte) :=
  DispatchD body (fun t =>
    if decide (t = MsgTxQ4) then Some (fun e => onMem (count_handleTxQ4Message e))
    else if decide (t = MsgTransactionsEOF) then Some count_handleEOFMessage else None).
Definition count_consume (body : bytes) (ack : nat) : D (Co ScatterGather) bool :=
  consumeBarrier co count_handleMessage (fun c a => bool_decide (is_Some (eofCounters a !! c)))
    (fun _ => mret tt) body (ackCount ack).
End Handlers.

(** The checkpoint of a client, before its JSON text. *)
Record countCheckpoint := mkCountCheckpoint { cp_Pairs : list TxQ4PairCount; cp_EOFCounters : Z }.
Definition count_SnapshotClient `{!GoRange} (c : id16) (a : ScatterGather) : countCheckpoint :=
  mkCountCheckpoint ((fun kv : TxQ4PairKey * Z => mkTxQ4PairCount kv.1 kv.2) <$> range (map_to_list (accumulator c a)))
    (default 0 (eofCounters a !! c)).
Definition count_RestoreClient (c : id16) (cp : countCheckpoint) (a : ScatterGather) : ScatterGather :=
  setEof (<[c := cp_EOFCounters cp]> (eofCounters a))
    (setAcc (<[c := fold_left (fun m pc => <[pc_Key pc := pc_Count pc]> m) (cp_Pairs cp) (accumulator c a)]> (accumulators a)) a).
End PairCounter.

(** ** The threshold *)
Module PairFilter.

Record ScatterGatherThreshold := mkThreshold { thPub : Publisher; eofCounters : gmap id16 Z; thAcked : list nat }.
#[global] Instance Threshold_pub : HasPublisher ScatterGatherThreshold.
Proof.
  refine {| pub := thPub; setPub := fun p a => mkThreshold p (eofCounters a) (thAcked a) |}; [done| |done]. by intros [].
Defined.
Definition setEof (x : gmap id16 Z) (a : ScatterGatherThreshold) := mkThreshold (thPub a) x (thAcked a).
Definition ackFilter (n : nat) (a : ScatterGatherThreshold) := mkThreshold (thPub a) (eofCounters a) (thAcked a ++ [n]).

Section Filter.
Context `{!GoRange} (cfg : WorkerCfg).
(** An error of encoding or sending a pair is logged, and the pair skipped. *)
Definition filterPair (c parentID : id16) (kv : string * TxQ4PairEntry) : M ScatterGatherThreshold unit :=
  if thresholdAmount cfg <=? pe_Count kv.2 then
    match EncodeAccountsEnvelope c [SrcAccount kv.2; DstAccount kv.2] with
    | Ok out => _ ← catchM (PublishRawWithID KeyNil out (DeriveMsgID parentID kv.1 0)); mret tt
    | Err _ => mret tt
    | Panic p => liftR (Panic p)
    end
  else mret tt.
Definition filter_handleTxQ4Message (e : InternalEnvelope) : M ScatterGatherThreshold unit :=
  txQ4 ← liftR (DecodeTxQ4PhaseThreeEnvelope (Payload e));
  forM (range (map_to_list txQ4)) (filterPair (ClientId e) (MsgID e)).
Definition filter_forwardFlushEOF (c : id16) : M ScatterGatherThreshold unit :=
  eofEnvelope ← liftR (wrapf "encoding flush EOF" (EncodeEOFCountsEnvelope c {[KeyNil := -1]}));
  wrapM "sending flush EOF" (PublishRawWithID KeyControlEOF eofEnvelope (StageMsgID c (wc_stage cfg) "eof" 0)).
Definition filter_sendEOF (c : id16) : M ScatterGatherThreshold unit :=
  eofEnvelope ← liftR (EncodeEOFCountsEnvelope c {[KeyNil := 0]});
  PublishRawWithID KeyControlEOF eofEnvelope (StageMsgID c (wc_stage cfg) "eof" 0).
Definition filter_eof (e : InternalEnvelope) : M ScatterGatherThreshold bool :=
  let c := ClientId e in
  match DecodeEOFCounts (Payload e) with
  | Panic p => liftR (Panic p)
  | flushCounts =>
      if (match flushCounts with Ok m => IsFlushEOF m | _ => false end) then
        _ ← modS (fun a => setEof (delete c (eofCounters a)) a);
        _ ← filter_forwardFlushEOF c;
        mret true
      else
        _ ← modS (fun a => setEof (bumpEof c (eofCounters a)) a);
        a ← getS;
        if default 0 (eofCounters a !! c) <? prevWorkerAmount cfg then mret false
        else
          _ ← filter_sendEOF c;
          _ ← modS (fun a => setEof (delete c (eofCounters a)) a);
          mret true
  end.
End Filter.

Section Handlers.
Context `{!UuidLib, !GoRange} (cfg : WorkerCfg) (co : CoConfig ScatterGatherThreshold).
Definition filter_handleEOFMessage (e : InternalEnvelope) : D (Co ScatterGatherThreshold) unit :=
  flush ← onMem (filter_eof cfg e);
  if (flush : bool) then Flush co else mret tt.
Definition filter_handleMessage (body : bytes) : D (Co ScatterGatherThreshold) (id16 * byte) :=
  DispatchD body (fun t =>
    if decide (t = MsgTxQ4) then Some (fun e => onMem (filter_handleTxQ4Message cfg e))
    else if decide (t = MsgTransactionsEOF) then Some filter_handleEOFMessage else None).
Definition filter_consume (body : bytes) (ack : nat) : D (Co ScatterGatherThreshold) bool :=
  consumeBarrier co filter_handleMessage (fun c a => bool_decide (is_Some (eofCounters a !! c)))
    (fun _ => mret tt) body (ackFilter ack).
End Handlers.

(** The checkpoint, which [Run] does not pass to the coordinator. *)
Definition filter_SnapshotClient (c : id16) (a : ScatterGatherThreshold) : Z := default 0 (eofCounters a !! c).
Definition filter_RestoreClient (c : id16) (cp : Z) (a : ScatterGatherThreshold) : ScatterGatherThreshold :=
  setEof (<[c := cp]> (eofCounters a)) a.
End PairFilter.

(** ** The answer *)
Module Query4.

Record Query4 := mkQuery4 { q4Pub : Publisher; accountsSet : gmap id16 (gset Account); eofCounters : gmap id16 Z; q4Acked : list nat }.
#[global] Instance Query4_pub : HasPublisher Query4.
Proof.
  refine {| pub := q4Pub; setPub := fun p a => mkQuery4 p (accountsSet a) (eofCounters a) (q4Acked a) |};
    [done| |done]. by intros [].
Defined.
Definition setAccounts (x : gmap id16 (gset Account)) (a : Query4) := mkQuery4 (q4Pub a) x (eofCounters a) (q4Acked a).
Definition setEof (x : gmap id16 Z) (a : Query4) := mkQuery4 (q4Pub a) (accountsSet a) x (q4Acked a).
Definition ackQuery4 (n : nat) (a : Query4) := mkQuery4 (q4Pub a) (accountsSet a) (eofCounters a) (q4Acked a ++ [n]).

Definition handleAccountsMessage (e : InternalEnvelope) : M Query4 unit :=
  accounts ← liftR (wrapf "error decoding accounts" (DecodeAccountsEnvelope (Payload e)));
  modS (fun a => setAccounts (<[ClientId e := list_to_set accounts ∪ default ∅ (accountsSet a !! ClientId e)]> (accountsSet a)) a).

Section Answer.
Context `{!GoRange, !GoSort} (cfg : WorkerCfg).
Definition q4BatchSize : nat := 1000.
Definition sendQuery4ResultEnvelope (c : id16) (subset : gset Account) (id : id16) : M Query4 unit :=
  envelope ← liftR (wrapf "error encoding query4 result envelope" (EncodeQuery4ResultEnvelope c subset));
  wrapM "error sending query4 result envelope" (PublishRawWithID KeyNil envelope id).
Fixpoint sendSubsets (c : id16) (subsets : list (list Account)) (batchIdx : Z) : M Query4 unit :=
  match subsets with
  | [] => mret tt
  | l :: rest =>
      _ ← sendQuery4ResultEnvelope c (list_to_set l) (StageMsgID c (wc_stage cfg) "result" batchIdx);
      sendSubsets c rest (uint32 (batchIdx + 1))
  end.
Definition q4_eof (e : InternalEnvelope) : M Query4 bool :=
  let c := ClientId e in
  match DecodeEOFCounts (Payload e) with
  | Panic p => liftR (Panic p)
  | flushCounts =>
      _ ← (if (match flushCounts with Ok m => IsFlushEOF m | _ => false end)
           then modS (fun a => setEof (<[c := prevWorkerAmount cfg]> (eofCounters a)) a) else mret tt);
      _ ← modS (fun a => setEof (bumpEof c (eofCounters a)) a);
      a ← getS;
      if default 0 (eofCounters a !! c) <? prevWorkerAmount cfg then mret false
      else
        let eofID := StageMsgID c (wc_stage cfg) "eof" 0 in
        match accountsSet a !! c with
        | None =>
            _ ← modS (fun a => setEof (delete c (eofCounters a)) a);
            _ ← PublishInternalWithID c MsgQuery4ResultEOF KeyControlEOF [] eofID;
            mret false
        | Some set =>
            _ ← sendSubsets c (chunks q4BatchSize (sort_Slice GetID (range (elements set)))) 0;
            _ ← modS (fun a => setEof (delete c (eofCounters a)) (setAccounts (delete c (accountsSet a)) a));
            _ ← PublishInternalWithID c MsgQuery4ResultEOF KeyControlEOF [] eofID;
            mret true
        end
  end.
End Answer.

Section Handlers.
Context `{!UuidLib, !GoRange, !GoSort} (cfg : WorkerCfg) (co : CoConfig Query4).
Definition q4_handleEOFMessage (e : InternalEnvelope) : D (Co Query4) unit :=
  flush ← onMem (q4_eof cfg e);
  if (flush : bool) then Flush co else mret tt.
Definition q4_handleMessage (body : bytes) : D (Co Query4) (id16 * byte) :=
  DispatchD body (fun t =>
    if decide (t = MsgTxAccounts) then Some (fun e => onMem (handleAccountsMessage e))
    else if decide (t = MsgTransactionsEOF) then Some q4_handleEOFMessage else None).
Definition q4_consume (body : bytes) (ack : nat) : D (Co Query4) bool :=
  consumeBarrier co q4_handleMessage (fun c a => bool_decide (is_Some (eofCounters a !! c)))
    (fun _ => mret tt) body (ackQuery4 ack).
End Handlers.

(** The checkpoint of a client, before its JSON text; an unknown client has no
    accounts. *)
Record query4Checkpoint := mkQuery4Checkpoint { cp_Accounts : list Account; cp_EOFCount : Z }.
Definition q4_SnapshotClient `{!GoRange} (c : id16) (a : Query4) : query4Checkpoint :=
  mkQuery4Checkpoint (match accountsSet a !! c with Some set => range (elements set) | None => [] end)
    (default 0 (eofCounters a !! c)).
Definition q4_RestoreClient (c : id16) (cp : query4Checkpoint) (a : Query4) : Query4 :=
  let a := match cp_Accounts cp with
           | [] => a
           | l => setAccounts (<[c := fold_left (fun set x => {[x]} ∪ set) l (default ∅ (accountsSet a !! c))]> (accountsSet a)) a
           end in
  if cp_EOFCount cp =? 0 then a else setEof (<[c := cp_EOFCount cp]> (eofCounters a)) a.

Lemma fold_union (l : list Account) : forall set : gset Account, fold_left (fun set x => {[x]} ∪ set) l set = list_to_set l ∪ set.
Proof. induction l as [|x l IH]; intros set; cbn; [set_solver|]. rewrite IH. set_solver. Qed.
(** A restarted worker has the accounts and the count of the ends of stream of
    every client it saved, for every map order; it keeps nothing for a client
    that has neither. *)
Lemma q4_restore_snapshot {GR : GoRange} c (a b : Query4) : accountsSet b !! c = None -> eofCounters b !! c = None ->
  let b' := q4_RestoreClient c (q4_SnapshotClient c a) b in
  default ∅ (accountsSet b' !! c) = default ∅ (accountsSet a !! c) /\ default 0 (eofCounters b' !! c) = default 0 (eofCounters a !! c).
Proof.
  intros Ha He b'. unfold b', q4_RestoreClient, q4_SnapshotClient. cbn [cp_Accounts cp_EOFCount].
  assert (default ∅ (accountsSet a !! c) = list_to_set (match accountsSet a !! c with Some set => range (elements set) | None => [] end))
    as Hset.
  { destruct (accountsSet a !! c) as [set|]; [|done]. cbn. rewrite range_perm. by rewrite list_to_set_elements_L. }
  rewrite Hset. clear Hset. set (l := match accountsSet a !! c with Some _ => _ | None => [] end). clearbody l.
  destruct (Z.eqb_spec (default 0 (eofCounters a !! c)) 0) as [E|E]; (split; [destruct l as [|x l]|]); cbn [setEof setAccounts accountsSet eofCounters].
  - by rewrite Ha.
  - rewrite lookup_insert_eq, Ha, fold_union. cbn [default]. set_solver.
  - destruct l; cbn [setAccounts eofCounters]; by rewrite He, E.
  - by rewrite Ha.
  - rewrite lookup_insert_eq, Ha, fold_union. cbn [default]. set_solver.
  - destruct l; cbn [setAccounts eofCounters]; by rewrite lookup_insert_eq.
Qed.
End Query4.
