(* ===== verification/Q4Split.v ===== *)
(** * Query 4: what the pair counter receives and publishes

    Theorems on [Q4Count]: the counter adds up the partial counts it handles
    ([counter_sums]) and publishes every pair once in batches that do not
    depend on map order ([counter_publishes]); a pair that a bridge replica
    sends in two flushes keeps the first count only ([split_pair_lost]). *)

From S2P Require Import Prelude Maps Slices Models MsgIDs Wire Codec CodecQ4 Disk Coordinator Publisher Consumer Sharding HeavyMonitor Q4Pairs Q4Count.
Import PairCounter.

(** ** Sums *)
Definition countOf (k : TxQ4PairKey) (pcs : list TxQ4PairCount) : list Z :=
  pc_Count <$> filter (fun pc => pc_Key pc = k) pcs.
Lemma addPairs_lookup pcs k m : in_int64 (default 0 (m !! k)) ->
  default 0 (fold_left addPair pcs m !! k) = int64 (default 0 (m !! k) + sumZ (countOf k pcs)).
Proof.
  revert m. induction pcs as [|pc pcs IH]; intros m Hm; cbn [fold_left].
  { cbn. rewrite Z.add_0_r. by rewrite int64_small. }
  unfold countOf. rewrite filter_cons. case_decide as Hk.
  - subst k. rewrite IH; unfold addPair; rewrite lookup_insert_eq; cbn [default option_rect from_option id];
      [|apply int64_range]. rewrite int64_add_l. cbn [fmap list_fmap]. f_equal.
    unfold countOf, sumZ. cbn [foldr]. lia.
  - rewrite IH; unfold addPair; rewrite lookup_insert_ne by done; done.
Qed.

(** The pairs a run of phase-two messages of a client carries. *)
Definition pairs_of (e : InternalEnvelope) : list TxQ4PairCount :=
  match DecodeTxQ4PhaseTwoBatch (Payload e) with Ok pcs => pcs | _ => [] end.
Definition decodes (e : InternalEnvelope) : bool := is_ok (DecodeTxQ4PhaseTwoBatch (Payload e)).

(** The counter adds up: after any messages of any clients, in any order,
    the count of a pair is the sum of the counts in that client's messages
    (wrapped at 64 bits), and nothing is published before the end of stream. *)
Theorem counter_sums es a : Forall (fun e => decodes e = true) es ->
  (forall c k, default 0 (accumulator c a !! k) = 0) ->
  exists a', forM es count_handleTxQ4Message a = (Ok tt, a') /\ cnPub a' = cnPub a /\
    forall c k, default 0 (accumulator c a' !! k)
      = int64 (sumZ (countOf k (flat_map pairs_of (filter (fun e => ClientId e = c) es)))).
Proof.
  intros Hd Hz.
  assert (forall l a, Forall (fun e => decodes e = true) l ->
    (forall c k, in_int64 (default 0 (accumulator c a !! k))) ->
    exists a', forM l count_handleTxQ4Message a = (Ok tt, a') /\ cnPub a' = cnPub a /\
    forall c k, default 0 (accumulator c a' !! k) = int64 (default 0 (accumulator c a !! k)
      + sumZ (countOf k (flat_map pairs_of (filter (fun e => ClientId e = c) l))))) as H.
  { clear. induction l as [|e l IH]; intros a Hl Hin.
    { exists a. split_and!; [done..|]. intros c k. cbn. by rewrite Z.add_0_r, int64_small by apply Hin. }
    apply Forall_cons in Hl as [He Hl]. cbn [forM]. unfold mbind, M_bind, count_handleTxQ4Message, liftR. unfold mbind, M_bind.
    unfold decodes in He. destruct (DecodeTxQ4PhaseTwoBatch (Payload e)) as [pcs| |] eqn:Ed; [|done..].
    unfold modS. match goal with |- context [forM l _ ?x] => destruct (IH x Hl) as (a' & Hr & Hp & Hs) end.
    { intros c k. unfold accumulator, setAcc. cbn [accumulators]. destruct (decide (ClientId e = c)) as [<-|Hne].
      - rewrite lookup_insert_eq. cbn [default option_rect from_option id].
        rewrite addPairs_lookup by apply Hin. apply int64_range.
      - rewrite lookup_insert_ne by done. apply Hin. }
    exists a'. split; [exact Hr|]. split; [exact Hp|]. intros c k. rewrite Hs. unfold accumulator at 1, setAcc. cbn [accumulators].
    rewrite filter_cons. case_decide as Hc.
    - subst c. rewrite lookup_insert_eq. cbn [default option_rect from_option id].
      rewrite addPairs_lookup by apply Hin. rewrite int64_add_l. f_equal. cbn [flat_map].
      unfold countOf. rewrite filter_app, fmap_app, sumZ_app. unfold pairs_of at 2. rewrite Ed. lia.
    - rewrite lookup_insert_ne by done. done. }
  destruct (H es a Hd) as (a' & Hr & Hp & Hs).
  { intros c k. rewrite Hz. unfold in_int64. lia. }
  exists a'. split_and!; [done..|]. intros c k. by rewrite Hs, Hz.
Qed.

(** ** The same pair in two flushes *)
Section Split.
Context {UL : UuidLib} {GR : GoRange} (scfg : SagCfg) (c : id16).

Lemma pair_envelope pc : pair_ok pc -> exists payload,
  EncodeTxQ4PhaseTwoBatchEnvelope c [pc] = Ok (EncodeInternalEnvelope (mkInternalEnvelope MsgTxQ4 c zero16 payload)) /\
  DecodeTxQ4PhaseTwoBatch payload = Ok [pc] /\ Zlen payload < 2 ^ 32 - 37.
Proof.
  intros Hok. destruct (rt_ok pc Hok) as (bs & Hw & Hr & Hb).
  assert (EncodeTxQ4PhaseTwoBatchEnvelope c [pc] = Ok (EncodeInternalEnvelope (mkInternalEnvelope MsgTxQ4 c zero16
    (be_bytes 4 (uint32 (Zlen [pc])) ++ be_bytes 2 (uint16 (Zlen bs)) ++ bs)))) as He.
  { unfold EncodeTxQ4PhaseTwoBatchEnvelope, encodeBatch. cbn [encodeBatch_loop].
    rewrite (Hw []). cbn [app wrapf]. unfold mbind, res_bind. cbn [wrapf]. rewrite bool_decide_eq_false_2; [done|].
    unfold MaxUint16. lia. }
  destruct (encodeBatch_decodeBatch "result" encodeTxQ4PairCount decodeTxQ4PairCount pair_ok 520 ltac:(unfold MaxUint16; lia) [pc]) as (payload & Hen & Hde);
    [by apply Forall_singleton|unfold in_uint, Zlen; simpl; lia|].
  exists payload. split.
  - unfold EncodeTxQ4PhaseTwoBatchEnvelope. by rewrite Hen.
  - split; [exact Hde|]. unfold EncodeTxQ4PhaseTwoBatchEnvelope in He. rewrite Hen in He.
    cbn [wrapf mbind res_bind] in He. unfold EncodeInternalEnvelope in He. cbn [MsgType_ ClientId MsgID Payload] in He.
    assert (length payload = length (be_bytes 4 (uint32 (Zlen [pc])) ++ be_bytes 2 (uint16 (Zlen bs)) ++ bs)) as Hl.
    { injection He as He. apply (f_equal length) in He. autorewrite with len in He |- *. lia. }
    unfold Zlen in *. rewrite Hl. autorewrite with len. lia.
Qed.

(** The id both messages of a pair get. *)
Definition pairMsgID (pk : TxQ4PairKey) : id16 := StageMsgID c (stage scfg) (pair_Key pk) 0.
Definition counterHandlers (t : byte) : option (InternalEnvelope -> M ScatterGather unit) :=
  if decide (t = MsgTxQ4) then Some count_handleTxQ4Message else None.

Lemma sendPair_sends kv (a : Sag) : script (sgPub a) = [] -> 0 < sgNextWorkerAmount scfg ->
  pair_ok (mkTxQ4PairCount kv.1 kv.2) ->
  exists key body, sendPair scfg c kv a = (Ok 1, setPub (accepted (mkMessage key body) (sgPub a)) a) /\
    exists payload, DecodeInternalEnvelope body = Ok (mkInternalEnvelope MsgTxQ4 c (pairMsgID kv.1) payload) /\
      DecodeTxQ4PhaseTwoBatch payload = Ok [mkTxQ4PairCount kv.1 kv.2].
Proof.
  intros Hs Hn Hok. destruct (pair_envelope _ Hok) as (payload & He & Hd & Hl).
  destruct (shardByValue_ok (sgNextWorkerPrefix scfg) (sgNextWorkerAmount scfg)
    (Src kv.1 +:+ "::" +:+ Dst kv.1)%string Hn) as (i & Hi & _).
  eexists _, _. split.
  - unfold sendPair, mbind, M_bind, liftR. rewrite Hi, He. unfold catchM, PublishRawWithID.
    rewrite send_ok by done. unfold mret, M_ret. reflexivity.
  - exists payload. split; [|exact Hd].
    apply (set_envelope_msgid (mkInternalEnvelope MsgTxQ4 c zero16 payload) _ []); [exact Hl|]. done.
Qed.

(** A pair split over two flushes of a bridge replica loses its second
    count: both messages go out and are acknowledged, but they carry the same
    id, so the counter handles the first and drops the second as a duplicate. *)
Theorem split_pair_lost pk n1 n2 (a : Sag) (w : ScatterGather) :
  script (sgPub a) = [] -> 0 < sgNextWorkerAmount scfg ->
  pair_ok (mkTxQ4PairCount pk n1) -> pair_ok (mkTxQ4PairCount pk n2) ->
  pairMsgID pk <> zero16 -> pairMsgID pk ∉ seen_of (dedup (cnPub w)) c ->
  exists k1 b1 k2 b2 a',
    (_ ← sendPair scfg c (pk, n1); sendPair scfg c (pk, n2)) a = (Ok 1, a') /\
    sent (sgPub a') = sent (sgPub a) ++ [mkMessage k1 b1; mkMessage k2 b2] /\
    exists w1, Dispatch b1 counterHandlers w = (Ok (c, MsgTxQ4), w1) /\
      accumulator c w1 = addPair (accumulator c w) (mkTxQ4PairCount pk n1) /\
      Dispatch b2 counterHandlers w1 = (Ok (zero16, MsgTxQ4), w1).
Proof.
  intros Hs Hn H1 H2 Hz Hseen.
  destruct (sendPair_sends (pk, n1) a Hs Hn H1) as (k1 & b1 & Hr1 & p1 & Hd1 & Hp1).
  set (a1 := setPub (accepted (mkMessage k1 b1) (sgPub a)) a) in *.
  destruct (sendPair_sends (pk, n2) a1) as (k2 & b2 & Hr2 & p2 & Hd2 & Hp2); [by cbn; rewrite Hs|done|done|].
  cbn [fst snd] in *. eexists k1, b1, k2, b2, _. split; [unfold mbind, M_bind; rewrite Hr1; exact Hr2|].
  split; [unfold a1; cbn; by rewrite <- app_assoc|].
  assert (forall b p w, DecodeInternalEnvelope b = Ok (mkInternalEnvelope MsgTxQ4 c (pairMsgID pk) p) ->
    Dispatch b counterHandlers w =
      if alreadySeen c (pairMsgID pk) (dedup (cnPub w)) then (Ok (zero16, MsgTxQ4), w)
      else (_ ← count_handleTxQ4Message (mkInternalEnvelope MsgTxQ4 c (pairMsgID pk) p);
            _ ← onDedup (markSeen c (pairMsgID pk)); mret (c, MsgTxQ4)) w) as HD.
  { intros b p w' Hb. unfold Dispatch, mbind, M_bind, liftR. rewrite Hb. cbn [wrapf MsgType_ ClientId MsgID].
    unfold counterHandlers. rewrite decide_True by done. unfold getS. rewrite bool_decide_eq_false_2 by done. cbn [negb andb].
    change (pub w') with (cnPub w'). by destruct (alreadySeen _ _ _). }
  rewrite (HD _ _ _ Hd1). unfold alreadySeen at 1. rewrite bool_decide_eq_false_2 by done.
  unfold count_handleTxQ4Message, mbind, M_bind, liftR. cbn [Payload ClientId]. rewrite Hp1. unfold modS.
  eexists. split; [reflexivity|]. split; [unfold accumulator at 1; cbn; by rewrite lookup_insert_eq|].
  rewrite (HD _ _ _ Hd2). unfold alreadySeen. rewrite bool_decide_eq_true_2; [done|].
  cbn. rewrite seen_markSeen, decide_True by done. set_solver.
Qed.
End Split.

(** ** Publishing the counts *)
Section Publish.
Context {GR : GoRange} (cfg : WorkerCfg) (c : id16) (m : pairCounts).

Definition entriesOf (ks : list TxQ4PairKey) : gmap string TxQ4PairEntry :=
  list_to_map ((fun pk => (pair_Key pk, entryOf m pk)) <$> ks).
(** The message of the batch at an index. *)
Definition batchEnvelope (ks : list TxQ4PairKey) : bytes :=
  match EncodeTxQ4PhaseThreeEnvelope c (entriesOf ks) with Ok b => b | _ => [] end.
Definition batchMsg (i : nat) (ks : list TxQ4PairKey) : Message :=
  mkMessage KeyNil (SetEnvelopeMsgID (batchEnvelope ks) (StageMsgID c (wc_stage cfg) "result" (Z.of_nat i))).

Definition encodes (ks : list TxQ4PairKey) : Prop := is_ok (EncodeTxQ4PhaseThreeEnvelope c (entriesOf ks)) = true.

Lemma emitPairs_up ks i (w : ScatterGather) : script (cnPub w) = [] -> encodes ks ->
  emitPairs cfg c (entriesOf ks) (Z.of_nat i) w = (Ok tt, setPub (accepted (batchMsg i ks) (cnPub w)) w).
Proof.
  intros Hs He. unfold emitPairs, mbind, M_bind, liftR, encodes in *. unfold batchMsg, batchEnvelope.
  destruct (EncodeTxQ4PhaseThreeEnvelope _ _) as [b| |]; [|done..].
  unfold PublishRawWithID. by rewrite send_ok.
Qed.

Lemma entriesOf_snoc ks pk : NoDup (pair_Key <$> (ks ++ [pk])) ->
  <[pair_Key pk := entryOf m pk]> (entriesOf ks) = entriesOf (ks ++ [pk]).
Proof.
  intros Hnd. unfold entriesOf. rewrite fmap_app in Hnd. apply NoDup_app in Hnd as (_ & Hx & _).
  rewrite fmap_app, list_to_map_app. cbn [fmap list_fmap list_to_map foldr uncurry].
  rewrite <- insert_union_r; [by rewrite (right_id_L ∅ (∪))|].
  apply not_elem_of_list_to_map_1. rewrite <- list_fmap_compose. cbn. set_solver.
Qed.
Lemma size_entriesOf ks : NoDup (pair_Key <$> ks) -> size (entriesOf ks) = length ks.
Proof.
  intros Hnd. unfold entriesOf. rewrite map_size_list_to_map; [apply length_fmap|]. by rewrite <- list_fmap_compose.
Qed.

Definition fullBatches (ks keys : list TxQ4PairKey) : list (list TxQ4PairKey) := chunks countBatchSize (ks ++ keys).

Lemma emitLoop_up keys : forall ks i (w : ScatterGather),
  script (cnPub w) = [] -> NoDup (pair_Key <$> (ks ++ keys)) -> (length ks < countBatchSize)%nat ->
  Forall encodes (fullBatches ks keys) -> Z.of_nat (i + length (fullBatches ks keys)) < 2 ^ 32 ->
  emitLoop cfg c m keys (entriesOf ks) (Z.of_nat i) (Z.of_nat i) w
    = (Ok (Z.of_nat (i + length (fullBatches ks keys))),
       setPub (mkPublisher (sent (cnPub w) ++ imap (fun j => batchMsg (i + j)) (fullBatches ks keys)) [] (dedup (cnPub w))) w).
Proof.
  induction keys as [|pk keys IH]; intros ks i w Hs Hnd Hlen Henc Hb; cbn [emitLoop].
  { unfold fullBatches in *. rewrite app_nil_r in *. destruct ks as [|k ks].
    - rewrite bool_decide_eq_true_2 by done. rewrite chunks_nil. cbn [length imap]. rewrite Nat.add_0_r, app_nil_r.
      rewrite <- Hs. unfold mret, M_ret. f_equal. destruct w as [[] ? ? ?]. done.
    - rewrite bool_decide_eq_false_2.
      2:{ intros E. apply (f_equal size) in E. unfold entriesOf in E. rewrite fmap_cons in E. cbn [list_to_map foldr] in E.
          rewrite map_size_empty in E. apply map_size_empty_iff in E. by apply insert_non_empty in E. }
      rewrite chunks_small in * by (simpl in *; lia). apply Forall_cons in Henc as [Henc _].
      unfold mbind, M_bind. rewrite emitPairs_up by done. unfold mret, M_ret. cbn [length imap] in *.
      rewrite int64_small by (unfold in_int64; lia). unfold accepted. rewrite Hs, Nat.add_0_r. do 2 f_equal. lia. }
  rewrite (cons_middle pk ks keys) in *. rewrite app_assoc in Hnd.
  assert (NoDup (pair_Key <$> (ks ++ [pk]))) as Hnd1.
  { rewrite fmap_app in Hnd. by apply NoDup_app in Hnd as [Hnd _]. }
  rewrite (entriesOf_snoc ks pk Hnd1), (size_entriesOf _ Hnd1).
  assert (fullBatches ks (pk :: keys) = fullBatches (ks ++ [pk]) keys) as Hfb.
  { unfold fullBatches. by rewrite <- app_assoc. }
  rewrite Hfb in *. case_bool_decide as Hfull.
  - assert (length (ks ++ [pk]) = countBatchSize) as Hl by (rewrite length_app in *; simpl in *; lia).
    unfold fullBatches in Henc, Hb |- *. rewrite chunks_app in Henc, Hb |- * by (unfold countBatchSize in *; lia).
    apply Forall_cons in Henc as [He Henc]. cbn [length imap] in *.
    unfold mbind, M_bind. rewrite emitPairs_up by done.
    rewrite uint32_small, int64_small by (unfold in_uint, in_int64; lia).
    replace (Z.of_nat i + 1) with (Z.of_nat (S i)) by lia. change ∅ with (entriesOf []).
    rewrite (IH [] (S i)).
    + unfold fullBatches. cbn [app]. f_equal; [do 2 f_equal; lia|]. cbn. rewrite <- app_assoc. cbn [app].
      rewrite Nat.add_0_r. do 4 f_equal. apply imap_ext. intros j x _. unfold compose. by rewrite Nat.add_succ_r.
    + cbn. by rewrite Hs.
    + rewrite fmap_app in Hnd. apply NoDup_app in Hnd as (_ & _ & Hnd). exact Hnd.
    + unfold countBatchSize. simpl. lia.
    + exact Henc.
    + unfold fullBatches. cbn [app]. lia.
  - apply IH; [done..|lia|done|done].
Qed.
End Publish.

Lemma encode_order (R1 R2 : GoRange) c (m : gmap string TxQ4PairEntry) :
  @EncodeTxQ4PhaseThreeEnvelope R1 c m = @EncodeTxQ4PhaseThreeEnvelope R2 c m.
Proof. unfold EncodeTxQ4PhaseThreeEnvelope, encodeTxQ4PhaseThree. by rewrite (sorted_keys_range R1 R2). Qed.

(** The keys of the pairs tell them apart (account ids without the separator). *)
Definition keys_distinct (m : pairCounts) : Prop :=
  forall k k', is_Some (m !! k) -> is_Some (m !! k') -> pair_Key k = pair_Key k' -> k = k'.

(** The counter publishes every pair exactly once, and a restarted counter
    repeats the same messages: whatever the orders in which the runtime iterates
    over the map and sorts, it sends the same batches, of at most a thousand
    pairs, under the same ids; the batches partition the pairs; and the end of
    stream announces their number. *)
Theorem counter_publishes (R1 R2 : GoRange) (S1 S2 : GoSort) (cfg : WorkerCfg) c (m : pairCounts) (w : ScatterGather) :
  keys_distinct m -> Z.of_nat (size m) < 2 ^ 32 -> script (cnPub w) = [] ->
  let keys := @sort_Slice S1 _ pair_Key (@range R1 _ (map_to_list m).*1) in
  let bs := chunks countBatchSize keys in
  Forall (@encodes R1 c m) bs ->
  let run R S := @emitLoop R cfg c m (@sort_Slice S _ pair_Key (@range R _ (map_to_list m).*1)) ∅ 0 0 w in
  run R1 S1 = (Ok (Z.of_nat (length bs)),
    setPub (mkPublisher (sent (cnPub w) ++ imap (@batchMsg R1 cfg c m) bs) [] (dedup (cnPub w))) w) /\
  run R2 S2 = run R1 S1 /\
  concat bs ≡ₚ (map_to_list m).*1 /\ Forall (fun b => (0 < length b <= 1000)%nat) bs.
Proof.
  intros Hinj Hsz Hs keys bs He1 run.
  assert (Forall (@encodes R2 c m) bs) as He2.
  { eapply Forall_impl; [exact He1|]. intros ks. unfold encodes. by rewrite (encode_order R1 R2). }
  assert (forall (R : GoRange) (S : GoSort), @sort_Slice S _ pair_Key (@range R _ (map_to_list m).*1) = keys) as Hkeys.
  { intros R S. apply sort_unique; [by rewrite !range_perm|].
    intros a b Ha Hb Hab. rewrite range_perm in Ha, Hb.
    apply list_elem_of_fmap in Ha as ([a' va] & -> & Ha). apply list_elem_of_fmap in Hb as ([b' vb] & -> & Hb).
    apply elem_of_map_to_list in Ha, Hb. cbn in *. apply Hinj; [by eexists..|done]. }
  assert (keys ≡ₚ (map_to_list m).*1) as Hp by (unfold keys; by rewrite sort_perm, range_perm).
  destruct (chunks_spec countBatchSize keys ltac:(unfold countBatchSize; lia)) as [Hcc Hcl].
  assert (NoDup (pair_Key <$> keys)) as Hnd.
  { rewrite Hp. apply NoDup_fmap_2_strong; [|apply NoDup_fst_map_to_list].
    intros a b Ha Hb Hab. apply list_elem_of_fmap in Ha as ([a' va] & -> & Ha). apply list_elem_of_fmap in Hb as ([b' vb] & -> & Hb).
    apply elem_of_map_to_list in Ha, Hb. cbn in *. apply Hinj; [by eexists..|done]. }
  assert (length bs <= size m)%nat as Hlen.
  { rewrite <- length_map_to_list, <- (length_fmap fst), <- Hp, <- Hcc. unfold bs. clear -Hcl.
    induction Hcl as [|x l Hx _ IH]; cbn [concat length]; rewrite ?length_app; lia. }
  assert (forall (R : GoRange) (S : GoSort), Forall (@encodes R c m) bs ->
    run R S = (Ok (Z.of_nat (length bs)), setPub (mkPublisher (sent (cnPub w)
      ++ imap (@batchMsg R cfg c m) bs) [] (dedup (cnPub w))) w)) as Hrun.
  { intros R S He. unfold run. rewrite Hkeys. apply (@emitLoop_up R cfg c m keys [] 0 w Hs Hnd); [unfold countBatchSize; simpl; lia|done|].
    unfold fullBatches. cbn [app]. fold bs. lia. }
  split; [by apply Hrun|]. split; [|split].
  - rewrite !Hrun by done. do 4 f_equal. apply imap_ext. intros i x _. unfold batchMsg, batchEnvelope. by rewrite (encode_order R1 R2).
  - by rewrite <- Hp, <- Hcc.
  - exact Hcl.
Qed.

(** ** Examples *)
Definition pkA : TxQ4PairKey := mkTxQ4PairKey "1-a" "2-b".
Definition pkB : TxQ4PairKey := mkTxQ4PairKey "1-a" "3-c".
Definition new_counter : ScatterGather := mkCounter (mkPublisher [] [] newDedupState) ∅ ∅ [].
Definition phase2 (cl : id16) (l : list TxQ4PairCount) : InternalEnvelope :=
  mkInternalEnvelope MsgTxQ4 cl zero16
    (match encodeBatch "result" l encodeTxQ4PairCount with Ok b => b | _ => [] end).
Definition phase2_msgs : list InternalEnvelope :=
  [phase2 id1 [mkTxQ4PairCount pkA 3]; phase2 id2 [mkTxQ4PairCount pkA 9];
   phase2 id1 [mkTxQ4PairCount pkB 1; mkTxQ4PairCount pkA 4]].

Lemma counter_sums_witness :
  exists a', forM phase2_msgs count_handleTxQ4Message new_counter = (Ok tt, a') /\
    default 0 (accumulator id1 a' !! pkA) = 7.
Proof.
  destruct (counter_sums phase2_msgs new_counter) as (a' & Hr & _ & Hs).
  - repeat constructor.
  - intros c k. unfold accumulator, new_counter. cbn [accumulators]. rewrite lookup_empty. reflexivity.
  - exists a'. split; [exact Hr|]. rewrite Hs. vm_compute. reflexivity.
Defined.

Definition split_cfg : SagCfg := mkSagCfg "sag" "acc" 2 5 0.
Definition new_sag : Sag := mkSag (mkPublisher [] [] newDedupState) (mkPublisher [] [] newDedupState)
  ∅ (NewHeavyAccountsMonitor 0 2) ∅ ∅ ∅ ∅ [].
(** A batch limit of two pairs splits the first pair over two flushes. *)
Example split_batches : (fun b => b !! pkA) <$> batches 2 [pkA; pkA; pkB; pkA] ∅ = [Some 2; Some 1].
Proof. vm_compute. reflexivity. Qed.

Lemma split_pair_lost_witness :
  exists k1 b1 k2 b2 a',
    (_ ← @sendPair split_cfg id1 (pkA, 2); @sendPair split_cfg id1 (pkA, 1)) new_sag = (Ok 1, a') /\
    sent (sgPub a') = [mkMessage k1 b1; mkMessage k2 b2] /\
    exists w1, @Dispatch uuid_letters _ _ b1 counterHandlers new_counter = (Ok (id1, MsgTxQ4), w1) /\
      accumulator id1 w1 !! pkA = Some 2 /\
      @Dispatch uuid_letters _ _ b2 counterHandlers w1 = (Ok (zero16, MsgTxQ4), w1).
Proof.
  destruct (@split_pair_lost uuid_letters split_cfg id1 pkA 2 1 new_sag new_counter)
    as (k1 & b1 & k2 & b2 & a' & H1 & H2 & w1 & H3 & H4 & H5).
  - reflexivity.
  - reflexivity.
  - repeat split; vm_compute; congruence.
  - repeat split; vm_compute; congruence.
  - intros E. apply (f_equal id16_bytes) in E. vm_compute in E. discriminate.
  - unfold seen_of, new_counter. cbn [cnPub dedup newDedupState seen]. rewrite lookup_empty. apply not_elem_of_empty.
  - exists k1, b1, k2, b2, a'. split; [exact H1|]. split; [exact H2|].
    exists w1. split; [exact H3|]. split; [|exact H5]. rewrite H4. unfold addPair, accumulator, new_counter.
    cbn [accumulators pc_Key]. apply lookup_insert_eq.
Defined.

Definition two_pairs : pairCounts := {[ pkA := 7; pkB := 1 ]}.
Definition count_cfg : WorkerCfg := mkWorkerCfg "acc" 0 2 5.
Lemma counter_publishes_witness :
  let bs := chunks countBatchSize (@sort_Slice sort_merge _ pair_Key (@range range_rev _ (map_to_list two_pairs).*1)) in
  length bs = 1%nat /\
  @emitLoop range_id count_cfg id1 two_pairs (@sort_Slice sort_merge _ pair_Key (@range range_id _ (map_to_list two_pairs).*1)) ∅ 0 0 new_counter
  = @emitLoop range_rev count_cfg id1 two_pairs (@sort_Slice sort_merge _ pair_Key (@range range_rev _ (map_to_list two_pairs).*1)) ∅ 0 0 new_counter.
Proof.
  split; [vm_compute; reflexivity|].
  apply (counter_publishes range_rev range_id sort_merge sort_merge count_cfg id1 two_pairs new_counter).
  - intros k k' [v Hk] [v' Hk']. unfold two_pairs in Hk, Hk'.
    rewrite lookup_insert_Some, lookup_singleton_Some in Hk, Hk'.
    destruct Hk as [[<- _]|[_ [<- _]]], Hk' as [[<- _]|[_ [<- _]]]; done.
  - vm_compute. reflexivity.
  - reflexivity.
  - repeat constructor; vm_compute; reflexivity.
Defined.
