(* ===== verification/Filter.v ===== *)
(** * Filters and cleaner ([src/workers/filter/service.go], [syncfilter.go],
    [date_range.go], [src/workers/cleaner/cleaner.go])

    Synchronised workers that answer every batch of transactions with the part
    they let through.  [SyncFilter] tests an amount or a payment format,
    [DateRange] a range of timestamps, [Cleaner] blanks fields. *)

From S2P Require Import Prelude Maps Slices Models MsgIDs Wire Codec CodecQ4 Disk Coordinator Publisher Consumer EofSync Sharding WorkerMem Router.

(** ** [service.go] *)
Section Service.
Local Open Scope string_scope.
Definition filterTransactionByAmount (tx : Transaction) (operator : string) (value : float64) : bool :=
  if decide (operator = ">") then f64_gt (AmountPaid tx) value
  else if decide (operator = "<") then f64_lt (AmountPaid tx) value
  else if decide (operator = "==") then f64_eq (AmountPaid tx) value
  else false.
Definition filterTransactionByFormat (tx : Transaction) (operator : string) (values : list string) : bool :=
  if decide (PaymentFormat tx = "") then false
  else
    let matched := bool_decide (PaymentFormat tx ∈ values) in
    if decide (operator = "==") then matched
    else if decide (operator = "!=") then negb matched
    else false.
Definition filterTransaction (tx : Transaction) (filterType operator : string) (floatValue : float64)
    (stringValues : list string) : bool :=
  if decide (filterType = "amount") then filterTransactionByAmount tx operator floatValue
  else if decide (filterType = "format") then filterTransactionByFormat tx operator stringValues
  else false.

(** ** Parameters *)
(** A missing key and a null are the same [nil]. *)
Definition parseValueStrings (raw : option json) : res (list string) :=
  match raw with
  | None => Ok []
  | Some (JStr v) => if decide (v = "") then Ok [] else Ok [v]
  | Some (JList v) =>
      (fix go (l : list (option string)) : res (list string) :=
        match l with
        | [] => Ok []
        | None :: _ => Err (ErrMsg "value_string entries must be strings")
        | Some s :: l' => out ← go l'; Ok (s :: out)
        end) v
  | Some _ => Err (ErrMsg "Invalid value_string parameter for SyncFilter")
  end.

Record FilterCfg := mkFilterCfg {
  fcPrefix : string;
  fcQuery : Z;
  fcSyncKey : KeyType;
  fType : string;
  fField : string;
  fOperator : string;
  fValueFloat : float64;
  fValueStrings : list string
}.
Definition NewSyncFilter (prefix : string) (query : Z) (syncKey : KeyType) (params : gmap string json) : res FilterCfg :=
  match params !! "type" with
  | Some (JStr typeVal) =>
      match params !! "field" with
      | Some (JStr field) =>
          match params !! "operator" with
          | Some (JStr operator) =>
              match params !! "value_float" with
              | Some (JNum valueFloat) =>
                  valueStrings ← parseValueStrings (params !! "value_string");
                  if bool_decide (typeVal = "format") && bool_decide (valueStrings = [])
                  then Err (ErrMsg "format filter requires at least one value_string entry")
                  else Ok (mkFilterCfg prefix query syncKey typeVal field operator valueFloat valueStrings)
              | _ => Err (ErrMsg "Invalid value_float parameter for SyncFilter")
              end
          | _ => Err (ErrMsg "Invalid operator parameter for SyncAmountFilter")
          end
      | _ => Err (ErrMsg "Invalid field parameter for SyncAmountFilter")
      end
  | _ => Err (ErrMsg "Invalid type parameter for SyncAmountFilter")
  end.
End Service.

(** ** [syncfilter.go] *)
Section SyncFilter.
Context `{!UuidLib, !GoRange} (cfg : FilterCfg).
Definition passes (tx : Transaction) : bool :=
  filterTransaction tx (fType cfg) (fOperator cfg) (fValueFloat cfg) (fValueStrings cfg).
Definition toQuery1Result (tx : Transaction) : Query1Result :=
  mkQuery1Result (FromBank tx) (FromAccount tx) (ToBank tx) (ToAccount tx) (AmountPaid tx).

Definition sf_encodeAndSendBatch (c : id16) (msgType : byte) (payload : bytes) (batchLength : Z) (id : id16) : M WorkerMem unit :=
  _ ← PublishInternalWithID c msgType KeyNil payload id;
  runCtl (MessageSentWithKey c KeyNil id batchLength).
(** The batch is counted as received before anything is sent. *)
Definition forwardTransactionBatchMessage (transactions : list Transaction) (c parentID : id16) : M WorkerMem unit :=
  _ ← runCtl (MessageReceived c parentID (Zlen transactions));
  match filter (fun tx => passes tx = true) transactions with
  | [] => mret tt
  | filteredTx =>
      bs ← liftR (wrapf "encoding filtered transaction batch" (EncodeTransactionBatch filteredTx));
      sf_encodeAndSendBatch c MsgTransactionsBatch bs (Zlen filteredTx) (DeriveMsgID parentID KeyNil 0)
  end.
Definition forwardQuery1ResultBatchMessage (transactions : list Transaction) (c parentID : id16) : M WorkerMem unit :=
  _ ← runCtl (MessageReceived c parentID (Zlen transactions));
  match toQuery1Result <$> filter (fun tx => passes tx = true) transactions with
  | [] => mret tt
  | results =>
      bs ← liftR (wrapf "encoding query1 result batch" (EncodeQuery1ResultBatch results));
      sf_encodeAndSendBatch c MsgQuery1Result bs (Zlen results) (DeriveMsgID parentID KeyNil 0)
  end.
Definition Query1 : Z := 1.
Definition sf_handleTransactionsBatchMessage (e : InternalEnvelope) : M WorkerMem unit :=
  txBatch ← liftR (wrapf "decoding transaction batch" (DecodeTransactionBatch (Payload e)));
  if fcQuery cfg =? Query1
  then wrapM "forwarding query1 result batch" (forwardQuery1ResultBatchMessage txBatch (ClientId e) (MsgID e))
  else wrapM "forwarding transaction batch" (forwardTransactionBatchMessage txBatch (ClientId e) (MsgID e)).

Definition resolveEOFMessage (finalSent : gmap string Z) : res (byte * string * bytes) :=
  if fcQuery cfg =? Query1 then Ok (MsgQuery1ResultEOF, KeyNil, [])
  else
    eofPayload ← wrapf "encoding EOF counts for EOF envelope" (EncodeEOFCounts finalSent);
    Ok (MsgTransactionsEOF, KeyControlEOF, eofPayload).
Definition resolveEOFOnRetryExceeded : res (byte * string * bytes) :=
  if fcQuery cfg =? Query1 then Ok (MsgQuery1ResultEOF, KeyNil, [])
  else
    eofPayload ← EncodeEOFCounts {[KeyNil := -1]};
    Ok (MsgTransactionsEOF, KeyControlEOF, eofPayload).
Definition sf_eofID (c : id16) : id16 := StageMsgID c (fcPrefix cfg) "eof" 0.
Definition sf_onLeaderFlush (c : id16) (finalSent : gmap string Z) : M WorkerMem unit :=
  '(msgType, key, payload) ← liftR (resolveEOFMessage finalSent);
  PublishInternalWithID c msgType key payload (sf_eofID c).
Definition sf_onRetryExceeded (c : id16) : M WorkerMem unit :=
  '(msgType, key, payload) ← liftR resolveEOFOnRetryExceeded;
  PublishInternalWithID c msgType key payload (sf_eofID c).
End SyncFilter.

(** The message loop of these workers: [handleMessage] under [Run]'s callback.
    Deliveries are numbered; [ackSync] acknowledges one. *)
Definition ackSync (n : nat) (w : WorkerMem) : WorkerMem := mkWorkerMem (wmPub w) (wmEof w) (wmEvents w ++ [Acked n]).
Section Loop.
Context `{!UuidLib, !GoRange} (eofCfg : config) (key : KeyType) (co : CoConfig WorkerMem)
  (batch : InternalEnvelope -> M WorkerMem unit).
Definition sync_handleMessage (body : bytes) (ack : nat) : D (Co WorkerMem) (id16 * byte) :=
  DispatchD body (fun t =>
    if decide (t = MsgTransactionsBatch) then Some (fun e => onMem (batch e))
    else if decide (t = MsgTransactionsEOF) then Some (syncHandleEOF eofCfg key co (Some ack)) else None).
Definition sync_consume (body : bytes) (ack : nat) : D (Co WorkerMem) bool :=
  consumeSync co (fun b => sync_handleMessage b ack) body (ackSync ack).
End Loop.

(** ** [date_range.go] *)
Section DateRange.
Context `{!UuidLib, !GoRange}.
Record DateCfg := mkDateCfg { dcPrefix : string; dcSyncKey : KeyType; drType : string; fromDate : string; toDate : string }.
Definition NewDateRange (prefix : string) (syncKey : KeyType) (params : gmap string json) : res DateCfg :=
  match params !! "type"%string with
  | Some (JStr typeVal) =>
      match params !! "from"%string with
      | Some (JStr from) =>
          match params !! "to"%string with
          | Some (JStr to) =>
              if bool_decide (from = EmptyString) || bool_decide (to = EmptyString)
              then Err (ErrMsg "both 'from' and 'to' are required for DateRangeFilter")
              else Ok (mkDateCfg prefix syncKey typeVal from to)
          | _ => Err (ErrMsg "Invalid to parameter for DateRangeFilter")
          end
      | _ => Err (ErrMsg "Invalid from parameter for DateRangeFilter")
      end
  | _ => Err (ErrMsg "Invalid type parameter for DateRangeFilter")
  end.

Variable cfg : DateCfg.
(** Timestamps are compared as strings. *)
Definition filterTransactionByDate (tx : Transaction) : bool :=
  if decide (Timestamp tx = EmptyString) then false
  else negb (str_lt (Timestamp tx) (fromDate cfg) || str_lt (toDate cfg) (Timestamp tx)).

(** The booleans: an error is logged where it happens. *)
Definition dr_sendMessageToBroker (msgType : byte) (c : id16) (payload : bytes) (routingKey : string)
    (payloadLen : Z) (id : id16) : M WorkerMem bool :=
  r ← catchM (PublishInternalWithID c msgType routingKey payload id);
  match r with
  | Some _ => mret false
  | None => _ ← runCtl (MessageSentWithKey c routingKey id payloadLen); mret true
  end.
Definition dr_sendTransactionBatch (transactions : list Transaction) (c : id16) (routingKey : string)
    (parentID : id16) : M WorkerMem bool :=
  match transactions with
  | [] => mret true
  | _ =>
      match EncodeTransactionBatch transactions with
      | Ok txPayload => dr_sendMessageToBroker MsgTransactionsBatch c txPayload routingKey (Zlen transactions)
                          (DeriveMsgID parentID routingKey 0)
      | Err _ => mret false
      | Panic p => liftR (Panic p)
      end
  end.
Definition isUSD (tx : Transaction) : bool := bool_decide (PaymentCurrency tx = Dollar).
Definition dr_handleTransactionsBatchMessage (e : InternalEnvelope) : M WorkerMem unit :=
  transactions ← liftR (DecodeTransactionBatch (Payload e));
  let inRange := filter (fun tx => filterTransactionByDate tx = true) transactions in
  ok ← dr_sendTransactionBatch (filter (fun tx => isUSD tx = true) inRange) (ClientId e) KeyDollarTransaction (MsgID e);
  if negb ok then failM (ErrMsg "error sending dollar transaction batch to broker") else
  ok ← dr_sendTransactionBatch (filter (fun tx => isUSD tx = false) inRange) (ClientId e) KeyNonDollarTransaction (MsgID e);
  if negb ok then failM (ErrMsg "error sending non-dollar transaction batch to broker") else
  runCtl (MessageReceived (ClientId e) (MsgID e) (Zlen transactions)).

(** The end of the stream, also the cleaner's. *)
Definition sync_onLeaderFlush (prefix : string) (c : id16) (finalSent : gmap string Z) : M WorkerMem unit :=
  eofPayload ← liftR (EncodeEOFCounts finalSent);
  PublishInternalWithID c MsgTransactionsEOF KeyControlEOF eofPayload (StageMsgID c prefix "eof" 0).
Definition sync_onRetryExceeded (prefix : string) (c : id16) : M WorkerMem unit :=
  eofPayload ← liftR (EncodeEOFCounts {[KeyNil := -1]});
  PublishInternalWithID c MsgTransactionsEOF KeyControlEOF eofPayload (StageMsgID c prefix "eof" 0).
End DateRange.

(** ** [cleaner.go] *)
Section Cleaner.
Context `{!UuidLib, !GoRange}.
(** The strings of the list; anything else is skipped. *)
Definition fieldsToClean (params : gmap string json) : list string :=
  match params !! "field"%string with Some (JList l) => omap (fun x => x) l | _ => [] end.
Definition withFields (fb fa tb ta pf : string) (t : Transaction) : Transaction :=
  mkTransaction (Timestamp t) fb fa tb ta (AmountReceived t) (ReceivingCurrency t) (AmountPaid t) (PaymentCurrency t)
    pf (IsLaundering t).
Definition cleanField (t : Transaction) (field : string) : Transaction :=
  let ignore := EmptyString in
  if decide (field = "from_bank"%string) then withFields ignore (FromAccount t) (ToBank t) (ToAccount t) (PaymentFormat t) t
  else if decide (field = "from_account"%string) then withFields (FromBank t) ignore (ToBank t) (ToAccount t) (PaymentFormat t) t
  else if decide (field = "to_bank"%string) then withFields (FromBank t) (FromAccount t) ignore (ToAccount t) (PaymentFormat t) t
  else if decide (field = "to_account"%string) then withFields (FromBank t) (FromAccount t) (ToBank t) ignore (PaymentFormat t) t
  else if decide (field = "payment_format"%string) then withFields (FromBank t) (FromAccount t) (ToBank t) (ToAccount t) ignore t
  else t.
Variable fields : list string.
Definition cleanTransaction (tx : Transaction) : Transaction := fold_left cleanField fields tx.
(** Received is counted before the batch is sent. *)
Definition cleaner_handleTransactionMessage (e : InternalEnvelope) : M WorkerMem unit :=
  transactions ← liftR (DecodeTransactionBatch (Payload e));
  _ ← runCtl (MessageReceived (ClientId e) (MsgID e) (Zlen transactions));
  txPayload ← liftR (EncodeTransactionBatch (cleanTransaction <$> transactions));
  let txID := DeriveMsgID (MsgID e) KeyNil 0 in
  _ ← PublishInternalWithID (ClientId e) MsgTransactionsBatch KeyNil txPayload txID;
  runCtl (MessageSentWithKey (ClientId e) KeyNil txID (Zlen transactions)).
End Cleaner.

(** ** One answer per batch *)
Section Forward.
Context {UL : UuidLib} {GR : GoRange}.

Lemma publish_up c msgType key payload id n (w : WorkerMem) : broker_up w ->
  (_ ← PublishInternalWithID c msgType key payload id; runCtl (MessageSentWithKey c key id n)) w =
  (Ok tt, mkWorkerMem (mkPublisher (sent (wmPub w) ++ [mkMessage key (EncodeInternalEnvelope
      (mkInternalEnvelope msgType c id payload))]) [] (dedup (wmPub w)))
    (MessageSentWithKey c key id n (wmEof w)).1 (wmEvents w)).
Proof.
  intros Hup. unfold PublishInternalWithID, mbind, M_bind. rewrite send_up by done.
  unfold runCtl, push, MessageSentWithKey, updClient. simpl. by rewrite app_nil_r.
Qed.

Lemma sf_send_up c msgType payload n id (w : WorkerMem) : broker_up w ->
  sf_encodeAndSendBatch c msgType payload n id w =
  (Ok tt, mkWorkerMem (mkPublisher (sent (wmPub w) ++ [mkMessage KeyNil (EncodeInternalEnvelope
      (mkInternalEnvelope msgType c id payload))]) [] (dedup (wmPub w)))
    (MessageSentWithKey c KeyNil id n (wmEof w)).1 (wmEvents w)).
Proof. apply publish_up. Qed.

(** What a synchronised worker has sent and counted for a batch it answers
    with the [n] items of [payload]. *)
Definition answered (e : InternalEnvelope) (msgType : byte) (key : string) (payload : bytes) (n : Z) (w : WorkerMem) : WorkerMem :=
  let id := DeriveMsgID (MsgID e) key 0 in
  mkWorkerMem (mkPublisher (sent (wmPub w) ++ [mkMessage key (EncodeInternalEnvelope
      (mkInternalEnvelope msgType (ClientId e) id payload))]) [] (dedup (wmPub w)))
    (MessageSentWithKey (ClientId e) key id n (wmEof w)).1 (wmEvents w).
Definition received (e : InternalEnvelope) (n : Z) (w : WorkerMem) : WorkerMem :=
  mkWorkerMem (wmPub w) (MessageReceived (ClientId e) (MsgID e) n (wmEof w)).1 (wmEvents w).

Lemma received_run e n w : runCtl (MessageReceived (ClientId e) (MsgID e) n) w = (Ok tt, received e n w).
Proof. unfold runCtl, received, MessageReceived, updClient. simpl. by rewrite app_nil_r. Qed.

Lemma Zlen_filter {A} (P : A -> Prop) `{!forall x, Decision (P x)} (l : list A) :
  in_uint 32 (Zlen l) -> in_uint 32 (Zlen (filter P l)).
Proof. unfold in_uint, Zlen. pose proof (length_filter P l). lia. Qed.
Lemma Forall_filter_l {A} (Q P : A -> Prop) `{!forall x, Decision (P x)} (l : list A) : Forall Q l -> Forall Q (filter P l).
Proof. rewrite !Forall_forall. intros HQ x Hx. apply list_elem_of_filter in Hx as [_ Hx]. by apply HQ. Qed.

(** A filter answers a batch with exactly the transactions that pass, in
    their order: nothing when none passes, else one message, with the id derived
    from the batch's, that decodes to them (for query 1, to their results); the
    whole batch is counted as received and what passed as sent. *)
Theorem filter_forwards cfg e txs w :
  DecodeTransactionBatch (Payload e) = Ok txs -> Forall tx_ok txs -> in_uint 32 (Zlen txs) -> broker_up w ->
  let out := filter (fun tx => passes cfg tx = true) txs in
  (out = [] /\ sf_handleTransactionsBatchMessage cfg e w = (Ok tt, received e (Zlen txs) w)) \/
  (out <> [] /\ exists msgType payload,
    sf_handleTransactionsBatchMessage cfg e w =
      (Ok tt, answered e msgType KeyNil payload (Zlen out) (received e (Zlen txs) w)) /\
    if fcQuery cfg =? Query1
    then msgType = MsgQuery1Result /\ DecodeQuery1ResultBatch payload = Ok (toQuery1Result <$> out)
    else msgType = MsgTransactionsBatch /\ DecodeTransactionBatch payload = Ok out).
Proof.
  intros Hd Hok Hlen Hup out.
  assert (Forall tx_ok out) as Hok' by by apply Forall_filter_l.
  assert (in_uint 32 (Zlen out)) as Hlen' by by apply Zlen_filter.
  unfold sf_handleTransactionsBatchMessage. unfold mbind at 1 2, M_bind, liftR. rewrite Hd. cbn [wrapf].
  destruct (fcQuery cfg =? Query1) eqn:Eq.
  - assert (Forall q1_ok (toQuery1Result <$> out)) as Hq1.
    { apply Forall_fmap. eapply Forall_impl; [exact Hok'|]. intros tx (Hs & Hr & Hp). unfold tx_strings in Hs.
      rewrite !Forall_cons in Hs. unfold q1_ok. cbn. tauto. }
    unfold wrapM, forwardQuery1ResultBatchMessage. unfold mbind at 1 3, M_bind. rewrite received_run. fold out.
    destruct out as [|tx out'] eqn:Eo; [by left|right]. split; [done|].
    destruct (encodeBatch_decodeBatch "result" encodeQuery1Result decodeQuery1Result q1_ok 1032
      ltac:(unfold MaxUint16; lia) (toQuery1Result <$> (tx :: out')) Hq1) as (bs & He & Hde).
    { unfold Zlen in *. by rewrite length_fmap. }
    exists MsgQuery1Result, bs. split; [|done]. cbn [fmap list_fmap] in *.
    unfold EncodeQuery1ResultBatch, mbind, M_bind, liftR. rewrite He. cbn [wrapf].
    rewrite sf_send_up by done. cbn [wrapf]. unfold answered. do 3 f_equal. unfold Zlen. cbn [length]. by rewrite length_fmap.
  - unfold wrapM, forwardTransactionBatchMessage. unfold mbind at 1 3, M_bind. rewrite received_run. fold out.
    destruct out as [|tx out'] eqn:Eo; [by left|right]. split; [done|].
    destruct (tx_batch_codec (tx :: out') Hok' Hlen') as (bs & He & Hde).
    exists MsgTransactionsBatch, bs. split; [|done]. rewrite He. unfold mbind, M_bind, liftR. cbn [wrapf].
    by rewrite sf_send_up.
Qed.
End Forward.

(** ** Ranges of dates *)
Lemma str_lt_gt s t : str_lt s t = true -> str_lt t s = false.
Proof.
  unfold str_lt, String.ltb. rewrite (String.compare_antisym t s). by destruct (String.compare s t).
Qed.
Lemma str_lt_le_trans s t u : String.le s t -> str_lt u s = true -> str_lt u t = true.
Proof.
  intros Hst Hus. destruct (str_lt u t) eqn:E; [done|]. apply str_lt_le in E.
  assert (String.le s u) as Hsu by (by transitivity t). apply str_lt_le in Hsu. congruence.
Qed.

(** Two ranges that meet cover the whole range once: for bounds in order, a
    transaction passes the long range exactly when it passes one of the two
    shorter ones, and it passes both only if its timestamp is the bound they
    share (a bare date, which no timestamp with a time of day equals). *)
Theorem date_ranges_partition prefix key ty from mid to tx :
  String.le from mid -> String.le mid to ->
  let pass a b := filterTransactionByDate (mkDateCfg prefix key ty a b) tx in
  pass from to = pass from mid || pass mid to /\
  (pass from mid = true /\ pass mid to = true -> Timestamp tx = mid).
Proof.
  intros Hfm Hmt pass. unfold pass, filterTransactionByDate. cbn [fromDate toDate].
  case_decide as He; [split; [done|]; by intros [? _]|]. rewrite !negb_true_iff, !orb_false_iff.
  set (t := Timestamp tx) in *. split.
  - destruct (str_lt mid t) eqn:Emt.
    + assert (str_lt t from = false) as ->.
      { apply str_lt_le. transitivity mid; [done|]. by apply str_lt_le, str_lt_gt. }
      rewrite (str_lt_gt _ _ Emt). cbn. by rewrite orb_false_r || done.
    + assert (str_lt to t = false) as ->.
      { apply str_lt_le in Emt. apply str_lt_le. by transitivity mid. }
      rewrite !orb_false_r. destruct (str_lt t from) eqn:Etf; cbn; [|done].
      by rewrite (str_lt_le_trans from mid t Hfm Etf).
  - intros [[_ H1] [H2 _]]. apply str_lt_le in H1, H2. by apply (anti_symm String.le).
Qed.

(** The date filter counts a batch as received only after everything it lets
    through was sent: a handler that fails, wherever it fails, leaves the counts
    of received batches as they were, and one that succeeds counts the batch. *)
Theorem date_range_counts_after_sending cfg e txs w :
  DecodeTransactionBatch (Payload e) = Ok txs ->
  let (r, w') := dr_handleTransactionsBatchMessage cfg e w in
  let counted c := msgRcvByID (client_of (wmEof w') c) in
  let before c := msgRcvByID (client_of (wmEof w) c) in
  (r = Ok tt /\ counted (ClientId e) = <[MsgID e := Zlen txs]> (before (ClientId e))) \/
  (is_ok r = false /\ forall c, counted c = before c).
Proof.
  intros Hd.
  assert (forall l key w0, let (r, w1) := dr_sendTransactionBatch l (ClientId e) key (MsgID e) w0 in
    ((exists b, r = Ok b) \/ exists p, r = Panic p) /\ forall c, msgRcvByID (client_of (wmEof w1) c) = msgRcvByID (client_of (wmEof w0) c)) as Hsend.
  { intros l key w0. unfold dr_sendTransactionBatch. destruct l as [|tx l]; [split; [left; by eexists|done]|].
    destruct (EncodeTransactionBatch (tx :: l)) as [bs|x|p]; [|split; [left; by eexists|done]|split; [right; by eexists|done]].
    unfold dr_sendMessageToBroker, PublishInternalWithID, mbind, M_bind, catchM, send.
    assert (forall w1, wmEof w1 = wmEof w0 -> forall c, msgRcvByID (client_of (MessageSentWithKey (ClientId e) key
      (DeriveMsgID (MsgID e) key 0) (Zlen (tx :: l)) (wmEof w1)).1 c) = msgRcvByID (client_of (wmEof w0) c)) as Hctl.
    { intros w1 -> c. unfold MessageSentWithKey, updClient. cbn [fst]. unfold client_of at 1.
      destruct (decide (ClientId e = c)) as [->|Hne]; [by rewrite lookup_insert_eq|by rewrite lookup_insert_ne]. }
    destruct (script (pub w0)) as [|[err|] rest]; (split; [left; by eexists|]); try done; by apply Hctl. }
  unfold dr_handleTransactionsBatchMessage. unfold mbind at 1, M_bind, liftR. rewrite Hd.
  unfold mbind at 1, M_bind. set (inRange := filter _ txs).
  pose proof (Hsend (filter (fun tx => isUSD tx = true) inRange) KeyDollarTransaction w) as H1.
  destruct (dr_sendTransactionBatch _ _ KeyDollarTransaction _ w) as [r1 w1]. destruct H1 as [[[b1 ->]|[p1 ->]] H1]; [|right; by split].
  destruct b1; cbn [negb]; [|right; by split].
  unfold mbind at 1, M_bind.
  pose proof (Hsend (filter (fun tx => isUSD tx = false) inRange) KeyNonDollarTransaction w1) as H2.
  destruct (dr_sendTransactionBatch _ _ KeyNonDollarTransaction _ w1) as [r2 w2]. destruct H2 as [[[b2 ->]|[p2 ->]] H2]; [|right; split; [done|intros c; by rewrite H2, H1]].
  destruct b2; cbn [negb]; [|right; split; [done|intros c; by rewrite H2, H1]].
  rewrite received_run. left. split; [done|]. unfold received, MessageReceived, updClient. cbn [fst wmEof].
  unfold client_of at 1. rewrite lookup_insert_eq. cbn. by rewrite <- H1, <- H2.
Qed.

(** ** Examples *)
Section Example.
Local Open Scope string_scope.
Definition formatCfg (query : Z) : FilterCfg := mkFilterCfg "filter" query "" "format" "Format" "==" (F64 0) ["Wire"; "Cheque"].
Definition dates (a b : string) : DateCfg := mkDateCfg "dates" "" "date_range" a b.
Definition dated (t : string) : Transaction :=
  mkTransaction t "10" "A" "20" "B" (F64 0) "US Dollar" (F64 0) "US Dollar" "Wire" false.
Example new_filter : NewSyncFilter "filter" 1 "" {[ "type" := JStr "format"; "field" := JStr "Format";
  "operator" := JStr "=="; "value_float" := JNum (F64 0); "value_string" := JList [Some "Wire"; Some "Cheque"] ]} = Ok (formatCfg 1).
Proof. vm_compute. reflexivity. Qed.
Example new_filter_empty : is_ok (NewSyncFilter "filter" 1 "" {[ "type" := JStr "format"; "field" := JStr "Format";
  "operator" := JStr "=="; "value_float" := JNum (F64 0) ]}) = false.
Proof. vm_compute. reflexivity. Qed.
Example first_week_last_moment : filterTransactionByDate (dates "2022/09/01" "2022/09/06") (dated "2022/09/05 23:59") = true.
Proof. vm_compute. reflexivity. Qed.
(** A bound is a bare date: the day it names is outside the range. *)
Example last_day_excluded : filterTransactionByDate (dates "2022/09/01" "2022/09/06") (dated "2022/09/06 00:00") = false.
Proof. vm_compute. reflexivity. Qed.
Example clean_two : cleanTransaction ["from_bank"; "payment_format"; "other"] (dated "t")
  = mkTransaction "t" "" "A" "20" "B" (F64 0) "US Dollar" (F64 0) "US Dollar" "" false.
Proof. vm_compute. reflexivity. Qed.

Lemma date_ranges_partition_witness :
  filterTransactionByDate (mkDateCfg "d" "" "x" "2022/09/01" "2022/09/15") (dated "2022/09/06 00:00") = true /\
  filterTransactionByDate (mkDateCfg "d" "" "x" "2022/09/01" "2022/09/15") (dated "2022/09/06 00:00") =
  filterTransactionByDate (mkDateCfg "d" "" "x" "2022/09/01" "2022/09/06") (dated "2022/09/06 00:00")
  || filterTransactionByDate (mkDateCfg "d" "" "x" "2022/09/06" "2022/09/15") (dated "2022/09/06 00:00").
Proof.
  split; [vm_compute; reflexivity|].
  apply (date_ranges_partition "d" "" "x" "2022/09/01" "2022/09/06" "2022/09/15" (dated "2022/09/06 00:00"));
    vm_compute; exact I.
Defined.
End Example.

Lemma filter_forwards_witness :
  (exists msgType payload, sf_handleTransactionsBatchMessage (formatCfg 1) envR (memR []) =
    (Ok tt, answered envR msgType KeyNil payload 2 (received envR 2 (memR [])))) /\
  length (sent (wmPub (sf_handleTransactionsBatchMessage (formatCfg 1) envR (memR [])).2)) = 1%nat.
Proof.
  destruct encoded_sample_ok as (Hd & Hok & Hlen).
  destruct (filter_forwards (formatCfg 1) envR [sample_tx; sample_tx] (memR []) Hd Hok Hlen eq_refl)
    as [[H _]|(_ & msgType & payload & H & _)]; [vm_compute in H; discriminate|].
  split; [exists msgType, payload; exact H|]. vm_compute. reflexivity.
Defined.

Lemma date_range_counts_after_sending_witness :
  is_ok (dr_handleTransactionsBatchMessage (dates "2022" "2023") envR (memR [Some EOF])).1 = false /\
  msgRcvByID (client_of (wmEof (dr_handleTransactionsBatchMessage (dates "2022" "2023") envR (memR [Some EOF])).2) zero16) = ∅.
Proof.
  destruct encoded_sample_ok as (Hd & _).
  pose proof (date_range_counts_after_sending (dates "2022" "2023") envR [sample_tx; sample_tx] (memR [Some EOF]) Hd) as H.
  assert (is_ok (dr_handleTransactionsBatchMessage (dates "2022" "2023") envR (memR [Some EOF])).1 = false) as Hr
    by (vm_compute; reflexivity).
  split; [exact Hr|]. destruct (dr_handleTransactionsBatchMessage _ envR _) as [r w'].
  destruct H as [[-> _]|[_ H]]; [discriminate|]. exact (H zero16).
Defined.
