(* ===== verification/AvgFilter.v ===== *)
(** * The average filter, query 3 ([src/workers/filter/avg_format_filter.go])

    Two consumers share a client table: one collects the average payment of
    every format, which the aggregators publish at their end of stream; the
    other waits until the averages of the client are complete and then tests its
    transactions against them. *)

From S2P Require Import Prelude Maps Models MsgIDs Wire Codec CodecQ4 Disk Coordinator Publisher Consumer EofSync Sharding WorkerMem Router Filter.

(** [doneCh] is closed exactly when [done] is set. *)
Record AvgClient := mkAvgClient {
  avgByFormat : gmap string float64;
  eofCount : Z;
  expected : Z;
  avReceived : Z;
  done : bool
}.
Definition newAvgClient : AvgClient := mkAvgClient ∅ 0 0 0 false.

Record AvgCfg := mkAvgCfg { avPrefix : string; avSyncKey : KeyType; prevWorkers : Z; avgMultiplier : float64 }.
Definition NewAvgFormatFilter (prefix : string) (key : KeyType) (prev : Z) (params : gmap string json) : res AvgCfg :=
  match params !! "multiplier"%string with
  | Some (JNum multiplier) => Ok (mkAvgCfg prefix key prev multiplier)
  | _ => Err (ErrMsg "Invalid type parameter for AvgFormatFilter")
  end.

Record AvgFormatFilter := mkAvgFilter { avMem : WorkerMem; avClients : gmap id16 AvgClient }.
#[global] Instance AvgFilter_pub : HasPublisher AvgFormatFilter.
Proof.
  refine {| pub := fun f => wmPub (avMem f);
            setPub := fun p f => mkAvgFilter (mkWorkerMem p (wmEof (avMem f)) (wmEvents (avMem f))) (avClients f) |};
    [done| |done]. by intros [[] ?].
Defined.
Definition avSetClients (x : gmap id16 AvgClient) (f : AvgFormatFilter) : AvgFormatFilter := mkAvgFilter (avMem f) x.
Definition avCtl (g : ctl) : M AvgFormatFilter unit := fun f =>
  let (r, w) := runCtl g (avMem f) in (r, mkAvgFilter w (avClients f)).
Definition getOrCreateClientLocked (c : id16) (f : AvgFormatFilter) : AvgClient := default newAvgClient (avClients f !! c).

Section AvgFilter.
Context `{!UuidLib, !GoRange} (cfg : AvgCfg).

(** ** The averages *)
Definition checkAvgDoneLocked (cl : AvgClient) : AvgClient :=
  if done cl then cl
  else if (eofCount cl =? prevWorkers cfg) && (avReceived cl =? expected cl)
  then mkAvgClient (avgByFormat cl) (eofCount cl) (expected cl) (avReceived cl) true
  else cl.
Definition addAverage (m : gmap string float64) (tx : Transaction) : gmap string float64 :=
  if decide (PaymentFormat tx = EmptyString) then m else <[PaymentFormat tx := AmountPaid tx]> m.
Definition avgBatch (txs : list Transaction) (cl : AvgClient) : AvgClient :=
  checkAvgDoneLocked (mkAvgClient (fold_left addAverage txs (avgByFormat cl)) (eofCount cl) (expected cl)
    (int64 (avReceived cl + Zlen txs)) (done cl)).
Definition handleAvgBatch (e : InternalEnvelope) : M AvgFormatFilter unit :=
  avgTransactions ← liftR (DecodeTransactionBatch (Payload e));
  modS (fun f => avSetClients (<[ClientId e := avgBatch avgTransactions (getOrCreateClientLocked (ClientId e) f)]> (avClients f)) f).
Definition avgEOF (counts : gmap string Z) (cl : AvgClient) : AvgClient :=
  if IsFlushEOF counts then
    mkAvgClient (avgByFormat cl) (eofCount cl) (expected cl) (avReceived cl) true
  else
    checkAvgDoneLocked (mkAvgClient (avgByFormat cl) (int64 (eofCount cl + 1))
      (fold_left (fun t (kv : string * Z) => int64 (t + kv.2)) (range (map_to_list counts)) (expected cl))
      (avReceived cl) (done cl)).
Definition handleAvgEOF (e : InternalEnvelope) : M AvgFormatFilter unit :=
  counts ← liftR (DecodeEOFCounts (Payload e));
  modS (fun f => avSetClients (<[ClientId e := avgEOF counts (getOrCreateClientLocked (ClientId e) f)]> (avClients f)) f).

(** ** The transactions *)
(** [waitAvgDone] creates the client; [false]: the caller blocks on [doneCh]. *)
Definition waitAvgDone (c : id16) : M AvgFormatFilter bool := fun f =>
  let cl := getOrCreateClientLocked c f in (Ok (done cl), avSetClients (<[c := cl]> (avClients f)) f).
Definition evaluateTransaction (tx : Transaction) (avg : float64) : option Query3Result :=
  if f64_ge (AmountPaid tx) (f64_mul avg (avgMultiplier cfg)) then None
  else Some (mkQuery3Result (FromBank tx) (FromAccount tx) (PaymentFormat tx) (AmountPaid tx)).
Definition evaluate (m : gmap string float64) (tx : Transaction) : option Query3Result :=
  if decide (PaymentFormat tx = EmptyString) then None
  else avg ← m !! PaymentFormat tx; evaluateTransaction tx avg.
(** What happens once the wait is over; a client that was forgotten meanwhile is
    a nil pointer. *)
Definition afterWait (e : InternalEnvelope) (transactions : list Transaction) : M AvgFormatFilter unit :=
  f ← getS;
  results ← liftR (match avClients f !! ClientId e with
    | Some cl => Ok (omap (evaluate (avgByFormat cl)) transactions)
    | None => if forallb (fun tx => bool_decide (PaymentFormat tx = EmptyString)) transactions then Ok []
              else Panic "nil pointer dereference"
    end);
  _ ← (match results with
       | [] => mret tt
       | _ =>
           payload ← liftR (EncodeQuery3ResultBatch results);
           let resultID := DeriveMsgID (MsgID e) KeyNil 0 in
           _ ← PublishInternalWithID (ClientId e) MsgQuery3Result KeyNil payload resultID;
           avCtl (MessageSentWithKey (ClientId e) KeyNil resultID (Zlen results))
       end);
  avCtl (MessageReceived (ClientId e) (MsgID e) (Zlen transactions)).
(** The handler, for a client whose averages are complete ([None]: it blocks). *)
Definition av_handleTransactionBatch (e : InternalEnvelope) : M AvgFormatFilter (option unit) :=
  transactions ← liftR (DecodeTransactionBatch (Payload e));
  ready ← waitAvgDone (ClientId e);
  if (ready : bool) then (_ ← afterWait e transactions; mret (Some tt)) else mret None.

(** Both ends of query 3 are the same message. *)
Definition av_onLeaderFlush (c : id16) : M AvgFormatFilter unit :=
  PublishInternalWithID c MsgQuery3ResultEOF KeyNil [] (StageMsgID c (avPrefix cfg) "eof" 0).
Definition av_onRetryExceeded (c : id16) : M AvgFormatFilter unit :=
  PublishInternalWithID c MsgQuery3ResultEOF KeyNil [] (StageMsgID c (avPrefix cfg) "eof" 0).
End AvgFilter.

Section Handlers.
Context `{!UuidLib, !GoRange} (cfg : AvgCfg) (eofCfg : config) (co : CoConfig AvgFormatFilter).
Definition handleAvgMessage (body : bytes) : D (Co AvgFormatFilter) (id16 * byte) :=
  DispatchD body (fun t =>
    if decide (t = MsgTransactionsBatch) then Some (fun e => onMem (handleAvgBatch cfg e))
    else if decide (t = MsgTransactionsEOF) then Some (fun e => onMem (handleAvgEOF cfg e)) else None).
(** The callback of the averages: errors of [Track] and [Flush] are ignored. *)
Definition avg_consume (body : bytes) (ack : AvgFormatFilter -> AvgFormatFilter) : D (Co AvgFormatFilter) bool :=
  r ← attempt (handleAvgMessage body);
  match r with
  | Ok (clientID, msgType) =>
      _ ← tryD (Track co clientID ack);
      _ ← (if decide (msgType = MsgTransactionsEOF) then (_ ← tryD (Flush co); mret tt) else mret tt);
      mret true
  | _ => mret false
  end.
Definition av_handleEOF (ack : option nat) (e : InternalEnvelope) : D (Co AvgFormatFilter) unit :=
  eofCounts ← onMem (liftR (DecodeEOFCounts (Payload e)));
  _ ← tryD (Flush co);
  onMem (avCtl (SyncEof eofCfg (ClientId e) (Some eofCounts) (avSyncKey cfg) ack)).
Definition av_onflush (c : id16) : D (Co AvgFormatFilter) unit :=
  _ ← Flush co;
  _ ← onMem (Forget c);
  _ ← Delete co c;
  onMem (modS (fun f => avSetClients (delete c (avClients f)) f)).
End Handlers.

(** The checkpoint, before its JSON text; [None] is no data, which
    [RestoreClient] cannot parse. *)
Record AvgFormatFilterCheckpoint := mkAvgCp { AvgByFormat : gmap string float64; EofCount : Z; Expected : Z; Received : Z; Done : bool }.
Definition av_SnapshotClient (c : id16) (f : AvgFormatFilter) : option AvgFormatFilterCheckpoint :=
  cl ← avClients f !! c; Some (mkAvgCp (avgByFormat cl) (eofCount cl) (expected cl) (avReceived cl) (done cl)).
Definition av_RestoreClient (c : id16) (cp : option AvgFormatFilterCheckpoint) : M AvgFormatFilter unit :=
  match cp with
  | None => failM (Wrapf "Failed to unmarshal checkpoint data for client" (ErrMsg "unexpected end of JSON input"))
  | Some cp => modS (fun f => avSetClients
      (<[c := mkAvgClient (AvgByFormat cp) (EofCount cp) (Expected cp) (Received cp) (Done cp)]> (avClients f)) f)
  end.

(** ** The barrier of the averages *)
Inductive avgMsg := AvgBatch (txs : list Transaction) | AvgEnd (counts : gmap string Z).
Section Barrier.
Context {GR : GoRange} (cfg : AvgCfg).
Definition avgStep (cl : AvgClient) (m : avgMsg) : AvgClient :=
  match m with AvgBatch txs => avgBatch cfg txs cl | AvgEnd counts => avgEOF cfg counts cl end.
Definition avgRun (ms : list avgMsg) : AvgClient := fold_left avgStep ms newAvgClient.

Definition msgLen (m : avgMsg) : Z := match m with AvgBatch txs => Zlen txs | AvgEnd _ => 0 end.
Definition msgEnds (m : avgMsg) : Z := match m with AvgBatch _ => 0 | AvgEnd _ => 1 end.
Definition msgCount (m : avgMsg) : Z := match m with AvgBatch _ => 0 | AvgEnd counts => sumM counts end.
Definition sumOf (f : avgMsg -> Z) (ms : list avgMsg) : Z := sumZ (f <$> ms).
(** Non-empty batches, and ends that announce no negative total. *)
Definition msg_ok (m : avgMsg) : Prop :=
  match m with AvgBatch txs => txs <> [] | AvgEnd counts => IsFlushEOF counts = false /\ 0 <= sumM counts end.

Lemma sumOf_app f l k : sumOf f (l ++ k) = sumOf f l + sumOf f k.
Proof. unfold sumOf. by rewrite fmap_app, sumZ_app. Qed.
Lemma sumOf_nonneg f l : Forall (fun m => 0 <= f m) l -> 0 <= sumOf f l.
Proof. induction 1 as [|m l Hm _ IH]; [done|]. unfold sumOf, sumZ in *. cbn. lia. Qed.
Lemma sumOf_zero f l : Forall (fun m => 0 <= f m) l -> sumOf f l = 0 -> Forall (fun m => f m = 0) l.
Proof.
  induction 1 as [|m l Hm Hl IH]; intros Hz; [constructor|]. pose proof (sumOf_nonneg f l Hl) as Hn.
  unfold sumOf, sumZ in *. cbn in *. constructor; [lia|]. apply IH. lia.
Qed.
Lemma msg_nonneg l : Forall msg_ok l ->
  Forall (fun m => 0 <= msgLen m) l /\ Forall (fun m => 0 <= msgEnds m) l /\ Forall (fun m => 0 <= msgCount m) l.
Proof.
  intros Hl. split_and!; (eapply Forall_impl; [exact Hl|]); intros [txs|counts]; unfold msg_ok; cbn; unfold Zlen; lia.
Qed.

Lemma fold_counts counts acc :
  fold_left (fun t (kv : string * Z) => int64 (t + kv.2)) (range (map_to_list counts)) (int64 acc) = int64 (acc + sumM counts).
Proof.
  rewrite <- (sumM_range counts), <- int64_fold_sum.
  generalize (int64 acc). generalize (range (map_to_list counts)). intros l. induction l as [|kv l IH]; intros z; [done|].
  cbn [fold_left fmap list_fmap]. apply IH.
Qed.

(** The tests [checkAvgDoneLocked] has made so far. *)
Definition complete (ms : list avgMsg) : bool :=
  (int64 (sumOf msgEnds ms) =? prevWorkers cfg) && (int64 (sumOf msgLen ms) =? int64 (sumOf msgCount ms)).
Lemma avgRun_snoc ms m : Forall msg_ok (ms ++ [m]) ->
  let cl := avgRun (ms ++ [m]) in
  eofCount cl = int64 (sumOf msgEnds (ms ++ [m])) /\ avReceived cl = int64 (sumOf msgLen (ms ++ [m])) /\
  expected cl = int64 (sumOf msgCount (ms ++ [m])) /\ done cl = done (avgRun ms) || complete (ms ++ [m]).
Proof.
  assert (forall ms, Forall msg_ok ms -> let cl := avgRun ms in
    eofCount cl = int64 (sumOf msgEnds ms) /\ avReceived cl = int64 (sumOf msgLen ms) /\ expected cl = int64 (sumOf msgCount ms)) as Hinv.
  { clear ms m. intros ms. induction ms as [|m ms IH] using rev_ind; intros Hok; [done|].
    apply Forall_app in Hok as [Hok Hm]. apply Forall_cons in Hm as [Hm _]. destruct (IH Hok) as (H1 & H2 & H3).
    unfold avgRun in *. rewrite fold_left_app. cbn [fold_left]. rewrite !sumOf_app. unfold sumOf at 2 4 6. cbn [fmap list_fmap].
    set (cl := fold_left avgStep ms newAvgClient) in *.
    destruct m as [txs|counts]; cbn [avgStep msgEnds msgLen msgCount].
    - unfold avgBatch, checkAvgDoneLocked. rewrite H1, H2, H3. repeat case_match; cbn [eofCount avReceived expected];
        rewrite ?int64_add_l; unfold sumZ; cbn [foldr]; rewrite ?Z.add_0_r; done.
    - destruct Hm as [Hf _]. unfold avgEOF. rewrite Hf. unfold checkAvgDoneLocked. rewrite H1, H2, H3.
      rewrite fold_counts. repeat case_match; cbn [eofCount avReceived expected];
        rewrite ?int64_add_l; unfold sumZ; cbn [foldr]; rewrite ?Z.add_0_r; done. }
  intros Hok. pose proof (Hinv _ Hok) as (H1 & H2 & H3). split_and!; [done..|].
  unfold complete. rewrite <- H1, <- H2, <- H3. apply Forall_app in Hok as [_ Hm]. apply Forall_cons in Hm as [Hm _].
  unfold avgRun at 1 3 4 5. rewrite fold_left_app. cbn [fold_left]. fold (avgRun ms).
  destruct m as [txs|counts]; cbn [avgStep].
  - unfold avgBatch, checkAvgDoneLocked. cbn [done eofCount avReceived expected].
    destruct (done (avgRun ms)); cbn [done eofCount avReceived expected orb]; [done|].
    match goal with |- context [if ?b then _ else _] => destruct b eqn:Eb end; cbn [done eofCount avReceived expected]; by rewrite ?Eb.
  - destruct Hm as [Hf _]. unfold avgEOF. rewrite Hf. unfold checkAvgDoneLocked. cbn [done eofCount avReceived expected].
    destruct (done (avgRun ms)); cbn [done eofCount avReceived expected orb]; [done|].
    match goal with |- context [if ?b then _ else _] => destruct b eqn:Eb end; cbn [done eofCount avReceived expected]; by rewrite ?Eb.
Qed.

Definition averagesOf (ms : list avgMsg) : list Transaction :=
  flat_map (fun m => match m with AvgBatch txs => txs | AvgEnd _ => [] end) ms.
Lemma avgRun_table ms : avgByFormat (avgRun ms) = fold_left addAverage (averagesOf ms) ∅.
Proof.
  induction ms as [|m ms IH] using rev_ind; [done|]. unfold avgRun, averagesOf in *.
  rewrite fold_left_app, flat_map_app, fold_left_app, <- IH. cbn [fold_left flat_map].
  assert (forall cl, avgByFormat (checkAvgDoneLocked cfg cl) = avgByFormat cl) as Hc.
  { intros cl. unfold checkAvgDoneLocked. by repeat case_match. }
  destruct m as [txs|counts]; cbn [avgStep].
  - unfold avgBatch. by rewrite Hc, app_nil_r.
  - unfold avgEOF. destruct (IsFlushEOF counts); [done|by rewrite Hc].
Qed.
Lemma addAverages_lookup txs m tx : NoDup (PaymentFormat <$> txs) -> tx ∈ txs -> PaymentFormat tx <> EmptyString ->
  fold_left addAverage txs m !! PaymentFormat tx = Some (AmountPaid tx).
Proof.
  revert m. induction txs as [|tx' txs IH]; intros m Hnd Hin Hne; [set_solver|].
  cbn [fmap list_fmap] in Hnd. apply NoDup_cons in Hnd as [Hni Hnd]. cbn [fold_left].
  apply elem_of_cons in Hin as [->|Hin]; [|by apply IH].
  assert (forall l m, PaymentFormat tx' ∉ PaymentFormat <$> l ->
    fold_left addAverage l m !! PaymentFormat tx' = m !! PaymentFormat tx') as Hkeep.
  { clear. induction l as [|x l IH]; intros m Hn; [done|]. cbn [fmap list_fmap fold_left] in *.
    rewrite IH by set_solver. unfold addAverage. case_decide; [done|]. apply lookup_insert_ne. set_solver. }
  rewrite Hkeep by done. unfold addAverage. rewrite decide_False by done. apply lookup_insert_eq.
Qed.

(** C23. The transactions of query 3 wait for exactly the right moment: if every
    upstream worker ends once and the ends announce what the batches hold, then
    in whatever order batches and ends arrive the wait is over when the last of
    them has arrived and never before, and the table then holds the average of
    every format. *)
Theorem avg_barrier_exact evs : 0 < prevWorkers cfg -> in_int64 (prevWorkers cfg) ->
  Forall msg_ok evs -> sumOf msgEnds evs = prevWorkers cfg ->
  sumOf msgCount evs = sumOf msgLen evs -> in_int64 (sumOf msgLen evs) ->
  (forall pre post, evs = pre ++ post -> (done (avgRun pre) = true <-> post = [])) /\
  (NoDup (PaymentFormat <$> averagesOf evs) -> forall tx, tx ∈ averagesOf evs -> PaymentFormat tx <> EmptyString ->
    avgByFormat (avgRun evs) !! PaymentFormat tx = Some (AmountPaid tx)).
Proof.
  intros Hpos Hpw Hok Hends Hcount Hlen. split.
  2:{ intros Hnd tx Hin Hne. rewrite avgRun_table. by apply addAverages_lookup. }
  intros pre. induction pre as [|m pre IH] using rev_ind; intros post Heq.
  { split; [done|]. intros ->. rewrite app_nil_r in Heq. subst evs. cbn in Hends. lia. }
  assert (done (avgRun pre) = false) as Hpre.
  { apply not_true_iff_false. intros Hd. rewrite <- app_assoc in Heq. by apply (IH _ Heq) in Hd. }
  pose proof Hok as Hok'. rewrite Heq in Hok'. apply Forall_app in Hok' as [Hok1 Hok2].
  destruct (avgRun_snoc pre m Hok1) as (_ & _ & _ & ->). rewrite Hpre. cbn [orb].
  destruct (msg_nonneg _ Hok1) as (A1 & A2 & A3), (msg_nonneg _ Hok2) as (B1 & B2 & B3).
  apply sumOf_nonneg in A1 as A1', A2 as A2', A3 as A3', B1 as B1', B2 as B2', B3 as B3'.
  rewrite Heq in Hends, Hcount, Hlen. unfold complete. unfold in_int64 in *.
  rewrite !(sumOf_app msgEnds) in *. rewrite !(sumOf_app msgLen) in *. rewrite !(sumOf_app msgCount) in *.
  rewrite !int64_small by (unfold in_int64; lia). rewrite andb_true_iff, !Z.eqb_eq. split.
  - intros [He Hl]. assert (sumOf msgEnds post = 0) as He0 by lia.
    apply (sumOf_zero _ _ B2) in He0 as Hb. assert (sumOf msgCount post = 0) as Hc0.
    { unfold sumOf. clear -Hb. induction Hb as [|[] post Hm _ IH]; [done|exact IH|done]. }
    assert (sumOf msgLen post = 0) as Hl0 by lia. apply (sumOf_zero _ _ B1) in Hl0.
    destruct post as [|[txs|counts] post]; [done|..]; exfalso.
    + apply Forall_cons in Hl0 as [Hz _], Hok2 as [Hn _]. destruct txs; [done|]. cbn in Hz. unfold Zlen in Hz. simpl in Hz. lia.
    + apply Forall_cons in Hb as [Hz _]. done.
  - intros ->. unfold sumOf in *. cbn in *. lia.
Qed.
End Barrier.

(** ** Example: two aggregators *)
Definition avgTx (format : string) (amount : Z) : Transaction :=
  mkTransaction "" "" "" "" "" (F64 0) "US Dollar" (f64_of_int amount) "US Dollar" format false.
Definition arrivals : list avgMsg :=
  [AvgEnd {[KeyNil := 1]}; AvgBatch [avgTx "Wire" 40; avgTx "ACH" 7]; AvgBatch [avgTx "Cheque" 3]; AvgEnd {[KeyNil := 2]}].
Definition avg_cfg : AvgCfg := mkAvgCfg "avg" "" 2 (f64_of_int 2).
Lemma avg_barrier_exact_witness :
  done (@avgRun range_id avg_cfg (take 3 arrivals)) = false /\ done (@avgRun range_id avg_cfg arrivals) = true /\
  avgByFormat (@avgRun range_id avg_cfg arrivals) !! "ACH"%string = Some (f64_of_int 7).
Proof.
  destruct (@avg_barrier_exact range_id avg_cfg arrivals) as [H Ht].
  - reflexivity.
  - split; vm_compute; congruence.
  - repeat constructor; try discriminate; vm_compute; congruence.
  - reflexivity.
  - vm_compute. reflexivity.
  - split; vm_compute; congruence.
  - split; [|split].
    + vm_compute. reflexivity.
    + apply (H arrivals []); [symmetry; apply app_nil_r|reflexivity].
    + apply (Ht ltac:(vm_compute; repeat constructor; set_solver) (avgTx "ACH" 7)); [|discriminate]. vm_compute. set_solver.
Defined.
