(* ===== verification/Converter.v ===== *)
(** * Currency converter ([src/workers/converter/rates.go], [converter.go])

    Rewrites the amounts of a batch in US dollars, with the rates of a fixed
    table, of a remote service or of a fallback.  The parser of time layouts is
    the class [TimeLib]; the answers of the service are a script, like the
    broker's.  Float constants carry their IEEE 754 bits. *)

From S2P Require Import Prelude Maps Models MsgIDs Wire Codec CodecQ4 Disk Store Coordinator CrashSafety Recovery Publisher Consumer Q4Count.

Section Tables.
Local Open Scope string_scope.
(** Units of the foreign currency per dollar. *)
Definition notebookForeignPerUSD : list (string * list (string * float64)) := [
  ("2022-09-01", [
    ("Australian Dollar", F64 0x3FF76E2EB1C432CA); ("Brazil Real", F64 0x4014B8D4FDF3B646); ("Canadian Dollar", F64 0x3FF50624DD2F1AA0);
    ("Swiss Franc", F64 0x3FEF5C13FD0D0679); ("Yuan", F64 0x401B99999999999A); ("Euro", F64 0x3FF000D1B71758E2);
    ("UK Pound", F64 0x3FEB9B66F9335D25); ("Shekel", F64 0x400AD3F7CED91687); ("Rupee", F64 0x4053E2C083126E98);
    ("Yen", F64 0x40616AE147AE147B); ("Mexican Peso", F64 0x403430624DD2F1AA); ("Ruble", F64 0x404E2EF9DB22D0E5);
    ("Saudi Riyal", F64 0x400E000000000000); ("US Dollar", F64 0x3FF0000000000000); ("Bitcoin", F64 0x40D3544666666666)]);
  ("2022-09-02", [
    ("Australian Dollar", F64 0x3FF7816F0068DB8C); ("Brazil Real", F64 0x4014D0624DD2F1AA); ("Canadian Dollar", F64 0x3FF5068DB8BAC711);
    ("Swiss Franc", F64 0x3FEF6A7EF9DB22D1); ("Yuan", F64 0x401B9D2F1A9FBE77); ("Euro", F64 0x3FF004816F0068DC);
    ("UK Pound", F64 0x3FEBAB7564302B41); ("Shekel", F64 0x400B010624DD2F1B); ("Rupee", F64 0x4053EE04189374BC);
    ("Yen", F64 0x406183851EB851EC); ("Mexican Peso", F64 0x403415C28F5C28F6); ("Ruble", F64 0x404E36A7EF9DB22D);
    ("Saudi Riyal", F64 0x400E000000000000); ("US Dollar", F64 0x3FF0000000000000); ("Bitcoin", F64 0x410869F800000000)]);
  ("2022-09-03", [
    ("Australian Dollar", F64 0x3FF7816F0068DB8C); ("Brazil Real", F64 0x4014D288CE703AFB); ("Canadian Dollar", F64 0x3FF505532617C1BE);
    ("Swiss Franc", F64 0x3FEF6D1E108C3F3E); ("Yuan", F64 0x401B9E4F765FD8AE); ("Euro", F64 0x3FF005532617C1BE);
    ("UK Pound", F64 0x3FEBAC471B478423); ("Shekel", F64 0x400B086594AF4F0E); ("Rupee", F64 0x4053F00000000000);
    ("Yen", F64 0x40618570A3D70A3D); ("Mexican Peso", F64 0x403414BC6A7EF9DB); ("Ruble", F64 0x404E3C49BA5E353F);
    ("Saudi Riyal", F64 0x400E000000000000); ("US Dollar", F64 0x3FF0000000000000); ("Bitcoin", F64 0x40D35DD99999999A)]);
  ("2022-09-04", [
    ("Australian Dollar", F64 0x3FF783126E978D50); ("Brazil Real", F64 0x4014D532617C1BDA); ("Canadian Dollar", F64 0x3FF505BC01A36E2F);
    ("Swiss Franc", F64 0x3FEF6E19B90EA9E7); ("Yuan", F64 0x401B9E69AD42C3CA); ("Euro", F64 0x3FF005532617C1BE);
    ("UK Pound", F64 0x3FEBAD42C3C9EECC); ("Shekel", F64 0x400B0D4FDF3B645A); ("Rupee", F64 0x4053F04189374BC7);
    ("Yen", F64 0x4061870A3D70A3D7); ("Mexican Peso", F64 0x403415810624DD2F); ("Ruble", F64 0x404E3B020C49BA5E);
    ("Saudi Riyal", F64 0x400E000000000000); ("US Dollar", F64 0x3FF0000000000000); ("Bitcoin", F64 0x40D37C2CCCCCCCCD)]);
  ("2022-09-05", [
    ("Australian Dollar", F64 0x3FF78E219652BD3C); ("Brazil Real", F64 0x4014B6E2EB1C432D); ("Canadian Dollar", F64 0x3FF506F694467382);
    ("Swiss Franc", F64 0x3FEF72862F5989DF); ("Yuan", F64 0x401BAFB7E90FF972); ("Euro", F64 0x3FF01BDA5119CE07);
    ("UK Pound", F64 0x3FEBC7B890D5A5B9); ("Shekel", F64 0x400B346DC5D63886); ("Rupee", F64 0x4053F4395810624E);
    ("Yen", F64 0x40618FAE147AE148); ("Mexican Peso", F64 0x4034049BA5E353F8); ("Ruble", F64 0x404E5E5604189375);
    ("Saudi Riyal", F64 0x400E000000000000); ("US Dollar", F64 0x3FF0000000000000); ("Bitcoin", F64 0x40D3A78666666666)])].
Definition bitcoinUSDPerUnit : list (string * float64) := [
  ("2022-09-01", F64 0x40D3544666666666);
  ("2022-09-02", F64 0x410869F800000000);
  ("2022-09-03", F64 0x40D35DD99999999A);
  ("2022-09-04", F64 0x40D37C2CCCCCCCCD);
  ("2022-09-05", F64 0x40D3A78666666666)].
Definition fallbackUSDPerUnit : list (string * float64) := [
  ("Saudi Riyal", F64 0x3FD1111111111111); ("Ruble", F64 0x3F90ECF56BE69C90); ("Bitcoin", F64 0x40D3880000000000)].
Definition currencyISO : list (string * string) := [
  ("US Dollar", "USD"); ("Euro", "EUR"); ("UK Pound", "GBP"); ("Yuan", "CNY");
  ("Yen", "JPY"); ("Australian Dollar", "AUD"); ("Canadian Dollar", "CAD"); ("Mexican Peso", "MXN");
  ("Brazil Real", "BRL"); ("Rupee", "INR"); ("Swiss Franc", "CHF"); ("Shekel", "ILS")].
End Tables.

Definition assoc {A} (k : string) (l : list (string * A)) : option A :=
  snd <$> head (filter (fun kv => kv.1 = k) l).

(** The layouts of [transactionDate], and what [time.Parse] then [Format] give. *)
Class TimeLib := { time_Parse : string -> string -> option string }.
Section Rates.
Context `{!TimeLib}.
Definition layouts : list string :=
  ["2006-01-02T15:04:05Z07:00"; "2006-01-02T15:04:05"; "2006-01-02 15:04:05"; "2006/01/02 15:04:05";
   "2006/01/02 15:04"; "2006-01-02"]%string.
Definition transactionDate (timestamp : string) : res string :=
  match omap (fun layout => time_Parse layout timestamp) layouts with
  | d :: _ => Ok d
  | [] => Err (ErrMsg "unrecognised timestamp format")
  end.

(** An answer: the status and the decoded body; an error is a failed call. *)
Definition answer : Type := res (Z * res (gmap string float64)).
Record rateClient := mkRates { cache : gmap (string * string) float64; answers : list answer; asked : list (string * string) }.
Definition newRateClient (script : list answer) : rateClient := mkRates ∅ script [].

Definition ErrUnsupportedCurrency : error := ErrMsg "unsupported currency".
Definition unsupported (currency : string) : error := Wrapf "currency" ErrUnsupportedCurrency.

Definition fetchRate (date iso : string) : M rateClient float64 := fun rc =>
  let rc' := mkRates (cache rc) (tail (answers rc)) (asked rc ++ [(date, iso)]) in
  (match default (Err (ErrMsg "no connection")) (head (answers rc)) with
   | Err e => Err (Wrapf "calling frankfurter" e)
   | Panic p => Panic p
   | Ok (status, body) =>
       if negb (status =? 200) then Err (ErrMsg "frankfurter returned status")
       else match body with
            | Err e => Err (Wrapf "decoding frankfurter response" e)
            | Panic p => Panic p
            | Ok rates => match rates !! "USD"%string with
                          | Some rate => Ok rate
                          | None => Err (ErrMsg "frankfurter response missing USD rate")
                          end
            end
   end, rc').

(** Bitcoin has a table of its own; its rates are dollars per unit and the code
    divides by them all the same. *)
Definition unquoted (date currency : string) (amount : float64) : res float64 :=
  match (if decide (currency = "Bitcoin"%string) then assoc date bitcoinUSDPerUnit else None) with
  | Some rate => Ok (f64_div amount rate)
  | None =>
      match assoc currency fallbackUSDPerUnit with
      | Some rate => Ok (f64_mul amount rate)
      | None => Err (unsupported currency)
      end
  end.
Definition convertToUSD (date currency : string) (amount : float64) : M rateClient float64 :=
  match dayRates ← assoc date notebookForeignPerUSD; assoc currency dayRates with
  | Some rate => mret (f64_div amount rate)
  | None =>
      match assoc currency currencyISO with
      | None => liftR (unquoted date currency amount)
      | Some iso =>
          if decide (iso = "USD"%string) then mret amount
          else
            rc ← getS;
            match cache rc !! (date, iso) with
            | Some rate => mret (f64_mul amount rate)
            | None =>
                rate ← fetchRate date iso;
                _ ← modS (fun rc => mkRates (<[(date, iso) := rate]> (cache rc)) (answers rc) (asked rc));
                mret (f64_mul amount rate)
            end
      end
  end.
End Rates.

(** ** [converter.go] *)
Record Converter := mkConverter { cvPub : Publisher; txProcessedCountForClient : gmap id16 Z; rates : rateClient; cvAcked : list nat }.
#[global] Instance Converter_pub : HasPublisher Converter.
Proof.
  refine {| pub := cvPub; setPub := fun p a => mkConverter p (txProcessedCountForClient a) (rates a) (cvAcked a) |};
    [done| |done]. by intros [].
Defined.
Definition cvSetCount (x : gmap id16 Z) (a : Converter) := mkConverter (cvPub a) x (rates a) (cvAcked a).
Definition onRates {A} (m : M rateClient A) : M Converter A := fun a =>
  let (r, rc) := m (rates a) in (r, mkConverter (cvPub a) (txProcessedCountForClient a) rc (cvAcked a)).
Definition ackConverter (n : nat) (a : Converter) := mkConverter (cvPub a) (txProcessedCountForClient a) (rates a) (cvAcked a ++ [n]).

Section Converter.
Context `{!UuidLib, !GoRange, !TimeLib} (cfg : WorkerCfg).
Definition inUSD (amount : float64) (tx : Transaction) : Transaction :=
  mkTransaction (Timestamp tx) (FromBank tx) (FromAccount tx) (ToBank tx) (ToAccount tx) (AmountReceived tx)
    (ReceivingCurrency tx) amount Dollar (PaymentFormat tx) (IsLaundering tx).
Definition cv_sendTransactionBatch (c : id16) (transactions : list Transaction) (parentID : id16) : M Converter unit :=
  bs ← liftR (EncodeTransactionBatch transactions);
  _ ← PublishInternalWithID c MsgTransactionsBatch KeyDollarTransaction bs (DeriveMsgID parentID KeyDollarTransaction 0);
  modS (fun a => cvSetCount (<[c := int64 (default 0 (txProcessedCountForClient a !! c) + Zlen transactions)]>
    (txProcessedCountForClient a)) a).
(** One transaction; [None]: the handler gives up the batch without an error. *)
Definition convertTx (tx : Transaction) : M Converter (option Transaction) :=
  if decide (PaymentCurrency tx = Dollar) then mret (Some tx)
  else
    match transactionDate (Timestamp tx) with
    | Err _ => mret None
    | Panic p => liftR (Panic p)
    | Ok date => fun a =>
        match onRates (convertToUSD date (PaymentCurrency tx) (AmountPaid tx)) a with
        | (Ok usdAmount, a') => (Ok (Some (inUSD usdAmount tx)), a')
        | (Err e, a') => if errors_Is e ErrUnsupportedCurrency then (Ok None, a') else (Err e, a')
        | (Panic p, a') => (Panic p, a')
        end
    end.
Fixpoint convertAll (txs : list Transaction) (results : list Transaction) : M Converter (option (list Transaction)) :=
  match txs with
  | [] => mret (Some results)
  | tx :: txs' =>
      r ← convertTx tx;
      match r with
      | Some tx' => convertAll txs' (results ++ [tx'])
      | None => mret None
      end
  end.
Definition cv_handleTransactionMessage (e : InternalEnvelope) : M Converter unit :=
  transactions ← liftR (DecodeTransactionBatch (Payload e));
  results ← convertAll transactions [];
  match results with
  | None => mret tt
  | Some results => cv_sendTransactionBatch (ClientId e) results (MsgID e)
  end.

Definition cv_forwardFlushEOF (c : id16) : M Converter unit :=
  eofEnvelope ← liftR (wrapf "encoding flush EOF" (EncodeEOFCountsEnvelope c {[KeyNil := -1]}));
  PublishRawWithID KeyControlEOF eofEnvelope (StageMsgID c (wc_stage cfg) "eof" 0).
Definition cv_handleEOFMessage (e : InternalEnvelope) : M Converter unit :=
  let c := ClientId e in
  match DecodeEOFCounts (Payload e) with
  | Panic p => liftR (Panic p)
  | counts =>
      if (match counts with Ok m => IsFlushEOF m | _ => false end) then
        _ ← modS (fun a => cvSetCount (delete c (txProcessedCountForClient a)) a);
        cv_forwardFlushEOF c
      else
        a ← getS;
        eofPayload ← liftR (EncodeEOFCounts {[KeyNil := default 0 (txProcessedCountForClient a !! c)]});
        PublishInternalWithID c MsgTransactionsEOF KeyControlEOF eofPayload (StageMsgID c (wc_stage cfg) "eof" 0)
  end.
Variable co : CoConfig Converter.
Definition cv_handleMessage (body : bytes) : D (Co Converter) (id16 * byte) :=
  DispatchD body (fun t =>
    if decide (t = MsgTransactionsBatch) then Some (fun e => onMem (cv_handleTransactionMessage e))
    else if decide (t = MsgTransactionsEOF) then Some (fun e => onMem (cv_handleEOFMessage e)) else None).
Definition cv_consume (body : bytes) (ack : nat) : D (Co Converter) bool :=
  consumeBarrier co cv_handleMessage (fun _ _ => false)
    (fun c => modS (fun a => cvSetCount (delete c (txProcessedCountForClient a)) a)) body (ackConverter ack).
End Converter.
(** The worker passes no [Checkpointable] to its coordinator: these two are not
    called. *)
Definition cv_SnapshotClient (c : id16) (a : Converter) : Z := default 0 (txProcessedCountForClient a !! c).
Definition cv_RestoreClient (c : id16) (n : Z) (a : Converter) : Converter := cvSetCount (<[c := n]> (txProcessedCountForClient a)) a.

(** ** Theorems *)
Section Theorems.
Context {TL : TimeLib}.

(** A rate is asked for once: when a conversion succeeds, every later one of
    the same currency and date succeeds without a request and leaves the client
    as it is, and both apply the same rate in the same way. *)
Theorem rate_fetched_once date currency amount rc x rc1 :
  convertToUSD date currency amount rc = (Ok x, rc1) ->
  (length (asked rc1) <= length (asked rc) + 1)%nat /\
  exists f : float64 -> float64, x = f amount /\
    forall b, convertToUSD date currency b rc1 = (Ok (f b), rc1).
Proof.
  unfold convertToUSD. destruct (assoc date notebookForeignPerUSD ≫= assoc currency) as [rate|] eqn:En.
  { intros [= <- <-]. split; [lia|]. exists (fun a => f64_div a rate). done. }
  destruct (assoc currency currencyISO) as [iso|].
  - case_decide; [intros [= <- <-]; split; [lia|]; by exists (fun a => a)|].
    unfold mbind, M_bind, getS, modS, mret, M_ret. destruct (cache rc !! (date, iso)) as [rate|] eqn:Ec.
    { intros [= <- <-]. split; [lia|]. exists (fun a => f64_mul a rate). split; [done|]. intros b. by rewrite Ec. }
    unfold fetchRate.
    destruct (default _ _) as [[status body]|e|p]; [|done..]. destruct (negb _); [done|].
    destruct body as [m|e|p]; [|done..]. destruct (m !! _) as [rate|]; [|done].
    intros [= <- <-]. cbn [asked]. split; [rewrite length_app; simpl; lia|]. exists (fun a => f64_mul a rate). split; [done|].
    intros b. cbn [cache]. by rewrite lookup_insert_eq.
  - unfold liftR, unquoted. destruct (if decide (currency = _) then _ else _) as [rate|].
    { intros [= <- <-]. split; [lia|]. by exists (fun a => f64_div a rate). }
    destruct (assoc currency fallbackUSDPerUnit) as [rate|]; [|done].
    intros [= <- <-]. split; [lia|]. by exists (fun a => f64_mul a rate).
Qed.

(** One bitcoin is worth less than a hundredth of a cent until 2022-09-05
    and twenty thousand dollars from the next day on: the daily rates are
    dollars per unit, yet the amount is divided by them, and only the fallback
    multiplies.  The table of daily bitcoin rates is never consulted, since the
    general table holds the same days. *)
Theorem bitcoin_conversion_jumps rc :
  (forall date, is_Some (assoc date bitcoinUSDPerUnit) ->
    exists x, convertToUSD date "Bitcoin" (f64_of_int 1) rc = (Ok x, rc) /\
      f64_lt x (f64_div (f64_of_int 1) (f64_of_int 10000)) = true) /\
  convertToUSD "2022-09-06" "Bitcoin" (f64_of_int 1) rc = (Ok (f64_of_int 20000), rc).
Proof.
  split.
  - intros date Hd.
    assert (date ∈ ["2022-09-01"; "2022-09-02"; "2022-09-03"; "2022-09-04"; "2022-09-05"]%string) as Hin.
    { unfold assoc, bitcoinUSDPerUnit in Hd. destruct Hd as [r Hr].
      destruct (filter _ _) as [|kv l] eqn:Ef; [done|].
      assert (kv ∈ filter (fun kv : string * float64 => kv.1 = date) bitcoinUSDPerUnit) as Hkv by (unfold bitcoinUSDPerUnit; rewrite Ef; set_solver).
      apply list_elem_of_filter in Hkv as [<- Hkv]. unfold bitcoinUSDPerUnit in Hkv.
      repeat (apply elem_of_cons in Hkv as [->|Hkv]; [cbn; set_solver|]). by apply elem_of_nil in Hkv. }
    clear Hd. repeat (apply elem_of_cons in Hin as [->|Hin];
      [eexists; split; [vm_compute; reflexivity|vm_compute; reflexivity]|]). by apply elem_of_nil in Hin.
  - vm_compute. reflexivity.
Qed.

(** One transaction that cannot be converted (a date no layout parses, or a
    currency without a rate) makes the handler drop the whole batch, the
    transactions before and after it included, and report success: nothing is
    sent or counted, and the message is acknowledged. *)
Theorem converter_drops_batch e pre bad post a :
  DecodeTransactionBatch (Payload e) = Ok (pre ++ bad :: post) ->
  Forall (fun tx => PaymentCurrency tx = Dollar) pre -> PaymentCurrency bad <> Dollar ->
  is_ok (transactionDate (Timestamp bad)) = false \/
    (assoc (PaymentCurrency bad) currencyISO = None /\ assoc (PaymentCurrency bad) fallbackUSDPerUnit = None /\
     forall date, (dayRates ← assoc date notebookForeignPerUSD; assoc (PaymentCurrency bad) dayRates) = None) ->
  cv_handleTransactionMessage e a = (Ok tt, a).
Proof.
  intros Hd Hpre Hbad Hcase. unfold cv_handleTransactionMessage. unfold mbind at 1, M_bind, liftR. rewrite Hd.
  assert (convertTx bad a = (Ok None, a)) as Hb.
  { unfold convertTx. rewrite decide_False by done.
    assert (forall p, transactionDate (Timestamp bad) <> Panic p) as Hnp.
    { intros p. unfold transactionDate. by destruct (omap _ layouts). }
    destruct (transactionDate (Timestamp bad)) as [date|err|p] eqn:Et; [|done|by destruct (Hnp p)].
    destruct Hcase as [Hc|(H1 & H2 & H3)]; [done|]. unfold onRates, convertToUSD. rewrite H3, H1.
    unfold liftR, unquoted. rewrite decide_False, H2 by (intros Eb; rewrite Eb in H2; vm_compute in H2; discriminate).
    assert (errors_Is (unsupported (PaymentCurrency bad)) ErrUnsupportedCurrency = true) as ->; [|by destruct a].
    unfold unsupported. vm_compute. reflexivity. }
  assert (forall acc, convertAll (pre ++ bad :: post) acc a = (Ok None, a)) as Hall.
  { clear Hd. induction Hpre as [|tx pre Htx _ IH]; intros acc; cbn [app convertAll].
    - unfold mbind, M_bind. by rewrite Hb.
    - unfold mbind, M_bind, convertTx. rewrite decide_True by done. unfold mret, M_ret. apply IH. }
  unfold mbind, M_bind. by rewrite Hall.
Qed.
End Theorems.

(** ** Examples *)
#[local] Instance slashes : TimeLib := {|
  time_Parse := fun layout t =>
    if decide (layout = "2006/01/02 15:04" /\ t = "2022/09/10 08:30")%string then Some "2022-09-10"%string else None |}.
Definition euros (t : string) : Transaction :=
  mkTransaction t "10" "A" "20" "B" (F64 0) "Euro" (f64_of_int 8) "Euro" "Wire" false.
Definition dollars : Transaction := mkTransaction "x" "10" "A" "20" "B" (F64 0) "Euro" (f64_of_int 8) "US Dollar" "Wire" false.
Definition one_answer : rateClient := newRateClient [Ok (200, Ok {[ "USD"%string := f64_of_int 2 ]})].
Lemma rate_fetched_once_witness :
  exists rc1, convertToUSD "2022-09-10" "Euro" (f64_of_int 8) one_answer = (Ok (f64_of_int 16), rc1) /\
    asked rc1 = [("2022-09-10", "EUR")]%string /\
    exists f, f64_of_int 16 = f (f64_of_int 8) /\
      forall b, convertToUSD "2022-09-10" "Euro" b rc1 = (Ok (f b), rc1).
Proof.
  eexists. split; [vm_compute; reflexivity|]. split; [reflexivity|].
  eapply (rate_fetched_once "2022-09-10" "Euro" (f64_of_int 8) one_answer). vm_compute. reflexivity.
Defined.

Definition mixed : list Transaction := [dollars; euros "yesterday"; dollars].
Definition mixed_env : InternalEnvelope := mkInternalEnvelope MsgTransactionsBatch id1 id2
  (match EncodeTransactionBatch mixed with Ok b => b | _ => [] end).
Definition new_converter : Converter := mkConverter (mkPublisher [] [] newDedupState) ∅ one_answer [].
Lemma converter_drops_batch_witness :
  cv_handleTransactionMessage mixed_env new_converter = (Ok tt, new_converter).
Proof.
  apply (converter_drops_batch mixed_env [dollars] (euros "yesterday") [dollars]).
  - vm_compute. reflexivity.
  - repeat constructor.
  - discriminate.
  - left. reflexivity.
Defined.
Example converts : (cv_handleTransactionMessage (mkInternalEnvelope MsgTransactionsBatch id1 id2
  (match EncodeTransactionBatch [dollars; euros "2022/09/10 08:30"] with Ok b => b | _ => [] end)) new_converter).2
  = cvSetCount {[ id1 := 2 ]} (mkConverter (mkPublisher [mkMessage KeyDollarTransaction (EncodeInternalEnvelope
      (mkInternalEnvelope MsgTransactionsBatch id1 (DeriveMsgID id2 KeyDollarTransaction 0)
        (match EncodeTransactionBatch [dollars; inUSD (f64_of_int 16) (euros "2022/09/10 08:30")] with Ok b => b | _ => [] end)))]
      [] newDedupState) ∅ (mkRates {[ ("2022-09-10", "EUR")%string := f64_of_int 2 ]} [] [("2022-09-10", "EUR")%string]) []).
Proof. vm_compute. reflexivity. Qed.
