(* ===== verification/Restart.v ===== *)
(** * What the checkpoint coordinator never writes is lost at a restart

    A coordinator made with a nil state and a nil end-of-stream source keeps the
    seen ids only: [Recover] gives back nothing else.  The threshold filter of
    query 4 ([src/workers/filter/scattergather.go]) counts the ends of stream
    of a client in its memory and uses such a coordinator. *)

From S2P Require Import Prelude Models Wire Codec CodecQ4 Disk Store Coordinator Recovery Publisher Worker Consumer Q4Count.

(** ** Operations of the coordinator that leave a part of the memory alone *)
Section Keeps.
Context {UL : UuidLib} {GR : GoRange} {W X : Type} (view : W -> X).

Definition calm (f : W -> W) : Prop := forall w, view (f w) = view w.
Definition calmM {A} (m : M W A) : Prop := forall w, view (m w).2 = view w.
(** The view of the memory stays, and so do the acks that keep it. *)
Definition keeps {A} (m : D (Co W) A) : Prop := forall s d, Forall calm (coAcks s) ->
  view (coMem (run (m s) d).1.2) = view (coMem s) /\ Forall calm (coAcks (run (m s) d).1.2).

Lemma keeps_ret {A} (a : A) : keeps (mret a).
Proof. by intros s d Ha. Qed.
Lemma keeps_get : keeps getD.
Proof. by intros s d Ha. Qed.
Lemma keeps_bind {A B} (m : D (Co W) A) (f : A -> D (Co W) B) :
  keeps m -> (forall a, keeps (f a)) -> keeps (m ≫= f).
Proof.
  intros Hm Hf s d Ha. destruct (Hm s d Ha) as [Hv Ha']. unfold mbind, D_bind. rewrite run_bind.
  destruct (run (m s) d) as [[[a|e|p] s1] d1]; cbn [fst snd run] in *; [|done..].
  destruct (Hf a s1 d1 Ha') as [Hv1 Ha1]. by rewrite Hv1.
Qed.
Lemma keeps_liftIO {A} (m : io A) : keeps (liftIO m).
Proof. intros s d Ha. by rewrite run_liftIO. Qed.
Lemma keeps_mod f : (forall s, view (coMem (f s)) = view (coMem s)) ->
  (forall s, Forall calm (coAcks s) -> Forall calm (coAcks (f s))) -> keeps (modD f).
Proof. intros H1 H2 s d Ha. cbn. eauto. Qed.
Lemma keeps_onMem {A} (m : M W A) : calmM m -> keeps (onMem m).
Proof. intros Hm s d Ha. unfold onMem. specialize (Hm (coMem s)). by destruct (m (coMem s)). Qed.
Lemma keeps_wrapD {A} ctx (m : D (Co W) A) : keeps m -> keeps (wrapD ctx m).
Proof. intros Hm s d Ha. destruct (Hm s d Ha) as [Hv Ha']. unfold wrapD. by rewrite run_bind. Qed.
Lemma keeps_attempt {A} (m : D (Co W) A) : keeps m -> keeps (attempt m).
Proof. intros Hm s d Ha. destruct (Hm s d Ha) as [Hv Ha']. unfold attempt. by rewrite run_bind. Qed.
Lemma keeps_tryD {A} (m : D (Co W) A) : keeps m -> keeps (tryD m).
Proof. intros Hm. apply keeps_bind; [by apply keeps_attempt|]. intros a. apply keeps_ret. Qed.
Lemma keeps_forD {A} (l : list A) (f : A -> D (Co W) unit) : (forall x, keeps (f x)) -> keeps (forD l f).
Proof. intros Hf. induction l as [|x l IH]; [apply keeps_ret|]. by apply keeps_bind. Qed.
Lemma calm_wrapM {A} ctx (m : M W A) : calmM m -> calmM (wrapM ctx m).
Proof. intros Hm w. specialize (Hm w). unfold wrapM. by destruct (m w). Qed.
End Keeps.

Create HintDb keeps.
#[export] Hint Resolve keeps_ret keeps_get keeps_liftIO keeps_onMem keeps_wrapD keeps_attempt keeps_tryD calm_wrapM : keeps.

Section SeenOnly.
Context {UL : UuidLib} {GR : GoRange} {W X : Type} {HP : HasPublisher W} (view : W -> X).
Context (co : CoConfig W) (Hstate : coState co = None) (Heof : coEof co = None) (Hseen : coSeen co = seenSource).
(** The dedup state is not part of the view. *)
Context (Hdedup : forall f, calmM view (onDedup f)).

Lemma keeps_checkpoint id : keeps view (checkpoint co id).
Proof.
  unfold checkpoint, stageSlot, promoteSlot. rewrite Hstate, Heof, Hseen.
  repeat (apply keeps_bind; [|intros]); auto with keeps.
  - apply keeps_onMem, calm_wrapM. by intros w.
  - by apply keeps_mod.
  - apply keeps_onMem, calm_wrapM, Hdedup.
Qed.
Lemma keeps_Flush : keeps view (Flush co).
Proof.
  intros s d Ha. unfold Flush. erewrite run_D_bind by reflexivity. cbn [getD].
  eassert (keeps view (_ : D (Co W) unit)) as Hk; [|by apply Hk].
  repeat (apply keeps_bind; [|intros]).
  - apply keeps_mod; [done|]. by constructor.
  - apply keeps_forD, keeps_checkpoint.
  - clear Hdedup. induction Ha as [|ack acks Hack _ IH]; cbn [forD]; [apply keeps_ret|].
    apply keeps_bind; [|done]. apply keeps_mod; [intros s0; apply Hack|done].
Qed.
Lemma keeps_Track id ack : calm view ack -> keeps view (Track co id ack).
Proof.
  intros Hack. unfold Track. repeat (apply keeps_bind; [|intros]); auto with keeps.
  - apply keeps_mod; [done|]. intros s Ha. cbn [coAcks]. by apply Forall_app_2; [|constructor].
  - case_match; auto using keeps_Flush with keeps.
Qed.
Lemma keeps_Delete id : keeps view (Delete co id).
Proof.
  unfold Delete. rewrite Hstate, Heof. repeat (apply keeps_bind; [|intros]); auto with keeps. by apply keeps_mod.
Qed.
Lemma keeps_Recover : keeps view (Recover co).
Proof.
  unfold Recover. apply keeps_bind; [auto with keeps|]. intros keys. apply keeps_forD. intros key.
  unfold recoverKey, restoreSlot. rewrite Hstate, Heof, Hseen. destruct (uuid_Parse key) as [id|]; [|auto with keeps].
  apply keeps_bind; [auto with keeps|]. intros [recs g].
  repeat (apply keeps_bind; [|intros]); auto with keeps.
  - apply keeps_forD. intros r. apply keeps_onMem, calm_wrapM, Hdedup.
  - by apply keeps_mod.
Qed.
End SeenOnly.

(** ** The threshold filter *)
Import PairFilter.
Section Threshold.
Context {UL : UuidLib} {GR : GoRange} (cfg : WorkerCfg).

(** [NewCoordinator(dir, pub, nil, nil, interval)] *)
Definition filterCo (dir : string) (interval : Z) : CoConfig ScatterGatherThreshold :=
  NewCoordinator dir seenSource None None interval.
Definition NewScatterGather : res ScatterGatherThreshold :=
  if thresholdAmount cfg <=? 0 then Err (ErrMsg "ScatterGatherFilter requires SCATTER_GATHER_THRESHOLD > 0")
  else Ok (mkThreshold (mkPublisher [] [] newDedupState) ∅ []).
Definition filter_deliver (co : CoConfig ScatterGatherThreshold) (deliveries : list (nat * bytes)) : D (Co ScatterGatherThreshold) unit :=
  forD deliveries (fun d => _ ← filter_consume cfg co d.2 d.1; mret tt).

Definition barrier (a : ScatterGatherThreshold) : list Message * gmap id16 Z := (sent (thPub a), eofCounters a).
Lemma calm_dedup f : calmM barrier (onDedup f).
Proof. by intros w. Qed.
Lemma calm_ack n : calm barrier (ackFilter n).
Proof. by intros w. Qed.

(** A message that announces the end of client [c]'s stream. *)
Definition eof_of (c : id16) (body : bytes) : Prop :=
  exists e, DecodeInternalEnvelope body = Ok e /\ MsgType_ e = MsgTransactionsEOF /\ ClientId e = c /\
    match DecodeEOFCounts (Payload e) with Ok counts => IsFlushEOF counts = false | _ => False end.

(** Nothing was sent since [l], and at most [k] ends of [c] are counted. *)
Definition waits (l : list Message) (c : id16) (k : Z) (s : Co ScatterGatherThreshold) : Prop :=
  sent (thPub (coMem s)) = l /\ 0 <= default 0 (eofCounters (coMem s) !! c) <= k /\ Forall (calm barrier) (coAcks s).
Lemma waits_keeps {A} l c k (m : D (Co ScatterGatherThreshold) A) s d :
  keeps barrier m -> waits l c k s -> waits l c k (run (m s) d).1.2.
Proof. intros Hm (Hl & Hk & Ha). destruct (Hm s d Ha) as [[= Hv1 Hv2] Ha']. split_and!; [congruence|rewrite Hv2; lia..|done]. Qed.

Lemma waits_eof l c k e s : waits l c k s -> ClientId e = c -> k + 1 < prevWorkerAmount cfg -> in_int64 (prevWorkerAmount cfg) ->
  match DecodeEOFCounts (Payload e) with Ok counts => IsFlushEOF counts = false | _ => False end ->
  exists a, filter_eof cfg e (coMem s) = (Ok false, a) /\ waits l c (k + 1) (setMem a s).
Proof.
  intros (Hl & Hk & Ha) Hc Hlt Hi Hd. unfold filter_eof. destruct (DecodeEOFCounts (Payload e)) as [counts|x|p]; [|done..].
  rewrite Hd, Hc.
  unfold modS, getS, mbind, M_bind, mret, M_ret. set (a := setEof _ _).
  assert (default 0 (eofCounters a !! c) = default 0 (eofCounters (coMem s) !! c) + 1) as Hn.
  { unfold a, setEof, bumpEof. cbn [eofCounters]. rewrite lookup_insert_eq. cbn [default].
    change (int64 (default 0 (eofCounters (coMem s) !! c) + 1) = default 0 (eofCounters (coMem s) !! c) + 1).
    unfold int64. rewrite Z.mod_small; unfold in_int64 in Hi; lia. }
  rewrite (proj2 (Z.ltb_lt _ _)) by lia. exists a. split; [done|]. unfold waits. cbn [setMem coMem coAcks]. rewrite Hn. split_and!; [done|lia..|done].
Qed.

(** From a state where [P] holds, the memory [m] leaves has [Q]. *)
Definition steps {A} (P Q : Co ScatterGatherThreshold -> Prop) (m : D (Co ScatterGatherThreshold) A) : Prop :=
  forall s d, P s -> Q (run (m s) d).1.2.
Lemma steps_seq {A B} (P Q R : Co ScatterGatherThreshold -> Prop) (m : D (Co ScatterGatherThreshold) A) (f : A -> D (Co ScatterGatherThreshold) B) :
  (forall s, Q s -> R s) -> steps P Q m -> (forall a, steps Q R (f a)) -> steps P R (m ≫= f).
Proof.
  intros HQR Hm Hf s d HP. specialize (Hm s d HP). unfold mbind, D_bind. rewrite run_bind.
  destruct (run (m s) d) as [[[a|e|p] s1] d1]; [by apply Hf|by apply HQR..].
Qed.
Lemma steps_value {A B} P Q (m : D (Co ScatterGatherThreshold) A) (f : A -> D (Co ScatterGatherThreshold) B) a :
  (forall s, m s = Ret (Ok a, s)) -> steps P Q (f a) -> steps P Q (m ≫= f).
Proof. intros Hm Hf s d HP. unfold mbind, D_bind. rewrite Hm. by apply Hf. Qed.

Context (dir : string) (interval : Z).
Abbreviation co := (filterCo dir interval).
Lemma steps_keeps {A} l c k (m : D (Co ScatterGatherThreshold) A) : keeps barrier m -> steps (waits l c k) (waits l c k) m.
Proof. intros Hm s d. by apply waits_keeps. Qed.
Lemma waits_up l c k s : waits l c k s -> waits l c (k + 1) s.
Proof. intros (? & ? & ?). split_and!; [done|lia..|done]. Qed.

Lemma steps_dispatch l c k body : eof_of c body -> k + 1 < prevWorkerAmount cfg -> in_int64 (prevWorkerAmount cfg) ->
  steps (waits l c k) (waits l c (k + 1)) (filter_handleMessage cfg co body).
Proof.
  intros (e & He & Ht & Hc & Hn) Hlt Hi. unfold filter_handleMessage, DispatchD.
  eapply steps_value with (a := e).
  { intros []. unfold onMem, liftR. by rewrite He. }
  rewrite Ht. cbn -[negb bool_decide].
  apply (steps_seq _ (waits l c k)); [apply waits_up|apply steps_keeps; apply keeps_onMem; by intros w|]. intros w.
  destruct (negb _ && _); [intros s d Hw; by apply waits_up|].
  apply (steps_seq _ (waits l c (k + 1))); [done|..].
  - unfold filter_handleEOFMessage. apply (steps_seq _ (waits l c (k + 1))); [done|..].
    + intros s d Hw. destruct (waits_eof l c k e s Hw Hc Hlt Hi Hn) as (a & Ha & Hw'). unfold onMem. by rewrite Ha.
    + intros []; apply steps_keeps; [|apply keeps_ret]. apply keeps_Flush; [done..|]. apply calm_dedup.
  - intros []. apply (steps_seq _ (waits l c (k + 1))); [done|..]; [|intros []; apply steps_keeps, keeps_ret].
    apply steps_keeps. destruct (negb _); [apply keeps_onMem, calm_dedup|apply keeps_ret].
Qed.
Lemma steps_consume l c k n body : eof_of c body -> k + 1 < prevWorkerAmount cfg -> in_int64 (prevWorkerAmount cfg) ->
  steps (waits l c k) (waits l c (k + 1)) (filter_consume cfg co body n).
Proof.
  intros He Hlt Hi. unfold filter_consume, consumeBarrier. apply (steps_seq _ (waits l c (k + 1))); [done|..].
  { intros s d Hw. unfold attempt. rewrite run_bind. by apply steps_dispatch. }
  intros r. apply steps_keeps. destruct r as [[id t]|x|p]; [|apply keeps_ret..].
  pose proof calm_dedup as Hcalm.
  repeat first [ apply keeps_Track | apply keeps_Flush | apply keeps_Delete | apply keeps_onMem | apply keeps_tryD
    | apply keeps_ret | apply keeps_get | apply keeps_bind; [|intros] | done | by intros w | case_match ].
Qed.

Lemma steps_deliver l c ds : in_int64 (prevWorkerAmount cfg) -> forall k, Forall (fun d => eof_of c d.2) ds ->
  k + Zlen ds < prevWorkerAmount cfg -> steps (waits l c k) (waits l c (k + Zlen ds)) (filter_deliver co ds).
Proof.
  intros Hi. induction ds as [|[n b] ds IH]; intros k He Hlt.
  { intros s d (? & ? & ?). split_and!; [done|unfold Zlen; cbn; lia..|done]. }
  apply Forall_cons in He as [Hb He]. replace (k + Zlen ((n, b) :: ds)) with (k + 1 + Zlen ds) in * by (unfold Zlen; cbn; lia).
  unfold filter_deliver. cbn [forD]. apply (steps_seq _ (waits l c (k + 1))).
  - intros s (? & ? & ?). split_and!; [done|unfold Zlen; lia..|done].
  - apply (steps_seq _ (waits l c (k + 1))); [done|..].
    + apply steps_consume; [done|unfold Zlen in *; lia|done].
    + intros a. apply steps_keeps, keeps_ret.
  - intros []. by apply IH.
Qed.

(** C16. The count of ends of stream is not among what the coordinator writes:
    whatever the directory holds, a restarted filter counts from zero.  When one
    end was processed (and acknowledged) before the restart, those that remain
    are fewer than the filter waits for: it forwards nothing for the client,
    and the end of the query is never announced. *)
Theorem threshold_restart_stuck w d c ds : NewScatterGather = Ok w ->
  Forall (fun dl => eof_of c dl.2) ds -> Zlen ds < prevWorkerAmount cfg -> in_int64 (prevWorkerAmount cfg) ->
  let r := run (Recover co (newCo w)) d in
  eofCounters (coMem r.1.2) = ∅ /\
  sent (thPub (coMem (run (filter_deliver co ds r.1.2) r.2).1.2)) = [].
Proof.
  intros Hw Hds Hlt Hi r. assert (barrier w = ([], ∅)) as Hb by (unfold NewScatterGather in Hw; case_match; [done|by injection Hw as <-]).
  destruct (keeps_Recover barrier co) with (newCo w) d as [Hv Ha]; [done..|by apply calm_dedup|by constructor|].
  fold r in Hv, Ha. cbn [newCo coMem] in Hv. rewrite Hb in Hv. injection Hv as Hs He. split; [done|].
  apply (steps_deliver [] c ds Hi 0); [done|lia|]. split_and!; [done|by rewrite He..|done].
Qed.
End Threshold.

(** ** Two upstream workers; a restart between their ends of stream *)
#[local] Instance letters : UuidLib := uuid_letters.
#[local] Instance order : GoRange := range_id.
Definition two_upstream : WorkerCfg := mkWorkerCfg "filter" 0 2 5.
Definition eof_payload : bytes := match EncodeEOFCounts {[ KeyNil := 3 ]} with Ok p => p | _ => [] end.
Definition eof_body (id : id16) : bytes :=
  EncodeInternalEnvelope (mkInternalEnvelope MsgTransactionsEOF id1 id eof_payload).
Definition fresh_filter : ScatterGatherThreshold := mkThreshold (mkPublisher [] [] newDedupState) ∅ [].
Definition co1 : CoConfig ScatterGatherThreshold := filterCo "ckpt" 1.
Definition before_restart : (res unit * Co ScatterGatherThreshold) * disk :=
  run (filter_deliver two_upstream co1 [(0%nat, eof_body id1)] (newCo fresh_filter)) ∅.
(** The filter that is not restarted announces the end when the second comes. *)
Definition without_restart : Co ScatterGatherThreshold :=
  (run (filter_deliver two_upstream co1 [(0%nat, eof_body id1); (1%nat, eof_body id2)] (newCo fresh_filter)) ∅).1.2.
Lemma eof_body_of id : eof_of id1 (eof_body id).
Proof.
  exists (mkInternalEnvelope MsgTransactionsEOF id1 id eof_payload).
  split; [apply decode_internal; vm_compute; reflexivity|]. split_and!; [done..|vm_compute; reflexivity].
Qed.

Lemma threshold_restart_stuck_witness :
  length (sent (thPub (coMem without_restart))) = 1%nat /\
  thAcked (coMem before_restart.1.2) = [0%nat] /\
  let r := run (Recover co1 (newCo fresh_filter)) before_restart.2 in
  eofCounters (coMem r.1.2) = ∅ /\
  sent (thPub (coMem (run (filter_deliver two_upstream co1 [(1%nat, eof_body id2)] r.1.2) r.2).1.2)) = [].
Proof.
  split; [vm_compute; reflexivity|]. split; [vm_compute; reflexivity|].
  apply (threshold_restart_stuck two_upstream "ckpt" 1 fresh_filter before_restart.2 id1 [(1%nat, eof_body id2)]).
  - reflexivity.
  - constructor; [apply eof_body_of|constructor].
  - reflexivity.
  - split; vm_compute; congruence.
Defined.
