(* ===== verification/Bully.v ===== *)
(** * Leader election between the monitors ([src/common/bully])

    The operations of a node are functions; [work] lets the goroutines of every
    node advance on a network that delivers, [fault] adds timeouts, lost
    messages, pings, crashes and restarts.  A critical section of the mutex is
    one step.  A peer is dialled by its id: addresses are not modelled. *)

From S2P Require Import Prelude.

(** ** [protocol.go] *)
Definition MsgPing : byte := Byte.x00.
Definition MsgPong : byte := Byte.x01.
Definition MsgAlive : byte := Byte.x02.
Definition MsgElection : byte := Byte.x03.
Definition MsgCoordinator : byte := Byte.x04.
Record Message := mkMessage { Type_ : byte; SenderID : Z; LeaderID : Z }.
Definition Encode (msg : Message) : bytes := [Type_ msg; Z_byte (SenderID msg); Z_byte (LeaderID msg)].
Definition Decode (data : bytes) : res Message :=
  match data with
  | t :: s :: l :: _ => Ok (mkMessage t (byte_Z s) (byte_Z l))
  | _ => Err (ErrMsg "bully: message too short")
  end.

(** ** [bully.go]: the state of a node *)
Record peerState := mkPeer { peer_id : Z; alive : bool; missedPings : Z }.
Record Bully := mkBully { peers : list peerState; selfID : Z; leaderID : Z; isLeader : bool }.
Definition New (self : Z) (ids : list Z) : Bully :=
  mkBully ((fun i => mkPeer i true 0) <$> ids) self 0 (bool_decide (self = 0)).
Definition setPeers (ps : list peerState) (b : Bully) : Bully := mkBully ps (selfID b) (leaderID b) (isLeader b).
Definition setLeader (l : Z) (b : Bully) : Bully := mkBully (peers b) (selfID b) l (bool_decide (l = selfID b)).

(** The loops over the peers stop at the first one with the id. *)
Fixpoint onPeer (id : Z) (f : peerState -> peerState) (ps : list peerState) : list peerState :=
  match ps with
  | [] => []
  | p :: ps' => if decide (peer_id p = id) then f p :: ps' else p :: onPeer id f ps'
  end.
Definition seenAlive (id : Z) (b : Bully) : Bully :=
  setPeers (onPeer id (fun p => mkPeer (peer_id p) true 0) (peers b)) b.

(** What the handler of a connection does: the new state, the reply, and
    whether it starts an election. *)
Definition reaction : Type := Bully * option bytes * bool.
Definition handlePing (msg : Message) (b : Bully) : reaction :=
  (seenAlive (SenderID msg) b, Some (Encode (mkMessage MsgPong (selfID b) (leaderID b))),
   (0 <=? LeaderID msg) && negb (LeaderID msg =? leaderID b)).
Definition handleElection (msg : Message) (b : Bully) : reaction :=
  if selfID b <? SenderID msg
  then (b, Some (Encode (mkMessage MsgAlive (selfID b) (leaderID b))), true)
  else (b, None, false).
Definition handleCoordinator (msg : Message) (b : Bully) : reaction := (setLeader (LeaderID msg) b, None, false).
Definition handleAlive (msg : Message) (b : Bully) : reaction :=
  (seenAlive (SenderID msg) b, Some (Encode (mkMessage MsgCoordinator (selfID b) (leaderID b))), false).
Definition handleConn (buf : bytes) (b : Bully) : reaction :=
  match Decode buf with
  | Ok msg =>
      if decide (Type_ msg = MsgPing) then handlePing msg b
      else if decide (Type_ msg = MsgElection) then handleElection msg b
      else if decide (Type_ msg = MsgCoordinator) then handleCoordinator msg b
      else if decide (Type_ msg = MsgAlive) then handleAlive msg b
      else (b, None, false)
  | _ => (b, None, false)
  end.

(** The failure of a ping: the new state, and whether to start an election. *)
Definition markPeerDead (id : Z) (b : Bully) : Bully * bool :=
  match find (fun p => peer_id p =? id) (peers b) with
  | None => (b, false)
  | Some p =>
      let missed := int64 (missedPings p + 1) in
      let dead := (3 <=? missed) && alive p in
      (setPeers (onPeer id (fun p => mkPeer (peer_id p) (if dead then false else alive p) missed) (peers b)) b,
       dead && (id =? leaderID b))
  end.
Definition handlePong (id : Z) (b : Bully) : Bully := seenAlive id b.
(** [pingPeer], once the reply was read ([None]: an error or a short read). *)
Definition pinged (id : Z) (resp : option bytes) (b : Bully) : Bully * bool :=
  match Decode <$> resp with
  | Some (Ok m) => if decide (Type_ m = MsgPong) then (handlePong id b, false) else markPeerDead id b
  | _ => markPeerDead id b
  end.
(** [startElection]: the candidates, and the end of the loop over them. *)
Definition candidates (b : Bully) : list Z :=
  peer_id <$> filter (fun p => peer_id p < selfID b /\ alive p = true) (peers b).
Definition becomeLeader (b : Bully) : Bully * list (Z * bytes) :=
  (setLeader (selfID b) b,
   (fun p => (peer_id p, Encode (mkMessage MsgCoordinator (selfID b) (selfID b)))) <$> peers b).
(** The last line of [sendElection]. *)
Definition sendElection_ok (resp : option bytes) : bool :=
  match Decode <$> resp with Some (Ok m) => bool_decide (Type_ m = MsgAlive) | _ => false end.

(** ** The cluster *)
(** What the goroutines of the nodes are doing. *)
Inductive task :=
  | Starting (i : Z)                                       (* startElection was called *)
  | Electing (i : Z) (cands : list Z)                      (* its loop, at these candidates *)
  | Asking (i c : Z) (rest : list Z) (req : bytes)         (* sendElection wrote the request *)
  | Asked (i c : Z) (rest : list Z) (resp : option bytes)  (* ... and the peer has answered *)
  | Pinging (i j : Z) (req : bytes)
  | Pinged (i j : Z) (resp : option bytes)
  | Sending (j : Z) (msg : bytes).                         (* sendToPeer *)
Definition owner (t : task) : option Z :=
  match t with
  | Starting i | Electing i _ | Asking i _ _ _ | Asked i _ _ _ | Pinging i _ _ | Pinged i _ _ => Some i
  | Sending _ _ => None
  end.
(** The running nodes, by id. *)
Record Cluster := mkCluster { nodes : gmap Z Bully; tasks : list task }.

(** A goroutine advances: its task is replaced by others, and one node changes. *)
Inductive advance (ns : gmap Z Bully) : task -> gmap Z Bully -> list task -> Prop :=
  | adv_start i b : ns !! i = Some b ->
      advance ns (Starting i) ns [Electing i (candidates b)]
  | adv_win i b : ns !! i = Some b ->
      advance ns (Electing i []) (<[i := (becomeLeader b).1]> ns) ((fun m => Sending m.1 m.2) <$> (becomeLeader b).2)
  | adv_dial i b c rest : ns !! i = Some b -> is_Some (ns !! c) ->
      advance ns (Electing i (c :: rest)) ns
        [Asking i c rest (Encode (mkMessage MsgElection (selfID b) (leaderID b)))]
  | adv_refused i c rest : ns !! c = None -> advance ns (Electing i (c :: rest)) ns [Electing i rest]
  | adv_ask i c rest req b : ns !! c = Some b -> let r := handleConn req b in
      advance ns (Asking i c rest req) (<[c := r.1.1]> ns)
        (Asked i c rest r.1.2 :: (if r.2 then [Starting c] else []))
  | adv_reset i c rest req : ns !! c = None -> advance ns (Asking i c rest req) ns [Asked i c rest None]
  | adv_deferred i c rest resp : sendElection_ok resp = true -> advance ns (Asked i c rest resp) ns []
  | adv_next i c rest resp : sendElection_ok resp = false -> advance ns (Asked i c rest resp) ns [Electing i rest]
  | adv_ping i j req b : ns !! j = Some b -> let r := handleConn req b in
      advance ns (Pinging i j req) (<[j := r.1.1]> ns)
        (Pinged i j r.1.2 :: (if r.2 then [Starting j] else []))
  | adv_pingreset i j req : ns !! j = None -> advance ns (Pinging i j req) ns [Pinged i j None]
  | adv_pinged i j resp b : ns !! i = Some b -> let r := pinged j resp b in
      advance ns (Pinged i j resp) (<[i := r.1]> ns) (if r.2 then [Starting i] else [])
  | adv_send j msg b : ns !! j = Some b -> let r := handleConn msg b in
      advance ns (Sending j msg) (<[j := r.1.1]> ns) (if r.2 then [Starting j] else [])
  | adv_unreachable j msg : ns !! j = None -> advance ns (Sending j msg) ns [].

(** A deadline passes or a connection breaks. *)
Inductive times_out : task -> list task -> Prop :=
  | out_dial i c rest : times_out (Electing i (c :: rest)) [Electing i rest]
  | out_ask i c rest req : times_out (Asking i c rest req) [Asked i c rest None]
  | out_answer i c rest resp : times_out (Asked i c rest resp) [Asked i c rest None]
  | out_ping i j req : times_out (Pinging i j req) [Pinged i j None]
  | out_pong i j resp : times_out (Pinged i j resp) [Pinged i j None]
  | out_send j msg : times_out (Sending j msg) [].

Inductive work : Cluster -> Cluster -> Prop :=
  | work_step ns ns' pre t post new : advance ns t ns' new ->
      work (mkCluster ns (pre ++ t :: post)) (mkCluster ns' (pre ++ new ++ post)).
(** [net]: the configured ids. *)
Inductive fault (net : list Z) : Cluster -> Cluster -> Prop :=
  | f_timeout ns pre t post new : times_out t new ->
      fault net (mkCluster ns (pre ++ t :: post)) (mkCluster ns (pre ++ new ++ post))
  | f_ping ns ts i b p : ns !! i = Some b -> p ∈ peers b ->
      fault net (mkCluster ns ts)
        (mkCluster ns (Pinging i (peer_id p) (Encode (mkMessage MsgPing (selfID b) (leaderID b))) :: ts))
  | f_undialled ns ts i b p : ns !! i = Some b -> p ∈ peers b ->
      fault net (mkCluster ns ts) (mkCluster ns (Pinged i (peer_id p) None :: ts))
  | f_crash ns ts i : fault net (mkCluster ns ts)
      (mkCluster (delete i ns) (filter (fun t => owner t <> Some i) ts))
  | f_boot ns ts i : i ∈ net -> ns !! i = None ->
      fault net (mkCluster ns ts) (mkCluster (<[i := New i (filter (fun j => j <> i) net)]> ns) ts).
Definition cluster_step (net : list Z) (C C' : Cluster) : Prop := work C C' \/ fault net C C'.

(** ** Encoding *)
Lemma Decode_Encode msg :
  Decode (Encode msg) = Ok (mkMessage (Type_ msg) (SenderID msg mod 256) (LeaderID msg mod 256)).
Proof. unfold Decode, Encode. by rewrite !byte_Z_byte. Qed.
Lemma handleConn_election s l b :
  handleConn (Encode (mkMessage MsgElection s l)) b = handleElection (mkMessage MsgElection (s mod 256) (l mod 256)) b.
Proof. unfold handleConn. by rewrite Decode_Encode. Qed.
Lemma handleConn_ping s l b :
  handleConn (Encode (mkMessage MsgPing s l)) b = handlePing (mkMessage MsgPing (s mod 256) (l mod 256)) b.
Proof. unfold handleConn. by rewrite Decode_Encode. Qed.
Lemma handleConn_coordinator s l b :
  handleConn (Encode (mkMessage MsgCoordinator s l)) b = (setLeader (l mod 256) b, None, false).
Proof. unfold handleConn. by rewrite Decode_Encode. Qed.

Lemma onPeer_ids id f ps : (forall p, peer_id (f p) = peer_id p) -> peer_id <$> onPeer id f ps = peer_id <$> ps.
Proof. intros Hf. induction ps as [|p ps IH]; [done|]. cbn. case_decide; cbn; congruence. Qed.

(** ** The invariant of every reachable cluster *)
Section Invariant.
Context (net : list Z) (Hnet : Forall (fun i => 0 <= i < 256) net).

Lemma net_mod l : l ∈ net -> l mod 256 = l.
Proof. intros H. rewrite Forall_forall in Hnet. by apply Z.mod_small, Hnet. Qed.

Definition node_ok (i : Z) (b : Bully) : Prop :=
  selfID b = i /\ i ∈ net /\ peer_id <$> peers b = filter (fun j => j <> i) net /\
  isLeader b = bool_decide (leaderID b = selfID b) /\ (leaderID b = 0 \/ leaderID b ∈ net).
Definition lower (i : Z) (cs : list Z) : Prop := (length cs <= length net)%nat /\ Forall (fun c => c ∈ net /\ c < i) cs.
Definition task_ok (ns : gmap Z Bully) (t : task) : Prop :=
  match t with
  | Starting i => is_Some (ns !! i)
  | Electing i cs => is_Some (ns !! i) /\ lower i cs
  | Asking i c rest req => is_Some (ns !! i) /\ lower i (c :: rest) /\ exists l, req = Encode (mkMessage MsgElection i l)
  | Asked i c rest _ => is_Some (ns !! i) /\ lower i (c :: rest)
  | Pinging i j req => is_Some (ns !! i) /\ j ∈ net /\ exists l, req = Encode (mkMessage MsgPing i l)
  | Pinged i j _ => is_Some (ns !! i) /\ j ∈ net
  | Sending j msg => j ∈ net /\ exists l, l ∈ net /\ msg = Encode (mkMessage MsgCoordinator l l)
  end.
Definition inv (C : Cluster) : Prop := map_Forall node_ok (nodes C) /\ Forall (task_ok (nodes C)) (tasks C).

Lemma node_ok_peers i b ps : node_ok i b -> peer_id <$> ps = peer_id <$> peers b -> node_ok i (setPeers ps b).
Proof. intros (H1 & H2 & H3 & H4 & H5) Hp. unfold node_ok, setPeers. cbn. by rewrite Hp. Qed.
Lemma node_ok_leader i b l : node_ok i b -> l ∈ net -> node_ok i (setLeader l b).
Proof. intros (H1 & H2 & H3 & H4 & H5) Hl. unfold node_ok, setLeader. cbn. split_and!; auto. Qed.
Lemma node_ok_seenAlive i b j : node_ok i b -> node_ok i (seenAlive j b).
Proof. intros Hb. apply node_ok_peers; [done|]. by apply onPeer_ids. Qed.
Lemma node_ok_election i b s l : node_ok i b -> node_ok i (handleConn (Encode (mkMessage MsgElection s l)) b).1.1.
Proof. rewrite handleConn_election. unfold handleElection. by destruct (_ <? _). Qed.
Lemma node_ok_ping i b s l : node_ok i b -> node_ok i (handleConn (Encode (mkMessage MsgPing s l)) b).1.1.
Proof. rewrite handleConn_ping. apply node_ok_seenAlive. Qed.
Lemma node_ok_dead i b j : node_ok i b -> node_ok i (markPeerDead j b).1.
Proof.
  intros Hb. unfold markPeerDead. destruct (find _ _) as [p|]; [|done]. apply node_ok_peers; [done|]. by apply onPeer_ids.
Qed.
Lemma node_ok_pinged i b j resp : node_ok i b -> node_ok i (pinged j resp b).1.
Proof.
  intros Hb. unfold pinged. destruct (Decode <$> resp) as [[m|?|?]|]; [case_decide|..];
    first [by apply node_ok_seenAlive|by apply node_ok_dead].
Qed.
Lemma peer_net i b p : node_ok i b -> p ∈ peers b -> peer_id p <> i /\ peer_id p ∈ net.
Proof.
  intros (_ & _ & Hps & _) Hp. apply (list_elem_of_fmap_2 peer_id) in Hp. rewrite Hps in Hp.
  by apply list_elem_of_filter in Hp.
Qed.
Lemma candidates_lower i b : node_ok i b -> lower i (candidates b).
Proof.
  intros Hb. pose proof Hb as (Hs & _ & Hp & _). unfold candidates. split.
  - rewrite length_fmap. trans (length (peers b)); [apply length_filter|].
    rewrite <- (length_fmap peer_id), Hp. apply length_filter.
  - apply Forall_forall. intros c Hc. apply list_elem_of_fmap in Hc as (p & -> & Hin).
    apply list_elem_of_filter in Hin as [[Hlt _] Hin]. split; [|by rewrite <- Hs].
    by apply (peer_net i b).
Qed.
Lemma lower_tail i c cs : lower i (c :: cs) -> lower i cs.
Proof. intros [Hl Hc]. split; [cbn in Hl; lia|]. by apply Forall_cons in Hc as [_ Hc]. Qed.

Lemma task_ok_mono ns ns' t : (forall i, is_Some (ns !! i) -> is_Some (ns' !! i)) -> task_ok ns t -> task_ok ns' t.
Proof. intros H. destruct t; cbn; intuition eauto. Qed.
Lemma ins_mono (ns : gmap Z Bully) i b j : is_Some (ns !! j) -> is_Some (<[i := b]> ns !! j).
Proof. intros H. destruct (decide (i = j)) as [->|]; [by rewrite lookup_insert_eq|by rewrite lookup_insert_ne]. Qed.


Lemma node_ok_ins (ns : gmap Z Bully) i b b' : map_Forall node_ok ns -> ns !! i = Some b -> (node_ok i b -> node_ok i b') ->
  map_Forall node_ok (<[i := b']> ns).
Proof. intros H Hb Hi. apply map_Forall_insert_2; [|done]. by apply Hi, (H i b). Qed.
Lemma spawn_ok (ns : gmap Z Bully) i b' (e : bool) :
  Forall (task_ok (<[i := b']> ns)) (if e then [Starting i] else []).
Proof. destruct e; [|constructor]. constructor; [|constructor]. cbn. by rewrite lookup_insert_eq. Qed.

Lemma advance_ok ns t ns' new : map_Forall node_ok ns -> task_ok ns t -> advance ns t ns' new ->
  map_Forall node_ok ns' /\ Forall (task_ok ns') new /\ (forall i, is_Some (ns !! i) -> is_Some (ns' !! i)).
Proof.
  intros Hns Ht Ha. destruct Ha; cbn [task_ok] in Ht.
  - split_and!; [done| |done]. apply Forall_singleton. split; [done|]. by eapply candidates_lower, Hns.
  - split_and!; [|..|apply ins_mono].
    + eapply node_ok_ins; [done..|]. intros Hb. apply node_ok_leader; [done|]. destruct Hb as (-> & ? & _). done.
    + cbn [becomeLeader snd]. apply Forall_fmap, Forall_fmap, Forall_forall. intros p Hp. cbn.
      pose proof (Hns i b H) as Hb. destruct (peer_net i b p Hb Hp) as [_ Hin], Hb as (Hs & Hi & _).
      split; [done|]. exists (selfID b). by rewrite Hs.
  - destruct Ht as [Hi Hl]. split_and!; [done| |done]. apply Forall_singleton. split_and!; [done|apply Hl..|].
    destruct (Hns i b H) as [-> _]. by eexists.
  - destruct Ht as [Hi Hl]. split_and!; [done| |done]. apply Forall_singleton. split; [done|]. by eapply lower_tail.
  - destruct Ht as (Hi & Hl & l & ->). split_and!; [|constructor; [|apply spawn_ok]|apply ins_mono].
    + eapply node_ok_ins; [done..|]. apply node_ok_election.
    + split; [by apply ins_mono|done].
  - destruct Ht as (Hi & Hl & l & ->). split_and!; [done| |done]. by apply Forall_singleton.
  - by split_and!.
  - destruct Ht as [Hi Hl]. split_and!; [done| |done]. apply Forall_singleton. split; [done|]. by eapply lower_tail.
  - destruct Ht as (Hi & Hj & l & ->). split_and!; [|constructor; [|apply spawn_ok]|apply ins_mono].
    + eapply node_ok_ins; [done..|]. apply node_ok_ping.
    + split; [by apply ins_mono|done].
  - destruct Ht as (Hi & Hj & l & ->). split_and!; [done| |done]. by apply Forall_singleton.
  - split_and!; [|apply spawn_ok|apply ins_mono]. eapply node_ok_ins; [done..|]. apply node_ok_pinged.
  - destruct Ht as (Hj & l & Hl & ->). split_and!; [|apply spawn_ok|apply ins_mono].
    eapply node_ok_ins; [done..|]. subst r. rewrite handleConn_coordinator, net_mod by done. intros Hb. by apply node_ok_leader.
  - by split_and!.
Qed.
Lemma work_inv C C' : inv C -> work C C' -> inv C'.
Proof.
  intros [Hns Hts] Hw. destruct Hw as [ns ns' pre t post new Ha]. cbn in *.
  rewrite Forall_app, Forall_cons in Hts. destruct Hts as (Hpre & Ht & Hpost).
  destruct (advance_ok _ _ _ _ Hns Ht Ha) as (Hns' & Hnew & Hmono). split; [done|]. cbn.
  rewrite !Forall_app. split_and!; [|done|]; (eapply Forall_impl; [eassumption|]); intros t'; by apply task_ok_mono.
Qed.
Lemma times_out_ok ns t new : task_ok ns t -> times_out t new -> Forall (task_ok ns) new.
Proof.
  intros Ht Ho. destruct Ho; cbn [task_ok] in Ht; [apply Forall_singleton; cbn [task_ok]..|constructor].
  all: destruct Ht as [? Ht]; (split; [done|]); first [done|by eapply lower_tail|apply Ht].
Qed.
Lemma fault_inv C C' : inv C -> fault net C C' -> inv C'.
Proof.
  intros [Hns Hts] Hf. destruct Hf as [ns pre t post new Ho|ns ts i b p Hb Hp|ns ts i b p Hb Hp|ns ts i|ns ts i Hi Hn]; cbn in *.
  - rewrite Forall_app, Forall_cons in Hts. destruct Hts as (Hpre & Ht & Hpost). split; [done|]. cbn.
    rewrite !Forall_app. split_and!; [done| |done]. by eapply times_out_ok.
  - pose proof (Hns i b Hb) as Hok. destruct (peer_net i b p Hok Hp) as [_ Hj], Hok as [-> _].
    split; [done|]. constructor; [|done]. split_and!; [done..|by eexists].
  - destruct (peer_net i b p (Hns i b Hb) Hp) as [_ Hj]. split; [done|]. constructor; [done|done].
  - split; [by apply map_Forall_delete|]. cbn. apply Forall_forall. intros t Ht.
    apply list_elem_of_filter in Ht as [Ho Ht]. rewrite Forall_forall in Hts. specialize (Hts t Ht).
    destruct t; cbn in *; rewrite ?lookup_delete_ne by congruence; done.
  - split.
    + apply map_Forall_insert_2; [|done]. unfold node_ok, New. cbn. split_and!; [done..| | |by left].
      * rewrite <- list_fmap_compose. apply list_fmap_id.
      * by apply bool_decide_ext.
    + cbn. eapply Forall_impl; [done|]. intros t. apply task_ok_mono. intros j. apply ins_mono.
Qed.
Lemma reachable_inv C : rtc (cluster_step net) (mkCluster ∅ []) C -> inv C.
Proof.
  assert (forall C0, rtc (cluster_step net) C0 C -> inv C0 -> inv C) as H.
  { induction 1 as [|C1 C2 C3 [Hw|Hf] _ IH]; [done|..]; intros Hi; apply IH; [by eapply work_inv|by eapply fault_inv]. }
  intros HC. apply (H _ HC). split; [apply map_Forall_empty|constructor].
Qed.

(** In every reachable cluster each goroutine belongs to a running node; an
    election only asks configured nodes below its own id; and what is on the wire
    is what its reader expects: requests and pings carry the id of the node that
    sent them, announcements name their sender, a configured node, as leader. *)
Theorem cluster_well_typed C t : rtc (cluster_step net) (mkCluster ∅ []) C -> t ∈ tasks C -> task_ok (nodes C) t.
Proof. intros HC Ht. destruct (reachable_inv C HC) as [_ Hts]. rewrite Forall_forall in Hts. by apply Hts. Qed.

(** C25. In every cluster that pings, elections, timeouts, crashes and restarts
    can produce, whichever way they interleave, a node says it leads exactly
    when its own id is the leader it names, and the leader it names is a
    configured node or the initial 0. *)
Theorem leader_flag_sound C i b : rtc (cluster_step net) (mkCluster ∅ []) C -> nodes C !! i = Some b ->
  selfID b = i /\ (isLeader b = true <-> leaderID b = i) /\ (leaderID b = 0 \/ leaderID b ∈ net).
Proof.
  intros HC Hb. destruct (reachable_inv C HC) as [Hns _]. destruct (Hns i b Hb) as (Hs & _ & _ & Hl & Hin).
  rewrite Hl, bool_decide_eq_true. by subst i.
Qed.

(** ** Elections end: every step of [work] lowers a measure *)
Abbreviation n := (length net).
(** At most the cost of an election by node [k], those it asks for included. *)
Fixpoint cost (k : nat) : nat := match k with O => n + 2 | S k' => n + 2 + n * (cost k' + 4) end.
Definition costOf (i : Z) : nat := cost (Z.to_nat i).
Definition asks (cs : list Z) : nat := sum_list_with (fun c => costOf c + 4)%nat cs.
Definition weight (t : task) : nat :=
  match t with
  | Starting i => costOf i
  | Electing _ cs => n + 1 + asks cs
  | Asking _ c rest _ => n + 1 + asks rest + costOf c + 3
  | Asked _ _ rest _ => n + 1 + asks rest + 1
  | Pinging i j _ => costOf i + costOf j + 2
  | Pinged i _ _ => costOf i + 1
  | Sending _ _ => 1
  end.
Definition measure (C : Cluster) : nat := sum_list_with weight (tasks C).

Lemma asks_cons c cs : asks (c :: cs) = (costOf c + 4 + asks cs)%nat.
Proof. done. Qed.
Lemma cost_S k : (cost k <= cost (S k))%nat.
Proof.
  induction k as [|k IH]; [apply Nat.le_add_r|]. cbn [cost]. apply Nat.add_le_mono_l, Nat.mul_le_mono_l. cbn [cost] in IH. lia.
Qed.
Lemma cost_mono j k : (j <= k)%nat -> (cost j <= cost k)%nat.
Proof. induction 1 as [|k _ IH]; [done|]. etrans; [done|apply cost_S]. Qed.
Lemma asks_lower i cs : lower i cs -> 0 <= i -> (n + 1 + asks cs < costOf i)%nat.
Proof.
  intros [Hl Hc] Hi. unfold costOf. destruct (decide (i = 0)) as [->|Hne].
  - destruct cs as [|c cs]; [change (n + 1 + 0 < n + 2)%nat; lia|]. apply Forall_cons in Hc as [[Hin Hlt] _].
    rewrite Forall_forall in Hnet. specialize (Hnet c Hin). lia.
  - replace (Z.to_nat i) with (S (Z.to_nat (i - 1))) by lia. cbn [cost].
    assert (asks cs <= length cs * (cost (Z.to_nat (i - 1)) + 4))%nat as Ha.
    { clear Hl. unfold asks. induction Hc as [|c cs [Hin Hlt] _ IH]; cbn; [lia|].
      assert (costOf c <= cost (Z.to_nat (i - 1)))%nat by (apply cost_mono; lia). lia. }
    nia.
Qed.
Lemma spawn_weight i (e : bool) : (sum_list_with weight (if e then [Starting i] else []) <= costOf i)%nat.
Proof. destruct e; cbn; lia. Qed.

Lemma advance_weight ns t ns' new : map_Forall node_ok ns -> task_ok ns t -> advance ns t ns' new ->
  (sum_list_with weight new < weight t)%nat.
Proof.
  intros Hns Ht Ha.
  destruct Ha as [i b Hb|i b Hb|i b c rest Hb Hc|i c rest Hc|i c rest req b Hb r|i c rest req Hc|i c rest resp Hr|i c rest resp Hr
    |i j req b Hb r|i j req Hj|i j resp b Hb r|j msg b Hb r|j msg Hj]; cbn [task_ok] in Ht;
    cbn [weight sum_list_with]; rewrite ?asks_cons.
  - pose proof (Hns i b Hb) as Hok. pose proof (asks_lower i (candidates b) (candidates_lower i b Hok)).
    assert (0 <= i) by (rewrite Forall_forall in Hnet; by apply Hnet, Hok). lia.
  - assert (sum_list_with weight ((fun m => Sending m.1 m.2) <$> (becomeLeader b).2) = length (peers b)) as ->.
    { cbn. induction (peers b); cbn; lia. }
    destruct (Hns i b Hb) as (_ & _ & Hp & _). rewrite <- (length_fmap peer_id), Hp.
    pose proof (length_filter (fun j => j <> i) net). lia.
  - lia.
  - lia.
  - pose proof (spawn_weight c r.2). lia.
  - lia.
  - lia.
  - lia.
  - pose proof (spawn_weight j r.2). lia.
  - lia.
  - pose proof (spawn_weight i r.2). lia.
  - destruct Ht as (_ & l & Hl & ->). subst r. rewrite handleConn_coordinator. cbn. lia.
  - lia.
Qed.
Lemma work_measure C C' : inv C -> work C C' -> (measure C' < measure C)%nat.
Proof.
  intros [Hns Hts] Hw. destruct Hw as [ns ns' pre t post new Ha]. unfold measure. cbn [tasks nodes] in *.
  rewrite Forall_app, Forall_cons in Hts. destruct Hts as (_ & Ht & _).
  pose proof (advance_weight _ _ _ _ Hns Ht Ha). rewrite !sum_list_with_app. cbn. lia.
Qed.

(** A goroutine whose node runs is never stuck. *)
Lemma task_advances (ns : gmap Z Bully) t : task_ok ns t -> exists ns' new, advance ns t ns' new.
Proof.
  destruct t as [i|i [|c cs]|i c rest req|i c rest resp|i j req|i j resp|j msg]; cbn [task_ok]; intros Ht.
  - destruct Ht as [b Hb]. eauto using advance.
  - destruct Ht as [[b Hb] _]. eauto using advance.
  - destruct Ht as [[b Hb] _]. destruct (ns !! c) as [bc|] eqn:Ec; [|eauto using advance].
    do 2 eexists. apply adv_dial; eauto.
  - destruct (ns !! c) as [bc|] eqn:Ec; eauto using advance.
  - destruct (sendElection_ok resp) eqn:Er; eauto using advance.
  - destruct (ns !! j) as [bc|] eqn:Ec; eauto using advance.
  - destruct Ht as [[b Hb] _]. eauto using advance.
  - destruct (ns !! j) as [bc|] eqn:Ec; eauto using advance.
Qed.
Lemma work_advances C : inv C -> tasks C <> [] -> exists C', work C C'.
Proof.
  destruct C as [ns [|t ts]]; [done|]. intros [_ Hts] _. cbn in Hts. apply Forall_cons in Hts as [Ht _].
  destruct (task_advances ns t Ht) as (ns' & new & Ha). exists (mkCluster ns' ([] ++ new ++ ts)).
  by apply (work_step ns ns' [] t ts new).
Qed.

(** C15. Between faults the elections end: from any reachable cluster, whatever
    was going on when the last timeout or crash happened, every schedule of the
    goroutines stops, within a number of steps fixed by the ids, and it can only
    stop with no goroutine left. *)
Theorem elections_terminate C : rtc (cluster_step net) (mkCluster ∅ []) C ->
  forall k C', nsteps work k C C' ->
    (k <= measure C)%nat /\ (tasks C' = [] <-> forall C'', ~ work C' C'').
Proof.
  intros HC k C' Hk. apply reachable_inv in HC. assert (inv C' /\ (k + measure C' <= measure C)%nat) as [Hi Hm].
  { induction Hk as [C|k C1 C2 C3 Hw _ IH]; [split; [done|lia]|].
    pose proof (work_measure _ _ HC Hw). destruct IH as [? ?]; [by eapply work_inv|]. split; [done|lia]. }
  split; [lia|]. split.
  - intros Hts C'' Hw. destruct Hw as [ns ns' [|t' pre] t post new _]; cbn in Hts; discriminate.
  - intros Hno. destruct (decide (tasks C' = [])) as [|Hne]; [done|].
    destruct (work_advances C' Hi Hne) as [C'' Hw]. by destruct (Hno C'').
Qed.

(** ** The lowest running node wins *)
Section Elects.
Context (m : Z).
Abbreviation announcement := (Encode (mkMessage MsgCoordinator m m)).

(** [m] is the lowest running node, and no other regards it as dead. *)
Definition lowest (ns : gmap Z Bully) : Prop :=
  is_Some (ns !! m) /\ forall i b, ns !! i = Some b -> m <= i /\ (i <> m -> m ∈ candidates b).
(** An election asks [m] in the end, unless a running node takes over. *)
Definition heads (ns : gmap Z Bully) (t : task) : Prop :=
  match t with
  | Starting _ => True
  | Electing i cs => i = m \/ m ∈ cs
  | Asking i c rest _ => is_Some (ns !! c) \/ m ∈ rest
  | Asked i c rest resp => sendElection_ok resp = true \/ i = m \/ m ∈ rest
  | Pinging _ _ _ | Pinged _ _ _ => False
  | Sending j msg => msg = announcement
  end.
Definition active (t : task) : Prop :=
  match t with
  | Starting _ | Electing _ _ | Asking _ _ _ _ => True
  | Asked _ _ _ resp => sendElection_ok resp = false
  | _ => False
  end.
Definition announced (C : Cluster) : Prop :=
  forall j b, nodes C !! j = Some b -> leaderID b = m \/ Sending j announcement ∈ tasks C.
Definition electing (C : Cluster) : Prop :=
  lowest (nodes C) /\ Forall (heads (nodes C)) (tasks C) /\ (Exists active (tasks C) \/ announced C).

(** A node keeps its candidates, and its leader when that is [m]. *)
Definition follows (ns ns' : gmap Z Bully) : Prop :=
  (forall j, is_Some (ns !! j) -> is_Some (ns' !! j)) /\
  forall j b', ns' !! j = Some b' -> exists b, ns !! j = Some b /\ candidates b' = candidates b /\
    (leaderID b = m -> leaderID b' = m).
Lemma follows_refl ns : follows ns ns.
Proof. split; [done|]. eauto. Qed.
Lemma follows_ins (ns : gmap Z Bully) i b b' : ns !! i = Some b -> candidates b' = candidates b ->
  (leaderID b = m -> leaderID b' = m) -> follows ns (<[i := b']> ns).
Proof.
  intros Hb Hc Hl. split; [intros j; apply ins_mono|]. intros j b''. destruct (decide (i = j)) as [<-|Hne].
  - rewrite lookup_insert_eq. intros [= <-]. eauto.
  - rewrite lookup_insert_ne by done. eauto.
Qed.
Lemma lowest_follows ns ns' : lowest ns -> follows ns ns' -> lowest ns'.
Proof.
  intros [Hm Hl] [H1 H2]. split; [by apply H1|]. intros i b' Hb'. destruct (H2 i b' Hb') as (b & Hb & -> & _). by apply (Hl i b).
Qed.
Lemma heads_follows ns ns' t : follows ns ns' -> heads ns t -> heads ns' t.
Proof. intros [H1 _]. destruct t; cbn; try done. intros [?|?]; auto. Qed.

Lemma handleElection_answers i c b l : node_ok c b -> i ∈ net -> c < i ->
  handleConn (Encode (mkMessage MsgElection i l)) b = (b, Some (Encode (mkMessage MsgAlive c (leaderID b))), true).
Proof.
  intros (Hs & _) Hi Hlt. rewrite handleConn_election, net_mod by done. unfold handleElection. cbn [SenderID].
  by rewrite Hs, (proj2 (Z.ltb_lt _ _) Hlt).
Qed.
Lemma alive_ok s l : sendElection_ok (Some (Encode (mkMessage MsgAlive s l))) = true.
Proof. done. Qed.

(** What one step does: who leads, what is left to do, and whether the election
    goes on. *)
Lemma advance_elects ns t ns' new : map_Forall node_ok ns -> task_ok ns t -> lowest ns -> heads ns t -> advance ns t ns' new ->
  follows ns ns' /\ Forall (heads ns') new /\
  (active t -> Exists active new \/
     (exists b, ns' !! m = Some b /\ leaderID b = m) /\
     forall j, is_Some (ns' !! j) -> j <> m -> Sending j announcement ∈ new) /\
  (forall j b, t = Sending j announcement -> ns' !! j = Some b -> leaderID b = m).
Proof.
  intros Hns Ht [Hm Hlow] Hh Ha.
  destruct Ha as [i b Hb|i b Hb|i b c rest Hb Hc|i c rest Hc|i c rest req b Hb r|i c rest req Hc|i c rest resp Hr|i c rest resp Hr
    |i j req b Hb r|i j req Hj|i j resp b Hb r|j msg b Hb r|j msg Hj]; cbn [task_ok heads active] in *; try done.
  - split; [apply follows_refl|]. split_and!; [|by left; constructor|done].
    apply Forall_singleton. destruct (decide (i = m)); [by left|right]. by apply (Hlow i b).
  - destruct Hh as [->|Hh]; [|by apply elem_of_nil in Hh]. pose proof (Hns m b Hb) as Hok. pose proof Hok as (Hs & _ & Hps & _).
    split; [by apply (follows_ins _ _ b)|]. split_and!; [| |done].
    + cbn. apply Forall_fmap, Forall_fmap, Forall_true. intros p. cbn. by rewrite Hs.
    + intros _. right. split; [eexists; split; [apply lookup_insert_eq|done]|]. intros j Hj Hne.
      rewrite lookup_insert_ne in Hj by done. destruct Hj as [bj Hbj]. destruct (Hns j bj Hbj) as (_ & Hjn & _).
      assert (j ∈ peer_id <$> peers b) as Hin by (rewrite Hps; by apply list_elem_of_filter).
      apply list_elem_of_fmap in Hin as (p & -> & Hp). cbn. rewrite <- list_fmap_compose.
      apply list_elem_of_fmap. exists p. split; [|done]. cbn. by rewrite Hs.
  - split; [apply follows_refl|]. split_and!; [|by left; constructor|done].
    apply Forall_singleton. by left.
  - split; [apply follows_refl|]. split_and!; [|by left; constructor|done].
    apply Forall_singleton. destruct Hh as [?|Hh]; [by left|]. apply elem_of_cons in Hh as [<-|?]; [|by right].
    rewrite Hc in Hm. by destruct Hm.
  - destruct Ht as ([bi Hbi] & [_ Hl] & l & ->). apply Forall_cons in Hl as [[_ Hlt] _].
    subst r. rewrite (handleElection_answers i c b l); [|by apply (Hns c)|by apply (Hns i bi)|done]. cbn [fst snd].
    split; [by apply (follows_ins _ _ b)|]. split_and!; [|by left; right; left|done].
    constructor; [by left|]. by apply Forall_singleton.
  - split; [apply follows_refl|]. split_and!; [|by left; left|done]. apply Forall_singleton. cbn.
    destruct Hh as [[? Hh]|?]; [congruence|by right; right].
  - split; [apply follows_refl|]. split_and!; [constructor|congruence|done].
  - split; [apply follows_refl|]. split_and!; [|by left; left|done]. apply Forall_singleton. cbn. naive_solver congruence.
  - subst msg. destruct Hm as [bm Hbm]. assert (m ∈ net) as Hmn by (apply (Hns m bm Hbm)).
    subst r. rewrite handleConn_coordinator, net_mod by done. cbn [fst snd].
    split; [by apply (follows_ins _ _ b)|]. split_and!; [constructor|done|].
    intros j' b' [= <-]. rewrite lookup_insert_eq. by intros [= <-].
  - split; [apply follows_refl|]. split_and!; [constructor|done|]. intros j' b' [= <-]. congruence.
Qed.

Lemma work_electing C C' : inv C -> electing C -> work C C' -> electing C' /\
  (forall i, is_Some (nodes C' !! i) <-> is_Some (nodes C !! i)).
Proof.
  intros [Hns Hts] (Hlow & Hh & Hgo) Hw. destruct Hw as [ns ns' pre t post new Ha]. cbn [nodes tasks] in *.
  rewrite Forall_app, Forall_cons in Hts, Hh. destruct Hts as (_ & Ht & _), Hh as (Hpre & Hht & Hpost).
  destruct (advance_elects ns t ns' new Hns Ht Hlow Hht Ha) as (Hf & Hnew & Hact & Hsent).
  split; [|intros i; split; [intros [b' Hb']; destruct Hf as [_ Hf]; destruct (Hf i b' Hb') as (b & Hb & _); by exists b|apply Hf]].
  unfold electing. cbn [nodes tasks]. split_and!; [by eapply lowest_follows| |].
  { rewrite !Forall_app. split_and!; [|done|]; (eapply Forall_impl; [eassumption|]); intros t'; by apply heads_follows. }
  destruct Hgo as [Hgo|Hann].
  - rewrite Exists_app, Exists_cons in Hgo. destruct Hgo as [Hgo|[Hgo|Hgo]].
    + left. rewrite !Exists_app. tauto.
    + destruct (Hact Hgo) as [?|[(bm & Hbm & Hlm) Hall]]; [left; rewrite !Exists_app; tauto|]. right.
      intros j b Hj. cbn in *. destruct (decide (j = m)) as [->|Hne]; [left; congruence|]. right.
      apply elem_of_app. right. apply elem_of_app. left. by apply Hall.
    + left. rewrite !Exists_app. tauto.
  - right. intros j b' Hb'. cbn in *. destruct Hf as [_ Hf]. destruct (Hf j b' Hb') as (b & Hb & _ & Hl).
    destruct (Hann j b Hb) as [?|Hin]; [by left; apply Hl|]. cbn in Hin. rewrite !elem_of_app, elem_of_cons in *.
    destruct Hin as [?|[Heq|?]]; [tauto| |tauto]. left. by apply (Hsent j b').
Qed.
End Elects.

(** C8. The lowest running node wins an election that starts from rest.  In a
    reachable cluster let the only goroutines be elections that any nodes have
    just called - no request, answer, announcement or ping of earlier ones is on its
    way -, let [m] be the lowest of the nodes that run, and let every other
    count [m] as alive.  If from then on nothing fails and nobody pings, then
    when the goroutines are done every running node names [m] as the leader, and
    [m] alone leads - whichever nodes started, in whatever order the peers are
    listed and the messages arrive, and whatever leaders were named before.
    That the others count [m] as alive is needed: [usurped_leader]. *)
Theorem election_elects_lowest m C C' : rtc (cluster_step net) (mkCluster ∅ []) C ->
  tasks C <> [] -> Forall (fun t => exists i, t = Starting i) (tasks C) -> lowest m (nodes C) ->
  rtc work C C' -> (forall C'', ~ work C' C'') ->
  (forall i, is_Some (nodes C' !! i) <-> is_Some (nodes C !! i)) /\
  forall i b, nodes C' !! i = Some b -> leaderID b = m /\ (isLeader b = true <-> i = m).
Proof.
  intros HC Hne Hstart Hlow Hw Hend. apply reachable_inv in HC.
  assert (electing m C) as He.
  { split_and!; [done| |left].
    - eapply Forall_impl; [exact Hstart|]. by intros t [i ->].
    - destruct (tasks C) as [|t ts]; [done|]. left. apply Forall_cons in Hstart as [[i ->] _]. done. }
  clear Hne Hstart Hlow. assert (inv C' /\ electing m C' /\ forall i, is_Some (nodes C' !! i) <-> is_Some (nodes C !! i)) as (Hi & Hel & Hdom).
  { induction Hw as [C|C1 C2 C3 Hs _ IH]; [done|]. destruct (work_electing m C1 C2 HC He Hs) as [He2 Hd].
    destruct IH as (? & ? & Hd2); [by eapply work_inv|done..|]. split_and!; [done..|]. intros i. by rewrite Hd2. }
  split; [done|]. assert (tasks C' = []) as Hnil.
  { destruct (decide (tasks C' = [])) as [|Hne]; [done|]. destruct (work_advances C' Hi Hne) as [C'' Hs]. by destruct (Hend C''). }
  destruct Hel as (_ & _ & Hgo). rewrite Hnil in Hgo. destruct Hgo as [Hgo|Hgo]; [by apply Exists_nil in Hgo|].
  intros i b Hb. destruct (Hgo i b Hb) as [Hl|Hin]; [|rewrite Hnil in Hin; by apply elem_of_nil in Hin].
  split; [done|]. destruct Hi as [Hns _]. destruct (Hns i b Hb) as (Hs & _ & _ & Hf & _).
  rewrite Hf, bool_decide_eq_true, Hl, Hs. done.
Qed.
End Invariant.

(** ** Running a schedule: always the first goroutine *)
Definition exec_task (ns : gmap Z Bully) (t : task) : option (gmap Z Bully * list task) :=
  let deliver j buf reply :=
    match ns !! j with
    | Some b => let r := handleConn buf b in Some (<[j := r.1.1]> ns, reply (Some r.1.2) ++ (if r.2 then [Starting j] else []))
    | None => Some (ns, reply None)
    end in
  match t with
  | Starting i => b ← ns !! i; Some (ns, [Electing i (candidates b)])
  | Electing i [] => b ← ns !! i; Some (<[i := (becomeLeader b).1]> ns, (fun m => Sending m.1 m.2) <$> (becomeLeader b).2)
  | Electing i (c :: rest) =>
      match ns !! c with
      | Some _ => b ← ns !! i; Some (ns, [Asking i c rest (Encode (mkMessage MsgElection (selfID b) (leaderID b)))])
      | None => Some (ns, [Electing i rest])
      end
  | Asking i c rest req => deliver c req (fun o => [Asked i c rest (default None o)])
  | Asked i c rest resp => Some (ns, if sendElection_ok resp then [] else [Electing i rest])
  | Pinging i j req => deliver j req (fun o => [Pinged i j (default None o)])
  | Pinged i j resp => b ← ns !! i; let r := pinged j resp b in Some (<[i := r.1]> ns, if r.2 then [Starting i] else [])
  | Sending j msg => deliver j msg (fun _ => [])
  end.
Lemma exec_task_advance ns t ns' new : exec_task ns t = Some (ns', new) -> advance ns t ns' new.
Proof.
  destruct t as [i|i [|c cs]|i c rest req|i c rest resp|i j req|i j resp|j msg]; cbn [exec_task].
  - destruct (ns !! i) as [b|] eqn:E; [|done]. intros [= <- <-]. by constructor.
  - destruct (ns !! i) as [b|] eqn:E; [|done]. intros [= <- <-]. by constructor.
  - destruct (ns !! c) as [bc|] eqn:Ec; [|intros [= <- <-]; by constructor].
    destruct (ns !! i) as [b|] eqn:E; [|done]. intros [= <- <-]. by constructor.
  - destruct (ns !! c) as [bc|] eqn:Ec; intros [= <- <-]; by constructor.
  - destruct (sendElection_ok resp) eqn:Er; intros [= <- <-]; by constructor.
  - destruct (ns !! j) as [bc|] eqn:Ec; intros [= <- <-]; by constructor.
  - destruct (ns !! i) as [b|] eqn:E; [|done]. intros [= <- <-]. by constructor.
  - destruct (ns !! j) as [bc|] eqn:Ec; intros [= <- <-]; by constructor.
Qed.
Fixpoint exec (k : nat) (C : Cluster) : Cluster :=
  match k, tasks C with
  | S k', t :: ts =>
      match exec_task (nodes C) t with
      | Some (ns', new) => exec k' (mkCluster ns' (new ++ ts))
      | None => C
      end
  | _, _ => C
  end.
Lemma exec_work k C : rtc work C (exec k C).
Proof.
  revert C. induction k as [|k IH]; intros [ns [|t ts]]; cbn; [done..|].
  destruct (exec_task ns t) as [[ns' new]|] eqn:E; [|done]. eapply rtc_l; [|apply IH].
  by apply (work_step ns ns' [] t ts new), exec_task_advance.
Qed.

(** ** Node 0 is down; node 2 misses it three times and calls an election *)
Definition three : list Z := [0; 1; 2].
Definition c_up : Cluster := mkCluster (<[2 := New 2 [0; 1]]> (<[1 := New 1 [0; 2]]> ∅)) [].
Definition missed (C : Cluster) : Cluster := exec 1 (mkCluster (nodes C) (Pinged 2 0 None :: tasks C)).
Definition c_called : Cluster := missed (missed (missed c_up)).
Lemma work_reach C C' : rtc work C C' -> rtc (cluster_step three) C C'.
Proof. apply rtc_subrel. intros x y H. by left. Qed.
Lemma missed_reach C b p : rtc (cluster_step three) (mkCluster ∅ []) C -> nodes C !! 2 = Some b -> p ∈ peers b ->
  peer_id p = 0 -> rtc (cluster_step three) (mkCluster ∅ []) (missed C).
Proof.
  intros HC Hb Hp H0. etrans; [exact HC|]. destruct C as [ns ts]. eapply rtc_l.
  - right. by apply (f_undialled three ns ts 2 b p).
  - rewrite H0. apply work_reach, (exec_work 1).
Qed.
Lemma c_up_reach : rtc (cluster_step three) (mkCluster ∅ []) c_up.
Proof.
  eapply rtc_l; [right; by apply (f_boot three ∅ [] 1); [set_solver|]|]. apply rtc_once. right.
  by apply (f_boot three _ [] 2); [set_solver|].
Qed.
Lemma c_called_reach : rtc (cluster_step three) (mkCluster ∅ []) c_called.
Proof.
  unfold c_called. do 3 (eapply missed_reach; [|vm_compute; reflexivity|by left|reflexivity]). apply c_up_reach.
Qed.
Lemma three_bytes : Forall (fun i => 0 <= i < 256) three.
Proof. repeat constructor; lia. Qed.
Lemma quiet C : tasks C = [] -> forall C', ~ work C C'.
Proof. intros Ht C' Hw. destruct Hw as [ns ns' [|t' pre] t post new _]; cbn in Ht; discriminate. Qed.

(** Nodes 0 and 2 run, and node 2 fails three times to reach node 0, the leader,
    though it runs: node 2 does not ask it, makes itself the leader, and node 0
    accepts that. *)
Definition c_both : Cluster := mkCluster (<[2 := New 2 [0; 1]]> (<[0 := New 0 [1; 2]]> ∅)) [].
Definition c_usurped : Cluster := exec 20 (missed (missed (missed c_both))).
Theorem usurped_leader : rtc (cluster_step three) (mkCluster ∅ []) c_usurped /\ tasks c_usurped = [] /\
  leaderID <$> nodes c_usurped !! 0 = Some 2 /\ leaderID <$> nodes c_usurped !! 2 = Some 2 /\ isLeader <$> nodes c_usurped !! 2 = Some true.
Proof.
  split; [|split_and!; vm_compute; reflexivity]. unfold c_usurped. etrans; [|apply work_reach, exec_work].
  do 3 (eapply missed_reach; [|vm_compute; reflexivity|by left|reflexivity]).
  eapply rtc_l; [right; by apply (f_boot three ∅ [] 0); [set_solver|]|]. apply rtc_once. right.
  by apply (f_boot three _ [] 2); [set_solver|].
Qed.

Lemma leader_flag_sound_witness :
  exists b, nodes c_called !! 2 = Some b /\ selfID b = 2 /\ (isLeader b = true <-> leaderID b = 2) /\
    (leaderID b = 0 \/ leaderID b ∈ three).
Proof.
  destruct (nodes c_called !! 2) as [b|] eqn:Hb; [|vm_compute in Hb; discriminate]. exists b. split; [done|].
  apply (leader_flag_sound three three_bytes c_called 2 b c_called_reach Hb).
Defined.
Lemma cluster_well_typed_witness :
  tasks c_called = [Starting 2] /\ task_ok three (nodes c_called) (Starting 2).
Proof.
  split; [vm_compute; reflexivity|]. apply (cluster_well_typed three three_bytes c_called); [apply c_called_reach|].
  vm_compute. by left.
Defined.
Lemma elections_terminate_witness :
  exists k, nsteps work k c_called (exec 20 c_called) /\ (k <= measure three c_called)%nat /\
    (tasks (exec 20 c_called) = [] <-> forall C'', ~ work (exec 20 c_called) C'').
Proof.
  destruct (proj1 (rtc_nsteps c_called (exec 20 c_called)) (exec_work 20 c_called)) as [k Hk]. exists k. split; [done|].
  apply (elections_terminate three three_bytes c_called c_called_reach k _ Hk).
Defined.
Lemma election_elects_lowest_witness :
  tasks c_called = [Starting 2] /\ tasks (exec 20 c_called) = [] /\
  (forall i, is_Some (nodes (exec 20 c_called) !! i) <-> is_Some (nodes c_called !! i)) /\
  forall i b, nodes (exec 20 c_called) !! i = Some b -> leaderID b = 1 /\ (isLeader b = true <-> i = 1).
Proof.
  split; [vm_compute; reflexivity|]. split; [vm_compute; reflexivity|].
  apply (election_elects_lowest three three_bytes 1 c_called); [apply c_called_reach|vm_compute; discriminate|..].
  - vm_compute. constructor; [by eexists|constructor].
  - split; [vm_compute; by eexists|]. intros i b Hb.
    assert (nodes c_called = {[1 := New 1 [0; 2]; 2 := mkBully [mkPeer 0 false 3; mkPeer 1 true 0] 2 0 false]}) as Hn
      by (vm_compute; reflexivity).
    rewrite Hn in Hb. apply lookup_insert_Some in Hb as [[<- <-]|[H1 Hb]]; [split; [lia|done]|].
    apply lookup_singleton_Some in Hb as [<- <-]. split; [lia|]. intros _. vm_compute. by left.
  - apply exec_work.
  - apply quiet. vm_compute. reflexivity.
Defined.

(** ** Bytes and counters *)
(** A message survives the wire exactly when both ids fit a byte: the leader
    256 is announced as 0. *)
Theorem bully_ids_fit_byte msg :
  Decode (Encode msg) = Ok msg <-> 0 <= SenderID msg < 256 /\ 0 <= LeaderID msg < 256.
Proof.
  rewrite Decode_Encode. destruct msg as [t s l]. cbn. split.
  - intros [= Hs Hl]. split; [rewrite <- Hs|rewrite <- Hl]; by apply Z.mod_pos_bound.
  - intros [Hs Hl]. by rewrite !Z.mod_small.
Qed.

(** [k] failed pings of a peer, and which of them call an election. *)
Fixpoint misses (k : nat) (id : Z) (b : Bully) : list bool * Bully :=
  match k with
  | O => ([], b)
  | S k' => let (es, b') := misses k' id b in let (b'', e) := markPeerDead id b' in (es ++ [e], b'')
  end.
Definition lookupPeer (id : Z) (b : Bully) : option peerState := find (fun p => peer_id p =? id) (peers b).
Lemma lookup_onPeer id f p ps : (forall p, peer_id (f p) = peer_id p) -> find (fun p => peer_id p =? id) ps = Some p ->
  find (fun p => peer_id p =? id) (onPeer id f ps) = Some (f p).
Proof.
  intros Hf. induction ps as [|q ps IH]; [done|]. cbn. destruct (Z.eqb_spec (peer_id q) id) as [He|Hne].
  - intros [= ->]. rewrite decide_True by done. cbn. by rewrite Hf, (proj2 (Z.eqb_eq _ _)).
  - rewrite decide_False by done. cbn. rewrite (proj2 (Z.eqb_neq _ _)) by done. done.
Qed.
Lemma markPeerDead_miss id b k : in_int64 (k + 1) -> lookupPeer id b = Some (mkPeer id (k <? 3) k) ->
  let r := markPeerDead id b in
  lookupPeer id r.1 = Some (mkPeer id (k + 1 <? 3) (k + 1)) /\ leaderID r.1 = leaderID b /\
  r.2 = (k =? 2) && (id =? leaderID b).
Proof.
  intros Hk Hp. unfold markPeerDead. unfold lookupPeer in Hp. rewrite Hp. cbn [fst snd missedPings alive].
  rewrite int64_small by done. split_and!; [|done|].
  - unfold lookupPeer. cbn [peers setPeers]. erewrite lookup_onPeer; [|done|exact Hp]. cbn.
    destruct (Z.leb_spec 3 (k + 1)), (Z.ltb_spec k 3), (Z.ltb_spec (k + 1) 3); cbn; try done; lia.
  - f_equal. destruct (Z.leb_spec 3 (k + 1)), (Z.ltb_spec k 3), (Z.eqb_spec k 2); cbn; try done; lia.
Qed.
Lemma misses_peer k id b : in_int64 (Z.of_nat k) -> lookupPeer id b = Some (mkPeer id true 0) ->
  lookupPeer id (misses k id b).2 = Some (mkPeer id (Z.of_nat k <? 3) (Z.of_nat k)) /\ leaderID (misses k id b).2 = leaderID b /\
  (misses k id b).1 = (fun j => (Z.of_nat j =? 2) && (id =? leaderID b)) <$> seq 0 k.
Proof.
  induction k as [|k IH]; intros Hk Hp; [done|]. destruct IH as (H1 & H2 & H3); [unfold in_int64 in *; lia|done|].
  cbn [misses]. destruct (misses k id b) as [es b']. cbn [fst snd] in *.
  destruct (markPeerDead_miss id b' (Z.of_nat k)) as (G1 & G2 & G3); [unfold in_int64 in *; lia|done|].
  destruct (markPeerDead id b') as [b'' e]. cbn [fst snd] in *. replace (Z.of_nat (S k)) with (Z.of_nat k + 1) by lia.
  split_and!; [done|congruence|]. rewrite seq_S, fmap_app, <- H3. cbn. by rewrite G3, H2.
Qed.

(** However long an alive peer stays unreachable, its failures call exactly
    one election, at the third ping in a row, and only when it was the leader. *)
Theorem third_miss_elects k id b : in_int64 (Z.of_nat k) -> lookupPeer id b = Some (mkPeer id true 0) ->
  (misses k id b).1 = (fun j => bool_decide (j = 2%nat /\ id = leaderID b)) <$> seq 0 k.
Proof.
  intros Hk Hp. destruct (misses_peer k id b Hk Hp) as (_ & _ & ->). apply list_fmap_ext. intros _ j _.
  destruct (Z.eqb_spec (Z.of_nat j) 2), (Z.eqb_spec id (leaderID b)); cbn; symmetry;
    first [apply bool_decide_eq_true_2|apply bool_decide_eq_false_2]; lia.
Qed.
Lemma third_miss_elects_witness :
  lookupPeer 0 (New 2 [0; 1]) = Some (mkPeer 0 true 0) /\
  (misses 5 0 (New 2 [0; 1])).1 = (fun j => bool_decide (j = 2%nat /\ 0 = leaderID (New 2 [0; 1]))) <$> seq 0 5.
Proof.
  split; [reflexivity|]. apply third_miss_elects; [split; vm_compute; congruence|reflexivity].
Defined.
