(* ===== verification/Monitor.v ===== *)
(** * The monitors ([src/workers/monitor/monitor.go], [src/common/monitoring])

    The leader of the monitors pings every worker and starts the containers that
    stop answering.  [docker start] is a name added to [restarts]; one result of
    a ping is one step. *)

From S2P Require Import Prelude Codec Sharding Bully.

(** ** [listener.go], [pinger.go]: the answer to a ping and its reading *)
Definition Listen_payload (prefix : string) (id : Z) : bytes :=
  be_bytes 2 (uint16 (str_len prefix)) ++ str_bytes prefix ++ be_bytes 4 (uint32 id).
(** A ping of fewer than six bytes is answered. *)
Definition Listen_reply (prefix : string) (id : Z) (n : Z) : option bytes :=
  if n <? 6 then Some (Listen_payload prefix id) else None.
(** [pingWorker] reads at most 256 bytes; [None]: no answer in time.  The result
    is what it notifies. *)
Definition pingWorker (worker : string) (answer : option bytes) : res (string * bool) :=
  match answer with
  | None => Ok (worker, false)
  | Some datagram =>
      let data := take 256 datagram in
      if Zlen data <? 6 then Ok (worker, false)
      else
        let prefixLen := be_val (slice data 0 2) in
        if Zlen data <? 2 + prefixLen + 4 then Ok (worker, false)
        else
          prefix ← slice_chk data 2 (2 + prefixLen);
          id ← slice_chk data (2 + prefixLen) (2 + prefixLen + 4);
          Ok (bytes_str prefix +:+ "_" +:+ itoa (be_val id), true)%string
  end.

(** ** [monitor.go] *)
Definition gatewayMonitorAddress : string := "gateway".
Definition gatewayMonitorReportedKey : string := "gateway_0".
Definition normalizeMonitorKey (key : string) : string :=
  if decide (key = gatewayMonitorReportedKey) then gatewayMonitorAddress else key.
Definition containsWorker (workers : list string) (worker : string) : bool :=
  existsb (fun w => bool_decide (w = worker)) workers.

(** [pinging]: the workers of the running pinger. *)
Record Monitor := mkMonitor {
  failures : gmap string Z;
  restarts : list string;
  pinging : option (list string);
  selfKey : string;
  failureThreshold : Z
}.
Definition Monitor_New (selfKey : string) (threshold : Z) : Monitor :=
  mkMonitor ∅ [] None selfKey (if threshold =? 0 then 3 else threshold).
(** The peers of [newBully]: every id below the number of monitors but its own. *)
Definition newBully (workerAmount selfID : Z) : Bully :=
  New selfID (filter (fun id => id <> selfID) (Z.of_nat <$> seq 0 (Z.to_nat workerAmount))).

Definition setFailures (fs : gmap string Z) (m : Monitor) : Monitor :=
  mkMonitor fs (restarts m) (pinging m) (selfKey m) (failureThreshold m).
Definition restartContainer (key : string) (m : Monitor) : Monitor :=
  mkMonitor (failures m) (restarts m ++ [key]) (pinging m) (selfKey m) (failureThreshold m).
Definition handleResult (key : string) (ok : bool) (m : Monitor) : Monitor :=
  let key := normalizeMonitorKey key in
  if ok then setFailures (<[key := 0]> (failures m)) m
  else
    let fails := int64 (default 0 (failures m !! key) + 1) in
    let m := setFailures (<[key := fails]> (failures m)) m in
    if failureThreshold m <=? fails then restartContainer key (setFailures (delete key (failures m)) m) else m.

Definition setPinging (p : option (list string)) (m : Monitor) : Monitor :=
  mkMonitor (failures m) (restarts m) p (selfKey m) (failureThreshold m).
Definition startPinger (workers : list string) (m : Monitor) : Monitor :=
  let filtered := filter (fun w => w <> selfKey m) workers in
  let filtered := if containsWorker filtered gatewayMonitorAddress then filtered
                  else filtered ++ [gatewayMonitorAddress] in
  match filtered with [] => m | _ => setPinging (Some filtered) m end.
Definition stopPinger (m : Monitor) : Monitor := setPinging None m.
(** One tick of [leaderLoop]. *)
Definition leaderLoop_tick (leads : bool) (workers : list string) (m : Monitor) : Monitor :=
  match leads, pinging m with
  | true, None => startPinger workers m
  | false, Some _ => stopPinger m
  | _, _ => m
  end.

(** ** Theorems *)
Lemma Listen_prefix prefix id :
  slice (Listen_payload prefix id) (Z.to_nat 2) (Z.to_nat (2 + str_len prefix)) = str_bytes prefix.
Proof.
  unfold slice, Listen_payload. rewrite drop_app_length' by (by autorewrite with len).
  replace (Z.to_nat (2 + str_len prefix) - Z.to_nat 2)%nat with (length (str_bytes prefix)) by (unfold str_len, Zlen; lia).
  by rewrite take_app_length.
Qed.
Lemma Listen_id prefix id :
  slice (Listen_payload prefix id) (Z.to_nat (2 + str_len prefix)) (Z.to_nat (2 + str_len prefix + 4)) = be_bytes 4 (uint32 id).
Proof.
  unfold slice, Listen_payload. rewrite app_assoc, drop_app_length' by (autorewrite with len; unfold str_len, Zlen; lia).
  apply take_ge. autorewrite with len. unfold str_len, Zlen. lia.
Qed.

(** The answer of a worker's listener is read back by the pinger as that
    worker's container name, as long as the datagram fits the pinger's buffer
    and the id is a [uint32]. *)
Theorem ping_identifies prefix id worker : str_len prefix <= 250 -> in_uint 32 id ->
  exists answer, Listen_reply prefix id 1 = Some answer /\
    pingWorker worker (Some answer) = Ok (prefix +:+ "_" +:+ itoa id, true)%string.
Proof.
  intros Hp Hid. exists (Listen_payload prefix id). split; [done|].
  assert (Zlen (Listen_payload prefix id) = 6 + str_len prefix) as Hlen.
  { unfold Listen_payload, str_len, Zlen. autorewrite with len. lia. }
  pose proof (str_len_nonneg prefix) as Hnn. unfold pingWorker. rewrite take_ge by (unfold Zlen in Hlen; lia).
  rewrite Hlen, (proj2 (Z.ltb_ge _ _)) by lia.
  assert (be_val (slice (Listen_payload prefix id) 0 2) = str_len prefix) as ->.
  { unfold slice, Listen_payload. rewrite drop_0, take_app_le by (autorewrite with len; done).
    rewrite take_ge by (autorewrite with len; done). rewrite be_val_bytes. unfold uint16.
    change (256 ^ Z.of_nat 2) with (2 ^ 16). rewrite Zmod_mod, Z.mod_small; lia. }
  rewrite (proj2 (Z.ltb_ge _ _)) by lia. unfold slice_chk. rewrite Hlen, !bool_decide_eq_true_2 by lia.
  cbn [mbind res_bind]. rewrite Listen_prefix, Listen_id. cbn [mbind res_bind].
  rewrite str_bytes_str, be_val_bytes, uint32_small by done.
  change (256 ^ Z.of_nat 4) with (2 ^ 32). by rewrite Z.mod_small.
Qed.

(** The restarts of a container. *)
Definition restartsOf (key : string) (m : Monitor) : Z := Zlen (filter (fun k => k = key) (restarts m)).
Definition results (rs : list (string * bool)) (m : Monitor) : Monitor :=
  fold_left (fun m r => handleResult r.1 r.2 m) rs m.
Definition about (key : string) (r : string * bool) : Prop := normalizeMonitorKey r.1 = key.
#[global] Instance about_dec key r : Decision (about key r).
Proof. unfold about. apply _. Defined.
Definition fails (key : string) (m : Monitor) : Z := default 0 (failures m !! key).

Lemma handleResult_other key r m : ~ about key r ->
  let m' := handleResult r.1 r.2 m in fails key m' = fails key m /\ restartsOf key m' = restartsOf key m.
Proof.
  intros Hne. unfold about in Hne. unfold handleResult. destruct r.2; cbn.
  { unfold fails. cbn. by rewrite lookup_insert_ne. }
  destruct (_ <=? _); unfold fails, restartsOf; cbn.
  - rewrite lookup_delete_ne, lookup_insert_ne, filter_app, filter_cons_False, filter_nil, app_nil_r by done. done.
  - by rewrite lookup_insert_ne.
Qed.
Lemma handleResult_failure key r m : about key r -> r.2 = false -> 0 < failureThreshold m -> in_int64 (failureThreshold m) ->
  0 <= fails key m < failureThreshold m ->
  let m' := handleResult r.1 r.2 m in
  fails key m' = (fails key m + 1) mod failureThreshold m /\
  restartsOf key m' = restartsOf key m + (fails key m + 1) / failureThreshold m.
Proof.
  intros Hk Hr HT Hi Hc. unfold about in Hk. unfold handleResult. rewrite Hr, Hk. cbn [negb].
  fold (fails key m). rewrite int64_small by (unfold in_int64 in *; lia). cbn [failureThreshold setFailures].
  destruct (Z.leb_spec (failureThreshold m) (fails key m + 1)) as [Hge|Hlt].
  - assert (fails key m + 1 = failureThreshold m) as -> by lia. rewrite Z_mod_same_full, Z_div_same_full by lia.
    unfold fails, restartsOf. cbn. rewrite lookup_delete_eq, filter_app, filter_cons_True, filter_nil by done.
    split; [done|]. unfold Zlen. rewrite length_app. cbn. lia.
  - rewrite Z.mod_small, Z.div_small by lia. unfold fails, restartsOf. cbn. rewrite lookup_insert_eq. split; [done|lia].
Qed.
Lemma results_threshold rs m : failureThreshold (results rs m) = failureThreshold m.
Proof.
  revert m. induction rs as [|r rs IH]; intros m; [done|]. cbn. rewrite IH. unfold handleResult.
  destruct r.2; [done|]. by destruct (_ <=? _).
Qed.
Lemma results_count key rs : forall m, 0 < failureThreshold m -> in_int64 (failureThreshold m) ->
  0 <= fails key m < failureThreshold m -> Forall (fun r => about key r -> r.2 = false) rs ->
  restartsOf key (results rs m) = restartsOf key m + (fails key m + Zlen (filter (about key) rs)) / failureThreshold m.
Proof.
  induction rs as [|r rs IH]; intros m HT Hi Hc Hrs.
  { cbn. rewrite Z.add_0_r, Z.div_small by done. lia. }
  apply Forall_cons in Hrs as [Hr Hrs]. pose proof (results_threshold [r] m) as Ht. cbn in Ht. cbn [results fold_left].
  fold (results rs (handleResult r.1 r.2 m)). rewrite filter_cons. destruct (decide (about key r)) as [Hk|Hk].
  - destruct (handleResult_failure key r m) as [Hf Hn]; [by auto..|].
    rewrite IH; rewrite ?Ht; [|done..| |done].
    + rewrite Hf, Hn. unfold Zlen. cbn [length]. set (x := Z.of_nat (length _)).
      replace (fails key m + Z.of_nat (S (length (filter (about key) rs)))) with (fails key m + 1 + x) by lia.
      pose proof (Z.div_mod (fails key m + 1) (failureThreshold m) ltac:(lia)) as Hdm.
      set (q := (fails key m + 1) / failureThreshold m) in *. set (y := (fails key m + 1) mod failureThreshold m) in *.
      replace (fails key m + 1 + x) with (q * failureThreshold m + (y + x)) by lia.
      rewrite Z.div_add_l by lia. lia.
    + rewrite Hf. by apply Z.mod_pos_bound.
  - destruct (handleResult_other key r m Hk) as [Hf Hn]. rewrite IH; rewrite ?Ht; [|done..|by rewrite Hf|done]. by rewrite Hf, Hn.
Qed.

(** A container that stays silent is started once per [threshold] missed
    pings, however the answers of the other containers fall in between; any
    answer of it starts the count again. *)
Theorem restarts_by_threshold key rs m : 0 < failureThreshold m -> in_int64 (failureThreshold m) ->
  Forall (fun r => about key r -> r.2 = false) rs ->
  forall name, normalizeMonitorKey name = key ->
  restartsOf key (results ((name, true) :: rs) m) =
    restartsOf key m + Zlen (filter (about key) rs) / failureThreshold m.
Proof.
  intros HT Hi Hrs name Hname. cbn [results fold_left fst snd]. set (m1 := handleResult name true m).
  assert (m1 = setFailures (<[key := 0]> (failures m)) m) as Hm1 by (unfold m1, handleResult; by rewrite Hname).
  assert (fails key m1 = 0) as Hf by (rewrite Hm1; unfold fails; cbn; by rewrite lookup_insert_eq).
  assert (failureThreshold m1 = failureThreshold m) as Ht by (by rewrite Hm1).
  change (fold_left _ rs m1) with (results rs m1).
  rewrite results_count by (rewrite ?Ht, ?Hf; first [done|lia]). rewrite Ht, Hf. by rewrite Hm1.
Qed.

(** The pinger follows the leader; the gateway is always pinged, the monitor
    itself never is unless it is called so. *)
Lemma tick_follows leads workers m : is_Some (pinging (leaderLoop_tick leads workers m)) <-> leads = true.
Proof.
  unfold leaderLoop_tick, startPinger, stopPinger, setPinging.
  destruct leads, (pinging m) as [l|] eqn:Ep; cbn; rewrite ?Ep; try naive_solver.
  destruct (containsWorker _ _) eqn:Ec; [|destruct (filter _ _); cbn; naive_solver].
  destruct (filter _ _); [discriminate|]. cbn. naive_solver.
Qed.

(** ** Examples *)
Lemma ping_identifies_witness :
  str_len "router" = 6 /\ exists answer, Listen_reply "router" 3 1 = Some answer /\
    pingWorker "router_3" (Some answer) = Ok ("router" +:+ "_" +:+ itoa 3, true)%string.
Proof.
  split; [reflexivity|]. apply (ping_identifies "router" 3 "router_3"); [vm_compute; congruence|split; [lia|reflexivity]].
Defined.
Definition watcher : Monitor := Monitor_New "monitor_0" 0.
Definition silence : list (string * bool) :=
  [("join_0", false); ("gateway", false); ("join_0", false); ("router_1", true); ("gateway_0", false); ("gateway", false)]%string.
Lemma restarts_by_threshold_witness :
  restartsOf "gateway" (results (("gateway_0"%string, true) :: silence) watcher) = 1 /\
  restartsOf "gateway" (results (("gateway_0"%string, true) :: silence) watcher) =
    restartsOf "gateway" watcher + Zlen (filter (about "gateway") silence) / failureThreshold watcher.
Proof.
  split; [vm_compute; reflexivity|].
  apply restarts_by_threshold; [reflexivity|split; vm_compute; congruence| |reflexivity].
  unfold silence. repeat (apply Forall_cons_2; [by vm_compute|]). apply Forall_nil_2.
Defined.
Example ticks : pinging (leaderLoop_tick true ["join_0"; "monitor_0"]%string watcher) = Some ["join_0"; "gateway"]%string.
Proof. vm_compute. reflexivity. Qed.
