(* ===== verification/Q5Filter.v ===== *)
(** * Query 5 filter ([src/workers/filter/q5_filter.go])

    Filters batches, counts what it received and sent per client, and forwards
    the end of the stream once every upstream worker has announced its own.
    The worker passes nil states to its coordinator, like the threshold filter
    of [Restart]. *)

From S2P Require Import Prelude Maps Slices Models MsgIDs Wire Codec CodecQ4 Disk Coordinator Publisher Consumer Router Aggregator Filter Q4Count.

Record Q5Cfg := mkQ5Cfg { q5Filter : FilterCfg; q5Worker : WorkerCfg }.
(** [NewQ5Filter]: the parameters of the other filters, and at least one
    upstream worker; a format filter may have no value here. *)
Definition NewQ5Filter (w : WorkerCfg) (params : gmap string json) : res Q5Cfg :=
  match params !! "type", params !! "field", params !! "operator", params !! "value_float" with
  | Some (JStr typeVal), Some (JStr field), Some (JStr operator), Some (JNum valueFloat) =>
      valueStrings ← parseValueStrings (params !! "value_string");
      if (prevWorkerAmount w <=? 0)%Z then Err (ErrMsg "Q5Filter requires PREV_WORKER_AMOUNT to be set")
      else Ok (mkQ5Cfg (mkFilterCfg (wcPrefix w) 5 "" typeVal field operator valueFloat valueStrings) w)
  | Some (JStr _), Some (JStr _), Some (JStr _), _ => Err (ErrMsg "Invalid value_float parameter for Q5Filter")
  | Some (JStr _), Some (JStr _), _, _ => Err (ErrMsg "Invalid operator parameter for Q5Filter")
  | Some (JStr _), _, _, _ => Err (ErrMsg "Invalid field parameter for Q5Filter")
  | _, _, _, _ => Err (ErrMsg "Invalid type parameter for Q5Filter")
  end%string.

(** The four counters of a client; a counter deleted from its map reads as 0. *)
Record Q5Filter := mkQ5 {
  q5Pub : Publisher;
  workerEofReceived : gmap id16 Z;
  receivedCount : gmap id16 Z;
  sentCount : gmap id16 Z;
  expectedPreviousCount : gmap id16 Z;
  q5Acked : list nat
}.
#[global] Instance Q5Filter_pub : HasPublisher Q5Filter.
Proof.
  refine {| pub := q5Pub;
    setPub := fun p a => mkQ5 p (workerEofReceived a) (receivedCount a) (sentCount a) (expectedPreviousCount a) (q5Acked a) |};
    [done| |done]. by intros [].
Defined.
Definition addTo (c : id16) (n : Z) (m : gmap id16 Z) : gmap id16 Z := <[c := int64 (default 0 (m !! c) + n)]> m.
Definition q5Received (c : id16) (n : Z) (a : Q5Filter) : Q5Filter :=
  mkQ5 (q5Pub a) (workerEofReceived a) (addTo c n (receivedCount a)) (sentCount a) (expectedPreviousCount a) (q5Acked a).
Definition q5Sent (c : id16) (n : Z) (a : Q5Filter) : Q5Filter :=
  mkQ5 (q5Pub a) (workerEofReceived a) (receivedCount a) (addTo c n (sentCount a)) (expectedPreviousCount a) (q5Acked a).
Definition q5Ended (c : id16) (n : Z) (a : Q5Filter) : Q5Filter :=
  mkQ5 (q5Pub a) (addTo c 1 (workerEofReceived a)) (receivedCount a) (sentCount a) (addTo c n (expectedPreviousCount a)) (q5Acked a).
Definition q5Drop (c : id16) (a : Q5Filter) : Q5Filter :=
  mkQ5 (q5Pub a) (delete c (workerEofReceived a)) (delete c (receivedCount a)) (delete c (sentCount a))
    (delete c (expectedPreviousCount a)) (q5Acked a).
Definition ackQ5 (n : nat) (a : Q5Filter) : Q5Filter :=
  mkQ5 (q5Pub a) (workerEofReceived a) (receivedCount a) (sentCount a) (expectedPreviousCount a) (q5Acked a ++ [n]).

Section Q5.
Context `{!UuidLib, !GoRange} (cfg : Q5Cfg).

Definition q5_encodeAndSendBatch (c : id16) (msgType : byte) (payload : bytes) (batchLength : Z) (id : id16) : M Q5Filter unit :=
  _ ← PublishInternalWithID c msgType KeyNil payload id;
  modS (q5Sent c batchLength).
Definition q5_handleTransactionMessage (e : InternalEnvelope) : M Q5Filter unit :=
  transactions ← liftR (DecodeTransactionBatch (Payload e));
  _ ← modS (q5Received (ClientId e) (Zlen transactions));
  match filter (fun tx => passes (q5Filter cfg) tx = true) transactions with
  | [] => mret tt
  | filteredTx =>
      bs ← liftR (wrapf "encoding filtered transaction batch" (EncodeTransactionBatch filteredTx));
      q5_encodeAndSendBatch (ClientId e) MsgTransactionsBatch bs (Zlen filteredTx) (DeriveMsgID (MsgID e) KeyNil 0)
  end.

Definition q5_eofID (c : id16) : id16 := StageMsgID c (wc_stage (q5Worker cfg)) "eof" 0.
Definition q5_forwardFlushEOF (c : id16) : M Q5Filter unit :=
  eofEnvelope ← liftR (wrapf "encoding flush EOF" (EncodeEOFCountsEnvelope c {[KeyNil := -1]}));
  wrapM "sending flush EOF" (PublishRawWithID KeyControlEOF eofEnvelope (q5_eofID c)).
(** The counts received and expected are compared for a log line only. *)
Definition q5_close (c : id16) : M Q5Filter unit :=
  a ← getS;
  eofPayload ← liftR (wrapf "encoding EOF counts for EOF envelope" (EncodeEOFCounts {[KeyNil := default 0 (sentCount a !! c)]}));
  _ ← wrapM "sending EOF message to broker" (PublishInternalWithID c MsgTransactionsEOF KeyControlEOF eofPayload (q5_eofID c));
  modS (q5Drop c).
Definition q5_eof (e : InternalEnvelope) : M Q5Filter unit :=
  let c := ClientId e in
  counts ← liftR (DecodeEOFCounts (Payload e));
  if IsFlushEOF counts then
    _ ← modS (q5Drop c);
    q5_forwardFlushEOF c
  else
    _ ← modS (q5Ended c (default 0 (counts !! KeyNil)));
    a ← getS;
    if default 0 (workerEofReceived a !! c) =? prevWorkerAmount (q5Worker cfg) then q5_close c else mret tt.

Variable co : CoConfig Q5Filter.
Definition q5_handleEOFMessage (e : InternalEnvelope) : D (Co Q5Filter) unit :=
  _ ← onMem (q5_eof e);
  Flush co.
Definition q5_handleMessage (body : bytes) : D (Co Q5Filter) (id16 * byte) :=
  DispatchD body (fun t =>
    if decide (t = MsgTransactionsBatch) then Some (fun e => onMem (q5_handleTransactionMessage e))
    else if decide (t = MsgTransactionsEOF) then Some q5_handleEOFMessage else None).
Definition q5_consume (body : bytes) (ack : nat) : D (Co Q5Filter) bool :=
  consumeBarrier co q5_handleMessage (fun c a => bool_decide (is_Some (workerEofReceived a !! c)))
    (fun _ => mret tt) body (ackQ5 ack).
End Q5.

(** Not called: the coordinator has no state to save. *)
Record q5FilterCheckpoint := mkQ5Cp { WorkerEof : Z; Received : Z; Sent : Z; ExpectedPrevious : Z }.
Definition q5_SnapshotClient (c : id16) (a : Q5Filter) : q5FilterCheckpoint :=
  mkQ5Cp (default 0 (workerEofReceived a !! c)) (default 0 (receivedCount a !! c)) (default 0 (sentCount a !! c))
    (default 0 (expectedPreviousCount a !! c)).
Definition q5_RestoreClient (c : id16) (cp : q5FilterCheckpoint) (a : Q5Filter) : Q5Filter :=
  mkQ5 (q5Pub a) (<[c := WorkerEof cp]> (workerEofReceived a)) (<[c := Received cp]> (receivedCount a))
    (<[c := Sent cp]> (sentCount a)) (<[c := ExpectedPrevious cp]> (expectedPreviousCount a)) (q5Acked a).

(** ** What the announced total counts *)
Section Announce.
Context {UL : UuidLib} {GR : GoRange} (cfg : Q5Cfg) (c : id16).

(** The messages of a client: batches and ends of upstream workers. *)
Definition q5_handle (e : InternalEnvelope) : M Q5Filter unit :=
  if decide (MsgType_ e = MsgTransactionsBatch) then q5_handleTransactionMessage cfg e else q5_eof cfg e.
Definition batch_of (e : InternalEnvelope) : list Transaction :=
  match DecodeTransactionBatch (Payload e) with Ok txs => txs | _ => [] end.
Definition is_batch (e : InternalEnvelope) : bool := bool_decide (MsgType_ e = MsgTransactionsBatch).
Definition q5_wf (e : InternalEnvelope) : Prop := ClientId e = c /\
  if is_batch e
  then DecodeTransactionBatch (Payload e) = Ok (batch_of e) /\ Forall tx_ok (batch_of e) /\ in_uint 32 (Zlen (batch_of e))
  else match DecodeEOFCounts (Payload e) with Ok counts => IsFlushEOF counts = false | _ => False end.
Definition letThrough (e : InternalEnvelope) : Z :=
  if is_batch e then Zlen (filter (fun tx => passes (q5Filter cfg) tx = true) (batch_of e)) else 0.
Definition ends (e : InternalEnvelope) : Z := if is_batch e then 0 else 1.

(** [k] ends and [s] forwarded transactions so far. *)
Definition q5_at (k s : Z) (a : Q5Filter) : Prop :=
  script (q5Pub a) = [] /\ default 0 (workerEofReceived a !! c) = int64 k /\ default 0 (sentCount a !! c) = int64 s.

Lemma addTo_eq n m : default 0 (addTo c n m !! c) = int64 (default 0 (m !! c) + n).
Proof. unfold addTo. by rewrite lookup_insert_eq. Qed.
Lemma q5_batch e k s a : q5_wf e -> is_batch e = true -> q5_at k s a ->
  exists a', q5_handle e a = (Ok tt, a') /\ q5_at k (s + letThrough e) a'.
Proof.
  intros [Hc Hw] Hb (Hs & Hk & Hn). rewrite Hb in Hw. destruct Hw as (Hd & Hok & Hlen).
  unfold is_batch in Hb. apply bool_decide_eq_true in Hb. unfold q5_handle, letThrough. rewrite decide_True by done.
  unfold is_batch. rewrite (bool_decide_eq_true_2 _ Hb).
  unfold q5_handleTransactionMessage. unfold mbind at 1 2, M_bind, liftR at 1, modS at 1. rewrite Hd, Hc.
  set (a1 := q5Received _ _ a). assert (q5_at k s a1) as (Hs1 & Hk1 & Hn1) by done.
  destruct (filter _ (batch_of e)) as [|tx out] eqn:Eo.
  { exists a1. split; [done|]. by rewrite Z.add_0_r. }
  assert (Forall tx_ok (tx :: out)) as Hok' by (rewrite <- Eo; by apply Forall_filter_l).
  assert (in_uint 32 (Zlen (tx :: out))) as Hlen' by (rewrite <- Eo; by apply Zlen_filter).
  destruct (tx_batch_codec (tx :: out) Hok' Hlen') as (bs & He & _).
  unfold mbind at 1, M_bind, liftR. rewrite He. cbn [wrapf]. unfold q5_encodeAndSendBatch, mbind, M_bind.
  unfold PublishInternalWithID. rewrite send_ok by done. eexists. split; [reflexivity|].
  split_and!; [cbn; by rewrite Hs|done|]. cbn [q5Sent sentCount]. rewrite addTo_eq. cbn [setPub Q5Filter_pub sentCount]. rewrite Hn1. by norm64.
Qed.
Lemma q5_end e k s a : q5_wf e -> is_batch e = false -> q5_at k s a ->
  exists a1, q5_at (k + 1) s a1 /\ sent (q5Pub a1) = sent (q5Pub a) /\
    q5_handle e a = (if int64 (k + 1) =? prevWorkerAmount (q5Worker cfg) then q5_close cfg c a1 else (Ok tt, a1)).
Proof.
  intros [Hc Hw] Hb (Hs & Hk & Hn). rewrite Hb in Hw. unfold is_batch in Hb. apply bool_decide_eq_false in Hb.
  unfold q5_handle. rewrite decide_False by done. unfold q5_eof, mbind, M_bind, liftR.
  destruct (DecodeEOFCounts (Payload e)) as [counts|x|p]; [|done..]. rewrite Hw, Hc. unfold modS, getS.
  set (a1 := q5Ended _ _ a). exists a1.
  assert (default 0 (workerEofReceived a1 !! c) = int64 (k + 1)) as Hk1 by (unfold a1, q5Ended; cbn [workerEofReceived]; rewrite addTo_eq, Hk; by norm64).
  split_and!; [done..|]. rewrite Hk1. by destruct (_ =? _).
Qed.
Lemma q5_run es : forall k s a, Forall q5_wf es -> q5_at k s a -> 0 <= k -> k + sumZ (ends <$> es) < prevWorkerAmount (q5Worker cfg) ->
  in_int64 (prevWorkerAmount (q5Worker cfg)) ->
  exists a', forM es q5_handle a = (Ok tt, a') /\ q5_at (k + sumZ (ends <$> es)) (s + sumZ (letThrough <$> es)) a'.
Proof.
  induction es as [|e es IH]; intros k s a Hw Ha Hk0 Hk Hi.
  { exists a. split; [done|]. cbn. by rewrite !Z.add_0_r. }
  apply Forall_cons in Hw as [He Hw]. cbn [fmap list_fmap sumZ foldr forM] in *. rewrite !Z.add_assoc in *.
  assert (0 <= sumZ (ends <$> es)) as Hnn by (clear; induction es as [|e es IH]; cbn; [lia|]; unfold ends, sumZ in *; destruct (is_batch e); lia).
  change (foldr Z.add 0 (ends <$> es)) with (sumZ (ends <$> es)) in *.
  change (foldr Z.add 0 (letThrough <$> es)) with (sumZ (letThrough <$> es)) in *.
  destruct (is_batch e) eqn:Eb.
  - destruct (q5_batch e k s a He Eb Ha) as (a1 & Hr & Ha1).
    assert (ends e = 0) as He0 by (unfold ends; by rewrite Eb). rewrite He0, Z.add_0_r in *.
    destruct (IH k (s + letThrough e) a1) as (a' & Hr' & Ha'); [done..|]. exists a'. split; [|done].
    unfold mbind, M_bind. by rewrite Hr.
  - destruct (q5_end e k s a He Eb Ha) as (a1 & Ha1 & _ & Hr).
    assert (ends e = 1) as He1 by (unfold ends; by rewrite Eb). assert (letThrough e = 0) as Hl0 by (unfold letThrough; by rewrite Eb).
    rewrite He1, Hl0, Z.add_0_r in *. rewrite (proj2 (Z.eqb_neq _ _)) in Hr by (rewrite int64_small; unfold in_int64 in *; lia).
    destruct (IH (k + 1) s a1) as (a' & Hr' & Ha'); [done..|lia|done|done|]. exists a'. split; [|done].
    unfold mbind, M_bind. by rewrite Hr.
Qed.

(** The filter of query 5 announces the end of a client's stream when the
    last upstream worker has, and the total it announces is the number of
    transactions it forwarded so far: those of the batches that came before
    that message, and no others.  It neither waits for the batches that the
    ends count and that are still missing, nor reports them. *)
Theorem q5_announces_forwarded es e a : Forall q5_wf (es ++ [e]) -> is_batch e = false ->
  q5_at 0 0 a -> sumZ (ends <$> es) + 1 = prevWorkerAmount (q5Worker cfg) -> in_int64 (prevWorkerAmount (q5Worker cfg)) ->
  exists a1 a2 payload, forM es q5_handle a = (Ok tt, a1) /\ q5_handle e a1 = (Ok tt, a2) /\
    EncodeEOFCounts {[KeyNil := int64 (sumZ (letThrough <$> es))]} = Ok payload /\
    sent (q5Pub a2) = sent (q5Pub a1) ++ [mkMessage KeyControlEOF (EncodeInternalEnvelope
      (mkInternalEnvelope MsgTransactionsEOF c (q5_eofID cfg c) payload))] /\
    q5_at 0 0 a2.
Proof.
  intros Hw He Ha Hk Hi. apply Forall_app in Hw as [Hw Hwe]. apply Forall_cons in Hwe as [Hwe _].
  destruct (q5_run es 0 0 a Hw Ha) as (a1 & Hr1 & Ha1); [lia..|done|]. rewrite !Z.add_0_l in Ha1.
  destruct (q5_end e _ _ a1 Hwe He Ha1) as (a1' & Ha1' & Hsent & Hr2). destruct Ha1' as (Hs & Hk' & Hn).
  rewrite int64_small, Hk, Z.eqb_refl in Hr2 by (by rewrite Hk).
  destruct (EncodeEOFCounts_single (int64 (sumZ (letThrough <$> es)))) as [payload Hp]; [apply int64_range|].
  exists a1. eexists _, payload. split; [done|]. split.
  - rewrite Hr2. unfold q5_close, getS, mbind, M_bind, liftR. rewrite Hn. unfold single_count in Hp. rewrite Hp. cbn [wrapf].
    unfold wrapM, PublishInternalWithID. rewrite send_ok by done. reflexivity.
  - split; [done|]. split; [cbn; by rewrite Hsent|]. split_and!; [cbn; by rewrite Hs|..]; cbn; by rewrite lookup_delete_eq.
Qed.
End Announce.

(** ** Example: two upstream workers, a batch missing when both have ended *)
#[local] Instance letters : UuidLib := uuid_letters.
#[local] Instance order : GoRange := range_id.
Definition q5cfg : Q5Cfg := mkQ5Cfg (formatCfg 5) (mkWorkerCfg "filter" 0 2 0).
Definition q5_end_env (id : id16) (n : Z) : InternalEnvelope := mkInternalEnvelope MsgTransactionsEOF id1 id
  (match EncodeEOFCounts {[ KeyNil := n ]} with Ok p => p | _ => [] end).
Definition q5_batch_env : InternalEnvelope := mkInternalEnvelope MsgTransactionsBatch id1 id1 (Payload envR).
Definition new_q5 : Q5Filter := mkQ5 (mkPublisher [] [] newDedupState) ∅ ∅ ∅ ∅ [].
Lemma q5_end_wf id n : match DecodeEOFCounts (Payload (q5_end_env id n)) with Ok counts => IsFlushEOF counts = false | _ => False end ->
  q5_wf id1 (q5_end_env id n).
Proof. intros H. split; [done|]. exact H. Qed.

Lemma q5_announces_forwarded_witness :
  default 0 (expectedPreviousCount (forM [q5_batch_env; q5_end_env id1 2] (q5_handle q5cfg) new_q5).2 !! id1) = 2 /\
  exists a1 a2 payload, forM [q5_batch_env; q5_end_env id1 2] (q5_handle q5cfg) new_q5 = (Ok tt, a1) /\
    q5_handle q5cfg (q5_end_env id2 7) a1 = (Ok tt, a2) /\
    EncodeEOFCounts {[KeyNil := 2]} = Ok payload /\
    sent (q5Pub a2) = sent (q5Pub a1) ++ [mkMessage KeyControlEOF (EncodeInternalEnvelope
      (mkInternalEnvelope MsgTransactionsEOF id1 (q5_eofID q5cfg id1) payload))] /\
    q5_at id1 0 0 a2.
Proof.
  split; [vm_compute; reflexivity|]. destruct encoded_sample_ok as (Hd & Hok & Hlen).
  assert (batch_of q5_batch_env = [sample_tx; sample_tx]) as Hb by (unfold batch_of; change (Payload q5_batch_env) with encoded_sample; by rewrite Hd).
  apply (q5_announces_forwarded q5cfg id1 [q5_batch_env; q5_end_env id1 2] (q5_end_env id2 7) new_q5);
    [|reflexivity|by split_and!|reflexivity|split; vm_compute; congruence].
  repeat apply Forall_cons_2; [|apply q5_end_wf; vm_compute; reflexivity..|apply Forall_nil_2].
  split; [reflexivity|]. change (is_batch q5_batch_env) with true. cbn iota. rewrite Hb. exact (conj Hd (conj Hok Hlen)).
Defined.
