(* ===== verification/Network.v ===== *)
(** * Connections between client and gateway ([src/common/network/external.go])

    TCP delivers the bytes of a peer in segments and accepts what it is given in
    pieces; [receiveAll] and [sendAll] hide both. *)

From S2P Require Import Prelude Codec.

(** The segments still to come, and the outcomes of the next writes: how many
    bytes are taken, and the error if there is one.  No outcome left: everything
    is taken. *)
Record Connection := mkConnection {
  segments : list bytes;
  taken : list (nat * option error);
  written : bytes
}.

(** [conn.Read] of a buffer of [k] bytes returns what the next segment has, at
    most; when none is left the peer has closed. *)
Definition Read (k : nat) : M Connection bytes := fun c =>
  match segments c with
  | [] => (Err EOF, c)
  | s :: rest => (Ok (take k s), mkConnection (if decide (drop k s = []) then rest else drop k s :: rest) (taken c) (written c))
  end.
Definition Write (data : bytes) : M Connection nat := fun c =>
  match taken c with
  | [] => (Ok (length data), mkConnection (segments c) [] (written c ++ data))
  | (n, err) :: rest =>
      (match err with None => Ok (Nat.min n (length data)) | Some e => Err e end,
       mkConnection (segments c) rest (written c ++ take n data))
  end.

(** Every turn fills the buffer further or uses up a segment. *)
Fixpoint receiveAll_loop (fuel bufferSize : nat) (buffer : bytes) : M Connection bytes :=
  match fuel with
  | O => mret buffer
  | S fuel' =>
      if bool_decide (length buffer < bufferSize)%nat then
        data ← Read (bufferSize - length buffer);
        receiveAll_loop fuel' bufferSize (buffer ++ data)
      else mret buffer
  end.
Definition receiveAll (bufferSize : nat) : M Connection bytes := fun c =>
  receiveAll_loop (S (bufferSize + length (segments c))) bufferSize [] c.
Definition Receive (size : nat) : M Connection bytes := receiveAll size.
(** Every turn takes a byte or uses up an outcome. *)
Fixpoint sendAll_loop (fuel : nat) (data : bytes) : M Connection unit :=
  match fuel with
  | O => mret tt
  | S fuel' =>
      match data with
      | [] => mret tt
      | _ => n ← Write data; sendAll_loop fuel' (drop n data)
      end
  end.
Definition sendAll (data : bytes) : M Connection unit := fun c =>
  sendAll_loop (S (length data + length (taken c))) data c.
Definition Send (data : bytes) : M Connection unit := sendAll data.

(** ** Segments do not matter *)
Lemma concat_Read k (s : bytes) rest : take k s ++ concat (if decide (drop k s = []) then rest else drop k s :: rest) = s ++ concat rest.
Proof.
  case_decide as Hd; cbn [concat]; [|by rewrite app_assoc, take_drop].
  f_equal. rewrite <- (take_drop k s) at 2. by rewrite Hd, app_nil_r.
Qed.

Lemma receiveAll_loop_spec size fuel : forall buf c, (length buf <= size)%nat ->
  (size - length buf + length (segments c) < fuel)%nat ->
  exists c', taken c' = taken c /\ written c' = written c /\
    if bool_decide (size <= length (buf ++ concat (segments c)))%nat
    then receiveAll_loop fuel size buf c = (Ok (take size (buf ++ concat (segments c))), c') /\
         concat (segments c') = drop size (buf ++ concat (segments c))
    else receiveAll_loop fuel size buf c = (Err EOF, c').
Proof.
  induction fuel as [|fuel IH]; intros buf c Hb Hf; [lia|]. cbn [receiveAll_loop].
  destruct (decide (length buf < size)%nat) as [Hlt|Hlt];
    [rewrite (bool_decide_eq_true_2 (length buf < size)%nat) by done|rewrite (bool_decide_eq_false_2 (length buf < size)%nat) by done].
  - unfold mbind, M_bind, Read. destruct (segments c) as [|s rest] eqn:Es.
    + exists c. split_and!; [done..|]. rewrite bool_decide_eq_false_2; [done|]. cbn. rewrite app_nil_r. lia.
    + set (k := (size - length buf)%nat).
      set (c1 := mkConnection _ (taken c) (written c)).
      destruct (IH (buf ++ take k s) c1) as (c' & Ht & Hw & H).
      { rewrite length_app, length_take. lia. }
      { rewrite length_app, length_take. unfold c1. cbn [segments length] in *. case_decide as Hd.
        - lia.
        - cbn [length]. destruct (decide (length s <= k)%nat) as [Hle|]; [by rewrite drop_ge in Hd by lia|]. lia. }
      exists c'. split_and!; [done..|]. unfold c1 in H. cbn [segments] in H.
      rewrite <- app_assoc, concat_Read in H. cbn [concat]. exact H.
  - exists c. split_and!; [done..|]. assert (length buf = size) as Hl by lia. rewrite bool_decide_eq_true_2 by (rewrite length_app; lia).
    rewrite take_app_le, drop_app_ge by lia. rewrite <- Hl, take_ge, Nat.sub_diag by lia. by rewrite drop_0.
Qed.

(** However the bytes of the peer are cut into segments, [Receive] returns
    the next [size] bytes of the stream and leaves the rest, or fails if the
    peer closed before them: framing never depends on the segments. *)
Theorem receive_ignores_segments size c :
  exists c', if bool_decide (size <= length (concat (segments c)))%nat
    then Receive size c = (Ok (take size (concat (segments c))), c') /\
         concat (segments c') = drop size (concat (segments c))
    else Receive size c = (Err EOF, c').
Proof.
  destruct (receiveAll_loop_spec size (S (size + length (segments c))) [] c) as (c' & _ & _ & H); [cbn; lia..|].
  by exists c'.
Qed.
Lemma receive_bytes size c : (size <= length (concat (segments c)))%nat ->
  exists c', Receive size c = (Ok (take size (concat (segments c))), c') /\ concat (segments c') = drop size (concat (segments c)) /\
    taken c' = taken c /\ written c' = written c.
Proof.
  intros Hs. destruct (receiveAll_loop_spec size (S (size + length (segments c))) [] c) as (c' & Ht & Hw & H); [cbn; lia..|].
  cbn [app] in H. rewrite bool_decide_eq_true_2 in H by done. exists c'. tauto.
Qed.

(** Whatever pieces the connection takes, an accepted [Send] wrote all. *)
Lemma sendAll_loop_spec fuel : forall data c, (length data + length (taken c) < fuel)%nat ->
  let (r, c') := sendAll_loop fuel data c in
  segments c' = segments c /\ exists k, written c' = written c ++ take k data /\ (r = Ok tt -> (length data <= k)%nat) /\
    (forall p, r <> Panic p).
Proof.
  induction fuel as [|fuel IH]; intros data c Hf; [lia|]. cbn [sendAll_loop]. destruct data as [|b data].
  { split; [done|]. exists 0%nat. rewrite take_0, app_nil_r. split_and!; [done|cbn; lia|done]. }
  set (d := b :: data) in *. assert (0 < length d)%nat as Hd0 by (unfold d; cbn; lia). unfold mbind, M_bind, Write. destruct (taken c) as [|[n [e|]] rest] eqn:Et.
  - specialize (IH (drop (length d) d) (mkConnection (segments c) [] (written c ++ d))). cbn [taken length] in *.
    rewrite drop_all in *. destruct (sendAll_loop fuel [] _) as [r c']. destruct IH as (Hs & k & Hw & Hr & Hp); [cbn; lia|].
    split; [done|]. exists (length d). cbn in Hw. rewrite take_nil, app_nil_r in Hw. rewrite take_ge by lia. split_and!; [done|lia|done].
  - split; [done|]. exists n. split_and!; [done..|discriminate].
  - specialize (IH (drop (Nat.min n (length d)) d) (mkConnection (segments c) rest (written c ++ take n d))). cbn [taken length] in *.
    destruct (sendAll_loop fuel _ _) as [r c']. destruct IH as (Hs & k & Hw & Hr & Hp).
    { rewrite length_drop. lia. }
    split; [done|]. exists (Nat.min n (length d) + k)%nat. cbn in Hw. split_and!; [|intros Hok; specialize (Hr Hok); rewrite length_drop in Hr; lia|done].
    rewrite Hw, <- app_assoc. f_equal. rewrite <- (take_take_drop d (Nat.min n (length d)) k). f_equal.
    destruct (decide (n <= length d)%nat); [by rewrite Nat.min_l|]. rewrite Nat.min_r by lia. by rewrite !take_ge by lia.
Qed.
Lemma Send_ok data c c' : Send data c = (Ok tt, c') -> segments c' = segments c /\ written c' = written c ++ data.
Proof.
  intros H. unfold Send, sendAll in H. pose proof (sendAll_loop_spec (S (length data + length (taken c))) data c ltac:(lia)) as Hs.
  rewrite H in Hs. destruct Hs as (Hs & k & Hw & Hk & _). split; [done|]. rewrite Hw, take_ge; [done|]. by apply Hk.
Qed.

(** A connection that breaks nowhere accepts every message. *)
Definition unbroken (c : Connection) : Prop := Forall (fun o : nat * option error => o.2 = None) (taken c).
Lemma sendAll_loop_unbroken fuel : forall data c, unbroken c ->
  exists c', sendAll_loop fuel data c = (Ok tt, c') /\ unbroken c'.
Proof.
  induction fuel as [|fuel IH]; intros data c Hu; [by exists c|]. cbn [sendAll_loop]. destruct data as [|b data]; [by exists c|].
  unfold mbind, M_bind, Write. unfold unbroken in Hu. destruct (taken c) as [|[n err] rest].
  - by apply IH.
  - apply Forall_cons in Hu as [Hn Hu]. cbn in Hn. subst err. by apply IH.
Qed.
Lemma Send_unbroken data c : unbroken c ->
  exists c', Send data c = (Ok tt, c') /\ unbroken c' /\ written c' = written c ++ data.
Proof.
  intros Hu. unfold Send, sendAll. destruct (sendAll_loop_unbroken (S (length data + length (taken c))) data c Hu) as (c' & H & Hu').
  exists c'. split; [done|]. split; [done|]. by apply (Send_ok data c c').
Qed.

Example three_of_four :
  Receive 3 (mkConnection [[Byte.x01]; []; [Byte.x02; Byte.x03; Byte.x04]] [] [])
    = (Ok [Byte.x01; Byte.x02; Byte.x03], mkConnection [[Byte.x04]] [] []).
Proof. vm_compute. reflexivity. Qed.
