(* ===== verification/Client.v ===== *)
(** * The client program ([src/client/internal])

    Reads the two datasets in batches ([data/data.go], [data/streams.go]),
    streams them to the gateway ([sender.go]) and writes the results of every
    query to its file ([receiver.go], [data/querywriter.go]).  [encoding/csv]
    yields rows; [strconv]'s conversions of floats are the class [Strconv]. *)

From S2P Require Import Prelude Slices Models Wire Codec CodecQ4 Sharding Network.

Class Strconv := { ParseFloat : string -> option float64; FormatFloat : float64 -> string }.

(** ** [data.go]: parsing a row *)
Definition zero_digit : byte := Byte.x30.
Fixpoint trimZeros (l : bytes) : bytes :=
  match l with b :: l' => if decide (b = zero_digit) then trimZeros l' else l | [] => [] end.
Definition TrimLeft0 (s : string) : string := bytes_str (trimZeros (str_bytes s)).
Definition canonicalBankID (raw : string) : string :=
  let trimmed := TrimLeft0 raw in
  if decide (trimmed = "" /\ raw <> "")%string then "0"%string else trimmed.
Definition ParseBool (str : string) : option bool :=
  if decide (str ∈ ["1"; "t"; "T"; "TRUE"; "true"; "True"]%string) then Some true
  else if decide (str ∈ ["0"; "f"; "F"; "FALSE"; "false"; "False"]%string) then Some false
  else None.

Section Rows.
Context `{!Strconv}.
Definition TransactionColumnAmount : nat := 11.
Definition AccountColumnAmount : nat := 5.
Definition col (row : list string) (i : nat) : string := nth i row ""%string.
Definition ParseTransaction (row : list string) : res Transaction :=
  if decide (length row <> TransactionColumnAmount) then Err (ErrMsg "expected %d columns, got %d")
  else
    match ParseFloat (col row 5) with
    | None => Err (Wrapf "amount received" (ErrMsg "invalid syntax"))
    | Some amountReceived =>
        match ParseFloat (col row 7) with
        | None => Err (Wrapf "amount paid" (ErrMsg "invalid syntax"))
        | Some amountPaid =>
            match ParseBool (col row 10) with
            | None => Err (Wrapf "is laundering" (ErrMsg "invalid syntax"))
            | Some isLaundering =>
                Ok (mkTransaction (col row 0) (canonicalBankID (col row 1)) (col row 2) (canonicalBankID (col row 3))
                  (col row 4) amountReceived (col row 6) amountPaid (col row 8) (col row 9) isLaundering)
            end
        end
    end.
Definition ParseAccount (row : list string) : res AccountData :=
  if decide (length row <> AccountColumnAmount) then Err (ErrMsg "expected %d columns, got %d")
  else Ok (mkAccountData (col row 0) (col row 1) (col row 2) (col row 3) (col row 4)).

(** ** [data.go]: batches *)
(** [reader]: what [csv.Reader] still reads, a row or an error each. *)
Record BatchReader := mkBatchReader { reader : list (res (list string)); batchSize : Z; rdDone : bool }.
Definition NewBatchReader (file : option (list (res (list string)))) (size : Z) : res BatchReader :=
  if size <=? 0 then Err (ErrMsg "batch size must be positive, got %d")
  else
    match file with
    | None => Err (Wrapf "opening" (ErrMsg "no such file"))
    | Some [] | Some (Err EOF :: _) => Err (ErrMsg "file is empty")
    | Some (Ok _ :: rows) => Ok (mkBatchReader rows size false)
    | Some (Err e :: _) => Err (Wrapf "reading header" e)
    | Some (Panic p :: _) => Panic p
    end.
(** The loop of [Next]: [n] more records fit. *)
Fixpoint fill {T} (parse : list string -> res T) (n : nat) (rows : list (res (list string))) (batch : list T)
    : res (list T * bool) * list (res (list string)) :=
  match n, rows with
  | O, _ => (Ok (batch, false), rows)
  | _, [] => (Ok (batch, true), [])
  | _, Err EOF :: rows' => (Ok (batch, true), rows')
  | S n', r :: rows' =>
      match wrapf "reading csv row" r with
      | Ok row =>
          match wrapf "parsing csv row" (parse row) with
          | Ok rec => fill parse n' rows' (batch ++ [rec])
          | Err e => (Err e, rows')
          | Panic p => (Panic p, rows')
          end
      | Err e => (Err e, rows')
      | Panic p => (Panic p, rows')
      end
  end.
Definition Next {T} (parse : list string -> res T) : M BatchReader (list T) := fun b =>
  if rdDone b then (Err EOF, b)
  else
    let (r, rows) := fill parse (Z.to_nat (batchSize b)) (reader b) [] in
    match r with
    | Ok (batch, d) => (match batch with [] => Err EOF | _ => Ok batch end, mkBatchReader rows (batchSize b) d)
    | Err e => (Err e, mkBatchReader rows (batchSize b) (rdDone b))
    | Panic p => (Panic p, mkBatchReader rows (batchSize b) (rdDone b))
    end.

(** ** [streams.go] *)
Record DatasetStream := mkStream {
  GetNextBatch : M BatchReader bytes;
  BatchMsgType : byte;
  EOFMsgType : byte
}.
Definition AccountStream : DatasetStream :=
  mkStream (batch ← Next ParseAccount; liftR (EncodeAccountBatch batch)) MsgAccountsBatch MsgAccountsEOF.
Definition TransactionStream : DatasetStream :=
  mkStream (batch ← Next ParseTransaction; liftR (EncodeTransactionBatch batch)) MsgTransactionsBatch MsgTransactionsEOF.
End Rows.

(** ** [sender.go] *)
Record Sender := mkSender { sdReader : BatchReader; sdConn : Connection }.
Definition onReader {A} (m : M BatchReader A) : M Sender A := fun s =>
  let (r, b) := m (sdReader s) in (r, mkSender b (sdConn s)).
Definition onConn {A} (m : M Connection A) : M Sender A := fun s =>
  let (r, c) := m (sdConn s) in (r, mkSender (sdReader s) c).
Definition wrapS {S A} (ctx : string) (m : M S A) : M S A := fun s => let (r, s') := m s in (wrapf ctx r, s').
Definition frame (msgType : byte) (payload : bytes) : bytes := EncodeExternalEnvelope (mkExternalEnvelope msgType payload).

(** [running]: what [running.Load] returns at every turn.  A batch uses up a
    row, so the rows are fuel enough. *)
Fixpoint StreamDataset_loop (fuel : nat) (ds : DatasetStream) (running : nat -> bool) (turn : nat) : M Sender unit :=
  match fuel with
  | O => mret tt
  | S fuel' =>
      if negb (running turn) then failM (ErrMsg "client stopped by signal")
      else fun s =>
        match onReader (GetNextBatch ds) s with
        | (Ok payload, s') =>
            (_ ← wrapS "sending batch" (onConn (Send (frame (BatchMsgType ds) payload)));
             StreamDataset_loop fuel' ds running (turn + 1)) s'
        | (Err e, s') =>
            if errors_Is e EOF then (Ok tt, s') else (Err (Wrapf "reading batch" e), s')
        | (Panic p, s') => (Panic p, s')
        end
  end.
Definition StreamDataset (ds : DatasetStream) (running : nat -> bool) : M Sender unit := fun s =>
  (_ ← StreamDataset_loop (S (length (reader (sdReader s)))) ds running 0;
   wrapS "sending EOF" (onConn (Send (frame (EOFMsgType ds) [])))) s.

(** ** [client.go] *)
(** The [i]th of the dials fails with [dial i] or opens connection [i]; the
    result is the connection, the error, and how often the client slept. *)
Fixpoint connect_loop (dial : nat -> option error) (n i : nat) (err : option error) (slept : nat) : option nat * option error * nat :=
  match n with
  | O => (None, err, slept)
  | S n' =>
      match dial i with
      | Some e => connect_loop dial n' (S i) (Some e) (S slept)
      | None => (Some i, None, slept)
      end
  end.
Definition connectToServer (dial : nat -> option error) (connectionAttempts : Z) : option nat * option error * nat :=
  connect_loop dial (Z.to_nat connectionAttempts) 0 None 0.
Definition NewClient `{!Strconv} (accounts transactions : option (list (res (list string)))) (accountBatchSize transactionBatchSize : Z)
    : res (BatchReader * BatchReader) :=
  accountsReader ← NewBatchReader accounts accountBatchSize;
  transactionsReader ← NewBatchReader transactions transactionBatchSize;
  Ok (accountsReader, transactionsReader).
(** [Start] streams the accounts, then the transactions, on one connection; the
    receiver runs beside it ([Listen]). *)
Definition Start `{!Strconv} (running1 running2 : nat -> bool) (readers : BatchReader * BatchReader) : M Connection unit := fun c =>
  let (r, s) := StreamDataset AccountStream running1 (mkSender readers.1 c) in
  match r with
  | Ok _ => let (r, s) := StreamDataset TransactionStream running2 (mkSender readers.2 (sdConn s)) in (r, sdConn s)
  | _ => (r, sdConn s)
  end.

(** ** [querywriter.go] *)
Record QueryWriter := mkQueryWriter { rows : list (list string); closed : bool }.
Definition NewQueryWriter : QueryWriter := mkQueryWriter [] false.
Definition WriteRows (rs : list (list string)) (qw : QueryWriter) : QueryWriter :=
  if closed qw then qw else mkQueryWriter (rows qw ++ rs) false.
Definition Close (qw : QueryWriter) : QueryWriter := mkQueryWriter (rows qw) true.
Record QueryResultData := mkQueryResultData { filename : string; header : list string; eofType : byte }.
Definition GetQueryResultData : list (byte * QueryResultData) := [
  (MsgQuery1Result, mkQueryResultData "query1.csv" ["from_bank"; "from_account"; "to_bank"; "to_account"; "total_amount"] MsgQuery1ResultEOF);
  (MsgQuery2Result, mkQueryResultData "query2.csv" ["from_bank"; "from_account"; "bank_name"; "amount_paid"] MsgQuery2ResultEOF);
  (MsgQuery3Result, mkQueryResultData "query3.csv" ["from_bank"; "from_account"; "payment_format"; "amount_paid"] MsgQuery3ResultEOF);
  (MsgQuery4Result, mkQueryResultData "query4.csv" ["bank_id"; "account_id"] MsgQuery4ResultEOF);
  (MsgQuery5Result, mkQueryResultData "query5.csv" ["count"] MsgQuery5ResultEOF)]%string.

(** ** [receiver.go] *)
Section Receiver.
Context `{!Strconv}.
Definition query1RowsToString (results : list Query1Result) : list (list string) :=
  (fun r => [q1_FromBank r; q1_FromAccount r; q1_ToBank r; q1_ToAccount r; FormatFloat (q1_AmountPaid r)]) <$> results.
Definition query2RowsToString (results : list Query2Result) : list (list string) :=
  (fun r => [q2_FromBank r; q2_FromAccount r; q2_BankName r; FormatFloat (q2_AmountPaid r)]) <$> results.
Definition query3RowsToString (results : list Query3Result) : list (list string) :=
  (fun r => [q3_FromBank r; q3_FromAccount r; q3_PaymentFormat r; FormatFloat (q3_AmountPaid r)]) <$> results.
Definition query4RowsToString (results : list Query4Result) : list (list string) :=
  (fun r => [q4_BankID r; q4_ID r]) <$> results.
Definition query5RowsToString (result : Query5Result) : list (list string) := [[itoa (q5_Count result)]].

Record Receiver := mkReceiver { writers : list (byte * QueryWriter); pendingEOFs : Z; rcConn : Connection }.
Definition onWriter (t : byte) (f : QueryWriter -> QueryWriter) (r : Receiver) : Receiver :=
  mkReceiver ((fun kw : byte * QueryWriter => if decide (kw.1 = t) then (kw.1, f kw.2) else kw) <$> writers r)
    (pendingEOFs r) (rcConn r).
Definition writeRows (t : byte) (rs : list (list string)) (r : Receiver) : Receiver := onWriter t (WriteRows rs) r.
Definition closeWriter (t : byte) (r : Receiver) : Receiver := onWriter t Close r.
Definition startWriters (c : Connection) : Receiver :=
  mkReceiver ((fun kd : byte * QueryResultData => (kd.1, NewQueryWriter)) <$> GetQueryResultData) (Zlen GetQueryResultData) c.
Definition shutdownWriters (r : Receiver) : Receiver :=
  mkReceiver (prod_map id Close <$> writers r) (pendingEOFs r) (rcConn r).

(** The rows of a result message; [None]: the type is not a result. *)
Definition resultRows (msgType : byte) (payload : bytes) : option (res (list (list string))) :=
  if decide (msgType = MsgQuery1Result) then Some (rs ← DecodeQuery1ResultBatch payload; Ok (query1RowsToString rs))
  else if decide (msgType = MsgQuery2Result) then Some (rs ← DecodeQuery2ResultBatch payload; Ok (query2RowsToString rs))
  else if decide (msgType = MsgQuery3Result) then Some (rs ← DecodeQuery3ResultBatch payload; Ok (query3RowsToString rs))
  else if decide (msgType = MsgQuery4Result) then Some (rs ← DecodeQuery4ResultPayload payload; Ok (query4RowsToString rs))
  else if decide (msgType = MsgQuery5Result) then Some (r ← DecodeQuery5Result payload; Ok (query5RowsToString r))
  else None.
(** The query an end message ends. *)
Definition endedBy (msgType : byte) : option byte :=
  fst <$> find (fun kd : byte * QueryResultData => bool_decide (eofType kd.2 = msgType)) GetQueryResultData.
(** The switch of [Listen]. *)
Definition handleResult (msgType : byte) (payload : bytes) (r : Receiver) : res Receiver :=
  match resultRows msgType payload with
  | Some (Ok rs) => Ok (writeRows msgType rs r)
  | Some (Err _) => Ok (closeWriter msgType r)
  | Some (Panic p) => Panic p
  | None =>
      match endedBy msgType with
      | Some t => Ok (let r := closeWriter t r in mkReceiver (writers r) (int64 (pendingEOFs r - 1)) (rcConn r))
      | None => Ok r
      end
  end.
Definition onRcConn {A} (m : M Connection A) : M Receiver A := fun r =>
  let (x, c) := m (rcConn r) in (x, mkReceiver (writers r) (pendingEOFs r) c).
(** Every message uses up its header, so the bytes to come are fuel enough. *)
Fixpoint Listen_loop (fuel : nat) (running : nat -> bool) (turn : nat) (r : Receiver) : res Receiver :=
  match fuel with
  | O => Ok r
  | S fuel' =>
      if pendingEOFs r <=? 0 then Ok r
      else if negb (running turn) then Ok r
      else
        match onRcConn (Receive ExternalHeaderSize) r with
        | (Ok header, r1) =>
            '(msgType, payloadSize) ← DecodeExternalHeader header;
            match onRcConn (Receive (Z.to_nat payloadSize)) r1 with
            | (Ok payload, r2) => r3 ← handleResult msgType payload r2; Listen_loop fuel' running (turn + 1) r3
            | (Err _, r2) => Ok r2
            | (Panic p, _) => Panic p
            end
        | (Err _, r1) => Ok r1
        | (Panic p, _) => Panic p
        end
  end.
Definition Listen (running : nat -> bool) (c : Connection) : res Receiver :=
  r ← Listen_loop (S (length (concat (segments c)))) running 0 (startWriters c);
  Ok (shutdownWriters r).
End Receiver.

(** ** What ends up in the files *)
(** Messages as they are sent, and what is left of the input after one. *)
Definition frames (fs : list (byte * bytes)) : bytes := concat ((fun f : byte * bytes => frame f.1 f.2) <$> fs).
Lemma frame_length t p : length (frame t p) = (5 + length p)%nat.
Proof. unfold frame, EncodeExternalEnvelope. cbn [ee_MsgType ee_Payload]. autorewrite with len. done. Qed.
Lemma frame_header t p rest : Zlen p < 2 ^ 32 ->
  DecodeExternalHeader (take ExternalHeaderSize (frame t p ++ rest)) = Ok (t, Zlen p) /\
  drop ExternalHeaderSize (frame t p ++ rest) = p ++ rest.
Proof.
  intros Hp. unfold frame, EncodeExternalEnvelope. cbn [ee_MsgType ee_Payload app].
  unfold ExternalHeaderSize. cbn [take drop]. rewrite <- !app_assoc.
  rewrite take_app_length' by (by autorewrite with len). rewrite drop_app_length' by (by autorewrite with len).
  split; [|done]. unfold DecodeExternalHeader. rewrite bool_decide_eq_false_2 by (cbn [length]; rewrite length_be_bytes; lia).
  unfold slice. cbn [nth drop]. rewrite drop_0, take_ge by (rewrite length_be_bytes; lia). rewrite be_val_bytes.
  unfold uint32. rewrite Zmod_mod, Z.mod_small; [done|]. unfold Zlen in *. lia.
Qed.
Lemma receive_frame t p rest c : concat (segments c) = frame t p ++ rest -> Zlen p < 2 ^ 32 ->
  exists c1 c2 header, Receive ExternalHeaderSize c = (Ok header, c1) /\ DecodeExternalHeader header = Ok (t, Zlen p) /\
    Receive (Z.to_nat (Zlen p)) c1 = (Ok p, c2) /\ concat (segments c2) = rest.
Proof.
  intros Hc Hp. destruct (frame_header t p rest Hp) as [Hh Hd]. rewrite <- Hc in Hh, Hd.
  destruct (receive_bytes ExternalHeaderSize c) as (c1 & H1 & Hs1 & _).
  { rewrite Hc, length_app, frame_length. unfold ExternalHeaderSize. lia. }
  rewrite Hd in Hs1. destruct (receive_bytes (Z.to_nat (Zlen p)) c1) as (c2 & H2 & Hs2 & _).
  { rewrite Hs1, length_app. unfold Zlen. lia. }
  exists c1, c2, (take ExternalHeaderSize (concat (segments c))). split; [done|]. split; [done|].
  assert (Z.to_nat (Zlen p) = length p) as Hl by (unfold Zlen; lia). rewrite Hs1, Hl in H2, Hs2. rewrite Hl.
  rewrite take_app_length in H2. rewrite drop_app_length in Hs2. done.
Qed.

Section Files.
Context {SC : Strconv}.

Definition isEnd (f : byte * bytes) : Prop := is_Some (endedBy f.1).
#[global] Instance isEnd_dec f : Decision (isEnd f).
Proof. unfold isEnd. apply _. Defined.
Definition endsIn (fs : list (byte * bytes)) : Z := Zlen (filter isEnd fs).
(** The rows of one query among messages of all: those of its results, up to
    its end or to a result that cannot be decoded. *)
Fixpoint fileRows (t : byte) (fs : list (byte * bytes)) : list (list string) :=
  match fs with
  | [] => []
  | f :: fs' =>
      if decide (f.1 = t) then
        match resultRows f.1 f.2 with
        | Some (Ok rs) => rs ++ fileRows t fs'
        | Some _ => []
        | None => fileRows t fs'
        end
      else if decide (endedBy f.1 = Some t) then [] else fileRows t fs'
  end.
Definition lookupW (t : byte) (r : Receiver) : option QueryWriter :=
  snd <$> find (fun kw : byte * QueryWriter => bool_decide (kw.1 = t)) (writers r).
Definition decodes (f : byte * bytes) : Prop := Zlen f.2 < 2 ^ 32 /\ forall p, resultRows f.1 f.2 <> Some (Panic p).

Lemma lookupW_on t u f r : lookupW t (onWriter u f r) = (if decide (t = u) then f else id) <$> lookupW t r.
Proof.
  unfold lookupW, onWriter. cbn [writers]. induction (writers r) as [|[k w] ws IH]; [by case_decide|]. cbn [fmap list_fmap find fst snd].
  destruct (decide (k = u)) as [->|Hu]; cbn [fst]; case_bool_decide as Hk; cbn.
  - subst. by rewrite decide_True.
  - exact IH.
  - subst. by rewrite decide_False.
  - exact IH.
Qed.
(** What one message does to the writer of query [t]. *)
Definition stepW (t : byte) (w : QueryWriter) (f : byte * bytes) : QueryWriter :=
  if decide (f.1 = t) then
    match resultRows f.1 f.2 with Some (Ok rs) => WriteRows rs w | Some _ => Close w | None => w end
  else if decide (endedBy f.1 = Some t) then Close w else w.
Lemma stepW_rows t fs : forall w, rows (fold_left (stepW t) fs w) = if closed w then rows w else rows w ++ fileRows t fs.
Proof.
  induction fs as [|f fs IH]; intros w; cbn [fold_left fileRows].
  { rewrite app_nil_r. by destruct (closed w). }
  rewrite IH. unfold stepW, WriteRows, Close. destruct w as [rs b]. cbn [closed rows].
  destruct (decide (f.1 = t)); [destruct (resultRows f.1 f.2) as [[ws|?|?]|]|case_decide]; destruct b; cbn;
    rewrite ?app_nil_r, ?app_assoc; done.
Qed.
Lemma endedBy_not_result t u : endedBy t = Some u -> resultRows t [] = None /\ t <> u.
Proof.
  unfold endedBy. cbn [GetQueryResultData find snd eofType fst fmap option_fmap].
  repeat (case_bool_decide; [subst; intros [= <-]; split; [reflexivity|discriminate]|]). discriminate.
Qed.
Lemma resultRows_type t p q : resultRows t p = None -> resultRows t q = None.
Proof. unfold resultRows. by repeat case_decide. Qed.

Lemma handleResult_ok f r : decodes f -> in_int64 (pendingEOFs r - 1) -> exists r', handleResult f.1 f.2 r = Ok r' /\
  rcConn r' = rcConn r /\ pendingEOFs r' = pendingEOFs r - endsIn [f] /\
  forall t, lookupW t r' = (fun w => stepW t w f) <$> lookupW t r.
Proof.
  intros [_ Hp] Hi. unfold handleResult, endsIn, stepW. rewrite filter_cons, filter_nil.
  destruct (resultRows f.1 f.2) as [res|] eqn:Er.
  - rewrite decide_False by (intros [u Hu]; destruct (endedBy_not_result _ _ Hu) as [Hn _];
      apply (resultRows_type _ _ f.2) in Hn; congruence).
    assert (endedBy f.1 = None) as Hnone.
    { destruct (endedBy f.1) as [u|] eqn:Eu; [|done]. destruct (endedBy_not_result _ _ Eu) as [Hn _].
      apply (resultRows_type _ _ f.2) in Hn. congruence. }
    destruct res as [rs|e|p]; [| |by destruct (Hp p)]; eexists; (split; [reflexivity|]); (split; [reflexivity|]);
      (split; [unfold Zlen; cbn; lia|]); intros t; unfold writeRows, closeWriter; rewrite lookupW_on, Hnone;
      (destruct (lookupW t r); [cbn; f_equal|done]); repeat case_decide; done.
  - destruct (endedBy f.1) as [u|] eqn:Eu.
    + rewrite decide_True by by eexists. eexists. split; [reflexivity|]. split; [reflexivity|].
      split; [cbn; rewrite int64_small by done; unfold Zlen; cbn; lia|]. intros t.
      change (lookupW t (mkReceiver (writers ?x) _ _)) with (lookupW t x). unfold closeWriter. rewrite lookupW_on.
      destruct (endedBy_not_result _ _ Eu) as [_ Hne].
      destruct (lookupW t r); [cbn; f_equal|done]. repeat case_decide; try done; congruence.
    + rewrite decide_False by (by intros [? Hx]; rewrite Eu in Hx). eexists. split; [reflexivity|]. split; [reflexivity|].
      split; [unfold Zlen; cbn; lia|]. intros t. destruct (lookupW t r); [cbn; f_equal|done]. by repeat case_decide.
Qed.

Definition always (turn : nat) : bool := true.
Lemma endsIn_cons f fs : endsIn (f :: fs) = endsIn [f] + endsIn fs.
Proof. unfold endsIn. rewrite !filter_cons, filter_nil. destruct (decide (isEnd f)); unfold Zlen; cbn; lia. Qed.
Lemma endsIn_nonneg fs : 0 <= endsIn fs.
Proof. unfold endsIn, Zlen. lia. Qed.

Lemma Listen_frames fs : forall fuel turn r rest, concat (segments (rcConn r)) = frames fs ++ rest ->
  Forall decodes fs -> endsIn fs < pendingEOFs r -> in_int64 (pendingEOFs r) ->
  exists r', Listen_loop (length fs + fuel) always turn r = Listen_loop fuel always (turn + length fs) r' /\
    concat (segments (rcConn r')) = rest /\ pendingEOFs r' = pendingEOFs r - endsIn fs /\
    forall t, lookupW t r' = (fun w => fold_left (stepW t) fs w) <$> lookupW t r.
Proof.
  induction fs as [|f fs IH]; intros fuel turn r rest Hc Hd He Hi.
  { exists r. rewrite Nat.add_0_r. split_and!; [done..|unfold endsIn, Zlen; cbn; lia|]. intros t. by destruct (lookupW t r). }
  apply Forall_cons in Hd as [Hf Hd]. rewrite endsIn_cons in *. pose proof (endsIn_nonneg fs). pose proof (endsIn_nonneg [f]).
  unfold frames in Hc. cbn [fmap list_fmap concat] in Hc. fold (frames fs) in Hc. rewrite <- app_assoc in Hc.
  destruct (receive_frame f.1 f.2 (frames fs ++ rest) (rcConn r) Hc) as (c1 & c2 & hd & H1 & Hh & H2 & Hs2); [apply Hf|].
  destruct (handleResult_ok f (mkReceiver (writers r) (pendingEOFs r) c2) Hf) as (r3 & H3 & Hcn & Hp & Hw);
    [cbn [pendingEOFs]; unfold in_int64 in *; lia|].
  cbn [pendingEOFs rcConn] in *.
  destruct (IH fuel (turn + 1)%nat r3 rest) as (r' & Hr & Hs & Hpe & Hl); [by rewrite Hcn|done|lia|unfold in_int64 in *; lia|].
  exists r'. split_and!; [|done|lia|].
  - cbn [length Nat.add Listen_loop]. rewrite (proj2 (Z.leb_gt _ _)) by lia. cbn [negb always].
    unfold onRcConn. rewrite H1. cbn [rcConn writers pendingEOFs]. rewrite Hh. cbn [mbind res_bind]. rewrite H2, H3.
    cbn [mbind res_bind]. rewrite Hr. f_equal; lia.
  - intros t. rewrite Hl, Hw. cbn. unfold lookupW at 1. cbn [writers]. fold (lookupW t r). by destruct (lookupW t r).
Qed.

Lemma Listen_files fs last extra c : concat (segments c) = frames (fs ++ [last]) ++ extra ->
  Forall decodes (fs ++ [last]) -> endsIn fs = 4 -> isEnd last ->
  exists r, Listen always c = Ok r /\
    forall t d, (t, d) ∈ GetQueryResultData -> lookupW t r = Some (mkQueryWriter (fileRows t (fs ++ [last])) true).
Proof.
  intros Hc Hd He Hl. apply Forall_app in Hd as [Hd Hdl]. apply Forall_cons in Hdl as [Hdl _].
  assert (frames (fs ++ [last]) = frames fs ++ frame last.1 last.2) as Hf.
  { unfold frames. rewrite fmap_app, concat_app. cbn. by rewrite app_nil_r. }
  set (n := length (concat (segments c))).
  assert (length fs + 2 <= S n)%nat as Hn.
  { unfold n. rewrite Hc, Hf, !length_app, frame_length. clear. induction fs as [|f fs IH]; [cbn; lia|].
    change (frames (f :: fs)) with (frame f.1 f.2 ++ frames fs). rewrite length_app, frame_length. cbn [length] in *. lia. }
  destruct (Listen_frames fs (S n - length fs) 0 (startWriters c) (frame last.1 last.2 ++ extra)) as (r1 & Hr1 & Hs1 & Hp1 & Hw1);
    [cbn [rcConn startWriters]; by rewrite Hc, Hf, <- app_assoc|done|rewrite He; done|split; vm_compute; congruence|].
  change (pendingEOFs (startWriters c)) with 5 in Hp1. rewrite He in Hp1. change (5 - 4) with 1 in Hp1.
  destruct (receive_frame last.1 last.2 extra (rcConn r1) Hs1) as (c1 & c2 & hd & H1 & Hh & H2 & Hs2); [apply Hdl|].
  destruct (handleResult_ok last (mkReceiver (writers r1) (pendingEOFs r1) c2) Hdl) as (r3 & H3 & _ & Hp & Hw);
    [cbn [pendingEOFs]; rewrite Hp1; split; vm_compute; congruence|].
  assert (endsIn [last] = 1) as He1 by (unfold endsIn; rewrite filter_cons_True by done; done).
  cbn [pendingEOFs] in Hp. rewrite Hp1, He1 in Hp. rewrite Hp1 in H3.
  exists (shutdownWriters r3). split.
  - unfold Listen. fold n. replace (S n) with (length fs + (S n - length fs))%nat by lia. rewrite Hr1.
    replace (S n - length fs)%nat with (S (S (S n - length fs - 2))) by lia. cbn [Listen_loop].
    rewrite Hp1. cbn [Z.leb Z.compare negb always]. unfold onRcConn. rewrite H1.
    cbn [rcConn writers pendingEOFs]. rewrite Hh. cbn [mbind res_bind]. rewrite H2.
    rewrite Hp1, H3. cbn [mbind res_bind]. rewrite Hp. done.
  - intros t d Ht. assert (lookupW t (startWriters c) = Some NewQueryWriter) as H0.
    { unfold GetQueryResultData in Ht. repeat (apply elem_of_cons in Ht as [[= -> _]|Ht]; [reflexivity|]). by apply elem_of_nil in Ht. }
    assert (lookupW t r3 = Some (fold_left (stepW t) (fs ++ [last]) NewQueryWriter)) as H4.
    { rewrite Hw. unfold lookupW at 1. cbn [writers]. fold (lookupW t r1). rewrite Hw1, H0. cbn. by rewrite fold_left_app. }
    assert (lookupW t (shutdownWriters r3) = Close <$> lookupW t r3) as ->.
    { unfold lookupW, shutdownWriters. cbn [writers]. clear. induction (writers r3) as [|[k w] ws IH]; [done|]. cbn.
      by case_bool_decide. }
    rewrite H4. cbn. unfold Close. do 2 f_equal. by rewrite stepW_rows.
Qed.

(** C35. When the fifth end message comes, the file of every query holds the rows
    of that query's results that came before its own end, in their order -
    whatever messages of other queries are interleaved, however the bytes are
    segmented, and whatever follows.  A result that cannot be decoded cuts the
    file of its query there, and of no other. *)
Theorem client_files fs last extra c : concat (segments c) = frames (fs ++ [last]) ++ extra ->
  Forall decodes (fs ++ [last]) -> endsIn fs = 4 -> isEnd last ->
  exists r, Listen always c = Ok r /\
    forall t d, (t, d) ∈ GetQueryResultData -> lookupW t r = Some (mkQueryWriter (fileRows t (fs ++ [last])) true).
Proof. exact (Listen_files fs last extra c). Qed.
End Files.

(** ** What is streamed *)
Section Streams.
Context {T : Type} (parse : list string -> res T) (encode : list T -> res bytes) (bt et : byte).
Context (decode : bytes -> res (list T)) (wf : T -> Prop).
Context (codec : forall l, Forall wf l -> (length l <= maxBatch)%nat -> exists p, encode l = Ok p /\ decode p = Ok l /\ Zlen p < 2 ^ 32).
Definition streamOf : DatasetStream := mkStream (batch ← Next parse; liftR (encode batch)) bt et.
(** What the payload of a batch is. *)
Definition carries (p : bytes) (batch : list T) : Prop := decode p = Ok batch /\ Zlen p < 2 ^ 32.

(** The rows of a file that can be read and parsed. *)
Definition good_row (r : res (list string)) (rec : T) : Prop := exists row, r = Ok row /\ parse row = Ok rec.
Lemma fill_good n : forall rows recs batch, Forall2 good_row rows recs ->
  fill parse n rows batch = (Ok (batch ++ take n recs, bool_decide (length recs < n)%nat), drop n rows).
Proof.
  induction n as [|n IH]; intros rows recs batch H.
  { cbn [fill]. rewrite bool_decide_eq_false_2 by lia. by rewrite take_0, app_nil_r. }
  destruct H as [|r rec rows recs (row & -> & Hp) H]; cbn [fill].
  - rewrite app_nil_r. done.
  - cbn [wrapf]. rewrite Hp. cbn [wrapf]. rewrite (IH rows recs) by done. cbn [take drop length].
    rewrite <- app_assoc. do 3 f_equal. apply bool_decide_ext. lia.
Qed.
Lemma Next_good n rows recs : Forall2 good_row rows recs -> 0 < n ->
  Next parse (mkBatchReader rows n false) =
    (match take (Z.to_nat n) recs with [] => Err EOF | l => Ok l end,
     mkBatchReader (drop (Z.to_nat n) rows) n (bool_decide (length recs < Z.to_nat n)%nat)).
Proof. intros H Hn. unfold Next. cbn [rdDone reader batchSize]. rewrite (fill_good _ rows recs []) by done. cbn [app]. by destruct (take _ recs). Qed.

Lemma Send_sender data s : unbroken (sdConn s) ->
  exists c', wrapS "sending batch" (onConn (Send data)) s = (Ok tt, mkSender (sdReader s) c') /\
    unbroken c' /\ written c' = written (sdConn s) ++ data.
Proof.
  intros Hu. destruct (Send_unbroken data (sdConn s) Hu) as (c' & H & Hu' & Hw). exists c'.
  unfold wrapS, onConn. rewrite H. done.
Qed.
Lemma onReader_batch s : onReader (GetNextBatch streamOf) s =
  match Next parse (sdReader s) with
  | (Ok l, b) => (encode l, mkSender b (sdConn s))
  | (Err e, b) => (Err e, mkSender b (sdConn s))
  | (Panic p, b) => (Panic p, mkSender b (sdConn s))
  end.
Proof.
  unfold onReader, streamOf. cbn [GetNextBatch]. unfold mbind, M_bind.
  destruct (Next parse (sdReader s)) as [[l|e|p] b]; done.
Qed.
Lemma stream_loop fuel : forall turn rows recs n d s, sdReader s = mkBatchReader rows n d -> Forall2 good_row rows recs ->
  (d = true -> recs = []) -> 0 < n <= Z.of_nat maxBatch -> Forall wf recs -> (length recs < fuel)%nat -> unbroken (sdConn s) ->
  exists s' payloads, StreamDataset_loop fuel streamOf always turn s = (Ok tt, s') /\ unbroken (sdConn s') /\
    Forall2 carries payloads (chunks (Z.to_nat n) recs) /\
    written (sdConn s') = written (sdConn s) ++ frames (pair bt <$> payloads).
Proof.
  induction fuel as [|fuel IH]; intros turn rws recs n d s Hs Hg Hd Hn Hwf Hf Hu; [lia|].
  cbn [StreamDataset_loop always negb]. rewrite onReader_batch, Hs.
  assert (recs = [] -> exists b', Next parse (mkBatchReader rws n d) = (Err EOF, b')) as Hnil.
  { intros ->. inversion Hg; subst. destruct d; [by eexists|]. rewrite (Next_good n [] []) by (done || lia). rewrite take_nil. by eexists. }
  destruct recs as [|rec recs].
  { destruct Hnil as [b' ->]; [done|]. cbn [errors_Is]. eexists _, []. split; [reflexivity|]. split; [done|]. split; [constructor|].
    unfold frames. cbn. by rewrite app_nil_r. }
  destruct d; [by discriminate Hd|]. rewrite (Next_good n rws (rec :: recs)) by (done || lia).
  destruct (codec (take (Z.to_nat n) (rec :: recs))) as (p & Hp & Hdp); [by apply Forall_take|rewrite length_take; lia|].
  destruct (Z.to_nat n) as [|n'] eqn:En; [lia|]. cbn [take] in *. rewrite Hp. unfold mbind at 1, M_bind at 1.
  destruct (Send_sender (frame (BatchMsgType streamOf) p)
    (mkSender (mkBatchReader (drop (S n') rws) n (bool_decide (length (rec :: recs) < S n')%nat)) (sdConn s)) Hu)
    as (c1 & -> & Hu1 & Hw1). cbn [sdReader sdConn] in *.
  destruct (IH (turn + 1)%nat (drop (S n') rws) (drop n' recs) n (bool_decide (length (rec :: recs) < S n')%nat)
    (mkSender (mkBatchReader (drop (S n') rws) n (bool_decide (length (rec :: recs) < S n')%nat)) c1) eq_refl)
    as (s' & ps & Hr & Hu' & Hps & Hw); try done.
  - change (drop n' recs) with (drop (S n') (rec :: recs)). by apply Forall2_drop.
  - intros Hb. apply bool_decide_eq_true in Hb. cbn in Hb. apply drop_ge. lia.
  - apply Forall_drop. by apply Forall_cons in Hwf as [_ Hwf].
  - rewrite length_drop. cbn in Hf. lia.
  - exists s', (p :: ps). rewrite En in Hps. split; [exact Hr|]. split; [done|]. split.
    + unfold chunks. cbn [length chunks_loop take drop]. constructor; [done|].
      rewrite (chunks_loop_fuel _ (length (drop n' recs))); [exact Hps|lia|rewrite length_drop; lia|done].
    + rewrite Hw. cbn [sdConn]. rewrite Hw1, <- app_assoc. done.
Qed.

(** A dataset that can be read goes out as its batches, in order, and one end
    message. *)
Lemma dataset_streamed rows recs n c : Forall2 good_row rows recs -> Forall wf recs -> 0 < n <= Z.of_nat maxBatch -> unbroken c ->
  exists s' payloads, StreamDataset streamOf always (mkSender (mkBatchReader rows n false) c) = (Ok tt, s') /\ unbroken (sdConn s') /\
    Forall2 carries payloads (chunks (Z.to_nat n) recs) /\
    written (sdConn s') = written c ++ frames (pair bt <$> payloads) ++ frame et [].
Proof.
  intros Hg Hwf Hn Hu. pose proof (Forall2_length _ _ _ Hg) as Hlen.
  destruct (stream_loop (S (length rows)) 0 rows recs n false (mkSender (mkBatchReader rows n false) c) eq_refl Hg)
    as (s1 & ps & Hl & Hu1 & Hps & Hw); try done; [lia|].
  unfold StreamDataset. cbn [sdReader reader]. unfold mbind, M_bind. rewrite Hl.
  destruct (Send_unbroken (frame et []) (sdConn s1) Hu1) as (c' & H & Hu' & Hw').
  exists (mkSender (sdReader s1) c'), ps. unfold wrapS, onConn. cbn [streamOf EOFMsgType]. rewrite H. split; [done|].
  split; [done|]. split; [done|]. cbn [sdConn] in *. by rewrite Hw', Hw, <- app_assoc.
Qed.
End Streams.

Section Started.
Context `{SC : !Strconv}.
(** The client sends its two datasets, the accounts first, each followed by its
    end message. *)
Lemma client_streams accRows accs txRows txs n m c :
  Forall2 (good_row ParseAccount) accRows accs -> Forall acct_ok accs -> 0 < n <= Z.of_nat maxBatch ->
  Forall2 (good_row ParseTransaction) txRows txs -> Forall tx_ok txs -> 0 < m <= Z.of_nat maxBatch -> unbroken c ->
  exists c' aps tps,
    Start always always (mkBatchReader accRows n false, mkBatchReader txRows m false) c = (Ok tt, c') /\
    Forall2 (carries DecodeAccountBatch) aps (chunks (Z.to_nat n) accs) /\
    Forall2 (carries DecodeTransactionBatch) tps (chunks (Z.to_nat m) txs) /\
    written c' = written c ++ frames ((pair MsgAccountsBatch <$> aps) ++ (MsgAccountsEOF, []) :: (pair MsgTransactionsBatch <$> tps))
      ++ frame MsgTransactionsEOF [].
Proof.
  intros Ha Hwa Hn Ht Hwt Hm Hu. unfold Start. cbn [fst snd].
  destruct (dataset_streamed ParseAccount EncodeAccountBatch MsgAccountsBatch MsgAccountsEOF DecodeAccountBatch acct_ok
    acct_batch_sized accRows accs n c Ha Hwa Hn Hu) as (s1 & aps & H1 & Hu1 & Hc1 & Hw1).
  unfold streamOf in H1. fold AccountStream in H1. rewrite H1.
  destruct (dataset_streamed ParseTransaction EncodeTransactionBatch MsgTransactionsBatch MsgTransactionsEOF DecodeTransactionBatch tx_ok
    tx_batch_sized txRows txs m (sdConn s1) Ht Hwt Hm Hu1) as (s2 & tps & H2 & _ & Hc2 & Hw2).
  unfold streamOf in H2. fold TransactionStream in H2. rewrite H2.
  exists (sdConn s2), aps, tps. split; [done|]. split; [done|]. split; [done|]. rewrite Hw2, Hw1. unfold frames.
  rewrite fmap_app, concat_app. cbn [fmap list_fmap concat fst snd]. by rewrite <- !app_assoc.
Qed.
End Started.

(** ** Examples *)
(** Conversions of the numbers 0 to 9 only. *)
#[local] Instance digits : Strconv := {|
  ParseFloat := fun s => match s with
    | String a EmptyString => let n := Z.of_N (Ascii.N_of_ascii a) - 48 in if decide (0 <= n <= 9) then Some (f64_of_int n) else None
    | _ => None
    end;
  FormatFloat := fun f => if decide (f = f64_of_int 5) then "5"%string else "0"%string
|}.
Example canonical_bank : canonicalBankID "00120" = "120"%string /\ canonicalBankID "000" = "0"%string /\ canonicalBankID "" = ""%string.
Proof. split_and!; vm_compute; reflexivity. Qed.

Definition okBytes (r : res bytes) : bytes := match r with Ok b => b | _ => [] end.
(** Query 3's second result is cut short, query 5 ends after one count. *)
Definition q3_row : Query3Result := mkQuery3Result "1" "A" "Wire" (f64_of_int 5).
Definition sample_frames : list (byte * bytes) := [
  (MsgQuery5Result, okBytes (EncodeQuery5Result (mkQuery5Result 7)));
  (MsgQuery3Result, okBytes (EncodeQuery3ResultBatch [q3_row]));
  (MsgQuery5ResultEOF, []); (MsgQuery3Result, [Byte.x00]); (MsgQuery2ResultEOF, []);
  (MsgQuery3Result, okBytes (EncodeQuery3ResultBatch [q3_row])); (MsgQuery4ResultEOF, []); (MsgQuery3ResultEOF, [])].
Definition sample_connection : Connection :=
  let input := frames (sample_frames ++ [(MsgQuery1ResultEOF, [])]) ++ [Byte.x00] in
  mkConnection [take 7 input; drop 7 input] [] [].
Lemma sample_decodes : Forall decodes (sample_frames ++ [(MsgQuery1ResultEOF, [])]).
Proof. repeat constructor; first [vm_compute; reflexivity|intros p; vm_compute; discriminate]. Qed.

Lemma client_files_witness :
  fileRows MsgQuery3Result (sample_frames ++ [(MsgQuery1ResultEOF, [])]) = [["1"; "A"; "Wire"; "5"]]%string /\
  fileRows MsgQuery5Result (sample_frames ++ [(MsgQuery1ResultEOF, [])]) = [["7"]]%string /\
  exists r, Listen always sample_connection = Ok r /\
    forall t d, (t, d) ∈ GetQueryResultData ->
      lookupW t r = Some (mkQueryWriter (fileRows t (sample_frames ++ [(MsgQuery1ResultEOF, [])])) true).
Proof.
  split; [vm_compute; reflexivity|]. split; [vm_compute; reflexivity|].
  apply (client_files sample_frames (MsgQuery1ResultEOF, []) [Byte.x00] sample_connection).
  - vm_compute. reflexivity.
  - exact sample_decodes.
  - vm_compute. reflexivity.
  - exists MsgQuery1Result. vm_compute. reflexivity.
Defined.

(** [connectToServer] takes the first connection that opens, after as many
    pauses as dials failed, or gives the last error after all of its attempts;
    without attempts it gives neither a connection nor an error. *)
Theorem connect_outcome dial n :
  match connectToServer dial n with
  | (Some i, err, slept) => Z.of_nat i < n /\ dial i = None /\ err = None /\ slept = i /\ forall j, (j < i)%nat -> dial j <> None
  | (None, err, slept) => (forall j, Z.of_nat j < n -> dial j <> None) /\ Z.of_nat slept = Z.max 0 n /\
      err = if n <=? 0 then None else dial (Nat.pred slept)
  end.
Proof.
  unfold connectToServer. assert (forall k i err, (forall j, (j < i)%nat -> dial j <> None) -> err = (match i with O => None | S j => dial j end) ->
    match connect_loop dial k i err i with
    | (Some i', err', slept) => (i' < i + k)%nat /\ dial i' = None /\ err' = None /\ slept = i' /\ forall j, (j < i')%nat -> dial j <> None
    | (None, err', slept) => (forall j, (j < i + k)%nat -> dial j <> None) /\ slept = (i + k)%nat /\ err' = (match slept with O => None | S j => dial j end)
    end) as H.
  { induction k as [|k IH]; intros i err Hi He; cbn [connect_loop].
    - rewrite Nat.add_0_r. done.
    - destruct (dial i) as [e|] eqn:E; [|split_and!; (done || lia)]. specialize (IH (S i) (Some e)). rewrite Nat.add_succ_comm in IH. apply IH.
      + intros j Hj. destruct (decide (j = i)) as [->|]; [by rewrite E|apply Hi; lia].
      + done. }
  specialize (H (Z.to_nat n) 0%nat None ltac:(lia) eq_refl). cbn [Nat.add] in H.
  destruct (connect_loop dial (Z.to_nat n) 0 None 0) as [[[i|] err] slept]; destruct H as (H1 & H2 & H3).
  - split; [lia|done].
  - split; [intros j Hj; apply H1; lia|]. split; [lia|]. destruct (Z.leb_spec n 0); destruct slept; (done || lia).
Qed.
