(* ===== verification/Session.v ===== *)
(** * A session: the client's stream at the gateway

    Composes [Client] (what a client sends for its two files) with [Gateway]
    (what the gateway makes of the bytes of a connection). *)

From S2P Require Import Prelude Maps Slices Models MsgIDs Wire Codec CodecQ4 Disk Coordinator Publisher Join Gateway Network Client.

Section Session.
Context {UL : UuidLib} {GR : GoRange} {SC : Strconv} (co : CoConfig Gateway) (c : id16).

(** ** One message after the other *)
Definition onFrame (f : byte * bytes) : M Gateway bool :=
  if decide (f.1 = MsgAccountsBatch) then handleAccountsBatch c f.2
  else if decide (f.1 = MsgAccountsEOF) then handleAccountsEOF c
  else handleTransactionsBatch c f.2.
Definition upload (f : byte * bytes) : Prop :=
  f.1 ∈ [MsgAccountsBatch; MsgAccountsEOF; MsgTransactionsBatch] /\ Zlen f.2 < 2 ^ 32.
Inductive handled : list (byte * bytes) -> Gateway -> Gateway -> Prop :=
  | handled_nil g : handled [] g g
  | handled_cons f fs g g1 g2 : upload f -> onFrame f g = (Ok true, g1) -> handled fs g1 g2 -> handled (f :: fs) g g2.
Lemma handled_app fs gs g g1 g2 : handled fs g g1 -> handled gs g1 g2 -> handled (fs ++ gs) g g2.
Proof. induction 1; [done|]. intros. econstructor; [done..|]. by apply IHhandled. Qed.

Lemma loop_frame f fuel rest (s : Co Gateway) : Zlen f.2 < 2 ^ 32 ->
  HandleClientRequest_loop co (S fuel) c (frame f.1 f.2 ++ rest) s =
    let next := HandleClientRequest_loop co fuel c rest in
    let continue (m : M Gateway bool) : D (Co Gateway) bool := (ok ← onMem m; if (ok : bool) then next else mret false) in
    (if decide (f.1 = MsgAccountsBatch) then continue (handleAccountsBatch c f.2)
     else if decide (f.1 = MsgAccountsEOF) then continue (handleAccountsEOF c)
     else if decide (f.1 = MsgTransactionsBatch) then continue (handleTransactionsBatch c f.2)
     else if decide (f.1 = MsgTransactionsEOF) then
       ok ← onMem (handleTransactionsEOF c);
       if (ok : bool) then (_ ← tryDeleteCheckpoint co c; mret true) else mret false
     else mret false) s.
Proof.
  intros Hp. destruct (frame_header f.1 f.2 rest Hp) as [Hh Hd]. cbn [HandleClientRequest_loop].
  rewrite bool_decide_eq_false_2 by (rewrite length_app, frame_length; unfold ExternalHeaderSize; lia).
  unfold liftR. rewrite Hh, Hd. unfold mbind at 1, D_bind at 1, onMem at 1. cbn [prog_bind].
  assert (setMem (coMem s) s = s) as -> by apply setMem_same.
  rewrite (proj2 (Z.ltb_ge _ _)) by (unfold Zlen; rewrite length_app; lia).
  assert (Z.to_nat (Zlen f.2) = length f.2) as -> by (unfold Zlen; lia).
  rewrite take_app_length, drop_app_length. done.
Qed.
Lemma loop_handled fs : forall g g' fuel rest (s : Co Gateway), handled fs g g' -> coMem s = g ->
  HandleClientRequest_loop co (length fs + fuel) c (frames fs ++ rest) s =
  HandleClientRequest_loop co fuel c rest (setMem g' s).
Proof.
  intros g g' fuel rest s H. revert s. induction H as [g|f fs g g1 g2 [Hf Hp] Ho _ IH]; intros s Hg.
  { cbn. rewrite <- Hg. by rewrite setMem_same. }
  unfold frames. cbn [fmap list_fmap concat length Nat.add]. fold (frames fs). rewrite <- app_assoc, loop_frame by done.
  cbn zeta. unfold onFrame in Ho.
  assert (forall m : M Gateway bool, m g = (Ok true, g1) ->
    (ok ← onMem m; if (ok : bool) then HandleClientRequest_loop co (length fs + fuel) c (frames fs ++ rest) else mret false) s =
    HandleClientRequest_loop co fuel c rest (setMem g2 s)) as Hgo.
  { intros m Hm. unfold mbind, D_bind, onMem. rewrite Hg, Hm. cbn [prog_bind]. by rewrite (IH (setMem g1 s)). }
  destruct (decide (f.1 = MsgAccountsBatch)); [by apply Hgo|]. destruct (decide (f.1 = MsgAccountsEOF)); [by apply Hgo|].
  destruct (decide (f.1 = MsgTransactionsBatch)); [by apply Hgo|].
  repeat (apply elem_of_cons in Hf as [Hf|Hf]; [done|]). by apply elem_of_nil in Hf.
Qed.

(** ** The accounts *)
Definition withAcc (cl : Client) (seq : Z) : Client := mkClient (tx_count cl) (tx_usd_count cl) (txSeq cl) seq.
Definition published (p : Publisher) (ms : list Message) : Publisher := mkPublisher (sent p ++ ms) [] (dedup p).
Definition accounts_msg (i : nat) (payload : bytes) : Message :=
  acc_msg c (SourceMsgID c StreamAccounts (Z.of_nat i)) MsgAccountsBatch payload.
Lemma sendAccounts_next msgType payload g cl p : isAccounts msgType = true -> clients g !! c = Some cl -> accounts_up g p ->
  exists g', sendMessageToBroker msgType c payload KeyNil g = (Ok true, g') /\ gwPub g' = gwPub g /\
    accounts_up g' (published p [acc_msg c (SourceMsgID c StreamAccounts (accSeq cl)) msgType payload]) /\
    clients g' !! c = Some (withAcc cl (uint64 (accSeq cl + 1))).
Proof.
  intros Ht Hc [Hp Hs]. eexists. split.
  - unfold sendMessageToBroker, nextSourceMsgID, mbind, M_bind. rewrite Hc, Ht.
    unfold okM, mbind, M_bind, catchM, sendAccounts. cbn [accountsBroker gwSetClients]. rewrite Hp.
    unfold send. cbn [pub Publisher_self]. rewrite Hs. reflexivity.
  - split; [done|]. split; [done|]. cbn. by rewrite lookup_insert_eq.
Qed.
Lemma accounts_handled aps : forall i g cl p, Forall (fun a => Zlen a < 2 ^ 32) aps -> clients g !! c = Some (withAcc cl (Z.of_nat i)) ->
  accounts_up g p -> Z.of_nat (i + length aps) < 2 ^ 64 ->
  exists g', handled (pair MsgAccountsBatch <$> aps) g g' /\ gwPub g' = gwPub g /\
    accounts_up g' (published p (imap (fun j => accounts_msg (i + j)) aps)) /\
    clients g' !! c = Some (withAcc cl (Z.of_nat (i + length aps))).
Proof.
  induction aps as [|a aps IH]; intros i g cl p Ha Hc Hp Hb; cbn [length] in *.
  { exists g. split; [constructor|]. split; [done|]. rewrite Nat.add_0_r. split; [|done]. destruct Hp as [Hp Hs]. split; [|done].
    rewrite Hp. unfold published. cbn. rewrite app_nil_r. destruct p. cbn in *. by subst. }
  apply Forall_cons in Ha as [Ha0 Ha].
  destruct (sendAccounts_next MsgAccountsBatch a g _ p eq_refl Hc Hp) as (g1 & H1 & Hg1 & Hp1 & Hc1).
  cbn [accSeq withAcc] in *. replace (uint64 (Z.of_nat i + 1)) with (Z.of_nat (S i)) in Hc1.
  2:{ unfold uint64. rewrite Z.mod_small by lia. lia. }
  destruct (IH (S i) g1 cl _ Ha Hc1 Hp1 ltac:(lia)) as (g' & H2 & Hg2 & Hp2 & Hc2).
  exists g'. split; [|split; [by rewrite Hg2|split]].
  - cbn [fmap list_fmap]. econstructor; [split; [set_solver|exact Ha0]| |exact H2].
    unfold onFrame. cbn [fst snd]. by rewrite decide_True.
  - rewrite imap_cons. unfold published in *. cbn [sent dedup] in *. rewrite <- app_assoc in Hp2. rewrite Nat.add_0_r.
    erewrite imap_ext; [exact Hp2|]. intros j x _. cbn. unfold accounts_msg. do 2 f_equal. lia.
  - rewrite Hc2. do 2 f_equal. lia.
Qed.

(** ** The transactions *)
Lemma sendMessage_open msgType payload key g : isAccounts msgType = false -> script (gwPub g) = [] ->
  exists g', sendMessageToBroker msgType c payload key g = (Ok true, g') /\ script (gwPub g') = [] /\
    accountsBroker g' = accountsBroker g.
Proof.
  intros Ht Hs. unfold sendMessageToBroker, nextSourceMsgID, mbind, M_bind. rewrite Ht.
  destruct (clients g !! c); unfold okM, mbind, M_bind, catchM, send; cbn [pub Gateway_pub gwPub gwSetClients]; rewrite Hs;
    eexists; (split; [reflexivity|done]).
Qed.
Lemma sendTransactionBatch_open txs key g : Forall tx_ok txs -> (length txs <= maxBatch)%nat -> script (gwPub g) = [] ->
  exists g', sendTransactionBatch c txs key g = (Ok true, g') /\ script (gwPub g') = [] /\ accountsBroker g' = accountsBroker g.
Proof.
  intros Hwf Hn Hs. unfold sendTransactionBatch. destruct (tx_batch_sized txs Hwf Hn) as (bs & -> & _).
  destruct txs; [by exists g|]. by apply sendMessage_open.
Qed.
Lemma filter_ok (P : Transaction -> Prop) `{!forall x, Decision (P x)} txs : Forall tx_ok txs -> Forall tx_ok (filter P txs).
Proof. rewrite !Forall_forall. intros Hok x Hx. apply list_elem_of_filter in Hx as [_ Hx]. by apply Hok. Qed.
Lemma handleAll_open tps batches : Forall2 (fun p b => DecodeTransactionBatch p = Ok b) tps batches ->
  Forall (fun b => Forall tx_ok b /\ (length b <= maxBatch)%nat) batches -> forall g, script (gwPub g) = [] ->
  exists g', handleAll c tps g = (Ok true, g') /\ script (gwPub g') = [] /\ accountsBroker g' = accountsBroker g.
Proof.
  induction 1 as [|p b tps batches Hd _ IH]; intros Hb g Hs; [by exists g|]. apply Forall_cons in Hb as [[Hwf Hn] Hb].
  cbn [handleAll fold_right]. unfold mbind at 1, M_bind at 1. unfold handleTransactionsBatch. rewrite Hd.
  unfold mbind at 1, M_bind at 1.
  destruct (sendTransactionBatch_open (usd b) KeyDollarTransaction g) as (g1 & H1 & Hs1 & Ha1); [by apply filter_ok| |done|].
  { etrans; [apply length_filter|done]. }
  fold (usd b) (nonUsd b). rewrite H1. cbn [negb]. unfold mbind at 1, M_bind at 1.
  destruct (sendTransactionBatch_open (nonUsd b) KeyNonDollarTransaction g1) as (g2 & H2 & Hs2 & Ha2); [by apply filter_ok| |done|].
  { etrans; [apply length_filter|done]. }
  rewrite H2. cbn [negb]. unfold mbind at 1, M_bind at 1, modS at 1.
  set (g3 := match clients g2 !! c with Some _ => _ | None => _ end).
  assert (script (gwPub g3) = [] /\ accountsBroker g3 = accountsBroker g) as [Hs3 Ha3].
  { unfold g3. destruct (clients g2 !! c); cbn; split; congruence. }
  destruct (IH Hb g3 Hs3) as (g' & H & Hs' & Ha'). exists g'. split; [exact H|]. split; [done|]. congruence.
Qed.
Lemma handled_all tps : forall g g', Forall (fun p => Zlen p < 2 ^ 32) tps -> handleAll c tps g = (Ok true, g') ->
  handled (pair MsgTransactionsBatch <$> tps) g g'.
Proof.
  induction tps as [|p tps IH]; intros g g' Hz; cbn [handleAll fold_right].
  { intros [= <-]. constructor. }
  apply Forall_cons in Hz as [Hp Hz]. unfold mbind, M_bind.
  destruct (handleTransactionsBatch c p g) as [[[]|e|q] g1] eqn:E; [|done..]. intros H.
  cbn [fmap list_fmap]. econstructor; [split; [set_solver|exact Hp]| |by apply IH].
  unfold onFrame. cbn [fst snd]. rewrite !decide_False by done. exact E.
Qed.

Lemma sum_lengths {A : Type} (ls : list (list A)) : sumZ (Zlen <$> ls) = Zlen (concat ls).
Proof. induction ls as [|l ls IH]; [done|]. cbn [concat]. rewrite Zlen_app, <- IH. done. Qed.
Lemma sum_usd ls : sumZ ((Zlen ∘ usd) <$> ls) = Zlen (usd (concat ls)).
Proof. induction ls as [|l ls IH]; [done|]. cbn [concat]. unfold usd in *. rewrite filter_app, Zlen_app, <- IH. done. Qed.
Lemma totals_encode txs usds : in_int64 txs -> in_int64 usds -> exists bs, EncodeEOFCounts (eofTotals txs usds) = Ok bs.
Proof.
  intros Ht Hu. eexists. apply EncodeEOFCounts_bytes. unfold eofTotals, counts_ok.
  repeat apply map_Forall_insert_2; try apply map_Forall_empty; (split; [by vm_compute|first [done|apply int64_range]]).
Qed.
Lemma transactions_handled tps batches g cl : clients g !! c = Some cl -> tx_count cl = 0 -> tx_usd_count cl = 0 -> txSeq cl = 0 ->
  script (gwPub g) = [] -> Forall2 (carries DecodeTransactionBatch) tps batches ->
  Forall (fun b => Forall tx_ok b /\ (length b <= maxBatch)%nat) batches -> Zlen (concat batches) < 2 ^ 63 ->
  exists g1 g2 ms seq bs, handled (pair MsgTransactionsBatch <$> tps) g g1 /\ handleTransactionsEOF c g1 = (Ok true, g2) /\
    accountsBroker g2 = accountsBroker g /\ batches_sent c batches 0 ms seq /\
    sent (gwPub g2) = sent (gwPub g) ++ ms ++ [tx_msg c seq MsgTransactionsEOF KeyControlEOF bs] /\
    EncodeEOFCounts (eofTotals (Zlen (concat batches)) (Zlen (usd (concat batches)))) = Ok bs.
Proof.
  intros Hc Hn Hu Hseq Hs Hcar Hok Hlt.
  assert (Forall2 (fun p b => DecodeTransactionBatch p = Ok b) tps batches) as Hdec by (eapply Forall2_impl; [exact Hcar|by intros ?? []]).
  assert (Forall (fun p => Zlen p < 2 ^ 32) tps) as Hz by (eapply Forall2_Forall_l; [exact Hcar|]; apply Forall_true; by intros ?? []).
  destruct (handleAll_open tps batches Hdec Hok g Hs) as (g1 & H1 & Hs1 & Ha1).
  destruct (handleAll_true c tps g cl g1 Hc) as (bs' & ms & seq & Hd' & Hb & Hsent & n & u & Hcl & Hn1 & Hu1);
    [by rewrite Hn|by rewrite Hu|done|].
  assert (bs' = batches) as -> by (eapply Forall2_unique; [exact Hd'|exact Hdec|]; cbn; congruence).
  destruct (sums_split batches) as (Hsp & Hge & Hge').
  rewrite (sum_lengths batches) in Hsp, Hn1. rewrite (sum_usd batches) in Hsp, Hge, Hu1.
  assert (0 <= Zlen (concat batches)) by (unfold Zlen; lia).
  rewrite Hn, Z.add_0_l, int64_small in Hn1 by (unfold in_int64; lia).
  rewrite Hu, Z.add_0_l, int64_small in Hu1 by (unfold in_int64; lia).
  destruct (totals_encode n u) as [bs Hbs]; [subst; unfold in_int64; lia..|].
  destruct (sendMessage_open MsgTransactionsEOF bs KeyControlEOF g1 eq_refl Hs1) as (g2 & H2 & _ & Ha2).
  destruct (sendMessage_true c MsgTransactionsEOF bs KeyControlEOF g1 _ g2 eq_refl Hcl H2) as [Hsent2 _].
  exists g1, g2, ms, seq, bs. rewrite Hseq in Hb. split_and!; [by apply handled_all| |by rewrite Ha2| |..].
  - unfold handleTransactionsEOF, mbind, M_bind, getS. rewrite Hcl. cbn [withTx tx_count tx_usd_count]. by rewrite Hbs.
  - done.
  - by rewrite Hsent2, Hsent, app_assoc.
  - by subst n u.
Qed.

(** ** The whole session *)
Lemma chunks_batches n (txs : list Transaction) : Forall tx_ok txs -> (0 < n <= maxBatch)%nat ->
  Forall (fun b => Forall tx_ok b /\ (length b <= maxBatch)%nat) (chunks n txs).
Proof.
  intros Hwf Hn. destruct (chunks_spec n txs) as [Hc Hl]; [lia|]. rewrite <- Hc in Hwf. clear Hc. revert Hwf.
  induction Hl as [|b bs Hb _ IH]; intros Hwf; [constructor|]. cbn [concat] in Hwf. apply Forall_app in Hwf as [Hb1 Hb2].
  constructor; [|by apply IH]. split; [done|lia].
Qed.
Lemma chunks_count n (l : list AccountData) : (0 < n)%nat -> (length (chunks n l) <= length l)%nat.
Proof.
  intros Hn. destruct (chunks_spec n l Hn) as [Hc Hl]. rewrite <- Hc at 2. clear Hc. induction Hl as [|b bs Hb _ IH]; [done|].
  cbn [concat length]. rewrite length_app. lia.
Qed.
Lemma frames_fuel fs : (length fs <= length (frames fs))%nat.
Proof.
  induction fs as [|f fs IH]; [done|]. change (frames (f :: fs)) with (frame f.1 f.2 ++ frames fs).
  rewrite length_app, frame_length. cbn [length]. lia.
Qed.
Lemma request_handled fs (s : Co Gateway) g1 g2 : handled fs (coMem s) g1 -> handleTransactionsEOF c g1 = (Ok true, g2) ->
  HandleClientRequest co c (frames fs ++ frame MsgTransactionsEOF []) s = (_ ← tryDeleteCheckpoint co c; mret true) (setMem g2 s).
Proof.
  intros Hh He. unfold HandleClientRequest. set (input := frames fs ++ frame MsgTransactionsEOF []).
  assert (length fs + 1 <= S (length input))%nat as Hlen.
  { unfold input. rewrite length_app. pose proof (frames_fuel fs). lia. }
  replace (S (length input)) with (length fs + S (length input - length fs))%nat by lia.
  unfold input at 2. rewrite (loop_handled fs _ _ _ _ s Hh eq_refl).
  rewrite <- (app_nil_r (frame MsgTransactionsEOF [])), (loop_frame (MsgTransactionsEOF, [])) by done.
  cbn [fst snd]. rewrite !decide_False, decide_True by done. unfold mbind at 1, D_bind at 1, onMem. cbn [coMem setMem].
  rewrite He. done.
Qed.

(** What a client sends, message by message, and what the gateway makes of it. *)
Lemma session_handled accRows accs txRows txs n m k (s : Co Gateway) p :
  Forall2 (good_row ParseAccount) accRows accs -> Forall acct_ok accs -> 0 < n <= Z.of_nat maxBatch -> Zlen accs < 2 ^ 63 ->
  Forall2 (good_row ParseTransaction) txRows txs -> Forall tx_ok txs -> 0 < m <= Z.of_nat maxBatch -> Zlen txs < 2 ^ 63 ->
  unbroken k -> written k = [] ->
  clients (coMem s) !! c = Some newClient -> script (gwPub (coMem s)) = [] -> accounts_up (coMem s) p ->
  exists k' fs g3 g4 aps ms seq bs,
    Start always always (mkBatchReader accRows n false, mkBatchReader txRows m false) k = (Ok tt, k') /\
    written k' = frames fs ++ frame MsgTransactionsEOF [] /\
    handled fs (coMem s) g3 /\ handleTransactionsEOF c g3 = (Ok true, g4) /\
    Forall2 (fun a b => DecodeAccountBatch a = Ok b) aps (chunks (Z.to_nat n) accs) /\
    accounts_up g4 (published p (imap accounts_msg aps ++
      [acc_msg c (SourceMsgID c StreamAccounts (Z.of_nat (length aps))) MsgAccountsEOF []])) /\
    batches_sent c (chunks (Z.to_nat m) txs) 0 ms seq /\
    sent (gwPub g4) = sent (gwPub (coMem s)) ++ ms ++ [tx_msg c seq MsgTransactionsEOF KeyControlEOF bs] /\
    EncodeEOFCounts (eofTotals (Zlen txs) (Zlen (usd txs))) = Ok bs.
Proof.
  intros Ha Hwa Hn Hla Ht Hwt Hm Hlt Hu Hk Hc Hs Hp.
  destruct (client_streams accRows accs txRows txs n m k) as (k' & aps & tps & Hst & Hca & Hct & Hw); [done..|].
  rewrite Hk in Hw. cbn [app] in Hw.
  assert (Forall (fun a => Zlen a < 2 ^ 32) aps) as Hza by (eapply Forall2_Forall_l; [exact Hca|]; apply Forall_true; by intros ?? []).
  assert (length aps <= length accs)%nat as Hna.
  { rewrite (Forall2_length _ _ _ Hca). apply chunks_count. lia. }
  destruct (accounts_handled aps 0 (coMem s) newClient p Hza Hc Hp) as (g1 & Hh1 & Hg1 & Hp1 & Hc1); [unfold Zlen in *; lia|].
  destruct (sendAccounts_next MsgAccountsEOF [] g1 _ _ eq_refl Hc1 Hp1) as (g2 & Hh2 & Hg2 & Hp2 & Hc2).
  destruct (chunks_spec (Z.to_nat m) txs) as [Hcc _]; [lia|].
  destruct (transactions_handled tps (chunks (Z.to_nat m) txs) g2 _ Hc2 eq_refl eq_refl eq_refl) as
    (g3 & g4 & ms & seq & bs & Hh3 & He & Ha4 & Hb & Hsent & Hbs); rewrite ?Hcc; try done.
  { by rewrite Hg2, Hg1. }
  { apply chunks_batches; [done|lia]. }
  exists k', ((pair MsgAccountsBatch <$> aps) ++ (MsgAccountsEOF, []) :: (pair MsgTransactionsBatch <$> tps)), g3, g4, aps, ms, seq, bs.
  split; [done|]. split; [exact Hw|]. split; [|split; [exact He|split; [|split; [|split; [done|split]]]]].
  - eapply handled_app; [exact Hh1|].
    econstructor; [split; [repeat constructor|done]| |exact Hh3]. unfold onFrame. cbn [fst snd]. by rewrite decide_False, decide_True by done.
  - eapply Forall2_impl; [exact Hca|]. by intros ?? [].
  - destruct Hp2 as [Hp2 _]. split; [|done]. rewrite Ha4, Hp2. unfold published. cbn [sent dedup accSeq withAcc]. by rewrite <- app_assoc.
  - by rewrite Hsent, Hg2, Hg1.
  - by rewrite Hcc in Hbs.
Qed.

(** C5. From files to the brokers: a client that can read its two files and
    reach a gateway whose brokers accept gets every account and every
    transaction published - the accounts in the client's batches, numbered
    0, 1, 2, ... and closed by their end; the transactions split by currency
    batch by batch, in order; and the end of the stream announces exactly the
    number of transactions in the file and how many of them are in dollars. *)
Theorem session_publishes_files accRows accs txRows txs n m k (s : Co Gateway) p :
  Forall2 (good_row ParseAccount) accRows accs -> Forall acct_ok accs -> 0 < n <= Z.of_nat maxBatch -> Zlen accs < 2 ^ 63 ->
  Forall2 (good_row ParseTransaction) txRows txs -> Forall tx_ok txs -> 0 < m <= Z.of_nat maxBatch -> Zlen txs < 2 ^ 63 ->
  unbroken k -> written k = [] ->
  clients (coMem s) !! c = Some newClient -> script (gwPub (coMem s)) = [] -> accounts_up (coMem s) p ->
  exists k' g' aps ms seq bs,
    Start always always (mkBatchReader accRows n false, mkBatchReader txRows m false) k = (Ok tt, k') /\
    HandleClientRequest co c (written k') s = (_ ← tryDeleteCheckpoint co c; mret true) (setMem g' s) /\
    Forall2 (fun a b => DecodeAccountBatch a = Ok b) aps (chunks (Z.to_nat n) accs) /\
    accounts_up g' (published p (imap accounts_msg aps ++
      [acc_msg c (SourceMsgID c StreamAccounts (Z.of_nat (length aps))) MsgAccountsEOF []])) /\
    batches_sent c (chunks (Z.to_nat m) txs) 0 ms seq /\
    sent (gwPub g') = sent (gwPub (coMem s)) ++ ms ++ [tx_msg c seq MsgTransactionsEOF KeyControlEOF bs] /\
    EncodeEOFCounts (eofTotals (Zlen txs) (Zlen (usd txs))) = Ok bs.
Proof.
  intros. destruct (session_handled accRows accs txRows txs n m k s p) as (k' & fs & g3 & g4 & aps & ms & seq & bs & Hst & Hw & Hh & He & Hrest); [done..|].
  exists k', g4, aps, ms, seq, bs. split; [exact Hst|]. split; [|exact Hrest]. rewrite Hw. by eapply request_handled.
Qed.

(** ** Cut short *)
(** Both brokers accept, and nothing that was sent is taken back. *)
Definition accSent (g : Gateway) : list Message := from_option sent [] (accountsBroker g).
Definition opened (g : Gateway) : Prop := script (gwPub g) = [] /\ exists p, accounts_up g p.
Definition grows (g g' : Gateway) : Prop :=
  opened g' /\ sent (gwPub g) `prefix_of` sent (gwPub g') /\ accSent g `prefix_of` accSent g'.
Definition growing {A} (m : M Gateway A) : Prop := forall g, opened g -> grows g (m g).2.
Lemma grows_refl g : opened g -> grows g g.
Proof. by split. Qed.
Lemma grows_trans g1 g2 g3 : grows g1 g2 -> grows g2 g3 -> grows g1 g3.
Proof. intros (_ & H1 & H2) (Ho & H3 & H4). split; [done|]. split; by etrans. Qed.
Lemma growing_ret {A} (a : A) : growing (mret a).
Proof. intros g Ho. by apply grows_refl. Qed.
Lemma growing_bind {A B} (m : M Gateway A) (f : A -> M Gateway B) : growing m -> (forall a, growing (f a)) -> growing (m ≫= f).
Proof.
  intros Hm Hf g Ho. specialize (Hm g Ho). unfold mbind, M_bind. destruct (m g) as [[a|e|q] g1] eqn:E; [|done..].
  eapply grows_trans; [exact Hm|]. by apply Hf, Hm.
Qed.
Lemma growing_lift {A} (r : res A) : growing (liftR r).
Proof. intros g Ho. by apply grows_refl. Qed.
Lemma growing_get {A} (f : Gateway -> M Gateway A) : (forall g, growing (f g)) -> growing (g ← getS; f g).
Proof. intros Hf g Ho. by apply Hf. Qed.
Lemma growing_clients (f : Gateway -> Gateway) :
  (forall g, gwPub (f g) = gwPub g /\ accountsBroker (f g) = accountsBroker g) -> growing (modS f).
Proof.
  intros Hf g [Hs [p Hp]]. unfold modS. cbn. destruct (Hf g) as [H1 H2]. unfold grows, opened, accSent, accounts_up in *.
  rewrite H1, H2. split; [|done]. split; [done|]. by exists p.
Qed.
Lemma growing_message msgType payload key : growing (sendMessageToBroker msgType c payload key).
Proof.
  intros g [Hs [p [Hp Hsp]]]. unfold sendMessageToBroker, nextSourceMsgID, mbind, M_bind.
  assert (forall g1 id, gwPub g1 = gwPub g -> accountsBroker g1 = accountsBroker g ->
    let body := EncodeInternalEnvelope (mkInternalEnvelope msgType c id payload) in
    grows g (okM (if isAccounts msgType then sendAccounts key body else send key body) g1).2) as Hgo.
  { intros g1 id H1 H2 body. clearbody body. unfold okM, mbind, M_bind, catchM, sendAccounts, send, grows, opened, accSent, accounts_up.
    destruct (isAccounts msgType); cbn [pub Gateway_pub Publisher_self]; rewrite ?H1, ?H2, ?Hp, ?Hs, ?Hsp; cbn; rewrite ?H1, ?H2, ?Hp;
      (split; [split; [done|by eexists]|]); (split; first [reflexivity|apply prefix_app_r; reflexivity]). }
  destruct (clients g !! c); destruct (isAccounts msgType) eqn:E; by apply Hgo.
Qed.
Lemma growing_batch txs key : growing (sendTransactionBatch c txs key).
Proof.
  unfold sendTransactionBatch. destruct txs; [apply growing_ret|]. destruct (EncodeTransactionBatch _); [apply growing_message|apply growing_ret|apply growing_lift].
Qed.
Lemma growing_frame f : growing (onFrame f).
Proof.
  unfold onFrame, handleAccountsBatch, handleAccountsEOF. repeat case_decide; [apply growing_message..|].
  unfold handleTransactionsBatch. destruct (DecodeTransactionBatch f.2); [|apply growing_ret|apply growing_lift].
  apply growing_bind; [apply growing_batch|]. intros []; [|apply growing_ret].
  apply growing_bind; [apply growing_batch|]. intros []; [|apply growing_ret].
  apply growing_bind; [|intros; apply growing_ret]. apply growing_clients. intros g. by destruct (clients g !! c).
Qed.
Lemma handled_split fs : forall gs g g', handled (fs ++ gs) g g' -> opened g ->
  exists g1, handled fs g g1 /\ handled gs g1 g' /\ grows g g1 /\ grows g1 g'.
Proof.
  induction fs as [|f fs IH]; intros gs g g' H Ho.
  - exists g. split; [constructor|]. split; [done|]. split; [by apply grows_refl|]. revert Ho. induction H as [|f fs g g1 g2 _ Hf _ IH]; intros Ho; [by apply grows_refl|].
    pose proof (growing_frame f g Ho) as Hg. rewrite Hf in Hg. cbn in Hg. eapply grows_trans; [exact Hg|]. apply IH, Hg.
  - inversion H as [|? ? ? g1 ? Hf Ho1 Hr]; subst. pose proof (growing_frame f g Ho) as Hg. rewrite Ho1 in Hg. cbn in Hg.
    destruct (IH gs g1 g' Hr) as (g2 & H1 & H2 & H3 & H4); [apply Hg|]. exists g2. split; [by econstructor|]. split; [done|].
    split; [by eapply grows_trans|done].
Qed.

Lemma growing_end : growing (handleTransactionsEOF c).
Proof.
  apply growing_get. intros g. destruct (clients g !! c); [|apply growing_ret].
  destruct (EncodeEOFCounts _); [apply growing_message|apply growing_ret|apply growing_lift].
Qed.

(** The input ends inside a message. *)
Lemma loop_short f j fuel (s : Co Gateway) : Zlen f.2 < 2 ^ 32 -> (j < length (frame f.1 f.2))%nat ->
  HandleClientRequest_loop co (S fuel) c (take j (frame f.1 f.2)) s = Ret (Ok false, s).
Proof.
  intros Hp Hj. rewrite frame_length in Hj. cbn [HandleClientRequest_loop]. unfold ExternalHeaderSize at 1.
  destruct (decide (j < 5)%nat) as [H5|H5].
  { rewrite bool_decide_eq_true_2; [done|]. rewrite length_take, frame_length. lia. }
  rewrite bool_decide_eq_false_2 by (rewrite length_take, frame_length; lia).
  destruct (frame_header f.1 f.2 [] Hp) as [Hh Hd]. rewrite app_nil_r in Hh, Hd. unfold ExternalHeaderSize in *.
  rewrite take_take, Nat.min_l by lia. unfold liftR. rewrite Hh. unfold mbind at 1, D_bind at 1, onMem at 1. cbn [prog_bind].
  assert (setMem (coMem s) s = s) as -> by apply setMem_same.
  rewrite (proj2 (Z.ltb_lt _ _)); [done|]. unfold Zlen. rewrite length_drop, length_take, frame_length. lia.
Qed.
Lemma frames_cut fs : forall j, (j < length (frames fs))%nat -> exists fs1 f fs2 i, fs = fs1 ++ f :: fs2 /\
  take j (frames fs) = frames fs1 ++ take i (frame f.1 f.2) /\ (i < length (frame f.1 f.2))%nat.
Proof.
  induction fs as [|f fs IH]; intros j Hj; [cbn in Hj; lia|]. change (frames (f :: fs)) with (frame f.1 f.2 ++ frames fs) in *.
  rewrite length_app in Hj. destruct (decide (j < length (frame f.1 f.2))%nat) as [Hl|Hl].
  - exists [], f, fs, j. split; [done|]. split; [|done]. by rewrite take_app_le by lia.
  - destruct (IH (j - length (frame f.1 f.2))%nat ltac:(lia)) as (fs1 & f' & fs2 & i & -> & Ht & Hi).
    exists (f :: fs1), f', fs2, i. split; [done|]. split; [|done]. rewrite take_app_ge by lia. rewrite Ht.
    change (frames (f :: fs1)) with (frame f.1 f.2 ++ frames fs1). by rewrite app_assoc.
Qed.
Lemma disconnect_sends g : opened g -> exists g' id bs, disconnectMessages c g = (Ok true, g') /\ EncodeEOFCounts flushTotals = Ok bs /\
  sent (gwPub g') = sent (gwPub g) ++ [mkMessage KeyControlEOF (EncodeInternalEnvelope (mkInternalEnvelope MsgTransactionsEOF c zero16 bs))] /\
  accSent g' = accSent g ++ [acc_msg c id MsgAccountsEOF []].
Proof.
  intros [Hs [p [Hp Hsp]]].
  assert (exists bs, EncodeEOFCounts flushTotals = Ok bs) as [bs Hbs].
  { eexists. apply EncodeEOFCounts_bytes. unfold flushTotals, counts_ok.
    repeat apply map_Forall_insert_2; try apply map_Forall_empty; (split; [by vm_compute|done]). }
  assert (exists id g1, sendMessageToBroker MsgAccountsEOF c [] KeyNil g = (Ok true, g1) /\ gwPub g1 = gwPub g /\
    accountsBroker g1 = Some (published p [acc_msg c id MsgAccountsEOF []])) as (id & g1 & H1 & Hg1 & Ha1).
  { assert (isAccounts MsgAccountsEOF = true) as Ht by done. unfold sendMessageToBroker, nextSourceMsgID, mbind, M_bind.
    destruct (clients g !! c); rewrite Ht; unfold okM, mbind, M_bind, catchM, sendAccounts; cbn [accountsBroker gwSetClients];
      rewrite Hp; unfold send; cbn [pub Publisher_self]; rewrite Hsp; eexists _, _; (split; [reflexivity|done]). }
  eexists _, id, bs. unfold disconnectMessages, mbind, M_bind. rewrite H1. unfold sendFlushEOF. rewrite Hbs.
  unfold okM, mbind, M_bind, catchM, send. cbn [pub Gateway_pub]. rewrite Hg1, Hs.
  split; [reflexivity|]. split; [done|]. split; [reflexivity|]. unfold accSent. cbn [accountsBroker setPub Gateway_pub]. rewrite Ha1, Hp. done.
Qed.

(** C6. A client that dies: wherever its stream is cut, inside a message or
    between two, the gateway has published the messages of a beginning of the
    whole session and nothing else, gives up, and publishes the end of the
    accounts and the flush that makes every worker drop the client. *)
Theorem cut_session_flushed accRows accs txRows txs n m k (s : Co Gateway) p :
  Forall2 (good_row ParseAccount) accRows accs -> Forall acct_ok accs -> 0 < n <= Z.of_nat maxBatch -> Zlen accs < 2 ^ 63 ->
  Forall2 (good_row ParseTransaction) txRows txs -> Forall tx_ok txs -> 0 < m <= Z.of_nat maxBatch -> Zlen txs < 2 ^ 63 ->
  unbroken k -> written k = [] ->
  clients (coMem s) !! c = Some newClient -> script (gwPub (coMem s)) = [] -> accounts_up (coMem s) p ->
  exists k' whole,
    Start always always (mkBatchReader accRows n false, mkBatchReader txRows m false) k = (Ok tt, k') /\
    HandleClientRequest co c (written k') s = (_ ← tryDeleteCheckpoint co c; mret true) (setMem whole s) /\
    forall j, (j < length (written k'))%nat -> exists g g' id bs,
      serve co c (take j (written k')) s = (_ ← handleClientDisconnect co c; closeClient co c) (setMem g s) /\
      sent (gwPub g) `prefix_of` sent (gwPub whole) /\ accSent g `prefix_of` accSent whole /\
      disconnectMessages c g = (Ok true, g') /\ EncodeEOFCounts flushTotals = Ok bs /\
      sent (gwPub g') = sent (gwPub g) ++ [mkMessage KeyControlEOF (EncodeInternalEnvelope (mkInternalEnvelope MsgTransactionsEOF c zero16 bs))] /\
      accSent g' = accSent g ++ [acc_msg c id MsgAccountsEOF []].
Proof.
  intros. destruct (session_handled accRows accs txRows txs n m k s p) as (k' & fs & g3 & g4 & aps & ms & seq & bs & Hst & Hw & Hh & He & _); [done..|].
  exists k', g4. split; [exact Hst|]. rewrite Hw. split; [by eapply request_handled|]. intros j Hj.
  assert (opened (coMem s)) as Ho by (split; [done|by exists p]).
  assert (frames fs ++ frame MsgTransactionsEOF [] = frames (fs ++ [(MsgTransactionsEOF, [])])) as Hfr.
  { unfold frames. rewrite fmap_app, concat_app. cbn. by rewrite app_nil_r. }
  rewrite Hfr in *. destruct (frames_cut _ j Hj) as (fs1 & f & fs2 & i & Hfs & Ht & Hi).
  assert (Zlen f.2 < 2 ^ 32 /\ exists gs, fs = fs1 ++ gs) as [Hz [gs Hgs]].
  { destruct fs2 as [|f2 fs2 _] using rev_ind.
    - apply app_inj_tail in Hfs as [-> <-]. split; [done|]. exists []. by rewrite app_nil_r.
    - rewrite app_comm_cons, app_assoc in Hfs. apply app_inj_tail in Hfs as [-> _]. split; [|by eexists].
      destruct (handled_split fs1 (f :: fs2) _ _ Hh Ho) as (? & _ & Hf & _). inversion Hf as [|? ? ? ? ? Hu]; subst. apply Hu. }
  rewrite Hgs in Hh. destruct (handled_split _ _ _ _ Hh Ho) as (g & Hg & _ & Hg1 & Hg2).
  pose proof (growing_end g3 (proj1 Hg2)) as Hg3. rewrite He in Hg3. cbn in Hg3.
  pose proof (grows_trans _ _ _ Hg2 Hg3) as (_ & Hp1 & Hp2).
  destruct (disconnect_sends g) as (g' & id & fl & Hd & Hfl & Hs1 & Hs2); [apply Hg1|].
  exists g, g', id, fl. split; [|done]. unfold serve, mbind at 1, D_bind at 1, HandleClientRequest.
  pose proof (frames_fuel fs1) as Hfuel. set (input := take j _) in *.
  assert (length fs1 <= length input)%nat as Hlen by (rewrite Ht, length_app; lia).
  replace (S (length input)) with (length fs1 + S (length input - length fs1))%nat by lia.
  rewrite Ht at 2. rewrite (loop_handled fs1 _ _ _ _ s Hg eq_refl). by rewrite loop_short.
Qed.
End Session.

(** ** Examples *)
Definition acc_row (i : string) : list string := ["Bank"; i; "8000EBD30"; "E1"; "Owner"]%string.
Definition tx_row (currency : string) : list string :=
  ["2022/09/01 00:20"; "010"; "8000EBD30"; "020"; "8000F5340"; "5"; currency; "5"; currency; "Wire"; "0"]%string.
Definition the_account (i : string) : AccountData := mkAccountData "Bank" i "8000EBD30" "E1" "Owner".
Definition the_transaction (currency : string) : Transaction :=
  mkTransaction "2022/09/01 00:20" "10" "8000EBD30" "20" "8000F5340" (f64_of_int 5) currency (f64_of_int 5) currency "Wire" false.
Definition broken_twice : Connection := mkConnection [] [(3%nat, None); (0%nat, None)] [].

Definition the_accs : list AccountData := the_account <$> ["1"; "2"; "3"]%string.
Definition the_txs : list Transaction := the_transaction <$> ["US Dollar"; "Euro"; "US Dollar"]%string.
Definition accRows : list (res (list string)) := Ok <$> (acc_row <$> ["1"; "2"; "3"]%string).
Definition txRows : list (res (list string)) := Ok <$> (tx_row <$> ["US Dollar"; "Euro"; "US Dollar"]%string).
Definition the_gateway : Co Gateway := newCo new_gateway.
(** The hypotheses about the two files and the gateway, on these. *)
Ltac sample_session :=
  lazymatch goal with
  | |- Forall2 _ _ _ => repeat constructor; (eexists; split; [reflexivity|vm_compute; reflexivity])
  | |- Forall _ _ => repeat constructor; vm_compute; first [congruence|split; congruence]
  | |- unbroken _ => repeat constructor
  | |- clients _ !! _ = _ => apply lookup_singleton_eq
  | |- accounts_up _ _ => split; reflexivity
  | |- _ = _ => reflexivity
  | |- _ => vm_compute; first [congruence|split; congruence]
  end.

Lemma session_publishes_files_witness :
  let co := gatewayCo "gateway" 1 in
  let p := mkPublisher [] [] newDedupState in
  exists k' g' aps ms seq bs,
    @Start digits always always (mkBatchReader accRows 2 false, mkBatchReader txRows 2 false) broken_twice = (Ok tt, k') /\
    @HandleClientRequest uuid_letters range_rev co id1 (written k') the_gateway
      = (_ ← @tryDeleteCheckpoint uuid_letters co id1; mret true) (setMem g' the_gateway) /\
    Forall2 (fun a b => DecodeAccountBatch a = Ok b) aps (chunks 2 the_accs) /\
    accounts_up g' (published p (imap (accounts_msg id1) aps ++
      [acc_msg id1 (SourceMsgID id1 StreamAccounts (Z.of_nat (length aps))) MsgAccountsEOF []])) /\
    batches_sent id1 (chunks 2 the_txs) 0 ms seq /\
    sent (gwPub g') = sent (gwPub (coMem the_gateway)) ++ ms ++ [tx_msg id1 seq MsgTransactionsEOF KeyControlEOF bs] /\
    @EncodeEOFCounts range_rev (eofTotals (Zlen the_txs) (Zlen (usd the_txs))) = Ok bs.
Proof.
  intros co p.
  apply (session_publishes_files (UL := uuid_letters) (GR := range_rev) (SC := digits) co id1 accRows the_accs txRows the_txs 2 2
    broken_twice the_gateway p); sample_session.
Defined.

Lemma cut_session_flushed_witness :
  let co := gatewayCo "gateway" 1 in
  exists k' whole,
    @Start digits always always (mkBatchReader accRows 2 false, mkBatchReader txRows 2 false) broken_twice = (Ok tt, k') /\
    @HandleClientRequest uuid_letters range_rev co id1 (written k') the_gateway
      = (_ ← @tryDeleteCheckpoint uuid_letters co id1; mret true) (setMem whole the_gateway) /\
    forall j, (j < length (written k'))%nat -> exists g g' id bs,
      @serve uuid_letters range_rev co id1 (take j (written k')) the_gateway
        = (_ ← @handleClientDisconnect uuid_letters range_rev co id1; @closeClient uuid_letters co id1) (setMem g the_gateway) /\
      sent (gwPub g) `prefix_of` sent (gwPub whole) /\ accSent g `prefix_of` accSent whole /\
      @disconnectMessages range_rev id1 g = (Ok true, g') /\ @EncodeEOFCounts range_rev flushTotals = Ok bs /\
      sent (gwPub g') = sent (gwPub g) ++
        [mkMessage KeyControlEOF (EncodeInternalEnvelope (mkInternalEnvelope MsgTransactionsEOF id1 zero16 bs))] /\
      accSent g' = accSent g ++ [acc_msg id1 id MsgAccountsEOF []].
Proof.
  intros co.
  apply (cut_session_flushed (UL := uuid_letters) (GR := range_rev) (SC := digits) co id1 accRows the_accs txRows the_txs 2 2
    broken_twice the_gateway (mkPublisher [] [] newDedupState)); sample_session.
Defined.
