(* ===== verification/Results.v ===== *)
(** * Results at the gateway and at the client

    [forwardResponse] on everything that the queue of results delivers for one
    client, and the client's file for the bytes it gets: each result once, in the
    order of its first delivery. *)

From S2P Require Import Prelude Maps Models Codec Disk Coordinator Publisher Consumer Gateway Network Client.

Section Results.
Context {UL : UuidLib} {GR : GoRange} (co : CoConfig Gateway) (c : id16).

Definition frameOf (e : InternalEnvelope) : byte * bytes := (MsgType_ e, Payload e).
Definition endTypes : list byte := [MsgQuery1ResultEOF; MsgQuery2ResultEOF; MsgQuery3ResultEOF; MsgQuery4ResultEOF; MsgQuery5ResultEOF].
(** The first delivery of every id. *)
Fixpoint firsts (seen : gset id16) (es : list InternalEnvelope) : list InternalEnvelope :=
  match es with
  | [] => []
  | e :: es' => if decide (MsgID e ∈ seen) then firsts seen es' else e :: firsts ({[MsgID e]} ∪ seen) es'
  end.
(** The deliveries, numbered for their acknowledgements. *)
Fixpoint forwardAll (n : nat) (bodies : list bytes) : D (Co Gateway) unit :=
  match bodies with
  | [] => mret tt
  | b :: bs => _ ← forwardResponse co b n; forwardAll (S n) bs
  end.
Definition delivers (b : bytes) (e : InternalEnvelope) : Prop :=
  DecodeInternalEnvelope b = Ok e /\ ClientId e = c /\ MsgID e <> zero16.

(** What the gateway knows once it forwarded [out]. *)
Definition ids (out : list InternalEnvelope) : gset id16 := list_to_set (MsgID <$> out).
Definition forwarded (out : list InternalEnvelope) (g : Gateway) : Prop :=
  default ∅ (seenResults g !! c) = ids out /\
  exists conn, registry g !! c = Some conn /\ cnScript conn = [] /\ cnSent conn = (fun e => frame (MsgType_ e) (Payload e)) <$> out /\
    forall t, t ∈ endTypes -> EOFSent conn !! t = Some (bool_decide (t ∈ MsgType_ <$> out)).

Lemma not_all_ends cn t : EOFSent cn !! t = Some false -> allEOFSent cn = false.
Proof.
  intros Ht. unfold allEOFSent. apply not_true_iff_false. intros H. rewrite forallb_forall in H.
  apply elem_of_map_to_list, list_elem_of_In in Ht. by apply H in Ht.
Qed.

Lemma forward_repeat b e out n (s : Co Gateway) : delivers b e -> forwarded out (coMem s) -> MsgID e ∈ ids out ->
  exists s', forwardResponse co b n s = Ret (Ok tt, s') /\ forwarded out (coMem s').
Proof.
  intros (Hd & Hc & Hz) [Hs Hconn] Hin. unfold forwardResponse. rewrite Hd, Hc. rewrite bool_decide_eq_false_2 by done. cbn [negb andb].
  unfold mbind at 1, D_bind at 1, getD. cbn [prog_bind]. unfold seenResult. rewrite Hs, bool_decide_eq_true_2 by done.
  eexists. split; [reflexivity|]. by split.
Qed.
Lemma forward_first b e out n (s : Co Gateway) : delivers b e -> forwarded out (coMem s) -> MsgID e ∉ ids out ->
  exists s', forwardResponse co b n s = Ret (Ok tt, s') /\
    (exists conn, registry (coMem s') !! c = Some conn /\ cnSent conn = (fun e => frame (MsgType_ e) (Payload e)) <$> (out ++ [e])) /\
    ((exists t, t ∈ endTypes /\ t ∉ MsgType_ <$> (out ++ [e])) -> forwarded (out ++ [e]) (coMem s')).
Proof.
  intros (Hd & Hc & Hz) [Hs (conn & Hr & Hsc & Hsent & Hends)] Hin.
  unfold forwardResponse. rewrite Hd, Hc. rewrite bool_decide_eq_false_2 by done. cbn [negb andb].
  unfold mbind at 1, D_bind at 1, getD. cbn [prog_bind]. unfold seenResult. rewrite Hs, bool_decide_eq_false_2 by done. rewrite Hr.
  unfold ForwardEnvelope. rewrite Hsc. cbn [tail].
  set (eofs := match EOFSent conn !! MsgType_ e with Some _ => <[MsgType_ e := true]> (EOFSent conn) | None => EOFSent conn end).
  set (cn1 := mkConn (cnSent conn ++ [_]) [] eofs _). set (conn' := mkConn (cnSent cn1) (cnScript cn1) eofs _).
  eexists. split; [reflexivity|].
  assert (cnSent conn' = (fun e => frame (MsgType_ e) (Payload e)) <$> (out ++ [e])) as Hsent' by (cbn; by rewrite Hsent, fmap_app).
  split. { exists conn'. split; [|done]. cbn. destruct (allEOFSent conn'); cbn; by rewrite lookup_insert_eq. }
  intros (t & Ht & Hnot).
  assert (forall u, u ∈ endTypes -> eofs !! u = Some (bool_decide (u ∈ MsgType_ <$> (out ++ [e])))) as Hends'.
  { intros u Hu. specialize (Hends u Hu). rewrite fmap_app. cbn. unfold eofs. destruct (decide (u = MsgType_ e)) as [->|Hne].
    - rewrite Hends, lookup_insert_eq, bool_decide_eq_true_2 by set_solver. done.
    - assert (bool_decide (u ∈ (MsgType_ <$> out) ++ [MsgType_ e]) = bool_decide (u ∈ MsgType_ <$> out)) as ->
        by (apply bool_decide_ext; set_solver).
      destruct (EOFSent conn !! MsgType_ e); [by rewrite lookup_insert_ne|done]. }
  assert (allEOFSent conn' = false) as Hall.
  { apply (not_all_ends _ t). cbn. rewrite (Hends' t Ht). by rewrite bool_decide_eq_false_2. }
  split; cbn; rewrite Hall; cbn.
  - rewrite lookup_insert_eq. cbn. rewrite Hs. unfold ids. rewrite fmap_app, list_to_set_app_L. cbn. set_solver.
  - exists conn'. rewrite lookup_insert_eq. split_and!; done.
Qed.

Lemma forward_all bodies es : Forall2 delivers bodies es -> forall out n (s : Co Gateway), forwarded out (coMem s) ->
  (exists t, t ∈ endTypes /\ t ∉ MsgType_ <$> (out ++ firsts (ids out) es)) ->
  exists s', (forall rest, forwardAll n (bodies ++ rest) s = forwardAll (n + length bodies) rest s') /\
    forwarded (out ++ firsts (ids out) es) (coMem s').
Proof.
  induction 1 as [|b e bodies es Hb _ IH]; intros out n s Hout Ht; cbn [app firsts length] in *.
  { exists s. rewrite app_nil_r, Nat.add_0_r. done. }
  cbn [forwardAll]. unfold mbind, D_bind. rewrite Nat.add_succ_r. case_decide as Hin.
  - destruct (forward_repeat b e out n s Hb Hout Hin) as (s1 & -> & H1). cbn [prog_bind]. by apply IH.
  - assert (ids (out ++ [e]) = {[MsgID e]} ∪ ids out) as Hids by (unfold ids; rewrite fmap_app, list_to_set_app_L; cbn; set_solver).
    destruct (forward_first b e out n s Hb Hout Hin) as (s1 & -> & _ & H1). cbn [prog_bind].
    replace (out ++ e :: firsts ({[MsgID e]} ∪ ids out) es) with ((out ++ [e]) ++ firsts (ids (out ++ [e])) es) in *
      by (by rewrite Hids, <- app_assoc).
    apply IH; [|done]. apply H1. destruct Ht as (t & Ht & Hn). exists t. split; [done|]. rewrite fmap_app in Hn. set_solver.
Qed.

(** The first deliveries are those of distinct ids, and miss none. *)
Lemma firsts_new seen es e : e ∈ firsts seen es -> e ∈ es /\ MsgID e ∉ seen.
Proof.
  revert seen. induction es as [|x es IH]; intros seen; cbn [firsts]; [by intros H%elem_of_nil|].
  case_decide; [intros H1%IH; set_solver|]. intros [->|H1%IH]%elem_of_cons; set_solver.
Qed.
Lemma firsts_nodup seen es : NoDup (MsgID <$> firsts seen es).
Proof.
  revert seen. induction es as [|x es IH]; intros seen; cbn [firsts]; [constructor|]. case_decide; [done|].
  cbn [fmap list_fmap]. apply NoDup_cons. split; [|done]. intros H1. apply list_elem_of_fmap in H1 as (e & He & Hin).
  apply firsts_new in Hin as [_ Hin]. rewrite He in Hin. set_solver.
Qed.
Lemma firsts_all seen es e : e ∈ es -> MsgID e ∉ seen -> exists e', e' ∈ firsts seen es /\ MsgID e' = MsgID e.
Proof.
  revert seen. induction es as [|x es IH]; intros seen; cbn [firsts]; [by intros H%elem_of_nil|].
  intros [->|He]%elem_of_cons Hn.
  - rewrite decide_False by done. exists x. set_solver.
  - case_decide; [by apply IH|]. destruct (decide (MsgID e = MsgID x)) as [Heq|Hne]; [exists x; set_solver|].
    destruct (IH ({[MsgID x]} ∪ seen) He) as (e' & ? & ?); [set_solver|]. exists e'. set_solver.
Qed.
End Results.

Section Files.
Context {UL : UuidLib} {GR : GoRange} {SC : Strconv} (co : CoConfig Gateway) (c : id16).

Lemma isEnd_type (e : InternalEnvelope) : MsgType_ e ∈ endTypes -> isEnd (frameOf e).
Proof.
  unfold isEnd, frameOf, endTypes. cbn [fst]. intros H. repeat (apply elem_of_cons in H as [->|H]; [vm_compute; by eexists|]).
  by apply elem_of_nil in H.
Qed.
Lemma end_missing fs : endsIn (frameOf <$> fs) = 4 -> exists t, t ∈ endTypes /\ t ∉ MsgType_ <$> fs.
Proof.
  intros H4. destruct (decide (Forall (fun t => t ∈ MsgType_ <$> fs) endTypes)) as [Hall|Hnot].
  2:{ apply not_Forall_Exists, Exists_exists in Hnot as (t & Ht & Hn); [by exists t|apply _]. }
  exfalso. assert (endTypes ⊆+ fst <$> filter isEnd (frameOf <$> fs)) as Hsub.
  { apply NoDup_submseteq; [apply (bool_decide_unpack (NoDup endTypes)); by vm_compute|]. intros t Ht.
    eapply Forall_forall in Hall; [|exact Ht]. apply list_elem_of_fmap in Hall as (e & -> & He).
    apply list_elem_of_fmap. exists (frameOf e). split; [done|]. apply list_elem_of_filter. split; [by apply isEnd_type|].
    apply list_elem_of_fmap. by exists e. }
  apply submseteq_length in Hsub. rewrite length_fmap in Hsub. unfold endsIn, Zlen in H4. cbn in Hsub. lia.
Qed.
Lemma frames_concat (out : list InternalEnvelope) : concat ((fun e => frame (MsgType_ e) (Payload e)) <$> out) = frames (frameOf <$> out).
Proof. unfold frames. rewrite <- list_fmap_compose. done. Qed.

(** Everything the queue delivers for a client that was just accepted, up to the
    last end of a query, in any order and with any repetitions. *)
Lemma results_to_file bodies es b last (s : Co Gateway) : Forall2 (delivers c) bodies es -> delivers c b last ->
  forwarded c [] (coMem s) -> let fs := firsts ∅ es in MsgID last ∉ ids fs -> Forall decodes (frameOf <$> (fs ++ [last])) ->
  endsIn (frameOf <$> fs) = 4 -> isEnd (frameOf last) ->
  exists s' conn, forwardAll co 0 (bodies ++ [b]) s = Ret (Ok tt, s') /\ registry (coMem s') !! c = Some conn /\
    forall k extra, concat (segments k) = concat (cnSent conn) ++ extra ->
      exists r, Listen always k = Ok r /\
        forall t d, (t, d) ∈ GetQueryResultData -> lookupW t r = Some (mkQueryWriter (fileRows t (frameOf <$> (fs ++ [last]))) true).
Proof.
  intros Hb Hlast Hs fs Hnew Hdec H4 Hend.
  destruct (forward_all co c bodies es Hb [] 0 s Hs) as (s1 & H1 & Hf1); [by apply end_missing|]. cbn [app] in Hf1.
  change (ids []) with (∅ : gset id16) in Hf1. fold fs in Hf1.
  destruct (forward_first co c b last fs (0 + length bodies) s1 Hlast Hf1 Hnew) as (s2 & H2 & (conn & Hr & Hsent) & _).
  exists s2, conn. split; [|split; [done|]].
  - rewrite H1. cbn [forwardAll]. unfold mbind, D_bind. by rewrite H2.
  - intros k extra Hk. rewrite Hsent, frames_concat, fmap_app in Hk. rewrite fmap_app in Hdec |- *.
    by apply (Listen_files _ _ extra).
Qed.

(** The rows of one query, when its end comes after its results. *)
Definition rowsOf (f : byte * bytes) : list (list string) := match resultRows f.1 f.2 with Some (Ok rs) => rs | _ => [] end.
Lemma fileRows_none t fs : Forall (fun f => f.1 <> t) fs -> fileRows t fs = [].
Proof. induction 1 as [|f fs Hf _ IH]; [done|]. cbn [fileRows]. rewrite decide_False by done. by case_decide. Qed.
Lemma fileRows_before t before after : Forall (fun f => f.1 = t -> exists rs, resultRows f.1 f.2 = Some (Ok rs)) before ->
  Forall (fun f => endedBy f.1 <> Some t) before -> Forall (fun f => f.1 <> t) after ->
  fileRows t (before ++ after) = concat (rowsOf <$> filter (fun f => f.1 = t) before).
Proof.
  intros Hb He Ha. induction before as [|f fs IH]; [by apply fileRows_none|]. apply Forall_cons in Hb as [Hf Hb], He as [Hn He].
  cbn [app fileRows]. rewrite filter_cons. destruct (decide (f.1 = t)) as [Ht|Ht].
  - destruct (Hf Ht) as [rs Hrs]. cbn [fmap list_fmap concat]. unfold rowsOf at 1. rewrite Hrs. by rewrite IH.
  - rewrite decide_False by done. by apply IH.
Qed.
End Files.
