(* ===== verification/Pipeline.v ===== *)
(** * Query 1 from the client's file to the client's file

    Composes [Session] (a client's files at the gateway), the cleaner and the
    filter of query 1 as stages behind queues ([Delivery]), the gateway's
    [forwardResponse] and the client's receiver.  The queues and exchanges are
    those of [src/configs/query1] and [src/configs/gateway.yaml]: the gateway
    publishes to [e_entry], the cleaners' queue is bound to it with [tx.usd], the
    filters read what the cleaners send, and the gateway what the filters send. *)

From S2P Require Import Prelude Maps Slices Models MsgIDs Wire Codec CodecQ4 Disk Coordinator Publisher Delivery Consumer EofSync Sharding WorkerMem Filter Gateway Network Client Session Results.

Section Pipeline.
Context {UL : UuidLib} {GR : GoRange}.

(** ** Messages *)
Definition envelope (msgType : byte) (c id : id16) (payload : bytes) : InternalEnvelope := mkInternalEnvelope msgType c id payload.
(** The answer of a stage to a message. *)
Definition answer_msg (e : InternalEnvelope) (msgType : byte) (payload : bytes) : Message :=
  mkMessage KeyNil (EncodeInternalEnvelope (envelope msgType (ClientId e) (DeriveMsgID (MsgID e) KeyNil 0) payload)).
Definition batch_ok (txs : list Transaction) : Prop := Forall tx_ok txs /\ (length txs <= maxBatch)%nat.
Definition txsOf (e : InternalEnvelope) : list Transaction := match DecodeTransactionBatch (Payload e) with Ok txs => txs | _ => [] end.
Definition readable (e : InternalEnvelope) : Prop := exists txs, DecodeTransactionBatch (Payload e) = Ok txs /\ batch_ok txs.
Lemma readable_txsOf e : readable e -> DecodeTransactionBatch (Payload e) = Ok (txsOf e) /\ batch_ok (txsOf e).
Proof. intros (txs & Hd & Hok). unfold txsOf. by rewrite Hd. Qed.

Lemma maxBatch_Z n : (n <= maxBatch)%nat -> Z.of_nat n <= 2 ^ 20.
Proof. unfold maxBatch. lia. Qed.
Lemma tx_batch_fits txs : batch_ok txs ->
  exists bs, EncodeTransactionBatch txs = Ok bs /\ DecodeTransactionBatch bs = Ok txs /\ Zlen bs < 2 ^ 32 - 37.
Proof.
  intros [Hwf Hn]. apply maxBatch_Z in Hn.
  destruct (encodeBatch_codec "tx" encodeTransaction decodeTransaction tx_ok 2065 ltac:(done) txs Hwf) as (bs & H1 & H2 & H3);
    [unfold in_uint, Zlen; lia|]. exists bs. split; [done|]. split; [done|]. unfold Zlen in *. lia.
Qed.
Lemma q1_batch_fits (rs : list Query1Result) : Forall q1_ok rs -> (length rs <= maxBatch)%nat ->
  exists bs, EncodeQuery1ResultBatch rs = Ok bs /\ DecodeQuery1ResultBatch bs = Ok rs /\ Zlen bs < 2 ^ 32 - 37.
Proof.
  intros Hwf Hn. apply maxBatch_Z in Hn.
  destruct (encodeBatch_codec "result" encodeQuery1Result decodeQuery1Result q1_ok 1032 ltac:(done) rs Hwf) as (bs & H1 & H2 & H3);
    [unfold in_uint, Zlen; lia|]. exists bs. split; [done|]. split; [done|]. unfold Zlen in *. lia.
Qed.

(** One publication and its count: sent, or refused by the broker. *)
Definition publishing (e : InternalEnvelope) (msgType : byte) (payload : bytes) (n : Z) : M WorkerMem unit :=
  let id := DeriveMsgID (MsgID e) KeyNil 0 in
  _ ← PublishInternalWithID (ClientId e) msgType KeyNil payload id; runCtl (MessageSentWithKey (ClientId e) KeyNil id n).
Lemma publish_any e msgType payload n (w : WorkerMem) r w' : publishing e msgType payload n w = (r, w') ->
  dedup (pub w') = dedup (pub w) /\
  exists l, l `prefix_of` [answer_msg e msgType payload] /\ sent (pub w') = sent (pub w) ++ l /\
    (is_ok r = true -> l = [answer_msg e msgType payload]).
Proof.
  unfold publishing, PublishInternalWithID, answer_msg, envelope. set (m := mkMessage KeyNil _). unfold mbind, M_bind, runCtl.
  change (EncodeInternalEnvelope _) with (Body m). unfold send. cbn [pub WorkerMem_pub setPub].
  destruct (script (wmPub w)) as [|[x|] rest]; cbn [tail wmEof].
  - destruct (MessageSentWithKey _ _ _ _ _). intros [= <- <-]. split; [done|]. exists [m]. done.
  - intros [= <- <-]. split; [done|]. exists []. split; [apply prefix_nil|]. split; [symmetry; apply app_nil_r|done].
  - destruct (MessageSentWithKey _ _ _ _ _). intros [= <- <-]. split; [done|]. exists [m]. done.
Qed.

(** ** The cleaner as a stage *)
Lemma cleanField_ok t f : tx_ok t -> tx_ok (cleanField t f).
Proof.
  intros (Hs & Hr & Hp). unfold tx_strings in Hs. rewrite !Forall_cons in Hs. unfold cleanField, withFields, tx_ok, tx_strings.
  assert (str_ok EmptyString) by (by vm_compute).
  repeat case_decide; cbn; rewrite !Forall_cons, Forall_nil; tauto.
Qed.
Lemma clean_ok fields txs : batch_ok txs -> batch_ok (cleanTransaction fields <$> txs).
Proof.
  intros [Hwf Hn]. split; [|by rewrite length_fmap]. apply Forall_fmap. eapply Forall_impl; [exact Hwf|]. intros t. cbn.
  unfold cleanTransaction. revert t. induction fields as [|f fields IH]; intros t Ht; [done|]. cbn [fold_left]. by apply IH, cleanField_ok.
Qed.
Definition cleanPayload (fields : list string) (e : InternalEnvelope) : bytes :=
  match EncodeTransactionBatch (cleanTransaction fields <$> txsOf e) with Ok bs => bs | _ => [] end.
Definition cleanerAnswers (fields : list string) (e : InternalEnvelope) : list Message :=
  [answer_msg e MsgTransactionsBatch (cleanPayload fields e)].
Lemma cleaner_runs fields e w r w' : cleaner_handleTransactionMessage fields e w = (r, w') ->
  (w' = w /\ is_ok r = false) \/ (exists n, w' = received e n w /\ is_ok r = false) \/
  exists txs bs, DecodeTransactionBatch (Payload e) = Ok txs /\ EncodeTransactionBatch (cleanTransaction fields <$> txs) = Ok bs /\
    publishing e MsgTransactionsBatch bs (Zlen txs) (received e (Zlen txs) w) = (r, w').
Proof.
  unfold cleaner_handleTransactionMessage. unfold mbind at 1, M_bind at 1, liftR at 1.
  destruct (DecodeTransactionBatch (Payload e)) as [txs|?|?]; [|intros [= <- <-]; by left..].
  unfold mbind at 1, M_bind at 1. rewrite received_run. unfold mbind at 1, M_bind at 1, liftR at 1.
  destruct (EncodeTransactionBatch _) as [bs|?|?] eqn:E; [|intros [= <- <-]; right; left; by eexists..].
  intros H. right. right. exists txs, bs. done.
Qed.
Definition cleanerStage (fields : list string) : Stage WorkerMem.
Proof.
  refine {| stType := MsgTransactionsBatch; stHandler := cleaner_handleTransactionMessage fields; stGood := readable; answers := cleanerAnswers fields |}.
  - intros e w. destruct (cleaner_handleTransactionMessage fields e w) as [r w'] eqn:E.
    apply cleaner_runs in E as [[-> _]|[(n & -> & _)|(txs & bs & _ & _ & E)]]; [done..|]. apply publish_any in E as [H _]. exact H.
  - intros e w r w' Hg E. destruct (readable_txsOf e Hg) as [Hd Hok]. destruct (tx_batch_fits _ (clean_ok fields _ Hok)) as (bs & He & _).
    apply cleaner_runs in E as [[-> ->]|[(n & -> & ->)|(txs & bs' & Hd' & He' & E)]].
    1,2: exists []; split; [apply prefix_nil|]; split; [symmetry; apply app_nil_r|done].
    rewrite Hd in Hd'. injection Hd' as <-. rewrite He in He'. injection He' as <-.
    apply publish_any in E as (_ & l & H). unfold cleanerAnswers, cleanPayload. rewrite He. by exists l.
Defined.

(** ** The filter of query 1 as a stage *)
Context (cfg : FilterCfg) (Hquery : fcQuery cfg = Query1).
Definition resultsOf (txs : list Transaction) : list Query1Result := toQuery1Result <$> filter (fun tx => passes cfg tx = true) txs.
Lemma results_ok txs : batch_ok txs -> Forall q1_ok (resultsOf txs) /\ (length (resultsOf txs) <= maxBatch)%nat.
Proof.
  intros [Hwf Hn]. unfold resultsOf. split.
  - apply Forall_fmap, (Forall_filter_l _ (fun tx => passes cfg tx = true)). eapply Forall_impl; [exact Hwf|].
    intros tx (Hs & Hr & Hp). unfold tx_strings in Hs. rewrite !Forall_cons in Hs. unfold q1_ok. cbn. tauto.
  - rewrite length_fmap. etrans; [apply length_filter|done].
Qed.
Definition q1Payload (e : InternalEnvelope) : bytes := match EncodeQuery1ResultBatch (resultsOf (txsOf e)) with Ok bs => bs | _ => [] end.
Definition filterAnswers (e : InternalEnvelope) : list Message :=
  match resultsOf (txsOf e) with [] => [] | _ => [answer_msg e MsgQuery1Result (q1Payload e)] end.
Lemma filter_runs e w r w' : sf_handleTransactionsBatchMessage cfg e w = (r, w') ->
  (w' = w /\ is_ok r = false) \/
  exists txs, DecodeTransactionBatch (Payload e) = Ok txs /\
    ((resultsOf txs = [] /\ w' = received e (Zlen txs) w) \/
     (w' = received e (Zlen txs) w /\ forall bs, EncodeQuery1ResultBatch (resultsOf txs) <> Ok bs) \/
     exists bs r0, resultsOf txs <> [] /\ EncodeQuery1ResultBatch (resultsOf txs) = Ok bs /\ is_ok r = is_ok r0 /\
       publishing e MsgQuery1Result bs (Zlen (resultsOf txs)) (received e (Zlen txs) w) = (r0, w')).
Proof.
  unfold sf_handleTransactionsBatchMessage. unfold mbind at 1, M_bind at 1, liftR at 1.
  destruct (DecodeTransactionBatch (Payload e)) as [txs|?|?]; [|intros [= <- <-]; by left..]. cbn [wrapf].
  rewrite (proj2 (Z.eqb_eq _ _) Hquery). unfold wrapM, forwardQuery1ResultBatchMessage. unfold mbind at 1, M_bind at 1. rewrite received_run.
  fold (resultsOf txs). intros H. right. exists txs. split; [done|].
  destruct (resultsOf txs) as [|q qs]; [injection H as <- <-; by left|]. right.
  unfold mbind at 1, M_bind at 1, liftR at 1 in H. destruct (EncodeQuery1ResultBatch (q :: qs)) as [bs|?|?]; [|injection H as <- <-; by left..].
  right. cbn [wrapf] in H. destruct (sf_encodeAndSendBatch _ _ _ _ _ _) as [r1 w1] eqn:E in H. injection H as <- <-.
  exists bs, r1. split_and!; [done|done|by destruct r1|exact E].
Qed.
Definition filterStage : Stage WorkerMem.
Proof.
  refine {| stType := MsgTransactionsBatch; stHandler := sf_handleTransactionsBatchMessage cfg; stGood := readable; answers := filterAnswers |}.
  - intros e w. destruct (sf_handleTransactionsBatchMessage cfg e w) as [r w'] eqn:E.
    apply filter_runs in E as [[-> _]|(txs & _ & [[_ ->]|[[-> _]|(bs & r0 & _ & _ & _ & E)]])]; [done..|]. apply publish_any in E as [H _]. exact H.
  - intros e w r w' Hg E. destruct (readable_txsOf e Hg) as [Hd Hok].
    destruct (q1_batch_fits (resultsOf (txsOf e))) as (bs & He & _); [by apply results_ok..|]. unfold filterAnswers, q1Payload. rewrite He.
    assert (forall l, exists k, k `prefix_of` l /\ sent (pub w) = sent (pub w) ++ k /\ (false = true -> k = l)) as Hnone.
    { intros l. exists []. split; [apply prefix_nil|]. split; [symmetry; apply app_nil_r|done]. }
    apply filter_runs in E as [[-> ->]|(txs & Hd' & E)]; [apply Hnone|]. rewrite Hd in Hd'. injection Hd' as <-.
    destruct E as [[-> ->]|[[_ E]|(bs' & r0 & Hne & He' & Hr & E)]]; [|by destruct (E bs)|].
    { exists []. split; [done|]. split; [symmetry; apply app_nil_r|done]. }
    rewrite He in He'. injection He' as <-. apply publish_any in E as (_ & l & Hl & Hs & Hok'). exists l.
    destruct (resultsOf (txsOf e)); [done|]. split_and!; [done|done|]. intros H. apply Hok'. by rewrite <- Hr.
Defined.

(** ** The messages of the gateway's dollar exchange *)
Definition dollarMsg (e : InternalEnvelope) : Message := mkMessage KeyDollarTransaction (EncodeInternalEnvelope e).
Definition batchEnv (c : id16) (e : InternalEnvelope) : Prop :=
  MsgType_ e = MsgTransactionsBatch /\ ClientId e = c /\ readable e /\ Zlen (Payload e) < 2 ^ 32 - 37.
Definition usdMessages (ms : list Message) : list Message := filter (fun m => RoutingKey m = KeyDollarTransaction) ms.
Lemma usd_ok txs : batch_ok txs -> batch_ok (usd txs).
Proof. intros [Hwf Hn]. split; [by apply filter_ok|]. etrans; [apply length_filter|done]. Qed.
Lemma group_env c key txs seq ms seq' : group_sent c key txs seq ms seq' -> batch_ok txs ->
  exists es, ms = (fun e => mkMessage key (EncodeInternalEnvelope e)) <$> es /\ Forall (batchEnv c) es /\ concat (txsOf <$> es) = txs.
Proof.
  intros [->|bs Hne He] Hok; [exists []; by repeat split; try constructor|].
  destruct (tx_batch_fits txs Hok) as (bs' & He' & Hd & Hz). rewrite He in He'. injection He' as <-.
  set (e := mkInternalEnvelope MsgTransactionsBatch c (SourceMsgID c StreamTransactions seq) bs). exists [e]. split; [done|].
  split; [|cbn; unfold txsOf; cbn [e Payload]; rewrite Hd; by rewrite app_nil_r].
  repeat constructor; [|done]. exists txs. done.
Qed.
Lemma gateway_batches c batches seq ms seq' : batches_sent c batches seq ms seq' -> Forall batch_ok batches ->
  exists es, usdMessages ms = dollarMsg <$> es /\ Forall (batchEnv c) es /\ concat (txsOf <$> es) = usd (concat batches).
Proof.
  induction 1 as [|txs rest seq m1 seq1 m2 seq2 ms seq3 H1 H2 _ IH]; intros Hok.
  { exists []. done. }
  apply Forall_cons in Hok as [Htxs Hok]. destruct (IH Hok) as (es & Hms & Hes & Hc).
  destruct (group_env _ _ _ _ _ _ H1 (usd_ok txs Htxs)) as (es1 & -> & Hes1 & Hc1).
  assert (usdMessages m2 = []) as Hm2 by (by destruct H2).
  exists (es1 ++ es). unfold usdMessages in *. rewrite !filter_app, Hm2, Hms. split; [|split; [by apply Forall_app|]].
  - rewrite fmap_app. f_equal. clear. induction es1 as [|e es1 IH]; [done|]. cbn [fmap list_fmap]. rewrite filter_cons_True by done. by rewrite IH.
  - rewrite fmap_app, concat_app, Hc1, Hc. cbn [concat]. unfold usd. by rewrite filter_app.
Qed.

(** ** Through the two stages *)
Context (fields : list string) (c : id16).
#[local] Instance ClS : Stage WorkerMem := cleanerStage fields.
#[local] Instance FlS : Stage WorkerMem := filterStage.
Definition cleaned (e : InternalEnvelope) : InternalEnvelope :=
  envelope MsgTransactionsBatch (ClientId e) (DeriveMsgID (MsgID e) KeyNil 0) (cleanPayload fields e).
Definition resulted (e : InternalEnvelope) : InternalEnvelope :=
  envelope MsgQuery1Result (ClientId e) (DeriveMsgID (MsgID e) KeyNil 0) (q1Payload e).
Definition plainMsg (e : InternalEnvelope) : Message := mkMessage KeyNil (EncodeInternalEnvelope e).
(** The id of the results of a message, two stages on. *)
Definition resultID (m : Message) : id16 :=
  match DecodeInternalEnvelope (Body m) with Ok e => DeriveMsgID (DeriveMsgID (MsgID e) KeyNil 0) KeyNil 0 | _ => zero16 end.

Lemma cleaned_env e : batchEnv c e -> batchEnv c (cleaned e) /\ txsOf (cleaned e) = cleanTransaction fields <$> txsOf e.
Proof.
  intros (Ht & Hc & Hr & Hz). destruct (readable_txsOf e Hr) as [_ Hok]. apply (clean_ok fields) in Hok as Hok'.
  destruct (tx_batch_fits _ Hok') as (bs & He & Hd & Hz'). unfold cleaned, cleanPayload. rewrite He. unfold txsOf at 1. cbn [Payload envelope].
  rewrite Hd. split; [|done]. split_and!; [done|done| |done]. exists (cleanTransaction fields <$> txsOf e). done.
Qed.
Lemma resulted_env e : batchEnv c e ->
  DecodeQuery1ResultBatch (Payload (resulted e)) = Ok (resultsOf (txsOf e)) /\ Zlen (Payload (resulted e)) < 2 ^ 32 - 37.
Proof.
  intros (Ht & Hc & Hr & Hz). destruct (readable_txsOf e Hr) as [_ Hok].
  destruct (q1_batch_fits (resultsOf (txsOf e))) as (bs & He & Hd & Hz'); [by apply results_ok..|]. unfold resulted, q1Payload. by rewrite He.
Qed.
Lemma decode_batch key e : batchEnv c e -> DecodeInternalEnvelope (Body (mkMessage key (EncodeInternalEnvelope e))) = Ok e.
Proof. intros (_ & _ & _ & Hz). by apply decode_internal. Qed.
Lemma takes_batch (ST : Stage WorkerMem) key e : stType (Stage := ST) = MsgTransactionsBatch -> stGood (Stage := ST) = readable -> batchEnv c e ->
  takes (ST := ST) (mkMessage key (EncodeInternalEnvelope e)) e.
Proof. intros Ht Hg He. split; [by apply decode_batch|]. destruct He as (? & _ & ? & _). rewrite Ht, Hg. done. Qed.

Context (es : list InternalEnvelope) (Hes : Forall (batchEnv c) es).
Context (Hids : NoDup ((fun e => DeriveMsgID (DeriveMsgID (MsgID e) KeyNil 0) KeyNil 0) <$> es)).
Lemma ids_inj e e' : e ∈ es -> e' ∈ es ->
  DeriveMsgID (DeriveMsgID (MsgID e) KeyNil 0) KeyNil 0 = DeriveMsgID (DeriveMsgID (MsgID e') KeyNil 0) KeyNil 0 -> e = e'.
Proof.
  clear Hes. intros H H' Heq. induction es as [|x l IH]; [by apply elem_of_nil in H|].
  cbn [fmap list_fmap] in Hids. apply NoDup_cons in Hids as [Hx Hl].
  apply elem_of_cons in H as [->|H], H' as [->|H']; [done| | |by apply IH].
  - destruct Hx. rewrite Heq. apply list_elem_of_fmap. by exists e'.
  - destruct Hx. rewrite <- Heq. apply list_elem_of_fmap. by exists e.
Qed.

(** What the cleaners send, however their queue is served. *)
Lemma cleaned_out outs1 : drained (ST := ClS) (dollarMsg <$> es) outs1 -> forall o, o ∈ outs1 <-> exists e, e ∈ es /\ o = plainMsg (cleaned e).
Proof.
  intros Hd. rewrite Forall_forall in Hes.
  assert (forall m e, m ∈ dollarMsg <$> es -> takes (ST := ClS) m e -> e ∈ es /\ m = dollarMsg e) as Htk.
  { intros m e Hm (He & _). apply list_elem_of_fmap in Hm as (e' & -> & Hin). unfold dollarMsg in He.
    rewrite decode_batch in He by auto. by injection He as <-. }
  intros o. rewrite (stage_exact (ST := ClS) (dollarMsg <$> es) outs1); [| | |exact Hd].
  - split.
    + intros (m & e & Hm & Ht & Ho). destruct (Htk m e Hm Ht) as [He ->]. exists e. split; [done|]. by apply list_elem_of_singleton in Ho.
    + intros (e & He & ->). exists (dollarMsg e), e. split; [by apply list_elem_of_fmap; exists e|].
      split; [apply takes_batch; [done|done|auto]|]. by apply list_elem_of_singleton.
  - intros m Hm. apply list_elem_of_fmap in Hm as (e & -> & He). exists e. apply takes_batch; [done|done|auto].
  - intros m m' e e' Hm Hm' Ht Ht' _ Hk. destruct (Htk _ _ Hm Ht) as [He _], (Htk _ _ Hm' Ht') as [He' _].
    injection Hk as _ Hk. apply ids_inj; [done|done|]. by rewrite Hk.
Qed.
(** What the filters send. *)
Lemma filtered_out outs1 outs2 : drained (ST := ClS) (dollarMsg <$> es) outs1 -> drained (ST := FlS) outs1 outs2 ->
  forall o, o ∈ outs2 <-> exists e, e ∈ es /\ resultsOf (txsOf (cleaned e)) <> [] /\ o = plainMsg (resulted (cleaned e)).
Proof.
  intros H1 Hd. pose proof (cleaned_out outs1 H1) as Ho1. rewrite Forall_forall in Hes.
  assert (forall e, e ∈ es -> batchEnv c (cleaned e)) as Hcl by (intros e He; by apply cleaned_env, Hes).
  assert (forall m e, m ∈ outs1 -> takes (ST := FlS) m e -> exists e0, e0 ∈ es /\ e = cleaned e0 /\ m = plainMsg e) as Htk.
  { intros m e Hm (He & _). apply Ho1 in Hm as (e0 & Hin & ->). unfold plainMsg in He. rewrite decode_batch in He by auto.
    injection He as <-. by exists e0. }
  intros o. rewrite (stage_exact (ST := FlS) outs1 outs2); [| | |exact Hd].
  - split.
    + intros (m & e & Hm & Ht & Ho). destruct (Htk m e Hm Ht) as (e0 & He & -> & ->). exists e0. split; [done|].
      cbn [answers FlS filterStage] in Ho. unfold filterAnswers in Ho. destruct (resultsOf (txsOf (cleaned e0))); [by apply elem_of_nil in Ho|].
      apply list_elem_of_singleton in Ho. done.
    + intros (e & He & Hne & ->). exists (plainMsg (cleaned e)), (cleaned e). split; [apply Ho1; by exists e|].
      split; [apply takes_batch; [done|done|auto]|]. cbn [answers FlS filterStage]. unfold filterAnswers.
      destruct (resultsOf (txsOf (cleaned e))); [done|]. by apply list_elem_of_singleton.
  - intros m Hm. apply Ho1 in Hm as (e & He & ->). exists (cleaned e). apply takes_batch; [done|done|auto].
  - intros m m' e e' Hm Hm' Ht Ht' _ Hk. destruct (Htk _ _ Hm Ht) as (e0 & He & -> & _), (Htk _ _ Hm' Ht') as (e0' & He' & -> & _).
    apply (f_equal snd) in Hk. cbn [key_of snd cleaned envelope MsgID] in Hk. f_equal. apply ids_inj; [done|done|]. by rewrite Hk.
Qed.

(** ** At the client *)
Context {SC : Strconv}.
Definition answered_batches : list InternalEnvelope := filter (fun e => resultsOf (txsOf (cleaned e)) <> []) es.
Lemma results_nodup delivered : NoDup (filter (fun e => MsgType_ e = MsgQuery1Result) (firsts ∅ delivered)).
Proof.
  apply (NoDup_fmap_1 MsgID). assert (NoDup (MsgID <$> firsts ∅ delivered)) as Hn by apply firsts_nodup.
  eapply sublist_NoDup; [exact Hn|]. apply fmap_sublist, sublist_filter.
Qed.
(** No result is delivered that the filters did not send: the client is sent
    each of them at most once. *)
Lemma results_sub outs1 outs2 delivered : drained (ST := ClS) (dollarMsg <$> es) outs1 -> drained (ST := FlS) outs1 outs2 ->
  (forall e, MsgType_ e = MsgQuery1Result -> e ∈ delivered -> exists m, m ∈ outs2 /\ DecodeInternalEnvelope (Body m) = Ok e) ->
  filter (fun e => MsgType_ e = MsgQuery1Result) (firsts ∅ delivered) ⊆+ (fun e => resulted (cleaned e)) <$> answered_batches.
Proof.
  intros H1 H2 Hdel. pose proof (filtered_out outs1 outs2 H1 H2) as Ho. rewrite Forall_forall in Hes.
  apply NoDup_submseteq; [apply results_nodup|]. intros e [Ht He]%list_elem_of_filter. apply firsts_new in He as [He _].
  apply (Hdel e Ht) in He as (m & Hm & Hd). apply Ho in Hm as (e0 & He0 & Hne & ->). unfold plainMsg in Hd. cbn [Body] in Hd.
  rewrite decode_internal in Hd by by apply resulted_env, cleaned_env, Hes. injection Hd as <-. apply list_elem_of_fmap. exists e0. split; [done|].
  by apply list_elem_of_filter.
Qed.
Lemma results_perm outs1 outs2 delivered : drained (ST := ClS) (dollarMsg <$> es) outs1 -> drained (ST := FlS) outs1 outs2 ->
  (forall e, MsgType_ e = MsgQuery1Result -> e ∈ delivered -> exists m, m ∈ outs2 /\ DecodeInternalEnvelope (Body m) = Ok e) ->
  (forall m e, m ∈ outs2 -> DecodeInternalEnvelope (Body m) = Ok e -> MsgType_ e = MsgQuery1Result -> e ∈ delivered) ->
  (forall e e', e ∈ delivered -> e' ∈ delivered -> MsgID e = MsgID e' -> e = e') ->
  filter (fun e => MsgType_ e = MsgQuery1Result) (firsts ∅ delivered) ≡ₚ (fun e => resulted (cleaned e)) <$> answered_batches.
Proof.
  intros H1 H2 Hdel Hall Hinj. pose proof (results_sub outs1 outs2 delivered H1 H2 Hdel) as Hsub.
  pose proof (filtered_out outs1 outs2 H1 H2) as Ho. rewrite Forall_forall in Hes.
  apply NoDup_Permutation; [apply results_nodup| |].
  - apply (NoDup_fmap_1 MsgID). rewrite <- list_fmap_compose. eapply sublist_NoDup; [exact Hids|].
    apply fmap_sublist, sublist_filter.
  - intros e. split; [intros He; by eapply elem_of_submseteq|]. rewrite list_elem_of_filter, list_elem_of_fmap.
    intros (e0 & -> & He0). apply list_elem_of_filter in He0 as [Hne He0]. split; [done|].
    assert (resulted (cleaned e0) ∈ delivered) as Hin.
    { eapply (Hall (plainMsg (resulted (cleaned e0)))); [apply Ho; by exists e0| |done].
      apply decode_internal. by apply resulted_env, cleaned_env, Hes. }
    destruct (firsts_all ∅ delivered _ Hin) as (e' & He' & Hid); [set_solver|].
    rewrite (Hinj e' (resulted (cleaned e0))) in He'; [done| |done|done]. by apply firsts_new in He' as [? _].
Qed.
Definition q1Rows (txs : list Transaction) : list (list string) := query1RowsToString (resultsOf (cleanTransaction fields <$> txs)).
Lemma q1Rows_concat ls : concat (q1Rows <$> ls) = q1Rows (concat ls).
Proof.
  induction ls as [|l ls IH]; [done|]. cbn [fmap list_fmap concat]. rewrite IH. unfold q1Rows, query1RowsToString, resultsOf.
  by rewrite fmap_app, filter_app, !fmap_app.
Qed.
Lemma answered_rows : concat (rowsOf <$> (frameOf <$> ((fun e => resulted (cleaned e)) <$> answered_batches))) = q1Rows (concat (txsOf <$> es)).
Proof.
  rewrite <- q1Rows_concat. unfold answered_batches. clear Hids. induction Hes as [|e l He Hl IH]; [done|].
  cbn [fmap list_fmap concat]. rewrite <- IH by done. destruct (cleaned_env e He) as [Hce Htx]. destruct (resulted_env _ Hce) as [Hd _].
  unfold q1Rows at 1. rewrite <- Htx. destruct (decide (resultsOf (txsOf (cleaned e)) = [])) as [Hz|Hne].
  - rewrite filter_cons_False by (by intros H). by rewrite Hz.
  - rewrite filter_cons_True by done. cbn [fmap list_fmap concat]. f_equal. unfold rowsOf, frameOf. cbn [fst snd]. unfold resultRows. rewrite decide_True by done.
    cbn [MsgType_ resulted envelope] in *. cbn [Payload] in *. rewrite Hd. done.
Qed.
End Pipeline.

(** ** The whole query *)
Section Query1.
Context {UL : UuidLib} {GR : GoRange} {SC : Strconv} (co : CoConfig Gateway) (c : id16).

(** What the queue of results delivers to the gateway for one client, [last]
    being the fifth end of a query: of query 1 nothing but what its filters
    sent, in any order and with any repetitions. *)
Record results_queue (outs ds : list Message) (es : list InternalEnvelope) (dlast : Message) (last : InternalEnvelope) : Prop := mkResultsQueue {
  rq_messages : Forall2 (fun m e => delivers c (Body m) e) ds es;
  rq_last : delivers c (Body dlast) last;
  rq_new : MsgID last ∉ ids (firsts ∅ es);
  rq_query1 : forall e, MsgType_ e = MsgQuery1Result -> e ∈ es -> exists m, m ∈ outs /\ DecodeInternalEnvelope (Body m) = Ok e;
  rq_ids : forall e e', e ∈ es -> e' ∈ es -> MsgID e = MsgID e' -> e = e';
  rq_decodes : Forall decodes (frameOf <$> (firsts ∅ es ++ [last]));
  rq_ends : endsIn (frameOf <$> firsts ∅ es) = 4;
  rq_end : isEnd (frameOf last)
}.
(** All that the filters sent was delivered, and none of it for the first time
    after the end of query 1. *)
Record results_first (outs : list Message) (es : list InternalEnvelope) (last : InternalEnvelope) : Prop := mkResultsFirst {
  rf_all : forall m e, m ∈ outs -> DecodeInternalEnvelope (Body m) = Ok e -> MsgType_ e = MsgQuery1Result -> e ∈ es;
  rf_order : exists before after, firsts ∅ es ++ [last] = before ++ after /\
    Forall (fun e => endedBy (MsgType_ e) <> Some MsgQuery1Result) before /\ Forall (fun e => MsgType_ e <> MsgQuery1Result) after
}.

Lemma frames_filter t (l : list InternalEnvelope) :
  filter (fun f : byte * bytes => f.1 = t) (frameOf <$> l) = frameOf <$> filter (fun e => MsgType_ e = t) l.
Proof.
  induction l as [|e l IH]; [done|]. cbn [fmap list_fmap].
  destruct (decide (MsgType_ e = t)) as [H|H]; [rewrite !filter_cons_True by exact H|rewrite !filter_cons_False by exact H; exact IH].
  cbn [fmap list_fmap]. by rewrite IH.
Qed.
Lemma concat_perm {A} (ls ks : list (list A)) : ls ≡ₚ ks -> concat ls ≡ₚ concat ks.
Proof.
  induction 1 as [|l ls ks _ IH|l k ls|ls ks ms _ IH1 _ IH2]; cbn [concat].
  - done.
  - by apply Permutation_app_head.
  - rewrite !app_assoc. apply Permutation_app_tail, Permutation_app_comm.
  - by etrans.
Qed.
Lemma concat_submseteq {A} (ls ks : list (list A)) : ls ⊆+ ks -> concat ls ⊆+ concat ks.
Proof.
  intros [k Hk]%submseteq_Permutation. apply concat_perm in Hk. rewrite concat_app in Hk. rewrite Hk. by apply submseteq_inserts_r.
Qed.
(** Whatever the order, a file has only rows of results. *)
Lemma fileRows_sub t fs : fileRows t fs `sublist_of` concat (rowsOf <$> filter (fun f => f.1 = t) fs).
Proof.
  induction fs as [|f fs IH]; [done|]. cbn [fileRows]. rewrite filter_cons. destruct (decide (f.1 = t)) as [Ht|Ht].
  - cbn [fmap list_fmap concat]. unfold rowsOf at 1. destruct (resultRows f.1 f.2) as [[rs|?|?]|]; [by apply sublist_app|apply sublist_nil_l..|done].
  - case_decide; [apply sublist_nil_l|done].
Qed.
Lemma last_not_result last : isEnd (frameOf last) -> MsgType_ last <> MsgQuery1Result.
Proof. intros [u Hu] Ht. unfold frameOf in Hu. cbn [fst] in Hu. rewrite Ht in Hu. vm_compute in Hu. discriminate. Qed.
Lemma query1_rows_sub fs last : isEnd (frameOf last) ->
  fileRows MsgQuery1Result (frameOf <$> (firsts ∅ fs ++ [last])) ⊆+
    concat (rowsOf <$> (frameOf <$> filter (fun e => MsgType_ e = MsgQuery1Result) (firsts ∅ fs))).
Proof.
  intros Hl%last_not_result. etrans; [apply sublist_submseteq, fileRows_sub|].
  rewrite frames_filter, filter_app, (filter_cons_False _ last), filter_nil, app_nil_r by done. done.
Qed.
Lemma query1_rows fs last before after : firsts ∅ fs ++ [last] = before ++ after -> isEnd (frameOf last) ->
  Forall (fun e => endedBy (MsgType_ e) <> Some MsgQuery1Result) before -> Forall (fun e => MsgType_ e <> MsgQuery1Result) after ->
  Forall (fun e => MsgType_ e = MsgQuery1Result -> exists rs, resultRows (MsgType_ e) (Payload e) = Some (Ok rs)) (firsts ∅ fs) ->
  fileRows MsgQuery1Result (frameOf <$> (firsts ∅ fs ++ [last])) =
    concat (rowsOf <$> (frameOf <$> filter (fun e => MsgType_ e = MsgQuery1Result) (firsts ∅ fs))).
Proof.
  intros Heq Hlast%last_not_result Hb Ha Hok.
  assert (filter (fun e => MsgType_ e = MsgQuery1Result) (firsts ∅ fs) = filter (fun e => MsgType_ e = MsgQuery1Result) before) as ->.
  { transitivity (filter (fun e => MsgType_ e = MsgQuery1Result) (firsts ∅ fs ++ [last])).
    - rewrite filter_app, (filter_cons_False _ last) by done. by rewrite filter_nil, app_nil_r.
    - rewrite Heq, filter_app. rewrite <- (app_nil_r (filter _ before)) at 2. f_equal. clear - Ha.
      induction Ha as [|e l He _ IH]; [done|]. by rewrite filter_cons_False. }
  rewrite Heq, fmap_app. rewrite fileRows_before.
  - by rewrite frames_filter.
  - apply Forall_fmap. rewrite Forall_forall. intros e He Ht. unfold compose, frameOf in *. cbn [fst snd] in *.
    assert (e ∈ firsts ∅ fs ++ [last]) as Hin by (rewrite Heq; set_solver). apply elem_of_app in Hin as [Hin|Hin].
    + rewrite Forall_forall in Hok. by apply Hok.
    + apply list_elem_of_singleton in Hin as ->. done.
  - apply Forall_fmap. exact Hb.
  - apply Forall_fmap. exact Ha.
Qed.

(** From the messages of the gateway to the file. *)
Lemma query1_file fields cfg (Hq : fcQuery cfg = Query1) batches seq ms seq' outs1 outs2 ds es dlast last (s : Co Gateway) :
  batches_sent c batches seq ms seq' -> Forall batch_ok batches -> NoDup (resultID <$> usdMessages ms) ->
  drained (ST := cleanerStage fields) (usdMessages ms) outs1 -> drained (ST := filterStage cfg Hq) outs1 outs2 ->
  forwarded c [] (coMem s) -> results_queue outs2 ds es dlast last ->
  exists s' conn, forwardAll co 0 (Body <$> (ds ++ [dlast])) s = Ret (Ok tt, s') /\ registry (coMem s') !! c = Some conn /\
    forall k extra, concat (segments k) = concat (cnSent conn) ++ extra ->
      exists r rows, Listen always k = Ok r /\ lookupW MsgQuery1Result r = Some (mkQueryWriter rows true) /\
        let expected := query1RowsToString (toQuery1Result <$> filter (fun tx => passes cfg tx = true)
          (cleanTransaction fields <$> filter (fun tx => isDollar tx = true) (concat batches))) in
        rows ⊆+ expected /\ (results_first outs2 es last -> rows ≡ₚ expected).
Proof.
  intros Hms Hok Hids H1 H2 Hs [Hds Hlast Hnew Hq1 Hinj Hdec H4 Hend].
  destruct (gateway_batches c batches seq ms seq' Hms Hok) as (es0 & Husd & Hes & Hc). rewrite Husd in *.
  assert (NoDup ((fun e => DeriveMsgID (DeriveMsgID (MsgID e) KeyNil 0) KeyNil 0) <$> es0)) as Hn.
  { replace ((fun e => DeriveMsgID (DeriveMsgID (MsgID e) KeyNil 0) KeyNil 0) <$> es0) with (resultID <$> (dollarMsg <$> es0)); [done|].
    rewrite <- list_fmap_compose. apply list_fmap_ext. intros i e He. unfold compose, resultID, dollarMsg.
    rewrite (decode_batch c); [done|]. eapply Forall_lookup_1; [exact Hes|exact He]. }
  pose proof (results_sub cfg Hq fields c es0 Hes Hn outs1 outs2 es H1 H2 Hq1) as Hsub.
  assert (concat (rowsOf <$> (frameOf <$> ((fun e => resulted cfg (cleaned fields e)) <$> answered_batches cfg fields es0))) =
    query1RowsToString (toQuery1Result <$> filter (fun tx => passes cfg tx = true)
      (cleanTransaction fields <$> filter (fun tx => isDollar tx = true) (concat batches)))) as Hrows.
  { rewrite (answered_rows cfg fields c es0 Hes), Hc. done. }
  destruct (results_to_file co c (Body <$> ds) es (Body dlast) last s) as (s' & conn & Hrun & Hr & Hfile); try done.
  { apply Forall2_fmap_l. exact Hds. }
  exists s', conn. split; [by rewrite fmap_app|]. split; [done|]. intros k extra Hk.
  destruct (Hfile k extra Hk) as (r & Hl & Hw). eexists r, _. split; [done|]. split; [by apply (Hw _ (mkQueryResultData "query1.csv" ["from_bank"; "from_account"; "to_bank"; "to_account"; "total_amount"] MsgQuery1ResultEOF)); left|].
  cbv zeta. rewrite <- Hrows. split.
  { etrans; [by apply query1_rows_sub|]. by apply concat_submseteq, fmap_submseteq, fmap_submseteq. }
  intros [Hall (before & after & Heq & Hb & Ha)].
  pose proof (results_perm cfg Hq fields c es0 Hes Hn outs1 outs2 es H1 H2 Hq1 Hall Hinj) as Hperm.
  rewrite (query1_rows es last before after); try done.
  - apply concat_perm, fmap_Permutation, fmap_Permutation, Hperm.
  - rewrite Forall_forall. intros e He Ht. assert (e ∈ (fun e => resulted cfg (cleaned fields e)) <$> answered_batches cfg fields es0) as Hin
      by (rewrite <- Hperm; by apply list_elem_of_filter).
    apply list_elem_of_fmap in Hin as (e0 & -> & He0). apply list_elem_of_filter in He0 as [_ He0].
    destruct (resulted_env cfg c (cleaned fields e0)) as [Hd _].
    { apply cleaned_env. rewrite Forall_forall in Hes. by apply Hes. }
    unfold resultRows. rewrite decide_True by done. rewrite Hd. by eexists.
Qed.

(** C2. Query 1 as a whole.  A client that can read its files and a gateway whose
    brokers accept: however the gateway's batches in dollars are distributed
    among the cleaners and what they send among the filters - each message at
    least once, in any order, with broker failures and with replicas that die
    before they acknowledge - and whatever results of other queries come in
    between, when the fifth end has reached the client its file of query 1
    holds no row but those of the transactions in dollars that pass the
    filter, each at most once.  It holds all of them, in some order, provided
    that no result of query 1 reaches the gateway only after the end of
    query 1.  (The cleaner and the filter can break that: they count a batch as
    received before they send it, so that after a failed send the end may
    overtake the redelivered batch.  No two results have the same SHA-256 id.) *)
Theorem query1_complete accRows accs txRows txs n m k (s : Co Gateway) p fields cfg (Hq : fcQuery cfg = Query1) :
  Forall2 (good_row ParseAccount) accRows accs -> Forall acct_ok accs -> 0 < n <= Z.of_nat maxBatch -> Zlen accs < 2 ^ 63 ->
  Forall2 (good_row ParseTransaction) txRows txs -> Forall tx_ok txs -> 0 < m <= Z.of_nat maxBatch -> Zlen txs < 2 ^ 63 ->
  unbroken k -> written k = [] ->
  clients (coMem s) !! c = Some newClient -> script (gwPub (coMem s)) = [] -> accounts_up (coMem s) p ->
  exists k' g' ms seq eof,
    Start always always (mkBatchReader accRows n false, mkBatchReader txRows m false) k = (Ok tt, k') /\
    HandleClientRequest co c (written k') s = (_ ← tryDeleteCheckpoint co c; mret true) (setMem g' s) /\
    sent (gwPub g') = sent (gwPub (coMem s)) ++ ms ++ [eof] /\ batches_sent c (chunks (Z.to_nat m) txs) 0 ms seq /\
    forall outs1 outs2 ds es dlast last s2, NoDup (resultID <$> usdMessages ms) ->
      drained (ST := cleanerStage fields) (usdMessages ms) outs1 -> drained (ST := filterStage cfg Hq) outs1 outs2 ->
      forwarded c [] (coMem s2) -> results_queue outs2 ds es dlast last ->
      exists s3 conn, forwardAll co 0 (Body <$> (ds ++ [dlast])) s2 = Ret (Ok tt, s3) /\ registry (coMem s3) !! c = Some conn /\
        forall k2 extra, concat (segments k2) = concat (cnSent conn) ++ extra ->
          exists r rows, Listen always k2 = Ok r /\ lookupW MsgQuery1Result r = Some (mkQueryWriter rows true) /\
            let expected := query1RowsToString (toQuery1Result <$> filter (fun tx => passes cfg tx = true)
              (cleanTransaction fields <$> filter (fun tx => isDollar tx = true) txs)) in
            rows ⊆+ expected /\ (results_first outs2 es last -> rows ≡ₚ expected).
Proof.
  intros Ha Hwa Hn Hla Ht Hwt Hm Hlt Hu Hk Hc Hs Hp.
  destruct (session_handled c accRows accs txRows txs n m k s p) as (k' & fs & g3 & g4 & aps & ms & seq & bs & Hst & Hw & Hh & He & _ & _ & Hb & Hsent & _); [done..|].
  exists k', g4, ms, seq. eexists. split; [exact Hst|]. split; [rewrite Hw; by eapply request_handled|]. split; [exact Hsent|]. split; [done|].
  intros outs1 outs2 ds es dlast last s2 Hids H1 H2 Hf Hq1. destruct (chunks_spec (Z.to_nat m) txs) as [Hcc _]; [lia|].
  rewrite <- Hcc. eapply query1_file; [exact Hb| |done..]. apply chunks_batches; [done|lia].
Qed.
End Query1.

(** The fields that the configurations name are none of those that
    [cleanTransaction] blanks. *)
Theorem configured_cleaning fields tx : Forall (fun f => f ∈ ["timestamp"; "format"; "dest"; "paid"; "origin"]%string) fields ->
  cleanTransaction fields tx = tx.
Proof.
  unfold cleanTransaction. revert tx. induction fields as [|f fields IH]; intros tx Hf; [done|]. apply Forall_cons in Hf as [Hf Hfs].
  cbn [fold_left]. rewrite IH by done. repeat (apply elem_of_cons in Hf as [->|Hf]; [reflexivity|]). by apply elem_of_nil in Hf.
Qed.

(** ** Example: three payments in dollars, one of them too large *)
Lemma group_sent_fun c key txs seq ms ms' q q' : group_sent c key txs seq ms q -> group_sent c key txs seq ms' q' -> ms = ms' /\ q = q'.
Proof.
  intros [->|bs Hne H] H'; inversion H' as [|bs' Hne' He]; subst; try done. rewrite H in He. by injection He as ->.
Qed.
Lemma batches_sent_fun c batches seq ms q : batches_sent c batches seq ms q -> forall ms' q', batches_sent c batches seq ms' q' -> ms = ms' /\ q = q'.
Proof.
  induction 1 as [|txs rest seq m1 seq1 m2 seq2 ms seq3 H1 H2 _ IH]; intros ms' q' H'; inversion H' as [|? ? ? ? ? ? ? ? ? G1 G2 G3]; subst; [done|].
  destruct (group_sent_fun _ _ _ _ _ _ _ _ H1 G1) as [-> ->]. destruct (group_sent_fun _ _ _ _ _ _ _ _ H2 G2) as [-> ->].
  by destruct (IH _ _ G3) as [-> ->].
Qed.

Definition pay_row (amount currency : string) : list string :=
  ["2022/09/01 00:20"; "010"; "8000EBD30"; "020"; "8000F5340"; amount; currency; amount; currency; "Wire"; "0"]%string.
Definition payment (amount : Z) (currency : string) : Transaction :=
  mkTransaction "2022/09/01 00:20" "10" "8000EBD30" "20" "8000F5340" (f64_of_int amount) currency (f64_of_int amount) currency "Wire" false.
Definition payRows : list (res (list string)) :=
  Ok <$> [pay_row "5" "US Dollar"; pay_row "5" "Euro"; pay_row "70" "US Dollar"; pay_row "7" "US Dollar"]%string.
Definition payments : list Transaction := [payment 5 "US Dollar"; payment 5 "Euro"; payment 70 "US Dollar"; payment 7 "US Dollar"].
Definition q1_filter : FilterCfg := mkFilterCfg "filter_q1" 1 "" "amount" "Amount" "<" (f64_of_int 50) [].
Definition q1_fields : list string := ["timestamp"; "format"]%string.
(** The numbers of the example as texts. *)
Definition amounts : list (string * float64) := [("5", f64_of_int 5); ("7", f64_of_int 7); ("70", f64_of_int 70)]%string.
#[local] Instance decimals : Strconv := {|
  ParseFloat := fun s => snd <$> find (fun a : string * float64 => bool_decide (a.1 = s)) amounts;
  FormatFloat := fun f => default ""%string (fst <$> find (fun a : string * float64 => bool_decide (a.2 = f)) amounts)
|}.
#[local] Existing Instances uuid_letters range_rev.
Definition okBytes (r : res bytes) : bytes := match r with Ok b => b | _ => [] end.
Definition env_of (seq : Z) (txs : list Transaction) : InternalEnvelope :=
  mkInternalEnvelope MsgTransactionsBatch id1 (SourceMsgID id1 StreamTransactions seq) (okBytes (EncodeTransactionBatch txs)).
Definition E1 : InternalEnvelope := env_of 0 [payment 5 "US Dollar"].
Definition E2 : InternalEnvelope := env_of (uint64 (uint64 (0 + 1) + 1)) [payment 70 "US Dollar"; payment 7 "US Dollar"].
Definition sent_ms : list Message :=
  [dollarMsg E1; mkMessage KeyNonDollarTransaction (EncodeInternalEnvelope (env_of (uint64 (0 + 1)) [payment 5 "Euro"])); dollarMsg E2].
Lemma sent_batches : batches_sent id1 (chunks 2 payments) 0 sent_ms (uint64 (uint64 (uint64 (0 + 1) + 1) + 1)).
Proof.
  change sent_ms with ([dollarMsg E1] ++ [mkMessage KeyNonDollarTransaction (EncodeInternalEnvelope (env_of (uint64 (0 + 1)) [payment 5 "Euro"]))] ++ [dollarMsg E2] ++ [] ++ []).
  change (chunks 2 payments) with [[payment 5 "US Dollar"; payment 5 "Euro"]; [payment 70 "US Dollar"; payment 7 "US Dollar"]].
  eapply batches_cons; [apply (group_msg _ _ [payment 5 "US Dollar"])|apply (group_msg _ _ [payment 5 "Euro"])|
    eapply batches_cons; [apply (group_msg _ _ [payment 70 "US Dollar"; payment 7 "US Dollar"])|by apply group_none|apply batches_nil]];
    first [done|vm_compute; reflexivity].
Qed.
Lemma env_of_ok seq txs : Forall tx_ok txs -> (length txs <= 10)%nat -> batchEnv id1 (env_of seq txs).
Proof.
  intros Hwf Hn. assert (batch_ok txs) as Hok by (split; [done|]; unfold maxBatch; lia).
  destruct (tx_batch_fits txs Hok) as (bs & He & Hd & Hz). unfold env_of, okBytes. rewrite He. split_and!; [done|done| |done]. by exists txs.
Qed.
Lemma sample_envs : Forall (batchEnv id1) [E1; E2].
Proof.
  apply Forall_cons; split; [|apply Forall_singleton]; apply env_of_ok; try (cbn; lia); repeat constructor; vm_compute; first [congruence|split; congruence].
Qed.

(** The cleaners: one replica takes the first message, another dies after it
    answered the second, which then comes back. *)
#[local] Abbreviation cleaners := (cleanerStage q1_fields).
#[local] Abbreviation filters := (filterStage q1_filter eq_refl).
Definition fresh_worker : WorkerMem := mkWorkerMem (mkPublisher [] [] newDedupState) ∅ [].
Definition clean1 : list Message := [dollarMsg E1; dollarMsg E2].
Definition C1 : InternalEnvelope := cleaned q1_fields E1.
Definition C2 : InternalEnvelope := cleaned q1_fields E2.
Definition cleaned_msgs : list Message := [plainMsg C1; plainMsg C2; plainMsg C2].
Lemma sample_takes (ST : Stage WorkerMem) key e : stType (Stage := ST) = MsgTransactionsBatch -> stGood (Stage := ST) = readable ->
  e ∈ [E1; E2] \/ e ∈ [C1; C2] -> takes (ST := ST) (mkMessage key (EncodeInternalEnvelope e)) e.
Proof.
  intros Ht Hg He. apply (takes_batch id1); [done|done|]. pose proof sample_envs as Hs. rewrite Forall_forall in Hs.
  destruct He as [He|He]; [by apply Hs|]. apply elem_of_cons in He as [->|[->|He%elem_of_nil]%elem_of_cons]; [| |done]; apply cleaned_env, Hs; set_solver.
Qed.
Lemma nonzero (i : id16) : bool_decide (id16_bytes i = replicate 16 Byte.x00) = false -> i <> zero16.
Proof. intros H ->. vm_compute in H. discriminate. Qed.
(** One delivery of the example. *)
Ltac member := repeat first [apply list_elem_of_here|apply list_elem_of_further].
Ltac takes_it H ST m e w lives :=
  match type of H with serves ?src ?outs ?acked ?known =>
    let H' := fresh "Hs" in
    assert (serves (ST := ST) src (outs ++ answers (Stage := ST) e) (if lives then m :: acked else acked) (if lives then {[key_of e]} ∪ known else known)) as H';
    [apply (serve_fresh (ST := ST) src outs acked known m e w lives); [exact H|member|apply sample_takes; [done|done|first [left; solve [member]|right; solve [member]]]
      |apply nonzero; vm_compute; reflexivity|reflexivity|vm_compute; reflexivity]
    |cbv beta iota in H'; clear H; rename H' into H]
  end.
Lemma sample_cleaned : drained (ST := cleaners) clean1 cleaned_msgs.
Proof.
  pose proof (serves_start (ST := cleaners) clean1) as H. unfold clean1 in H.
  takes_it H (cleanerStage q1_fields) (dollarMsg E1) E1 fresh_worker true.
  takes_it H (cleanerStage q1_fields) (dollarMsg E2) E2 fresh_worker false.
  takes_it H (cleanerStage q1_fields) (dollarMsg E2) E2 fresh_worker true.
  eexists _, _. split; [exact H|]. unfold clean1. intros m. rewrite !elem_of_cons. tauto.
Qed.
(** The filters: in the other order, and again to one that knows the message. *)
Definition R1 : InternalEnvelope := resulted q1_filter C1.
Definition R2 : InternalEnvelope := resulted q1_filter C2.
Definition result_msgs : list Message := [plainMsg R2; plainMsg R1].
Lemma sample_filtered : drained (ST := filters) cleaned_msgs result_msgs.
Proof.
  pose proof (serves_start (ST := filters) cleaned_msgs) as H. unfold cleaned_msgs in H.
  takes_it H (filterStage q1_filter eq_refl) (plainMsg C2) C2 fresh_worker true.
  takes_it H (filterStage q1_filter eq_refl) (plainMsg C1) C1 fresh_worker true.
  assert (forall e, match resultsOf q1_filter (txsOf e) with [] => false | _ => true end = true ->
    answers (Stage := filters) e = [plainMsg (resulted q1_filter e)]) as Ha.
  { intros e He. cbn [answers filterStage]. unfold filterAnswers. by destruct (resultsOf q1_filter (txsOf e)). }
  rewrite (Ha C2), (Ha C1) in H by (vm_compute; reflexivity). eexists _, _. split; [exact H|].
  unfold cleaned_msgs. intros m. rewrite !elem_of_cons. tauto.
Qed.

(** What the gateway's queue of results delivers: one result twice, the ends of
    the other queries, and the end of query 1 last. *)
Definition end_env (t : byte) : InternalEnvelope := mkInternalEnvelope t id1 (copy16 [t]) [].
Definition other_ends : list InternalEnvelope := end_env <$> [MsgQuery2ResultEOF; MsgQuery3ResultEOF; MsgQuery4ResultEOF; MsgQuery5ResultEOF].
Definition delivered : list InternalEnvelope := R2 :: R1 :: R2 :: other_ends.
Definition last_end : InternalEnvelope := end_env MsgQuery1ResultEOF.
Lemma distinct_inj {A B} (f : A -> B) l x y : NoDup (f <$> l) -> x ∈ l -> y ∈ l -> f x = f y -> x = y.
Proof.
  induction l as [|z l IH]; cbn [fmap list_fmap]; [by intros _ H%elem_of_nil|]. intros [Hz Hl]%NoDup_cons Hx Hy Heq.
  apply elem_of_cons in Hx as [->|Hx], Hy as [->|Hy]; [done| | |by apply IH]; destruct Hz.
  - rewrite Heq. by apply list_elem_of_fmap_2.
  - rewrite <- Heq. by apply list_elem_of_fmap_2.
Qed.
Lemma R_env : DecodeInternalEnvelope (Body (plainMsg R1)) = Ok R1 /\ DecodeInternalEnvelope (Body (plainMsg R2)) = Ok R2 /\
  decodes (frameOf R1) /\ decodes (frameOf R2).
Proof.
  pose proof sample_envs as Hs. rewrite !Forall_cons in Hs. destruct Hs as (H1 & H2 & _).
  apply (cleaned_env q1_fields) in H1 as [H1 _], H2 as [H2 _]. apply (resulted_env q1_filter) in H1 as [H1 Hz1], H2 as [H2 Hz2].
  assert (forall e, Zlen (Payload (resulted q1_filter e)) < 2 ^ 32 - 37 -> DecodeInternalEnvelope (Body (plainMsg (resulted q1_filter e))) = Ok (resulted q1_filter e))
    as Hd by (intros; by apply decode_internal).
  assert (forall e rs, Zlen (Payload (resulted q1_filter e)) < 2 ^ 32 - 37 -> DecodeQuery1ResultBatch (Payload (resulted q1_filter e)) = Ok rs ->
    decodes (frameOf (resulted q1_filter e))) as Hdec.
  { intros e rs Hz Hq. split; cbn [frameOf fst snd]; [lia|]. intros p. unfold resultRows. rewrite decide_True by done. by rewrite Hq. }
  split_and!; [by apply Hd..| |]; eapply Hdec; eassumption.
Qed.
Lemma sample_first : firsts ∅ delivered = R2 :: R1 :: other_ends.
Proof. vm_compute. reflexivity. Qed.
Lemma sample_queue : results_queue id1 result_msgs (plainMsg <$> delivered) delivered (plainMsg last_end) last_end.
Proof.
  destruct R_env as (HR1 & HR2 & HD1 & HD2).
  assert (MsgID R1 <> zero16 /\ MsgID R2 <> zero16) as [Hz1 Hz2] by (split; apply nonzero; vm_compute; reflexivity).
  assert (forall t, DecodeInternalEnvelope (Body (plainMsg (end_env t))) = Ok (end_env t)) as He by (intros t; by apply decode_internal).
  assert (forall t, bool_decide (id16_bytes (copy16 [t]) = replicate 16 Byte.x00) = false -> delivers id1 (Body (plainMsg (end_env t))) (end_env t)) as Hends.
  { intros t Ht. split_and!; [apply He|done|]. by apply nonzero. }
  assert (forall e, e ∈ delivered -> e ∈ R2 :: R1 :: other_ends) as Hsub by (intros e; unfold delivered; rewrite !elem_of_cons; tauto).
  split; rewrite ?sample_first.
  - apply Forall2_fmap_l, Forall_Forall2_diag. unfold delivered, other_ends. cbn [fmap list_fmap]. rewrite !Forall_cons.
    assert (delivers id1 (Body (plainMsg R1)) R1 /\ delivers id1 (Body (plainMsg R2)) R2) as [H1 H2] by (split; split_and!; (assumption || exact eq_refl)).
    refine (conj H2 (conj H1 (conj H2 _))). split_and!; [by apply Hends..|constructor].
  - by apply Hends.
  - apply (bool_decide_unpack (MsgID last_end ∉ ids (R2 :: R1 :: other_ends))). vm_compute. exact I.
  - intros e Ht Hin%Hsub. unfold result_msgs. rewrite !elem_of_cons in Hin. destruct Hin as [->|[->|Hin]].
    + exists (plainMsg R2). split; [apply list_elem_of_here|done].
    + exists (plainMsg R1). split; [member|done].
    + apply list_elem_of_fmap in Hin as (t & -> & Hin). cbn [MsgType_ end_env] in Ht. subst t. exfalso. revert Hin. clear.
      apply (bool_decide_unpack (MsgQuery1Result ∉ [MsgQuery2ResultEOF; MsgQuery3ResultEOF; MsgQuery4ResultEOF; MsgQuery5ResultEOF])). vm_compute. exact I.
  - intros e e' Hin%Hsub Hin'%Hsub. apply distinct_inj with (R2 :: R1 :: other_ends); [|done|done].
    apply (bool_decide_unpack (NoDup (MsgID <$> (R2 :: R1 :: other_ends)))). vm_compute. exact I.
  - assert (forall t, resultRows t [] = None -> decodes (frameOf (end_env t))) as Hdec by (intros t Ht; split; [done|intros p; cbn [frameOf fst snd end_env MsgType_ Payload]; by rewrite Ht]).
    refine (Forall_cons_2 _ _ _ HD2 (Forall_cons_2 _ _ _ HD1 _)). unfold other_ends. cbn [fmap list_fmap app].
    repeat apply Forall_cons_2; [by apply Hdec..|constructor].
  - reflexivity.
  - by apply isEnd_type; left.
Qed.
Lemma sample_results_first : results_first result_msgs delivered last_end.
Proof.
  destruct R_env as (HR1 & HR2 & _ & _). split; rewrite ?sample_first.
  - intros m e Hm Hd _. unfold result_msgs in Hm. rewrite !elem_of_cons, elem_of_nil in Hm. destruct Hm as [->|[->|[]]].
    + rewrite HR2 in Hd. injection Hd as <-. apply list_elem_of_here.
    + rewrite HR1 in Hd. injection Hd as <-. unfold delivered. member.
  - exists (R2 :: R1 :: other_ends), [last_end]. split; [reflexivity|]. split; [|by apply Forall_singleton].
    assert (Forall (fun t => endedBy t <> Some MsgQuery1Result) (MsgType_ <$> (R2 :: R1 :: other_ends))) as H by
      (apply (bool_decide_unpack (Forall (fun t => endedBy t <> Some MsgQuery1Result) _)); vm_compute; exact I).
    rewrite Forall_fmap in H. exact H.
Qed.
Definition accepted : Co Gateway := newCo (gwSetRegistry {[id1 := newConn []]} new_gateway).
Lemma accepted_ready : forwarded id1 [] (coMem accepted).
Proof.
  split; [reflexivity|]. exists (newConn []). split_and!; [apply lookup_singleton_eq|done|done|].
  intros t Ht. unfold endTypes in Ht. rewrite !elem_of_cons, elem_of_nil in Ht. by destruct Ht as [->|[->|[->|[->|[->|[]]]]]].
Qed.
Lemma sample_usd : usdMessages sent_ms = clean1.
Proof. reflexivity. Qed.
Lemma sample_ids : NoDup (resultID <$> usdMessages sent_ms).
Proof. rewrite sample_usd. apply (bool_decide_unpack (NoDup (resultID <$> clean1))). vm_compute. exact I. Qed.
(** The five ends came, and the file has the two payments below fifty. *)
Lemma query1_complete_witness :
  let co := gatewayCo "gateway" 1 in
  exists k' g' s3 conn,
    Start always always (mkBatchReader accRows 2 false, mkBatchReader payRows 2 false) broken_twice = (Ok tt, k') /\
    HandleClientRequest co id1 (written k') the_gateway = (_ ← tryDeleteCheckpoint co id1; mret true) (setMem g' the_gateway) /\
    drained (ST := cleaners) clean1 cleaned_msgs /\ drained (ST := filters) cleaned_msgs result_msgs /\
    forwardAll co 0 (Body <$> ((plainMsg <$> delivered) ++ [plainMsg last_end])) accepted = Ret (Ok tt, s3) /\
    registry (coMem s3) !! id1 = Some conn /\
    forall k extra, concat (segments k) = concat (cnSent conn) ++ extra ->
      exists r rows, Listen always k = Ok r /\ lookupW MsgQuery1Result r = Some (mkQueryWriter rows true) /\
        rows ≡ₚ [["10"; "8000EBD30"; "20"; "8000F5340"; "5"]; ["10"; "8000EBD30"; "20"; "8000F5340"; "7"]]%string.
Proof.
  intros co.
  destruct (query1_complete co id1 accRows the_accs payRows payments 2 2 broken_twice the_gateway (mkPublisher [] [] newDedupState)
    q1_fields q1_filter eq_refl) as (k' & g' & ms & seq & eof & H1 & H2 & _ & H3 & H4); [sample_session..|].
  destruct (batches_sent_fun _ _ _ _ _ sent_batches _ _ H3) as [<- _].
  destruct (H4 cleaned_msgs result_msgs (plainMsg <$> delivered) delivered (plainMsg last_end) last_end accepted) as (s3 & conn & H5 & H6 & H7).
  - exact sample_ids.
  - rewrite sample_usd. exact sample_cleaned.
  - exact sample_filtered.
  - exact accepted_ready.
  - exact sample_queue.
  - exists k', g', s3, conn. split; [exact H1|]. split; [exact H2|]. split; [exact sample_cleaned|]. split; [exact sample_filtered|].
    split; [exact H5|]. split; [exact H6|]. intros k extra Hk. destruct (H7 k extra Hk) as (r & rows & Hl & Hw & Hp).
    exists r, rows. split; [exact Hl|]. split; [exact Hw|]. etrans; [exact (proj2 Hp sample_results_first)|]. vm_compute. reflexivity.
Defined.
