(* ===== verification/Amqp.v ===== *)
(** * The RabbitMQ wrappers: connections, topology and publishing
    ([src/common/broker])

    What the wrappers ask of the client library is a log of [call]s; the library
    ([amqp091-go], not part of this program) is an instance of [AmqpLib], which
    answers every call from the calls before it, so that the theorems hold for
    every server and every moment at which it fails.  [live] is what the library
    has open.  The five constructors, [Send] and the release of everything on an
    error are here; [Consuming] has the goroutines that consume. *)

From S2P Require Import Prelude Models Config.

(** ** The library *)
Inductive resource := Conn | ConsumeChannel | ProduceChannel.
#[global] Instance resource_eq_dec : EqDecision resource.
Proof. solve_decision. Defined.
#[global] Instance resource_countable : Countable resource.
Proof.
  refine (inj_countable' (fun r => match r with Conn => 0%nat | ConsumeChannel => 1%nat | ProduceChannel => 2%nat end)
    (fun n => match n with 0%nat => Conn | 1%nat => ConsumeChannel | _ => ProduceChannel end) _). by intros [].
Defined.

Inductive call :=
  | Dial (url : string)
  | Channel (r : resource)
  | Confirm
  | QueueDeclare (name : string) (durable autoDelete exclusive noWait lazy : bool)
  | Qos (prefetch : Z)
  | ExchangeDeclare (name kind : string) (durable autoDelete internal noWait : bool)
  | QueueBind (queue key exchange : string)
  | Consume (queue tag : string)
  | Cancel (tag : string)
  | Publish (exchange key contentType : string) (persistent : bool) (body : bytes)
  | CloseResource (r : resource).
#[global] Instance call_eq_dec : EqDecision call.
Proof. solve_decision. Defined.
(** What becomes of a publishing on a channel in confirm mode. *)
Inductive confirmation := Acked | Nacked | TimedOut.

(** [answer before c]: nothing if the call succeeds.  [QueueDeclare] with the
    empty name lets the server choose one.  [parseURL] is the scheme and the
    host that [url.Parse] finds. *)
Class AmqpLib := {
  answer : list call -> call -> option error;
  ErrClosed : error;
  serverName : list call -> string;
  confirmed : list call -> confirmation;
  parseURL : string -> option (string * string)
}.

(** [slept]: each pause of the code, with the number of calls made before it. *)
Record amqp := mkAmqp { calls : list call; live : gset resource; confirming : bool; slept : list (nat * Z) }.
Definition fresh : amqp := mkAmqp [] ∅ false [].

(** [broker.Message] *)
Record Message := mkMsg { msgKey : string; msgBody : bytes; msgContentType : string }.
Definition contentTypeOrDefault (m : Message) : string :=
  if decide (msgContentType m = "")%string then "application/json"%string else msgContentType m.
Definition KeyControlEOF : string := "control.eof".

Definition ErrBrokerMessage : error := ErrMsg "Broker: message error".
Definition ErrBrokerDisconnected : error := ErrMsg "Broker: disconnected".
Definition ErrBrokerClose : error := ErrMsg "Broker: close error".

Definition connectMaxAttempts : Z := 10.
Definition Millisecond : Z := 1000000.
Definition connectBaseDelay : Z := 500 * Millisecond.
Definition connectMaxDelay : Z := 5000 * Millisecond.
Definition backoffExponent : Z := 2.

Section Amqp.
Context {lib : AmqpLib}.

(** What a call that succeeds opens; what is closed stays closed whatever the
    answer. *)
Definition effect (c : call) (ok : bool) (l : gset resource) : gset resource :=
  match c with
  | Dial _ => if ok then {[Conn]} ∪ l else l
  | Channel r => if ok then {[r]} ∪ l else l
  | CloseResource r => l ∖ {[r]}
  | _ => l
  end.
Definition isConfirm (c : call) : bool := match c with Confirm => true | _ => false end.
Definition ask (c : call) : M amqp (option error) := fun s =>
  let r := answer (calls s) c in
  let ok := match r with None => true | Some _ => false end in
  (Ok r, mkAmqp (calls s ++ [c]) (effect c ok (live s)) (confirming s || (ok && isConfirm c)) (slept s)).
Definition sleep (d : Z) : M amqp unit := modS (fun s => mkAmqp (calls s) (live s) (confirming s) (slept s ++ [(length (calls s), d)])).
(** [*p] *)
Definition deref {A} (p : option A) : M amqp A :=
  liftR (match p with Some v => Ok v | None => Panic "invalid memory address or nil pointer dereference" end).

(** The error path of every call of a constructor: close what is open, return
    the wrapped error. *)
Fixpoint closeAll (rs : list resource) : M amqp unit :=
  match rs with
  | [] => mret tt
  | r :: rs' => _ ← ask (CloseResource r); closeAll rs'
  end.
Definition orGiveUp (rs : list resource) (what : string) (c : call) : M amqp unit :=
  r ← ask c;
  match r with
  | None => mret tt
  | Some e => _ ← closeAll rs; failM (Wrapf what e)
  end.
Definition all : list resource := [ProduceChannel; ConsumeChannel; Conn].

(** ** [connectRabbit] *)
Definition nextDelay (delay : Z) : Z :=
  if delay <? connectMaxDelay then
    let delay := int64 (delay * backoffExponent) in
    if connectMaxDelay <? delay then connectMaxDelay else delay
  else delay.
(** The loop has no bound of its own: [fuel] is the attempts that are left. *)
Fixpoint dial (fuel : nat) (url : string) (attempt delay : Z) : M amqp unit :=
  match fuel with
  | O => failM (ErrMsg "fuel")
  | S fuel' =>
      r ← ask (Dial url);
      match r with
      | None => mret tt
      | Some e =>
          if connectMaxAttempts <=? attempt then failM (Wrapf "failed to connect to rabbitmq after attempts" e)
          else _ ← sleep delay; dial fuel' url (int64 (attempt + 1)) (nextDelay delay)
      end
  end.
Definition connectRabbit (rawURL : string) : M amqp unit :=
  parsed ← liftR (match parseURL rawURL with Some p => Ok p | None => Err (ErrMsg "invalid rabbitmq url") end);
  if decide (parsed.1 = "" \/ parsed.2 = "")%string then failM (ErrMsg ("invalid rabbitmq url: " +:+ rawURL)%string)
  else
    _ ← dial (Z.to_nat connectMaxAttempts) rawURL 1 connectBaseDelay;
    orGiveUp [Conn] "failed to open channel" (Channel ConsumeChannel).

(** ** The topology *)
Definition declareExchange (what : string) (x : ExchangeEndpoint) : M amqp unit :=
  durable ← deref (eDurable x);
  autoDelete ← deref (eAutoDelete x);
  internal ← deref (eInternal x);
  noWait ← deref (eNoWait x);
  orGiveUp all what (ExchangeDeclare (eName x) (eType x) durable autoDelete internal noWait).
Fixpoint bindKeys (queueName exchange : string) (keys : list string) : M amqp unit :=
  match keys with
  | [] => mret tt
  | k :: ks => _ ← orGiveUp all "failed to bind input queue" (QueueBind queueName k exchange); bindKeys queueName exchange ks
  end.
(** The callers close everything on every error of [bindInputQueue]. *)
Definition bindInputQueue (cfg : BrokerConfig) (routingKeys : list string) (queueName : string) : M amqp unit :=
  match i ← Input cfg; Exchange i with
  | None => mret tt
  | Some x =>
      if decide (eName x = "")%string then mret tt
      else if decide (Keys x = [] /\ eType x <> "fanout")%string then
        _ ← closeAll all; failM (ErrMsg "exchange keys are required when input is exchange")
      else
        _ ← declareExchange "failed to declare input exchange" x;
        bindKeys queueName (eName x) (routingKeys ++ [KeyControlEOF])
  end.
Definition declareQueue (what name : string) (durable autoDelete exclusive noWait lazy : bool) : M amqp string :=
  s ← getS;
  _ ← orGiveUp all what (QueueDeclare name durable autoDelete exclusive noWait lazy);
  mret (if decide (name = "")%string then serverName (calls s) else name).
Definition setQos (prefetch : Z) : M amqp unit :=
  if 0 <? prefetch then orGiveUp all "failed to set qos" (Qos prefetch) else mret tt.
Definition openChannels (rabbitURL : string) : M amqp unit :=
  _ ← connectRabbit rabbitURL;
  orGiveUp [ConsumeChannel; Conn] "failed to open producer channel" (Channel ProduceChannel).
Definition enableConfirms (persistent : bool) : M amqp unit :=
  if persistent then orGiveUp all "failed to enable publisher confirms" Confirm else mret tt.

(** The fields of the five broker structs: [output] is the queue or the
    exchange that [Send] publishes to. *)
Record wrapper := mkWrapper { config : BrokerConfig; inputQueue : string; output : string }.

Definition namedQueue (ep : option Endpoint) : option QueueEndpoint :=
  q ← (e ← ep; Queue e);
  if decide (qName q = "")%string then None else Some q.
(** ** The constructors, from the checks of [Config] on *)
Definition connectQueueBroker (cfg : BrokerConfig) : M amqp wrapper :=
  _ ← liftR (newQueueBroker cfg);
  qEp ← deref (match namedQueue (Input cfg) with Some q => Some q | None => namedQueue (Output cfg) end);
  _ ← openChannels (RabbitURL cfg);
  persistent ← deref (Persistent qEp);
  _ ← enableConfirms persistent;
  durable ← deref (Durable qEp); autoDelete ← deref (AutoDelete qEp); exclusive ← deref (Exclusive qEp); noWait ← deref (NoWait qEp);
  queue ← declareQueue "failed to declare queue" (qName qEp) durable autoDelete exclusive noWait false;
  _ ← setQos (Prefetch qEp);
  mret (mkWrapper cfg queue queue).
Definition buildQueueToQueueBroker (inputName outputName rabbitURL : string) (cfg : BrokerConfig) : M amqp wrapper :=
  _ ← openChannels rabbitURL;
  _ ← enableConfirms (persistentFromOutput cfg);
  q ← deref (i ← Input cfg; Queue i);
  durable ← deref (Durable q); autoDelete ← deref (AutoDelete q); exclusive ← deref (Exclusive q); noWait ← deref (NoWait q);
  queue ← declareQueue "failed to declare queue" inputName durable autoDelete exclusive noWait (default false (Lazy q));
  _ ← setQos (Prefetch q);
  mret (mkWrapper cfg queue outputName).
Definition connectQueueToQueueBroker (cfg : BrokerConfig) : M amqp wrapper :=
  _ ← liftR (newQueueToQueueBroker cfg);
  buildQueueToQueueBroker (qName (inQueue cfg)) (qName (outQueue cfg)) (RabbitURL cfg) cfg.
Definition buildQueueToExchangeBroker (cfg : BrokerConfig) (rabbitURL : string) : M amqp wrapper :=
  _ ← openChannels rabbitURL;
  _ ← enableConfirms (persistentFromOutput cfg);
  q ← deref (i ← Input cfg; Queue i);
  durable ← deref (Durable q); autoDelete ← deref (AutoDelete q); exclusive ← deref (Exclusive q); noWait ← deref (NoWait q);
  queue ← declareQueue "failed to declare queue" (qName q) durable autoDelete exclusive noWait false;
  _ ← setQos (Prefetch q);
  x ← deref (o ← Output cfg; Exchange o);
  _ ← declareExchange "failed to declare exchange" x;
  mret (mkWrapper cfg queue (eName x)).
Definition connectQueueToExchangeBroker (cfg : BrokerConfig) : M amqp wrapper :=
  _ ← liftR (newQueueToExchangeBroker cfg); buildQueueToExchangeBroker cfg (RabbitURL cfg).
(** An input that has no queue at all is dereferenced after the channels are open. *)
Definition buildExchangeToQueueBroker (cfg : BrokerConfig) (rabbitURL : string) : M amqp wrapper :=
  _ ← openChannels rabbitURL;
  _ ← enableConfirms (persistentFromOutput cfg);
  q ← deref (i ← Input cfg; Queue i);
  durable ← deref (Durable q); autoDelete ← deref (AutoDelete q); noWait ← deref (NoWait q);
  queue ← declareQueue "failed to declare input queue" (qName q) durable autoDelete (default false (Exclusive q)) noWait false;
  _ ← bindInputQueue cfg (Keys (inExchange cfg)) queue;
  _ ← setQos (Prefetch q);
  mret (mkWrapper cfg queue (qName (outQueue cfg))).
Definition connectExchangeToQueueBroker (cfg : BrokerConfig) : M amqp wrapper :=
  _ ← liftR (newExchangeToQueueBroker cfg); buildExchangeToQueueBroker cfg (RabbitURL cfg).
Definition buildExchangeToExchangeBroker (cfg : BrokerConfig) (rabbitURL : string) : M amqp wrapper :=
  _ ← openChannels rabbitURL;
  _ ← enableConfirms (persistentFromOutput cfg);
  q ← deref (i ← Input cfg; Queue i);
  let exclusive := if decide (qName q = "")%string then true else default false (Exclusive q) in
  queue ← declareQueue "failed to declare input queue" (qName q) (default false (Durable q)) (default false (AutoDelete q)) exclusive (default false (NoWait q)) false;
  _ ← bindInputQueue cfg (Keys (inExchange cfg)) queue;
  _ ← setQos (Prefetch q);
  x ← deref (o ← Output cfg; Exchange o);
  _ ← declareExchange "failed to declare output exchange" x;
  mret (mkWrapper cfg queue (eName x)).
Definition connectExchangeToExchangeBroker (cfg : BrokerConfig) : M amqp wrapper :=
  _ ← liftR (newExchangeToExchangeBroker cfg); buildExchangeToExchangeBroker cfg (RabbitURL cfg).
Definition connectBroker (cfg : BrokerConfig) : M amqp wrapper :=
  if decide (Type_ cfg = "queue")%string then connectQueueBroker cfg
  else if decide (Type_ cfg = "q-q")%string then connectQueueToQueueBroker cfg
  else if decide (Type_ cfg = "q-e")%string then connectQueueToExchangeBroker cfg
  else if decide (Type_ cfg = "e-q")%string then connectExchangeToQueueBroker cfg
  else if decide (Type_ cfg = "e-e")%string then connectExchangeToExchangeBroker cfg
  else failM (ErrMsg ("unsupported broker type: " +:+ Type_ cfg)%string).

(** ** [Send] *)
Definition classifyPublishErr (e : error) : error := if errors_Is e ErrClosed then ErrBrokerDisconnected else ErrBrokerMessage.
(** On a channel that is not in confirm mode the library returns no
    confirmation, and [dc.Done()] dereferences nil. *)
Definition publishMessage (persistent : bool) (exchange key : string) (m : Message) : M amqp unit :=
  r ← ask (Publish exchange key (contentTypeOrDefault m) persistent (msgBody m));
  match r with
  | Some e => failM (classifyPublishErr e)
  | None =>
      if persistent then
        s ← getS;
        _ ← deref (if confirming s then Some tt else None);
        match confirmed (calls s) with
        | Acked => mret tt
        | Nacked => failM ErrBrokerMessage
        | TimedOut => failM ErrBrokerDisconnected
        end
      else mret tt
  end.
Definition sendToQueue (closed : bool) (b : wrapper) (m : Message) : M amqp unit :=
  if closed then failM ErrBrokerMessage
  else publishMessage (persistentFromOutput (config b)) "" (output b) m.
Definition sendToExchange (closed : bool) (b : wrapper) (m : Message) : M amqp unit :=
  if closed then failM ErrBrokerMessage
  else if decide (msgKey m = "" /\ eType (outExchange (config b)) <> "fanout")%string then failM ErrBrokerMessage
  else publishMessage (persistentFromOutput (config b)) (output b) (msgKey m) m.
(** [broker.Send], by the struct that [connectBroker] made. *)
Definition sendVia (closed : bool) (b : wrapper) (m : Message) : M amqp unit :=
  if isOutputExchangeType (Type_ (config b)) then sendToExchange closed b m else sendToQueue closed b m.

(** ** What a broker promises once it is connected

    [made c s]: the call was made and succeeded. *)
Definition made (c : call) (s : amqp) : Prop := exists before after, calls s = before ++ c :: after /\ answer before c = None.
(** The library has [L] open and [cs] were made; [cf]: confirms are on. *)
Definition holds (L : gset resource) (cf : bool) (cs : list call) (s : amqp) : Prop :=
  live s = L /\ confirming s = cf /\ (forall c, c ∈ cs -> made c s).
(** A constructor returns with [Q], or has released everything, or does not run
    at all: no nil pointer. *)
Definition triple {A} (P : amqp -> Prop) (m : M amqp A) (Q : A -> amqp -> Prop) : Prop := forall s, P s ->
  match m s with (Ok a, s') => Q a s' | (Err _, s') => live s' = ∅ | (Panic _, _) => False end.

Lemma triple_ret {A} (a : A) (P : amqp -> Prop) (Q : A -> amqp -> Prop) : (forall s, P s -> Q a s) -> triple P (mret a) Q.
Proof. intros H s Hs. by apply H. Qed.
Lemma triple_bind {A B} P (m : M amqp A) R (f : A -> M amqp B) Q : triple P m R -> (forall a, triple (R a) (f a) Q) -> triple P (m ≫= f) Q.
Proof.
  intros Hm Hf s Hs. specialize (Hm s Hs). unfold mbind, M_bind. destruct (m s) as [[a|e|p] s']; [|done|done]. by apply Hf.
Qed.
Lemma triple_seq {A B} P (m : M amqp A) R (f : M amqp B) Q : triple P m (fun _ => R) -> triple R f Q -> triple P (_ ← m; f) Q.
Proof. intros Hm Hf. by apply (triple_bind _ _ _ _ _ Hm). Qed.
Lemma triple_deref {A B} (v : A) P (f : A -> M amqp B) Q : triple P (f v) Q -> triple P (deref (Some v) ≫= f) Q.
Proof. intros H s Hs. exact (H s Hs). Qed.

Lemma made_mono c s s' : calls s `prefix_of` calls s' -> made c s -> made c s'.
Proof. intros [l Hl] (b & a & E & H). exists b, (a ++ l). rewrite Hl, E, <- app_assoc. done. Qed.
Lemma closeAll_live rs s : exists s', closeAll rs s = (Ok tt, s') /\ live s' = live s ∖ list_to_set rs.
Proof.
  revert s. induction rs as [|r rs IH]; intros s; cbn [closeAll].
  - exists s. split; [done|]. set_solver.
  - unfold mbind, M_bind, ask. cbn. edestruct IH as (s' & -> & H). exists s'. split; [done|]. rewrite H. cbn. set_solver.
Qed.
(** The state after the constructor asked for [c] with success. *)
Lemma orGiveUp_holds rs what c L cf cs : L = list_to_set rs ->
  triple (holds L cf cs) (orGiveUp rs what c) (fun _ => holds (effect c true L) (cf || isConfirm c) (c :: cs)).
Proof.
  intros -> s (Hl & Hc & Hm). unfold orGiveUp, mbind, M_bind, ask. destruct (answer (calls s) c) as [e|] eqn:E; cbn.
  - destruct (closeAll_live rs (mkAmqp (calls s ++ [c]) (effect c false (live s)) (confirming s || false) (slept s)))
      as (s' & -> & H). cbn. rewrite H. cbn. rewrite Hl. destruct c; cbn [effect]; set_solver.
  - split; [by rewrite Hl|]. split; [by rewrite Hc|]. intros x [->|Hx]%elem_of_cons.
    + exists (calls s), []. done.
    + eapply made_mono; [|by apply Hm]. by exists [c].
Qed.

(** ** The retries of [connectRabbit] *)
Fixpoint delays (n : nat) (d : Z) : list Z := match n with O => [] | S n' => d :: delays n' (nextDelay d) end.
(** The pauses between the first [k + 1] attempts when the first [n] calls were made before. *)
Definition pauses (n k : nat) (d : Z) : list (nat * Z) := imap (fun j d => ((n + S j)%nat, d)) (delays k d).
Lemma pauses_S n k d : pauses n (S k) d = ((n + 1)%nat, d) :: pauses (S n) k (nextDelay d).
Proof. unfold pauses. cbn. f_equal. apply imap_ext. intros i x _. cbn. f_equal. lia. Qed.

(** One connection attempt after another: [n] more may follow this one. *)
Lemma dial_spec n url attempt d s r s' : attempt = connectMaxAttempts - Z.of_nat n -> 0 < attempt -> dial (S n) url attempt d s = (r, s') ->
  let failing j := answer (calls s ++ replicate j (Dial url)) (Dial url) in
  exists k, (k <= n)%nat /\ (forall j, (j < k)%nat -> failing j <> None) /\
    calls s' = calls s ++ replicate (S k) (Dial url) /\ slept s' = slept s ++ pauses (length (calls s)) k d /\ confirming s' = confirming s /\
    match failing k with
    | None => r = Ok tt /\ live s' = {[Conn]} ∪ live s
    | Some e => k = n /\ r = Err (Wrapf "failed to connect to rabbitmq after attempts" e) /\ live s' = live s
    end.
Proof.
  cbv zeta. revert attempt d s. induction n as [|n IH]; intros attempt d s Ha Hp H; cbn [dial] in H; unfold mbind, M_bind in H;
    unfold ask in H; destruct (answer (calls s) (Dial url)) as [e|] eqn:E; cbn [effect isConfirm andb orb] in H.
  - rewrite (proj2 (Z.leb_le _ _)) in H by (unfold connectMaxAttempts in *; lia). injection H as <- <-. exists 0%nat.
    cbn. rewrite !app_nil_r, orb_false_r, E. split_and!; try done. intros j Hj. lia.
  - injection H as <- <-. exists 0%nat. cbn. rewrite !app_nil_r, orb_false_r, E. split_and!; try done. intros j Hj. lia.
  - rewrite (proj2 (Z.leb_gt _ _)) in H by (unfold connectMaxAttempts in *; lia).
    assert (int64 (attempt + 1) = attempt + 1) as Hi by (apply int64_small; unfold in_int64, connectMaxAttempts in *; lia).
    rewrite Hi in H. apply IH in H as (k & Hk & Hf & Hd & Hs & Hc & Hr); [|lia|lia].
    cbn [slept calls live confirming] in *. exists (S k).
    rewrite Hs, Hd, Hc, orb_false_r, pauses_S, !length_app, <- !app_assoc. cbn [length]. rewrite !Nat.add_1_r.
    split; [lia|]. split; [|split; [done|split; [done|split; [done|]]]].
    + intros [|j] Hj; cbn; [by rewrite app_nil_r, E|]. specialize (Hf j ltac:(lia)). by rewrite <- app_assoc in Hf.
    + clear E IH. rewrite <- app_assoc in Hr. cbn in Hr |- *. destruct (answer (_ ++ _) _); [destruct Hr as (-> & ? & ?)|]; done.
  - injection H as <- <-. exists 0%nat. cbn. rewrite !app_nil_r, orb_false_r, E. split_and!; try done; [lia|]. intros j Hj. lia.
Qed.

(** What [url.Parse] has to find. *)
Definition validURL (url : string) : Prop := match parseURL url with Some p => p.1 <> ""%string /\ p.2 <> ""%string | None => False end.
(** The pauses that [connectRabbit] can take, in milliseconds; the [j]th comes after [j] calls. *)
Definition backoff : list (nat * Z) := imap (fun j ms => (S j, ms * Millisecond)) [500; 1000; 2000; 4000; 5000; 5000; 5000; 5000; 5000].
Lemma backoff_pauses k : (k <= 9)%nat -> pauses 0 k connectBaseDelay = take k backoff.
Proof. intros Hk. do 10 (destruct k as [|k]; [reflexivity|]). lia. Qed.
(** What [connectRabbit] leaves after [k] attempts that failed and one more. *)
Definition reached (url : string) (k : nat) (r : res unit) (s : amqp) : Prop :=
  match answer (replicate k (Dial url)) (Dial url) with
  | Some e => k = 9%nat /\ calls s = replicate 10 (Dial url) /\ live s = ∅ /\
      r = Err (Wrapf "failed to connect to rabbitmq after attempts" e)
  | None =>
      match answer (replicate (S k) (Dial url)) (Channel ConsumeChannel) with
      | Some e => calls s = replicate (S k) (Dial url) ++ [Channel ConsumeChannel; CloseResource Conn] /\ live s = ∅ /\
          r = Err (Wrapf "failed to open channel" e)
      | None => calls s = replicate (S k) (Dial url) ++ [Channel ConsumeChannel] /\ live s = {[Conn; ConsumeChannel]} /\ r = Ok tt
      end
  end.
Lemma connectRabbit_spec url r s : connectRabbit url fresh = (r, s) ->
  confirming s = false /\
  (~ validURL url -> calls s = [] /\ slept s = [] /\ live s = ∅ /\ exists e, r = Err e) /\
  (validURL url -> exists k, (k < 10)%nat /\ (forall j, (j < k)%nat -> answer (replicate j (Dial url)) (Dial url) <> None) /\
     slept s = take k backoff /\ reached url k r s).
Proof.
  unfold connectRabbit, liftR, mbind, M_bind, validURL. destruct (parseURL url) as [[sch host]|]; cbn [fst snd].
  2: { intros [= <- <-]. split; [done|]. split; [|done]. intros _. split_and!; [done..|by eexists]. }
  case_decide as Hv.
  { intros [= <- <-]. split; [done|]. split; [|tauto]. intros _. split_and!; [done..|by eexists]. }
  change (Z.to_nat connectMaxAttempts) with 10%nat. destruct (dial 10 url 1 connectBaseDelay fresh) as [r1 s1] eqn:E.
  apply (dial_spec 9) in E as (k & Hk & Hf & Hd & Hs & Hc & Hr); [|done|done]. cbn [fresh slept calls live confirming app length] in *.
  rewrite backoff_pauses in Hs by done. intros H.
  cut (confirming s = false /\ reached url k r s /\ slept s = take k backoff).
  { intros (H1 & H2 & H3). split; [done|]. split; [intros []; tauto|]. intros _. exists k. split; [lia|]. done. }
  unfold reached. destruct (answer (replicate k (Dial url)) (Dial url)).
  { destruct Hr as (-> & -> & Hl). injection H as <- <-. done. }
  destruct Hr as (-> & Hl). unfold orGiveUp, ask, mbind, M_bind in H. rewrite Hd in H.
  destruct (answer (replicate (S k) (Dial url)) (Channel ConsumeChannel)); injection H as <- <-; cbn [calls live slept confirming effect];
    rewrite ?Hl, ?Hc, ?andb_false_r, <- ?app_assoc; split_and!; (done || set_solver).
Qed.

(** C39. [connectRabbit] dials until the first attempt that succeeds, ten times
    at the most, and pauses after each attempt that failed and is not the
    tenth: half a second, then twice as long each time up to five seconds.  It
    then opens a channel.  It returns with the connection and the channel; with
    an error and neither, when all ten attempts failed or when the channel
    could not be opened; or with an error, without any attempt, when the URL has no scheme or no host. *)
Theorem connect_retries url r s : connectRabbit url fresh = (r, s) ->
  (~ validURL url -> calls s = [] /\ slept s = [] /\ live s = ∅ /\ exists e, r = Err e) /\
  (validURL url -> exists k, (k < 10)%nat /\ (forall j, (j < k)%nat -> answer (replicate j (Dial url)) (Dial url) <> None) /\
     slept s = take k backoff /\ reached url k r s).
Proof. intros H. by apply connectRabbit_spec in H as (_ & ? & ?). Qed.
(** In either way one of the two resources is never open without the other. *)
Lemma connectRabbit_live url r s : connectRabbit url fresh = (r, s) ->
  confirming s = false /\ match r with Ok _ => live s = {[Conn; ConsumeChannel]} | Err _ => live s = ∅ | Panic _ => False end.
Proof.
  intros H. apply connectRabbit_spec in H as (Hc & Hi & Hv). split; [done|].
  assert (Decision (validURL url)) as [Hd|Hd] by (unfold validURL; destruct (parseURL url); apply _).
  - destruct (Hv Hd) as (k & _ & _ & _ & H). unfold reached in H. destruct (answer (replicate k _) _); [by destruct H as (_ & _ & ? & ->)|].
    destruct (answer _ (Channel _)); by destruct H as (_ & ? & ->).
  - by destruct (Hi Hd) as (_ & _ & ? & e & ->).
Qed.

(** ** The topology a configuration describes *)
Definition flag (p : option bool) : bool := default false p.
(** The queue a broker declares. *)
Definition usedQueue (cfg : BrokerConfig) : QueueEndpoint :=
  if decide (Type_ cfg = "queue")%string then default (outQueue cfg) (namedQueue (Input cfg)) else inQueue cfg.
Definition queueCall (cfg : BrokerConfig) : call :=
  let q := usedQueue cfg in
  QueueDeclare (qName q) (flag (Durable q)) (flag (AutoDelete q))
    (if decide (Type_ cfg = "e-e" /\ qName q = "")%string then true else flag (Exclusive q)) (flag (NoWait q))
    (if decide (Type_ cfg = "q-q")%string then flag (Lazy q) else false).
Definition exchangeCall (x : ExchangeEndpoint) : call :=
  ExchangeDeclare (eName x) (eType x) (flag (eDurable x)) (flag (eAutoDelete x)) (flag (eInternal x)) (flag (eNoWait x)).
Definition topology (cfg : BrokerConfig) (queue : string) : list call :=
  [queueCall cfg] ++
  (if isInputExchangeType (Type_ cfg)
   then exchangeCall (inExchange cfg) :: map (fun k => QueueBind queue k (eName (inExchange cfg))) (Keys (inExchange cfg) ++ [KeyControlEOF])
   else []) ++
  (if isOutputExchangeType (Type_ cfg) then [exchangeCall (outExchange cfg)] else []) ++
  (if 0 <? Prefetch (usedQueue cfg) then [Qos (Prefetch (usedQueue cfg))] else []).
Definition confirms (cfg : BrokerConfig) : bool :=
  if decide (Type_ cfg = "queue")%string then flag (Persistent (usedQueue cfg)) else persistentFromOutput cfg.
Definition allSet : gset resource := list_to_set all.

Definition connected (cfg : BrokerConfig) (b : wrapper) (s : amqp) : Prop :=
  holds allSet (confirms cfg) (topology cfg (inputQueue b)) s /\ config b = cfg /\
  (qName (usedQueue cfg) <> ""%string -> inputQueue b = qName (usedQueue cfg)) /\
  output b = if isOutputExchangeType (Type_ cfg) then eName (outExchange cfg)
             else if decide (Type_ cfg = "queue"%string) then qName (usedQueue cfg) else qName (outQueue cfg).

Lemma holds_sub L cf cs cs' s : (forall c, c ∈ cs' -> c ∈ cs) -> holds L cf cs s -> holds L cf cs' s.
Proof. intros Hs (? & ? & Hm). split_and!; auto. Qed.
Lemma holds_set L L' cf cs s : L = L' -> holds L cf cs s -> holds L' cf cs s.
Proof. by intros ->. Qed.
Lemma orGiveUp_all what c cf cs : match c with Dial _ | Channel _ | CloseResource _ | Confirm => False | _ => True end ->
  triple (holds allSet cf cs) (orGiveUp all what c) (fun _ => holds allSet cf (c :: cs)).
Proof.
  intros Hc s Hs. pose proof (orGiveUp_holds all what c allSet cf cs eq_refl s Hs) as H.
  destruct (orGiveUp all what c s) as [[[]|e|p] s']; [|done|done].
  assert (effect c true allSet = allSet) as He by (by destruct c). rewrite He in H.
  assert (cf || isConfirm c = cf) as Hi by (by destruct c; rewrite ?orb_false_r). by rewrite Hi in H.
Qed.
Lemma openChannels_holds url : triple (.= fresh) (openChannels url) (fun _ => holds allSet false []).
Proof.
  eapply triple_bind with (R := fun _ => holds (list_to_set [ConsumeChannel; Conn]) false []).
  - intros s ->. destruct (connectRabbit url fresh) as [r s'] eqn:E. apply connectRabbit_live in E as (Hc & Hr).
    destruct r; [|done|done]. split; [rewrite Hr; set_solver|]. split; [done|]. intros c Hin. by apply elem_of_nil in Hin.
  - intros _ s Hs. pose proof (orGiveUp_holds _ "failed to open producer channel" (Channel ProduceChannel) _ _ _ eq_refl s Hs) as H.
    destruct (orGiveUp _ _ _ s) as [[[]|e|p] s']; [|done|done]. by eapply holds_sub, H; intros c ?%elem_of_nil.
Qed.
Lemma enableConfirms_holds v : triple (holds allSet false []) (enableConfirms v) (fun _ => holds allSet v []).
Proof.
  intros s Hs. unfold enableConfirms. destruct v; [|done].
  pose proof (orGiveUp_holds all "failed to enable publisher confirms" Confirm _ _ _ eq_refl s Hs) as H.
  destruct (orGiveUp _ _ _ s) as [[[]|e|p] s']; [|done|done]. by eapply holds_sub, H; intros c ?%elem_of_nil.
Qed.
Lemma declareQueue_holds what name d a e n l cf cs :
  triple (holds allSet cf cs) (declareQueue what name d a e n l)
    (fun q s => holds allSet cf (QueueDeclare name d a e n l :: cs) s /\ (name <> ""%string -> q = name)).
Proof.
  intros s Hs. unfold declareQueue, mbind, M_bind, getS.
  pose proof (orGiveUp_all what (QueueDeclare name d a e n l) cf cs I s Hs) as H.
  destruct (orGiveUp _ _ _ s) as [[[]|e'|p] s']; [|done|done]. split; [done|]. intros Hn. by rewrite decide_False.
Qed.
Lemma bindKeys_holds q x ks cf cs :
  triple (holds allSet cf cs) (bindKeys q x ks) (fun _ => holds allSet cf (map (fun k => QueueBind q k x) ks ++ cs)).
Proof.
  revert cs. induction ks as [|k ks IH]; intros cs; cbn [bindKeys]; [by apply triple_ret|].
  eapply triple_bind; [by apply orGiveUp_all|]. intros [] s Hs. specialize (IH _ s Hs). destruct (bindKeys q x ks s) as [[[]|e|p] s']; [|done|done].
  eapply holds_sub, IH. intros c. cbn. rewrite !elem_of_cons, !elem_of_app, elem_of_cons. tauto.
Qed.
Lemma setQos_holds n cf cs :
  triple (holds allSet cf cs) (setQos n) (fun _ => holds allSet cf ((if 0 <? n then [Qos n] else []) ++ cs)).
Proof. unfold setQos. destruct (0 <? n); [by apply orGiveUp_all|by apply triple_ret]. Qed.
Lemma declareExchange_holds what x cf cs : completeExchange x ->
  triple (holds allSet cf cs) (declareExchange what x) (fun _ => holds allSet cf (exchangeCall x :: cs)).
Proof.
  intros ([d Hd] & [a Ha] & [i Hi] & [n Hn] & _). unfold declareExchange, exchangeCall. rewrite Hd, Ha, Hi, Hn.
  repeat apply triple_deref. by apply orGiveUp_all.
Qed.
Lemma triple_check r (m : M amqp wrapper) Q : match r with Panic _ => False | _ => True end ->
  (r = Ok tt -> triple (.= fresh) m Q) -> triple (.= fresh) (_ ← liftR r; m) Q.
Proof. intros Hr H s ->. unfold liftR, mbind, M_bind. destruct r as [[]|e|p]; [by apply H|done|done]. Qed.
Lemma triple_pure {A} P (F : Prop) (m : M amqp A) Q : (F -> triple P m Q) -> triple (fun s => P s /\ F) m Q.
Proof. intros H s [Hp Hf]. by apply H. Qed.

(** Through the calls that every constructor begins with. *)
Lemma triple_open {A} url v (f : M amqp A) Q : triple (holds allSet v []) f Q ->
  triple (.= fresh) (_ ← openChannels url; _ ← enableConfirms v; f) Q.
Proof.
  intros H. eapply triple_seq; [apply openChannels_holds|]. by eapply triple_seq; [apply enableConfirms_holds|].
Qed.
Lemma triple_declare {A} what name d a e n l cf cs (f : string -> M amqp A) Q :
  (forall q, (name <> ""%string -> q = name) -> triple (holds allSet cf (QueueDeclare name d a e n l :: cs)) (f q) Q) ->
  triple (holds allSet cf cs) (declareQueue what name d a e n l ≫= f) Q.
Proof. intros H. eapply triple_bind; [apply declareQueue_holds|]. intros q. apply triple_pure. apply H. Qed.

Lemma triple_qos {A} n cf cs (f : M amqp A) Q : triple (holds allSet cf ((if 0 <? n then [Qos n] else []) ++ cs)) f Q ->
  triple (holds allSet cf cs) (_ ← setQos n; f) Q.
Proof. intros H. by eapply triple_seq; [apply setQos_holds|]. Qed.

(** A settled configuration in parts. *)
Lemma settled_parts cfg : settled cfg -> exists qi xi qo xo,
  Input cfg = Some (mkEndpoint (Some qi) xi) /\ Output cfg = Some (mkEndpoint (Some qo) xo) /\ completeQueue qi /\ completeQueue qo /\
  inQueue cfg = qi /\ outQueue cfg = qo /\ (forall x, xi = Some x -> completeExchange x /\ inExchange cfg = x) /\
  (forall x, xo = Some x -> completeExchange x /\ outExchange cfg = x).
Proof.
  intros Hs. unsettle Hs. exists qi, xi, qo, xo. split_and!; try done; intros x ->; (split; [auto|done]).
Qed.
Lemma hasExchange_ok w q x : hasExchange w (Some (mkEndpoint q x)) = Ok tt -> exists y, x = Some y /\ eName y <> ""%string.
Proof. unfold hasExchange. cbn. destruct x as [y|]; [|done]. case_decide; [done|eauto]. Qed.
Lemma hasQueue_ok w q x : hasQueue w (Some (mkEndpoint (Some q) x)) = Ok tt -> qName q <> ""%string.
Proof. unfold hasQueue. cbn. by case_decide. Qed.
Lemma bindInputQueue_holds cfg q x cf cs : Input cfg = Some (mkEndpoint q (Some x)) -> inExchange cfg = x -> completeExchange x ->
  eName x <> ""%string -> (Keys x = [] -> eType x = "fanout"%string) -> forall queue,
  triple (holds allSet cf cs) (bindInputQueue cfg (Keys (inExchange cfg)) queue)
    (fun _ => holds allSet cf (map (fun k => QueueBind queue k (eName x)) (Keys x ++ [KeyControlEOF]) ++ exchangeCall x :: cs)).
Proof.
  intros Hi -> Hx Hn Hk queue. unfold bindInputQueue. rewrite Hi. cbn. rewrite decide_False by done.
  rewrite decide_False by (intros [H1 H2]; by apply H2, Hk). eapply triple_seq; [by apply declareExchange_holds|]. apply bindKeys_holds.
Qed.

Ltac flags H := destruct H as ([? ?Hd] & [? ?Ha] & [? ?He] & [? ?Hn] & [? ?Hl] & [? ?Hp]).
Ltac unflag := repeat (match goal with H : _ = Some _ |- context [deref ?p] => rewrite H; apply triple_deref end).

(** The tests on the kind of broker, once it is known. *)
Ltac untype :=
  repeat match goal with
    | |- context [isInputExchangeType ?t] => let v := eval vm_compute in (isInputExchangeType t) in change (isInputExchangeType t) with v; cbn match
    | |- context [isOutputExchangeType ?t] => let v := eval vm_compute in (isOutputExchangeType t) in change (isOutputExchangeType t) with v; cbn match
    | |- context [decide (?a = ?b)] => first [rewrite (decide_False (P := a = b)) by done | rewrite (decide_True (P := a = b)) by done]
    | |- context [decide (?a = ?b /\ ?c)] => rewrite (decide_False (P := a = b /\ c)) by (by intros [? _])
  end.
Lemma queueBroker_spec cfg : settled cfg -> Type_ cfg = "queue"%string -> triple (.= fresh) (connectQueueBroker cfg) (connected cfg).
Proof.
  intros Hs Ht. destruct (settled_parts cfg Hs) as (qi & xi & qo & xo & Hi & Ho & Hqi & Hqo & Eqi & Eqo & Exi & Exo).
  unfold connectQueueBroker. apply triple_check.
  { unfold newQueueBroker, hasURL, hasQueue. rewrite Hi, Ho. cbn. by repeat case_decide. }
  intros Hok.
  assert (exists q, match namedQueue (Input cfg) with Some q => Some q | None => namedQueue (Output cfg) end = Some q /\
    usedQueue cfg = q /\ completeQueue q /\ qName q <> ""%string) as (q & Hq & Hu & Hc & Hname).
  { unfold newQueueBroker, hasQueue, usedQueue in *. rewrite decide_True by done. unfold namedQueue. rewrite Hi, Ho in *. cbn in *.
    case_decide; [|eauto]. case_decide; [done|]. eauto. }
  flags Hc. rewrite Hq. apply triple_deref. eapply triple_seq; [apply openChannels_holds|]. unflag.
  eapply triple_seq; [apply enableConfirms_holds|]. unflag. apply triple_declare. intros queue Hqueue. apply triple_qos.
  apply triple_ret. intros s H. unfold connected, confirms. rewrite Hu, Ht. cbn [config inputQueue output].
  rewrite decide_True by done. unfold flag. rewrite Hp. change (isOutputExchangeType "queue") with false.
  rewrite decide_True by done. split_and!; try done; [|by apply Hqueue].
  eapply holds_sub, H. intros c. unfold topology, queueCall. rewrite Ht, Hu. untype. unfold flag. rewrite Hd, Ha, He, Hn.
  cbn [default]. set_solver.
Qed.

Lemma queueToQueueBroker_spec cfg : settled cfg -> Type_ cfg = "q-q"%string -> triple (.= fresh) (connectQueueToQueueBroker cfg) (connected cfg).
Proof.
  intros Hs Ht. destruct (settled_parts cfg Hs) as (qi & xi & qo & xo & Hi & Ho & Hqi & Hqo & Eqi & Eqo & Exi & Exo).
  unfold connectQueueToQueueBroker. apply triple_check.
  { unfold newQueueToQueueBroker, hasURL, hasQueue. rewrite Hi, Ho. cbn. by repeat case_decide. }
  intros Hok. apply res_bind_ok in Hok as ([] & Hin & Hok). rewrite Hi in Hin. apply hasQueue_ok in Hin.
  assert (usedQueue cfg = qi) as Hu by (unfold usedQueue; by rewrite Ht).
  unfold buildQueueToQueueBroker. apply triple_open. rewrite Hi. flags Hqi. apply triple_deref. unflag. apply triple_declare.
  intros queue Hqueue. apply triple_qos. apply triple_ret. intros s H. unfold connected, confirms. rewrite Hu, Ht, Eqi, Eqo in *.
  cbn [config inputQueue output]. untype. split_and!; try done.
  eapply holds_sub, H. intros c. unfold topology, queueCall. rewrite Ht, Hu. untype. unfold flag. rewrite Hd, Ha, He, Hn.
  cbn [default]. set_solver.
Qed.

Lemma queueToExchangeBroker_spec cfg : settled cfg -> Type_ cfg = "q-e"%string -> triple (.= fresh) (connectQueueToExchangeBroker cfg) (connected cfg).
Proof.
  intros Hs Ht. destruct (settled_parts cfg Hs) as (qi & xi & qo & xo & Hi & Ho & Hqi & Hqo & Eqi & Eqo & Exi & Exo).
  unfold connectQueueToExchangeBroker. apply triple_check.
  { unfold newQueueToExchangeBroker, hasURL, hasQueue, hasExchange. rewrite Hi, Ho. cbn. destruct xo; cbn; by repeat case_decide. }
  intros Hok. apply res_bind_ok in Hok as ([] & Hin & Hok). apply res_bind_ok in Hok as ([] & Hout & _).
  rewrite Hi in Hin. apply hasQueue_ok in Hin. rewrite Ho in Hout. apply hasExchange_ok in Hout as (x & -> & Hx).
  destruct (Exo x eq_refl) as [Hxc Ex].
  assert (usedQueue cfg = qi) as Hu by (unfold usedQueue; by rewrite Ht).
  unfold buildQueueToExchangeBroker. apply triple_open. rewrite Hi, Ho. flags Hqi. apply triple_deref. unflag. apply triple_declare.
  intros queue Hqueue. apply triple_qos. apply triple_deref. eapply triple_seq; [by apply declareExchange_holds|].
  apply triple_ret. intros s H. unfold connected, confirms. rewrite Hu, Ht, Ex.
  cbn [config inputQueue output]. untype. split_and!; try done.
  eapply holds_sub, H. intros c. unfold topology, queueCall. rewrite Ht, Hu, Ex. untype. unfold flag. rewrite Hd, Ha, He, Hn.
  cbn [default]. set_solver.
Qed.

Lemma exchangeToQueueBroker_spec cfg : settled cfg -> Type_ cfg = "e-q"%string -> triple (.= fresh) (connectExchangeToQueueBroker cfg) (connected cfg).
Proof.
  intros Hs Ht. destruct (settled_parts cfg Hs) as (qi & xi & qo & xo & Hi & Ho & Hqi & Hqo & Eqi & Eqo & Exi & Exo).
  unfold connectExchangeToQueueBroker. apply triple_check.
  { unfold newExchangeToQueueBroker, hasURL, hasQueue, hasExchange. rewrite Hi, Ho. cbn. destruct xi; cbn; by repeat case_decide. }
  intros Hok. apply res_bind_ok in Hok as ([] & Hin & Hok). apply res_bind_ok in Hok as ([] & Hout & Hok).
  apply res_bind_ok in Hok as ([] & _ & Hk).
  rewrite Hi in Hin. apply hasExchange_ok in Hin as (x & -> & Hx). destruct (Exi x eq_refl) as [Hxc Ex]. rewrite Ex in Hk.
  assert (usedQueue cfg = qi) as Hu by (unfold usedQueue; by rewrite Ht).
  unfold buildExchangeToQueueBroker. apply triple_open. rewrite Hi at 1. flags Hqi. apply triple_deref. unflag. apply triple_declare.
  intros queue Hqueue. eapply triple_seq; [eapply bindInputQueue_holds; try done|].
  { intros Hkeys. destruct (decide (eType x = "fanout"%string)) as [|Hf]; [done|]. by rewrite decide_True in Hk. }
  apply triple_qos. apply triple_ret. intros s H. unfold connected, confirms. rewrite Hu, Ht.
  cbn [config inputQueue output]. untype. split_and!; try done.
  eapply holds_sub, H. intros c. unfold topology, queueCall. rewrite Ht, Hu, Ex. untype. unfold flag. rewrite Hd, Ha, He, Hn.
  cbn [default]. set_solver.
Qed.

Lemma exchangeToExchangeBroker_spec cfg : settled cfg -> Type_ cfg = "e-e"%string -> triple (.= fresh) (connectExchangeToExchangeBroker cfg) (connected cfg).
Proof.
  intros Hs Ht. destruct (settled_parts cfg Hs) as (qi & xi & qo & xo & Hi & Ho & Hqi & Hqo & Eqi & Eqo & Exi & Exo).
  unfold connectExchangeToExchangeBroker. apply triple_check.
  { unfold newExchangeToExchangeBroker, hasURL, hasExchange. rewrite Hi, Ho. cbn. destruct xi, xo; cbn; by repeat case_decide. }
  intros Hok. apply res_bind_ok in Hok as ([] & Hin & Hok). apply res_bind_ok in Hok as ([] & Hout & Hok).
  apply res_bind_ok in Hok as ([] & _ & Hk).
  rewrite Hi in Hin. apply hasExchange_ok in Hin as (x & -> & Hx). destruct (Exi x eq_refl) as [Hxc Ex]. rewrite Ex in Hk.
  rewrite Ho in Hout. apply hasExchange_ok in Hout as (y & -> & Hy). destruct (Exo y eq_refl) as [Hyc Ey].
  assert (usedQueue cfg = qi) as Hu by (unfold usedQueue; by rewrite Ht).
  unfold buildExchangeToExchangeBroker. apply triple_open. rewrite Hi at 1. flags Hqi. apply triple_deref. cbv zeta. apply triple_declare.
  intros queue Hqueue. eapply triple_seq; [eapply bindInputQueue_holds; try done|].
  { intros Hkeys. by rewrite decide_True in Hk. }
  apply triple_qos. rewrite Ho. apply triple_deref. eapply triple_seq; [by apply declareExchange_holds|].
  apply triple_ret. intros s H. unfold connected, confirms. rewrite Hu, Ht, Ey.
  cbn [config inputQueue output]. untype. split_and!; try done.
  eapply holds_sub, H. intros c. unfold topology, queueCall. rewrite Ht, Hu, Ex, Ey. untype. unfold flag. rewrite Hd, Ha, He, Hn.
  assert ((if decide ("e-e" = "e-e" /\ qName qi = "") then true else default false (Some x2))%string = if decide (qName qi = "")%string then true else default false (Some x2)) as -> by (repeat case_decide; tauto).
  cbn [default]. set_solver.
Qed.

(** The kinds of broker a configuration can name. *)
Lemma connectBroker_spec cfg : settled cfg -> triple (.= fresh) (connectBroker cfg) (connected cfg).
Proof.
  intros Hs. unfold connectBroker. repeat (case_decide; [by (apply queueBroker_spec || apply queueToQueueBroker_spec || apply queueToExchangeBroker_spec
    || apply exchangeToQueueBroker_spec || apply exchangeToExchangeBroker_spec)|]). by intros s ->.
Qed.

(** C37. Whatever the server does and whenever it fails, [NewBroker] either returns
    with a connection and its two channels open, confirms on if they are asked
    for, and all of [topology] made: the queue it consumes from, declared; each
    exchange its type names, declared; where it reads an exchange, its queue
    bound to every routing key and to the one of the ends of stream; the
    prefetch set.  Or it returns an error with nothing left open.  The
    constructors dereference no setting that is missing.  The queue that a
    "q-q" or an "e-q" broker sends to is not among what it declares: that is
    left to the broker that reads it. *)
Theorem broker_connects cfg r s : settled cfg -> connectBroker cfg fresh = (r, s) ->
  match r with Ok b => connected cfg b s | Err _ => live s = ∅ | Panic _ => False end.
Proof. intros Hs H. pose proof (connectBroker_spec cfg Hs fresh eq_refl) as Hc. rewrite H in Hc. by destruct r. Qed.

(** How a publishing ended for the server: it took it, and confirmed it if it was asked to. *)
Definition delivered (persistent : bool) (before : list call) (c : call) : Prop :=
  answer before c = None /\ (persistent = true -> confirmed (before ++ [c]) = Acked).
(** The connection is gone, or no confirmation came in time. *)
Definition lost (persistent : bool) (before : list call) (c : call) : Prop :=
  (exists e, answer before c = Some e /\ errors_Is e ErrClosed = true) \/
  (answer before c = None /\ persistent = true /\ confirmed (before ++ [c]) = TimedOut).
Lemma publishMessage_spec persistent x key m s r s' : (persistent = true -> confirming s = true) ->
  publishMessage persistent x key m s = (r, s') ->
  let c := Publish x key (contentTypeOrDefault m) persistent (msgBody m) in
  calls s' = calls s ++ [c] /\
  (r = Ok tt <-> delivered persistent (calls s) c) /\
  (r = Err ErrBrokerDisconnected <-> lost persistent (calls s) c) /\
  (r = Ok tt \/ r = Err ErrBrokerDisconnected \/ r = Err ErrBrokerMessage).
Proof.
  assert (ErrBrokerDisconnected <> ErrBrokerMessage) as Hne by done.
  intros Hp H c. unfold publishMessage, ask, mbind, M_bind in H. fold c in H. unfold delivered, lost. destruct (answer (calls s) c) as [e|] eqn:E.
  - injection H as <- <-. split; [done|]. unfold classifyPublishErr. destruct (errors_Is e ErrClosed) eqn:Ee; naive_solver congruence.
  - destruct persistent; [|injection H as <- <-; naive_solver]. unfold getS, deref, liftR in H. cbn in H. rewrite Hp in H by done. cbn in H.
    destruct (confirmed _) eqn:Ec in H; injection H as <- <-; cbn; rewrite Ec; naive_solver congruence.
Qed.

(** Where a broker sends a message, and whether it does: an exchange that is not
    a fanout needs a routing key. *)
Definition destination (cfg : BrokerConfig) (m : Message) : string * string :=
  if isOutputExchangeType (Type_ cfg) then (eName (outExchange cfg), msgKey m)
  else (""%string, if decide (Type_ cfg = "queue"%string) then qName (usedQueue cfg) else qName (outQueue cfg)).
Definition routable (cfg : BrokerConfig) (m : Message) : bool :=
  negb (isOutputExchangeType (Type_ cfg)) || bool_decide (msgKey m <> ""%string) || bool_decide (eType (outExchange cfg) = "fanout"%string).
Definition publishing (cfg : BrokerConfig) (m : Message) : call :=
  Publish (destination cfg m).1 (destination cfg m).2 (contentTypeOrDefault m) (persistentFromOutput cfg) (msgBody m).

(** C38. [Send] hands the server one publishing with the exchange and the
    routing key of the configuration, unless the broker is closed or the
    exchange needs a key that the message lacks; it returns no error exactly when it
    published, the server took the message, and, where it is persistent,
    confirmed it; it reports a lost connection exactly when the connection was
    closed or no confirmation came in time, and a message error otherwise.  It never panics, provided
    that a broker of type "queue" that sends persistent messages also enabled
    confirms, for which that constructor looks at another setting:
    [queue_broker_send_panics] has the case in which it did not. *)
Theorem send_confirmed cfg b s0 s closed m r s' : settled cfg ->
  connectBroker cfg fresh = (Ok b, s0) -> (confirming s0 = true -> confirming s = true) ->
  (Type_ cfg = "queue"%string -> persistentFromOutput cfg = true -> flag (Persistent (usedQueue cfg)) = true) ->
  sendVia closed b m s = (r, s') ->
  let c := publishing cfg m in let p := persistentFromOutput cfg in
  let published := closed = false /\ routable cfg m = true in
  (published -> calls s' = calls s ++ [c]) /\ (~ published -> calls s' = calls s) /\
  (r = Ok tt <-> published /\ delivered p (calls s) c) /\
  (r = Err ErrBrokerDisconnected <-> published /\ lost p (calls s) c) /\
  (r = Ok tt \/ r = Err ErrBrokerDisconnected \/ r = Err ErrBrokerMessage).
Proof.
  intros Hs Hc Hl Hq H. pose proof (connectBroker_spec cfg Hs fresh eq_refl) as Hb. rewrite Hc in Hb.
  destruct Hb as ((_ & Hcf & _) & Hcfg & _ & Hout). rewrite Hcf in Hl.
  assert (persistentFromOutput cfg = true -> confirming s = true) as Hp.
  { intros Hp. apply Hl. unfold confirms. case_decide; auto. }
  assert (ErrBrokerDisconnected <> ErrBrokerMessage) as Hne by done.
  unfold publishing, destination, routable. unfold sendVia, sendToExchange, sendToQueue in H. rewrite Hcfg in H.
  destruct closed; [destruct (isOutputExchangeType _); injection H as <- <-; naive_solver congruence|].
  destruct (isOutputExchangeType (Type_ cfg)); [case_decide as Hk|].
  - injection H as <- <-. rewrite bool_decide_eq_false_2, bool_decide_eq_false_2 by tauto. naive_solver congruence.
  - apply publishMessage_spec in H; [|done]. rewrite Hout in H. cbv zeta. cbn [fst snd].
    assert (negb true || bool_decide (msgKey m <> "")%string || bool_decide (eType (outExchange cfg) = "fanout"%string) = true) as ->.
    { cbn. apply orb_true_iff. rewrite !bool_decide_eq_true. destruct (decide (msgKey m = ""%string)), (decide (eType (outExchange cfg) = "fanout"%string)); tauto. }
    naive_solver.
  - apply publishMessage_spec in H; [|done]. rewrite Hout in H. cbv zeta. cbn [fst snd negb orb]. naive_solver.
Qed.
End Amqp.

(** ** Examples *)
(** A server that accepts everything; one that fails at its [n]th call. *)
Definition server (n : nat) : AmqpLib :=
  {| answer before _ := if decide (length before = n) then Some (ErrMsg "refused") else None; ErrClosed := ErrMsg "channel/connection is not open";
     serverName _ := "amq.gen-1"%string; confirmed _ := Acked; parseURL _ := Some ("amqp", "rabbitmq:5672")%string |}.
(** The broker of the second replica of [Config]'s example, with its defaults. *)
Definition agg_ready : BrokerConfig := match applyBrokerDefaults (sysBroker system_yaml) (agg_broker 1 "sag") with Ok cfg => cfg | _ => newBroker end.
Lemma agg_settled : settled agg_ready.
Proof.
  destruct (applyBrokerDefaults_ready (sysBroker system_yaml) (agg_broker 1 "sag") agg_ready) as [H _]; [|exact H]. vm_compute. reflexivity.
Qed.

Definition dialled (n : nat) : res unit * amqp := connectRabbit (lib := server n) "amqp://rabbitmq:5672/" fresh.
(** The second attempt succeeds. *)
Lemma connect_retries_witness : let lib := server 0 in let url := "amqp://rabbitmq:5672/"%string in
  validURL url /\ is_ok (dialled 0).1 = true /\ calls (dialled 0).2 = [Dial url; Dial url; Channel ConsumeChannel] /\
  slept (dialled 0).2 = [(1%nat, 500 * Millisecond)] /\
  (validURL url -> exists k, (k < 10)%nat /\ (forall j, (j < k)%nat -> answer (replicate j (Dial url)) (Dial url) <> None) /\
     slept (dialled 0).2 = take k backoff /\ reached url k (dialled 0).1 (dialled 0).2).
Proof.
  intros lib url. split; [by split|]. do 3 (split; [vm_compute; reflexivity|]).
  exact (proj2 (connect_retries (lib := server 0) "amqp://rabbitmq:5672/" _ _ (surjective_pairing _))).
Defined.

#[local] Abbreviation run n := (connectBroker (lib := server n) agg_ready fresh).
Lemma broker_connects_witness :
  is_ok (run 100).1 = true /\ bool_decide (QueueBind "sag_1" "sag_1" "e_q4_agg" ∈ calls (run 100).2) = true /\
  match (run 100).1 with Ok b => connected (lib := server 100) agg_ready b (run 100).2 | Err _ => live (run 100).2 = ∅ | Panic _ => False end /\
  is_ok (run 5).1 = false /\ calls (run 5).2 <> [] /\
  match (run 5).1 with Ok b => connected (lib := server 5) agg_ready b (run 5).2 | Err _ => live (run 5).2 = ∅ | Panic _ => False end.
Proof.
  split; [vm_compute; reflexivity|]. split; [vm_compute; reflexivity|].
  split; [exact (broker_connects (lib := server 100) agg_ready _ _ agg_settled (surjective_pairing _))|].
  split; [vm_compute; reflexivity|]. split; [vm_compute; discriminate|].
  exact (broker_connects (lib := server 5) agg_ready _ _ agg_settled (surjective_pairing _)).
Defined.

Lemma send_confirmed_witness :
  let m := mkMsg "sag_0" [Byte.x01] "application/octet-stream" in
  exists b s0, connectBroker (lib := server 100) agg_ready fresh = (Ok b, s0) /\
  let lib := server 100 in
  let sent := sendVia false b m s0 in let c := publishing agg_ready m in let p := persistentFromOutput agg_ready in
  let published := false = false /\ routable agg_ready m = true in
  c = Publish "e_q4_acc" "sag_0" "application/octet-stream" p [Byte.x01] /\ sent.1 = Ok tt /\ routable agg_ready m = true /\
  (published -> calls sent.2 = calls s0 ++ [c]) /\ (~ published -> calls sent.2 = calls s0) /\
  (sent.1 = Ok tt <-> published /\ delivered p (calls s0) c) /\
  (sent.1 = Err ErrBrokerDisconnected <-> published /\ lost p (calls s0) c) /\
  (sent.1 = Ok tt \/ sent.1 = Err ErrBrokerDisconnected \/ sent.1 = Err ErrBrokerMessage).
Proof.
  intros m. assert (exists b s0, run 100 = (Ok b, s0)) as (b & s0 & E) by (do 2 eexists; vm_compute; reflexivity).
  exists b, s0. split; [exact E|]. cbv zeta. split; [vm_compute; reflexivity|]. split; [|split; [vm_compute; reflexivity|]].
  - vm_compute in E. injection E as <- <-. vm_compute. reflexivity.
  - apply (send_confirmed (lib := server 100) agg_ready b s0 s0 false m); [apply agg_settled|exact E|done| |apply surjective_pairing].
    intros H. vm_compute in H. discriminate.
Defined.

(** The broker on one queue turns confirms on by the settings of its input, and
    waits for them by those of its output: when only the output is persistent,
    the first message it sends makes it dereference the confirmation that the
    library did not give. *)
Definition own_queue (persistent : bool) : QueueEndpoint := mkQueue "q" 0 None None None None None (Some persistent).
Definition one_queue : BrokerConfig :=
  mkBroker "queue" "" (Some (mkEndpoint (Some (own_queue false)) None)) (Some (mkEndpoint (Some (own_queue true)) None)) 0 "" 0 0 "" 0 "".
Theorem queue_broker_send_panics : exists cfg b s p,
  applyBrokerDefaults None one_queue = Ok cfg /\ connectBroker (lib := server 100) cfg fresh = (Ok b, s) /\
  (sendVia (lib := server 100) false b (mkMsg "" [] "") s).1 = Panic p.
Proof. do 4 eexists. split; [vm_compute; reflexivity|]. split; vm_compute; reflexivity. Qed.
