(* ===== verification/Consuming.v ===== *)
(** * The RabbitMQ wrappers: goroutines that consume, stop, send and close
    ([src/common/broker], [common/eof/eof_broker.go],
    [common/broker/scattergather/accounts_exchange.go])

    The methods of a broker run in any number of goroutines.  What they do
    under the mutex is one step; between two steps anything else can happen:
    the other goroutines, deliveries, the server closing the channel.  The five
    wrappers share one machine, [step], over what each asks of the library; the
    broker of control messages and the exchange of heavy accounts have another,
    [fstep], since they keep a flag and set it before they ask. *)

From S2P Require Import Prelude Models Config Amqp.

(** [consumerState] of [state.go] *)
Inductive consumerState := idle | consuming | closed.
#[global] Instance consumerState_eq_dec : EqDecision consumerState.
Proof. solve_decision. Defined.

(** Where a goroutine is.  [Stopping]'s flag tells [Close] from
    [StopConsuming]. *)
Inductive pc :=
  | Starting                                  (** [StartConsuming] is called *)
  | Requesting                                (** it found the broker idle *)
  | Entering (newTag : string)                (** the library has a consumer *)
  | Iterating                                 (** in the loop: in the callback, or about to wait *)
  | Selecting (done : option nat)             (** waiting in [select]; the channel is the field's value on entry *)
  | Stopping (closing : bool)                 (** [StopConsuming] is called *)
  | Cancelling (closing : bool) (oldTag : string)
  | Releasing (failed : bool)                 (** [Close]: the channels, the connection *)
  | Finishing (failed : bool)                 (** [Close]: the state *)
  | Sending (m : Message)                     (** [Send] is called *)
  | Publishing (m : Message)
  | Returned (r : res unit).

(** The mutable fields of a broker, its goroutines and what they handled.  A
    channel of type [chan struct{}] is a number; [closedDone] are those closed. *)
Record world := mkWorld {
  state : consumerState; consumerTag : string; consumeDone : option nat; closedDone : gset nat; nextDone : nat;
  crashed : bool; lib_ : amqp; threads : gmap nat pc; handled : list (nat * Message)
}.
Definition setThread (i : nat) (p : pc) (w : world) : world :=
  mkWorld (state w) (consumerTag w) (consumeDone w) (closedDone w) (nextDone w) (crashed w) (lib_ w) (<[i := p]> (threads w)) (handled w).
Definition setState (st : consumerState) (tag : string) (w : world) : world :=
  mkWorld st tag (consumeDone w) (closedDone w) (nextDone w) (crashed w) (lib_ w) (threads w) (handled w).
Definition setLib (l : amqp) (w : world) : world :=
  mkWorld (state w) (consumerTag w) (consumeDone w) (closedDone w) (nextDone w) (crashed w) l (threads w) (handled w).
(** [make(chan struct{})] *)
Definition makeDone (w : world) : world :=
  mkWorld (state w) (consumerTag w) (Some (nextDone w)) (closedDone w) (S (nextDone w)) (crashed w) (lib_ w) (threads w) (handled w).
(** [close(consumeDone)] panics on a nil or a closed channel. *)
Definition closeDone (w : world) : world :=
  let ok := match consumeDone w with Some c => bool_decide (c ∉ closedDone w) | None => false end in
  mkWorld (state w) (consumerTag w) (consumeDone w) (match consumeDone w with Some c => {[c]} ∪ closedDone w | None => closedDone w end)
    (nextDone w) (crashed w || negb ok) (lib_ w) (threads w) (handled w).
(** A panic that nobody recovers ends the process. *)
Definition crash (w : world) : world :=
  mkWorld (state w) (consumerTag w) (consumeDone w) (closedDone w) (nextDone w) true (lib_ w) (threads w) (handled w).
Definition logMessage (i : nat) (m : Message) (w : world) : world :=
  mkWorld (state w) (consumerTag w) (consumeDone w) (closedDone w) (nextDone w) (crashed w) (lib_ w) (threads w) (handled w ++ [(i, m)]).
Definition initial (l : amqp) : world := mkWorld idle "" None ∅ 0 false l ∅ [].

(** What happens: a method is called in a new goroutine; a goroutine goes on
    ([nano] is the clock's part of a consumer's tag); one that waits in the
    loop's [select] gets a delivery, sees its deliveries end, or sees its
    channel closed. *)
Inductive event :=
  | Call (i : nat) (p : pc)
  | Step (i : nat) (nano : string)
  | Deliver (i : nat) (m : Message)
  | Ended (i : nat)
  | Quit (i : nat).
Definition entry (p : pc) : bool := match p with Starting | Stopping _ | Sending _ => true | _ => false end.

(** What differs between the wrappers. *)
Record methods := mkMethods { queueName : string; request : string -> M amqp unit; publish : Message -> M amqp unit }.

Section Machine.
Context {lib : AmqpLib} (ms : methods).

(** A call of the library in goroutine [i]; [k] says what follows. *)
Definition calling (i : nat) (m : M amqp unit) (k : res unit -> pc) (w : world) : world :=
  let (r, l) := m (lib_ w) in
  match r with
  | Panic p => setThread i (Returned (Panic p)) (crash (setLib l w))
  | _ => setThread i (k r) (setLib l w)
  end.
Definition go (i : nat) (nano : string) (p : pc) (w : world) : option world :=
  match p with
  | Starting =>
      Some (setThread i (match state w with closed => Returned (Err ErrBrokerMessage) | consuming => Returned (Ok tt) | idle => Requesting end) w)
  | Requesting =>
      let tag := (queueName ms +:+ "-" +:+ nano)%string in
      Some (calling i (request ms tag) (fun r => match r with Ok _ => Entering tag | _ => Returned r end) w)
  | Entering tag => Some (setThread i Iterating (makeDone (setState consuming tag w)))
  | Iterating => Some (setThread i (Selecting (consumeDone w)) w)
  | Stopping closing =>
      match state w with
      | consuming => Some (setThread i (Cancelling closing (consumerTag w)) (setState idle "" (closeDone w)))
      | _ => Some (setThread i (if closing then Releasing false else Returned (Ok tt)) w)
      end
  | Cancelling closing tag =>
      Some (calling i (r ← ask (Cancel tag); match r with Some e => failM e | None => mret tt end)
        (fun r => let failed := negb (is_ok r) in
          if closing then Releasing failed else Returned (if failed then Err ErrBrokerDisconnected else Ok tt)) w)
  | Releasing failed =>
      Some (calling i
        (c ← ask (CloseResource ConsumeChannel); p ← ask (CloseResource ProduceChannel); d ← ask (CloseResource Conn);
         match c, p, d with None, None, None => mret tt | _, _, _ => failM ErrBrokerClose end)
        (fun r => Finishing (failed || negb (is_ok r))) w)
  | Finishing failed => Some (setThread i (Returned (if failed then Err ErrBrokerClose else Ok tt)) (setState closed "" w))
  | Sending m => Some (setThread i (match state w with closed => Returned (Err ErrBrokerMessage) | _ => Publishing m end) w)
  | Publishing m => Some (calling i (publish ms m) Returned w)
  | Selecting _ | Returned _ => None
  end.
Definition step (w : world) (e : event) : option world :=
  if crashed w then None else
  match e with
  | Call i p => if entry p && bool_decide (threads w !! i = None) then Some (setThread i p w) else None
  | Step i nano => p ← threads w !! i; go i nano p w
  | Deliver i m => match threads w !! i with Some (Selecting _) => Some (setThread i Iterating (logMessage i m w)) | _ => None end
  | Ended i =>
      match threads w !! i with
      | Some (Selecting _) =>
          let w := match state w with consuming => setState closed (consumerTag w) w | _ => w end in
          Some (setThread i (Returned (Err ErrBrokerDisconnected)) w)
      | _ => None
      end
  | Quit i =>
      match threads w !! i with
      | Some (Selecting (Some c)) => if bool_decide (c ∈ closedDone w) then Some (setThread i (Returned (Ok tt)) w) else None
      | _ => None
      end
  end.
Fixpoint exec (es : list event) (w : world) : option world :=
  match es with [] => Some w | e :: es' => w' ← step w e; exec es' w' end.
End Machine.

(** ** The five wrappers *)
Section Wrappers.
Context {lib : AmqpLib}.
Definition consumeErr (e : error) : error := if errors_Is e ErrClosed then ErrBrokerDisconnected else ErrBrokerMessage.
Definition consume (b : wrapper) (tag : string) : M amqp unit :=
  r ← ask (Consume (inputQueue b) tag);
  match r with Some e => failM (consumeErr e) | None => mret tt end.
(** The broker between two queues sets the prefetch again. *)
Definition qosAndConsume (b : wrapper) (tag : string) : M amqp unit :=
  let n := Prefetch (inQueue (config b)) in
  _ ← (if 0 <? n then r ← ask (Qos n); match r with Some e => failM (consumeErr e) | None => mret tt end else mret tt);
  consume b tag.
Definition queueBroker_step (b : wrapper) : world -> event -> option world := step (mkMethods (inputQueue b) (consume b) (sendToQueue false b)).
Definition queueToQueueBroker_step (b : wrapper) : world -> event -> option world :=
  step (mkMethods (inputQueue b) (qosAndConsume b) (sendToQueue false b)).
Definition queueToExchangeBroker_step (b : wrapper) : world -> event -> option world :=
  step (mkMethods (inputQueue b) (consume b) (sendToExchange false b)).
Definition exchangeToQueueBroker_step (b : wrapper) : world -> event -> option world :=
  step (mkMethods (inputQueue b) (consume b) (sendToQueue false b)).
Definition exchangeToExchangeBroker_step (b : wrapper) : world -> event -> option world :=
  step (mkMethods (inputQueue b) (consume b) (sendToExchange false b)).
End Wrappers.

(** ** In every interleaving *)
Section Invariant.
Context {lib : AmqpLib} (ms : methods).

(** Whether a call of [StartConsuming] has not come to its loop yet, and whether
    it found the broker idle. *)
Definition onTheWay (p : pc) : bool := match p with Starting | Requesting | Entering _ => true | _ => false end.
Definition passed (p : pc) : bool := match p with Requesting | Entering _ => true | _ => false end.
Definition loops (p : pc) : bool := match p with Iterating | Selecting _ => true | _ => false end.
(** [StartConsuming] is called only when no other call of it is on its way. *)
Definition alone (w : world) (e : event) : Prop :=
  match e with Call _ Starting => forall j p, threads w !! j = Some p -> onTheWay p = false | _ => True end.
Fixpoint startsInTurn (es : list event) (w : world) : Prop :=
  match es with
  | [] => True
  | e :: es' => alone w e /\ match step ms w e with Some w' => startsInTurn es' w' | None => True end
  end.

(** *** What holds whoever calls what *)
Record inv (w : world) : Prop := mkInv {
  inv_running : crashed w = true -> exists i p, threads w !! i = Some (Returned (Panic p));
  inv_done : forall c, consumeDone w = Some c -> (c < nextDone w)%nat;
  inv_closed : forall c, c ∈ closedDone w -> (c < nextDone w)%nat;
  inv_consuming : state w = consuming -> exists c, consumeDone w = Some c /\ c ∉ closedDone w;
  inv_idle : state w = idle -> forall c, consumeDone w = Some c -> c ∈ closedDone w
}.

Lemma initial_inv l : inv (initial l).
Proof. split; try done; cbn; set_solver. Qed.
Lemma setThread_inv i p w : crashed w = false -> inv w -> inv (setThread i p w).
Proof. intros Hc []. split; try done. cbn. by rewrite Hc. Qed.
Lemma logMessage_inv i m w : inv w -> inv (logMessage i m w).
Proof. by intros []. Qed.
Lemma calling_inv i m k w : crashed w = false -> inv w -> inv (calling i m k w).
Proof.
  intros Hc []. unfold calling. destruct (m (lib_ w)) as [[] l]; split; cbn; try done; try by rewrite Hc.
  intros _. eexists i, _. by rewrite lookup_insert_eq.
Qed.
Lemma closed_inv tag w : inv w -> inv (setState closed tag w).
Proof. by intros []. Qed.
Lemma enter_inv tag w : inv w -> inv (makeDone (setState consuming tag w)).
Proof.
  intros [H1 H2 H3 H4 H5]. split; cbn; try done.
  - intros c [= <-]. lia.
  - intros c Hc. apply H3 in Hc. lia.
  - intros _. eexists. split; [done|]. intros Hc. apply H3 in Hc. lia.
Qed.
Lemma stop_inv w : inv w -> crashed w = false -> state w = consuming ->
  inv (setState idle "" (closeDone w)) /\ crashed (setState idle "" (closeDone w)) = false.
Proof.
  intros [H1 H2 H3 H4 H5] Hf Hs. destruct (H4 Hs) as (c & Hc & Hn). unfold closeDone. rewrite Hc, bool_decide_eq_true_2, Hf by done.
  split; [|done]. split; cbn; try done.
  - intros d [= <-]. auto.
  - intros d. rewrite elem_of_union, elem_of_singleton. intros [->|Hd]; auto.
  - intros _ d [= <-]. set_solver.
Qed.
#[local] Create HintDb consuming.
#[local] Hint Resolve setThread_inv calling_inv closed_inv enter_inv logMessage_inv : consuming.

Lemma step_inv w e w' : inv w -> step ms w e = Some w' -> inv w'.
Proof.
  unfold step. intros Hw H. destruct (crashed w) eqn:Hf; [done|].
  destruct e as [i p|i nano|i m|i|i]; [|destruct (threads w !! i) as [p|] eqn:Ei; [|done]; cbn [mbind option_bind] in H ..].
  - case_match; [|done]. injection H as <-. auto with consuming.
  - destruct p; cbn [go] in H; try done; try (injection H as <-; auto with consuming; fail).
    destruct (state w) eqn:E; injection H as <-; auto with consuming.
    apply setThread_inv; by apply stop_inv.
  - destruct p; try done. injection H as <-. auto with consuming.
  - destruct p; try done. injection H as <-. destruct (state w) eqn:E; auto with consuming.
  - destruct p as [| | | |[c|]| | | | | | |]; try done. case_bool_decide; [|done]. injection H as <-. auto with consuming.
Qed.

(** *** When calls of [StartConsuming] come one after the other *)
Record tidy (w : world) : Prop := mkTidy {
  tidy_one : forall i j p q, threads w !! i = Some p -> threads w !! j = Some q -> onTheWay p = true -> onTheWay q = true -> i = j;
  tidy_passed : forall i p, threads w !! i = Some p -> passed p = true ->
    state w <> consuming /\ forall c, consumeDone w = Some c -> c ∈ closedDone w;
  tidy_loops : forall i p, threads w !! i = Some p -> loops p = true -> is_Some (consumeDone w);
  tidy_selects : forall i o, threads w !! i = Some (Selecting o) ->
    exists c, o = Some c /\ (c ∈ closedDone w \/ consumeDone w = Some c)
}.
Lemma initial_tidy l : tidy (initial l).
Proof. split; cbn; intros *; by rewrite lookup_empty. Qed.
(** A thread moves on and neither comes on the way nor into the loop. *)
Lemma setThread_tidy i p w : onTheWay p = false -> loops p = false -> tidy w -> tidy (setThread i p w).
Proof.
  intros Ho Hl [H1 H2 H3 H4]. split; cbn.
  - intros j k q q' Hj Hk Hq Hq'. apply lookup_insert_Some in Hj as [[_ <-]|[_ Hj]]; [by rewrite Ho in Hq|].
    apply lookup_insert_Some in Hk as [[_ <-]|[_ Hk]]; [by rewrite Ho in Hq'|]. by eapply H1.
  - intros j q [[_ <-]|[_ Hj]]%lookup_insert_Some Hq; [by destruct p|]. by eapply H2.
  - intros j q [[_ <-]|[_ Hj]]%lookup_insert_Some Hq; [by rewrite Hl in Hq|]. by eapply H3.
  - intros j o [[_ ->]|[_ Hj]]%lookup_insert_Some; [done|]. by eapply H4.
Qed.
(** The thread that is on its way stays on it. *)
Lemma advance_tidy i p q w : tidy w -> threads w !! i = Some p -> onTheWay p = true -> onTheWay q = true ->
  (passed q = true -> state w <> consuming /\ forall c, consumeDone w = Some c -> c ∈ closedDone w) -> tidy (setThread i q w).
Proof.
  intros [H1 H2 H3 H4] Hi Hp Hq Hs. split; cbn.
  - intros j k a b Hj Hk Ha Hb. apply lookup_insert_Some in Hj as [[<- <-]|[? Hj]], Hk as [[<- <-]|[? Hk]]; try done; by eapply H1.
  - intros j a [[_ <-]|[_ Hj]]%lookup_insert_Some Ha; [by apply Hs|]. by eapply H2.
  - intros j a [[_ <-]|[_ Hj]]%lookup_insert_Some Ha; [by destruct q|]. by eapply H3.
  - intros j o [[_ ->]|[_ Hj]]%lookup_insert_Some; [done|]. by eapply H4.
Qed.
Lemma loop_tidy i p q w : tidy w -> threads w !! i = Some p -> loops p = true -> loops q = true ->
  (forall o, q = Selecting o -> o = consumeDone w) -> tidy (setThread i q w).
Proof.
  intros [H1 H2 H3 H4] Hi Hp Hq Hs. destruct (H3 i p Hi Hp) as [d Hd]. split; cbn.
  - intros j k a b Hj Hk Ha Hb. apply lookup_insert_Some in Hj as [[_ <-]|[_ Hj]]; [by destruct q|].
    apply lookup_insert_Some in Hk as [[_ <-]|[_ Hk]]; [by destruct q|]. by eapply H1.
  - intros j a [[_ <-]|[_ Hj]]%lookup_insert_Some Ha; [by destruct q|]. by eapply H2.
  - by eexists.
  - intros j o [[_ ->]|[_ Hj]]%lookup_insert_Some; [|by eapply H4]. exists d. by rewrite (Hs o eq_refl), Hd; auto.
Qed.
Lemma crash_tidy w : tidy w -> tidy (crash w).
Proof. by intros []. Qed.
Lemma setLib_tidy l w : tidy w -> tidy (setLib l w).
Proof. by intros []. Qed.
Lemma logMessage_tidy i m w : tidy w -> tidy (logMessage i m w).
Proof. by intros []. Qed.
Lemma closed_tidy tag w : tidy w -> tidy (setState closed tag w).
Proof. intros [H1 H2 H3 H4]. split; [done| |done..]. intros i p Hi Hp. by destruct (H2 i p Hi Hp). Qed.
Lemma calling_tidy i m k w : (forall r, onTheWay (k r) = false /\ loops (k r) = false) -> tidy w -> tidy (calling i m k w).
Proof.
  intros Hk Hw. unfold calling. destruct (m (lib_ w)) as [r l].
  destruct r; apply setThread_tidy; try done; try apply Hk; auto using setLib_tidy, crash_tidy.
Qed.
Lemma stop_tidy w : inv w -> state w = consuming -> tidy w -> tidy (setState idle "" (closeDone w)).
Proof.
  intros Hv Hs [H1 H2 H3 H4]. destruct (inv_consuming w Hv Hs) as (c & Hc & _). unfold closeDone. rewrite Hc. split; cbn.
  - done.
  - intros i p Hi Hp. by destruct (H2 i p Hi Hp) as [[] _].
  - intros i p Hi Hp. by eexists.
  - intros i o Hi. destruct (H4 i o Hi) as (d & -> & Hd). rewrite Hc in Hd. exists d. split; [done|]. destruct Hd as [Hd|[= ->]]; [left; set_solver|by right].
Qed.
Lemma enter_tidy i tag tag' w : tidy w -> threads w !! i = Some (Entering tag') ->
  tidy (setThread i Iterating (makeDone (setState consuming tag w))).
Proof.
  intros [H1 H2 H3 H4] Hi. destruct (H2 i _ Hi eq_refl) as [Hn Hd].
  assert (forall j p, threads w !! j = Some p -> onTheWay p = true -> j = i) as Hone.
  { intros j p Hj Hp. by eapply (H1 j i). }
  split; cbn.
  - intros j k a b [[_ <-]|[Hji Hj]]%lookup_insert_Some Hk Ha Hb; [done|]. by edestruct Hji; eauto.
  - intros j a [[_ <-]|[Hji Hj]]%lookup_insert_Some Ha; [done|]. destruct Hji. symmetry. eapply Hone; [done|by destruct a].
  - done.
  - intros j o [[_ ?]|[_ Hj]]%lookup_insert_Some; [done|]. destruct (H4 j o Hj) as (d & -> & [Hc|Hc]); eauto.
Qed.

Lemma step_tidy w e w' : inv w -> tidy w -> alone w e -> step ms w e = Some w' -> tidy w'.
Proof.
  unfold step. intros Hv Hw Ha H. destruct (crashed w) eqn:Hf; [done|].
  destruct e as [i p|i nano|i m|i|i]; [|destruct (threads w !! i) as [p|] eqn:Ei; [|done]; cbn [mbind option_bind] in H ..].
  - destruct (entry p && _) eqn:E; [|done]. injection H as <-. apply andb_true_iff in E as [E _].
    destruct p; try done; try by apply setThread_tidy.
    destruct Hw as [H1 H2 H3 H4]. cbn in Ha. split; cbn.
    + intros j k a b [[<- <-]|[? Hj]]%lookup_insert_Some [[<- <-]|[? Hk]]%lookup_insert_Some Hp Hq; try done; by (rewrite (Ha _ _ Hj) in Hp || rewrite (Ha _ _ Hk) in Hq).
    + intros j a [[_ <-]|[_ Hj]]%lookup_insert_Some Hp; [done|]. by eapply H2.
    + intros j a [[_ <-]|[_ Hj]]%lookup_insert_Some Hp; [done|]. by eapply H3.
    + intros j o [[_ ?]|[_ Hj]]%lookup_insert_Some; [done|]. by eapply H4.
  - destruct p; cbn [go] in H; try done;
      try (injection H as <-; first [by apply setThread_tidy | by apply calling_tidy; [intros []; cbn; by try destruct closing|] ]; fail).
    + injection H as <-. destruct (state w) eqn:E; try by apply setThread_tidy.
      eapply advance_tidy; [done..|]. intros _. rewrite E. split; [done|]. by apply Hv.
    + injection H as <-. unfold calling. destruct (request ms _ (lib_ w)) as [[[]|e|q] l].
      * eapply advance_tidy; [by apply setLib_tidy|done..|]. intros _. by apply (tidy_passed w Hw i _ Ei).
      * apply setThread_tidy; auto using setLib_tidy.
      * apply setThread_tidy; auto using setLib_tidy, crash_tidy.
    + injection H as <-. by eapply enter_tidy.
    + injection H as <-. eapply loop_tidy; [done..|]. by intros o [= <-].
    + destruct (state w) eqn:E; injection H as <-; try (apply setThread_tidy; by try destruct closing).
      apply setThread_tidy; [done..|]. by apply stop_tidy.
    + injection H as <-. apply setThread_tidy; [done..|]. by apply closed_tidy.
    + injection H as <-. apply setThread_tidy; [by destruct (state w)..|done].
  - destruct p; try done. injection H as <-. eapply loop_tidy; [by apply logMessage_tidy|done..].
  - destruct p; try done. injection H as <-. apply setThread_tidy; [done..|]. destruct (state w); auto using closed_tidy.
  - destruct p as [| | | |[c|]| | | | | | |]; try done. case_bool_decide; [|done]. injection H as <-. by apply setThread_tidy.
Qed.
Lemma exec_inv es w w' : inv w -> exec ms es w = Some w' -> inv w' /\ (tidy w -> startsInTurn es w -> tidy w').
Proof.
  revert w. induction es as [|e es IH]; cbn [exec startsInTurn]; intros w Hw H; [by injection H as <-|].
  destruct (step ms w e) as [w1|] eqn:E; [|done]. destruct (IH w1) as [Hv Ht]; [by eapply step_inv|done|].
  split; [done|]. intros Hd [Ha Hs]. apply Ht; [|done]. exact (step_tidy w e w1 Hw Hd Ha E).
Qed.

(** C40. Goroutines start, stop, send through and close a broker in any
    interleaving, and the server may end the deliveries at any moment.  The
    broker never closes its channel [consumeDone] twice or before it was made:
    only a panic of the library's calls in [Send] or [StartConsuming] ends the
    process.  A call of [StopConsuming] or [Close] leaves the broker not consuming.
    If moreover no two calls of [StartConsuming] overlap before their loops, then whenever
    the broker is idle every goroutine that is still in a loop can leave it
    without another message: the channel it waits on is
    closed, and so is the one it will wait on after its callback. *)
Theorem stops_every_consumer es l w : exec ms es (initial l) = Some w ->
  (crashed w = true -> exists i p, threads w !! i = Some (Returned (Panic p))) /\
  (crashed w = false -> forall i closing nano, threads w !! i = Some (Stopping closing) ->
     exists w', step ms w (Step i nano) = Some w' /\ crashed w' = false /\ state w' <> consuming) /\
  (startsInTurn es (initial l) -> crashed w = false -> state w = idle ->
   forall i p, threads w !! i = Some p ->
     match p with
     | Selecting _ => exists w', step ms w (Quit i) = Some w' /\ threads w' !! i = Some (Returned (Ok tt))
     | Iterating => forall nano, exists w1 w2, step ms w (Step i nano) = Some w1 /\ step ms w1 (Quit i) = Some w2 /\
         threads w2 !! i = Some (Returned (Ok tt))
     | _ => True
     end).
Proof.
  intros H. apply exec_inv in H as [Hv Ht]; [|apply initial_inv]. split; [apply Hv|]. split.
  { intros Hf i closing nano Hi. unfold step. rewrite Hf, Hi. cbn. destruct (state w) eqn:E; eexists; (split; [done|]); cbn; rewrite ?E; try done.
    split; [|done]. by apply (stop_inv w Hv Hf E). }
  intros Hs Hf Hi i p Hp. specialize (Ht (initial_tidy l) Hs). unfold step. rewrite Hf, Hp. destruct p; try done.
  - intros nano. destruct (tidy_loops w Ht i _ Hp eq_refl) as [c Hc]. cbn. rewrite Hc. do 2 eexists. split; [done|].
    cbn. rewrite Hf, lookup_insert_eq, bool_decide_eq_true_2 by by apply Hv. split; [done|]. cbn. by rewrite lookup_insert_eq.
  - destruct (tidy_selects w Ht i _ Hp) as (c & -> & Hc).
    rewrite bool_decide_eq_true_2 by (destruct Hc as [|Hc]; [done|by apply Hv]).
    eexists. split; [done|]. cbn. by rewrite lookup_insert_eq.
Qed.

(** ** A closed broker *)
(** No goroutine is on its way from the check of the state to the loop. *)
Definition settledThreads (w : world) : Prop := forall i p, threads w !! i = Some p -> match p with Requesting | Entering _ => False | _ => True end.
Definition shut (w : world) : Prop := state w = closed /\ settledThreads w.
Lemma shut_thread i p w : match p with Requesting | Entering _ => False | _ => True end -> shut w -> shut (setThread i p w).
Proof. intros Hp [Hs Ht]. split; [done|]. intros j q Hj. cbn in Hj. apply lookup_insert_Some in Hj as [[_ <-]|[_ Hj]]; [done|]. by eapply Ht. Qed.
Lemma shut_state tag w : shut w -> shut (setState closed tag w).
Proof. by intros [_ ?]. Qed.
Lemma shut_calling i m k w : (forall r, match k r with Requesting | Entering _ => False | _ => True end) -> shut w -> shut (calling i m k w).
Proof. intros Hk Hw. unfold calling. destruct (m (lib_ w)) as [[] ?]; (apply shut_thread; [done || apply Hk|done]). Qed.
Lemma step_shut w e w' : shut w -> step ms w e = Some w' -> shut w'.
Proof.
  unfold step. intros Hw H. destruct (crashed w); [done|].
  destruct e as [i p|i nano|i m|i|i]; [|destruct (threads w !! i) as [p|] eqn:Ei; [|done]; cbn [mbind option_bind] in H ..].
  - destruct (entry p && _) eqn:E; [|done]. injection H as <-. apply andb_true_iff in E as [E _].
    apply shut_thread; [|done]. by destruct p.
  - destruct Hw as [Hs Ht]. specialize (Ht i p Ei) as Hp.
    destruct p; cbn [go] in H; try done; rewrite ?Hs in H; injection H as <-;
      first [apply shut_thread; [by try destruct closing|done] | apply shut_calling; [intros []; cbn; by try destruct closing|done]
        | apply shut_thread; [done|]; by apply shut_state].
  - destruct p; try done. injection H as <-. by apply shut_thread.
  - destruct p; try done. injection H as <-. apply shut_thread; [done|].
    destruct Hw as [Hs Ht]. by rewrite Hs.
  - destruct p as [| | | |[c|]| | | | | | |]; try done. case_bool_decide; [|done]. injection H as <-. by apply shut_thread.
Qed.

(** Once a broker is closed and no goroutine is still on its way into the loop,
    it stays closed whatever is called and whatever the server does, and from
    then on [StartConsuming] and [Send] fail without a call of the library. *)
Theorem closed_is_final es w w' : state w = closed -> settledThreads w -> exec ms es w = Some w' ->
  state w' = closed /\
  forall i nano, crashed w' = false -> (threads w' !! i = Some Starting \/ exists m, threads w' !! i = Some (Sending m)) ->
    exists w'', step ms w' (Step i nano) = Some w'' /\ threads w'' !! i = Some (Returned (Err ErrBrokerMessage)) /\ lib_ w'' = lib_ w'.
Proof.
  intros Hs Ht H. assert (shut w') as [Hs' _].
  { assert (shut w) as Hw by done. clear Hs Ht. revert w Hw H. induction es as [|e es IH]; cbn [exec]; intros w Hw H; [by injection H as <-|].
    destruct (step ms w e) as [w1|] eqn:E; [|done]. eapply IH, H. by eapply step_shut. }
  split; [done|]. intros i nano Hf [Hi|[m Hi]]; unfold step; rewrite Hf, Hi; cbn [mbind option_bind go]; rewrite Hs';
    (eexists; split; [done|]; cbn; by rewrite lookup_insert_eq).
Qed.
End Invariant.

(** ** What the code does not prevent *)
Definition machine : methods := mkMethods "q" (fun _ => mret tt) (fun _ => mret tt).
Section Races.
#[local] Abbreviation runs es := (exec (lib := server 1000) machine es (initial fresh)).
(** The last line of [StartConsuming] before the loop does not look at the state
    again: a [Close] that ran since its check is undone. *)
Definition close_race : list event :=
  [Call 1 Starting; Step 1 "7"; Step 1 "7"; Call 2 (Stopping true); Step 2 ""; Step 2 ""; Step 2 ""].
Theorem close_undone : exists w w', runs close_race = Some w /\ state w = closed /\ threads w !! 2%nat = Some (Returned (Ok tt)) /\
  step (lib := server 1000) machine w (Step 1 "7") = Some w' /\ state w' = consuming.
Proof. do 2 eexists. repeat (split; [vm_compute; reflexivity|]). vm_compute. reflexivity. Qed.

(** A goroutine that is in its callback when the consumer is stopped goes on to
    wait on the channel of the next consumer; when its own deliveries end it
    closes the broker, and [StopConsuming] then leaves the next consumer running. *)
Definition stale_race : list event :=
  [Call 1 Starting; Step 1 "7"; Step 1 "7"; Step 1 "7"; Step 1 ""; Deliver 1 (mkMsg "" [] ""); Call 2 (Stopping false); Step 2 ""; Step 2 "";
   Call 3 Starting; Step 3 "8"; Step 3 "8"; Step 3 "8"; Step 3 ""; Step 1 ""; Ended 1; Call 4 (Stopping false); Step 4 ""].
Theorem stale_consumer : exists w, runs stale_race = Some w /\ threads w !! 4%nat = Some (Returned (Ok tt)) /\
  threads w !! 3%nat = Some (Selecting (Some 1%nat)) /\ step (lib := server 1000) machine w (Quit 3) = None.
Proof. eexists. repeat (split; [vm_compute; reflexivity|]). vm_compute. reflexivity. Qed.

(** Two calls of [StartConsuming] find the broker idle at once and both consume;
    a stop closes the channel of the second, and the first waits on: turns of
    [StartConsuming] are needed in [stops_every_consumer]. *)
Definition start_race : list event :=
  [Call 1 Starting; Step 1 ""; Call 2 Starting; Step 2 ""; Step 1 "7"; Step 1 ""; Step 1 ""; Step 2 "8"; Step 2 ""; Step 2 "";
   Call 3 (Stopping false); Step 3 ""; Step 3 ""].
Theorem raced_consumer_stays : exists w, runs start_race = Some w /\ state w = idle /\ threads w !! 3%nat = Some (Returned (Ok tt)) /\
  threads w !! 1%nat = Some (Selecting (Some 0%nat)) /\ step (lib := server 1000) machine w (Quit 1) = None /\
  is_Some (step (lib := server 1000) machine w (Quit 2)).
Proof. eexists. repeat (split; [vm_compute; reflexivity|]). vm_compute. by eexists. Qed.
End Races.

(** Two consumers in turn, the first stopped, each in its loop once more; then a stop. *)
Definition stop_schedule : list event :=
  [Call 1 Starting; Step 1 "7"; Step 1 "7"; Step 1 "7"; Step 1 ""; Deliver 1 (mkMsg "" [] ""); Call 2 (Stopping false); Step 2 "";
   Call 3 Starting; Step 3 "8"; Step 3 "8"; Step 3 "8"; Step 3 ""; Call 4 (Stopping false); Step 4 ""].
(** A decision procedure for the hypothesis of the theorem above. *)
Fixpoint inTurn {lib : AmqpLib} (ms : methods) (es : list event) (w : world) : bool :=
  match es with
  | [] => true
  | e :: es' =>
      match e with Call _ Starting => forallb (fun ip => negb (onTheWay ip.2)) (map_to_list (threads w)) | _ => true end &&
      match step ms w e with Some w' => inTurn ms es' w' | None => true end
  end.
Lemma inTurn_spec {lib : AmqpLib} ms es w : inTurn ms es w = true -> startsInTurn ms es w.
Proof.
  revert w. induction es as [|e es IH]; cbn; intros w H; [done|]. apply andb_true_iff in H as [H1 H2]. split.
  - destruct e as [i []| | | |]; try done. intros j p Hj. rewrite forallb_forall in H1. apply negb_true_iff.
    apply (H1 (j, p)), list_elem_of_In, elem_of_map_to_list. done.
  - destruct (step ms w e); auto.
Qed.
Lemma stops_every_consumer_witness : exists w, exec (lib := server 1000) machine stop_schedule (initial fresh) = Some w /\
  startsInTurn (lib := server 1000) machine stop_schedule (initial fresh) /\ crashed w = false /\ state w = idle /\
  threads w !! 1%nat = Some Iterating /\ threads w !! 3%nat = Some (Selecting (Some 1%nat)) /\
  (exists w', step (lib := server 1000) machine w (Quit 3) = Some w' /\ threads w' !! 3%nat = Some (Returned (Ok tt))) /\
  forall nano, exists w1 w2, step (lib := server 1000) machine w (Step 1 nano) = Some w1 /\
    step (lib := server 1000) machine w1 (Quit 1) = Some w2 /\ threads w2 !! 1%nat = Some (Returned (Ok tt)).
Proof.
  let w := eval vm_compute in (default (initial fresh) (exec (lib := server 1000) machine stop_schedule (initial fresh))) in exists w.
  split; [vm_compute; reflexivity|]. assert (startsInTurn (lib := server 1000) machine stop_schedule (initial fresh)) as Ht.
  { apply inTurn_spec. vm_compute. reflexivity. }
  split; [exact Ht|]. do 4 (split; [vm_compute; reflexivity|]).
  match goal with |- (exists w', step _ ?w _ = _ /\ _) /\ _ =>
    destruct (stops_every_consumer (lib := server 1000) machine stop_schedule fresh w ltac:(vm_compute; reflexivity)) as (_ & _ & H);
    specialize (H Ht eq_refl eq_refl) end.
  split; [exact (H 3%nat (Selecting (Some 1%nat)) eq_refl)|exact (H 1%nat Iterating eq_refl)].
Defined.
Lemma closed_is_final_witness : exists w w',
  exec (lib := server 1000) machine (close_race ++ [Step 1 "7"; Step 1 ""; Ended 1]) (initial fresh) = Some w /\ state w = closed /\
  exec (lib := server 1000) machine [Call 5 Starting] w = Some w' /\
  state w' = closed /\
  forall i nano, crashed w' = false -> (threads w' !! i = Some Starting \/ exists m, threads w' !! i = Some (Sending m)) ->
    exists w'', step (lib := server 1000) machine w' (Step i nano) = Some w'' /\ threads w'' !! i = Some (Returned (Err ErrBrokerMessage)) /\ lib_ w'' = lib_ w'.
Proof.
  let w := eval vm_compute in (default (initial fresh) (exec (lib := server 1000) machine (close_race ++ [Step 1 "7"; Step 1 ""; Ended 1]) (initial fresh))) in
  exists w; let w' := eval vm_compute in (default w (exec (lib := server 1000) machine [Call 5 Starting] w)) in exists w';
  do 3 (split; [vm_compute; reflexivity|]); apply (closed_is_final (lib := server 1000) machine [Call 5 Starting] w); [reflexivity| |vm_compute; reflexivity].
  intros i p Hi. apply elem_of_map_to_list in Hi. vm_compute in Hi.
  repeat (apply elem_of_cons in Hi as [[= -> ->]|Hi]; [exact I|]). by apply elem_of_nil in Hi.
Defined.

(** ** The broker of control messages and the exchange of heavy accounts

    Both dial once, share one channel ([ConsumeChannel] here) and keep the flag
    [consuming], which is set before the library is asked and which nothing
    resets when the deliveries end. *)
Section Fanout.
Context {lib : AmqpLib}.

(** [who] begins the texts of the errors. *)
Definition connectFanout (who url exchange queue : string) (prefetch : Z) : M amqp unit :=
  _ ← orGiveUp [] (who +:+ ": dial rabbitmq") (Dial url);
  _ ← orGiveUp [Conn] (who +:+ ": open channel") (Channel ConsumeChannel);
  _ ← orGiveUp [ConsumeChannel; Conn] (who +:+ ": set qos") (Qos prefetch);
  _ ← orGiveUp [ConsumeChannel; Conn] (who +:+ ": declare exchange") (ExchangeDeclare exchange "fanout" true false false false);
  _ ← orGiveUp [ConsumeChannel; Conn] (who +:+ ": declare input queue") (QueueDeclare queue true false false false false);
  orGiveUp [ConsumeChannel; Conn] (who +:+ ": bind input queue") (QueueBind queue "" exchange).
Definition eofPrefetchCount : Z := 3.
Definition heavyExchangePrefetch : Z := 16.
Definition connectEOFBroker (url exchange : string) (id : Z) (prefix : string) : M amqp unit :=
  connectFanout "EOFBroker" url exchange (prefix +:+ "_" +:+ Sharding.itoa id) eofPrefetchCount.
Definition connectHeavyExchange (url exchange : string) (id : Z) : M amqp unit :=
  connectFanout "HeavyAccountsExchange" url exchange (exchange +:+ "_" +:+ Sharding.itoa id) heavyExchangePrefetch.

(** Each of the two has its queue bound to its exchange, or nothing open. *)
Lemma orGiveUp_pair what c cs : match c with Dial _ | Channel _ | CloseResource _ | Confirm => False | _ => True end ->
  triple (holds {[ConsumeChannel; Conn]} false cs) (orGiveUp [ConsumeChannel; Conn] what c) (fun _ => holds {[ConsumeChannel; Conn]} false (c :: cs)).
Proof.
  intros Hc s Hs. pose proof (orGiveUp_holds [ConsumeChannel; Conn] what c {[ConsumeChannel; Conn]} false cs ltac:(set_solver) s Hs) as H.
  destruct (orGiveUp _ what c s) as [[[]|e|p] s']; [|done|done]. by destruct c.
Qed.
Theorem fanout_connects who url exchange queue n r s : connectFanout who url exchange queue n fresh = (r, s) ->
  match r with
  | Ok _ => live s = {[ConsumeChannel; Conn]} /\
      (forall c, c ∈ [ExchangeDeclare exchange "fanout" true false false false; QueueDeclare queue true false false false false; QueueBind queue "" exchange; Qos n] ->
        made c s)
  | Err _ => live s = ∅
  | Panic _ => False
  end.
Proof.
  intros H. cut (triple (.= fresh) (connectFanout who url exchange queue n) (fun _ => holds {[ConsumeChannel; Conn]} false
    [QueueBind queue "" exchange; QueueDeclare queue true false false false false; ExchangeDeclare exchange "fanout" true false false false; Qos n])).
  { intros Ht. specialize (Ht fresh eq_refl). rewrite H in Ht. destruct r; [|done..]. destruct Ht as (Hl & _ & Hm).
    split; [done|]. intros c Hc. apply Hm. set_solver. }
  unfold connectFanout. apply triple_seq with (R := holds (list_to_set [Conn]) false []).
  { intros s0 ->. pose proof (orGiveUp_holds [] (who +:+ ": dial rabbitmq") (Dial url) ∅ false [] eq_refl fresh) as Hd.
    destruct (orGiveUp _ _ _ fresh) as [[[]|e|p] s']; [|by apply Hd; split_and!; [..|intros ? ?%elem_of_nil]..].
    eapply holds_sub, (holds_set ({[Conn]} ∪ ∅)), Hd; [by intros ? ?%elem_of_nil|set_solver|]. by split_and!; [..|intros ? ?%elem_of_nil]. }
  apply triple_seq with (R := holds {[ConsumeChannel; Conn]} false []).
  { intros s0 Hs. pose proof (orGiveUp_holds _ (who +:+ ": open channel") (Channel ConsumeChannel) _ _ _ eq_refl s0 Hs) as Hd.
    destruct (orGiveUp _ _ _ s0) as [[[]|e|p] s']; [|done|done].
    eapply holds_sub, (holds_set ({[ConsumeChannel]} ∪ list_to_set [Conn])), Hd; [by intros ? ?%elem_of_nil|set_solver]. }
  do 3 (eapply triple_seq; [by apply orGiveUp_pair|]). by apply orGiveUp_pair.
Qed.

Inductive fpc :=
  | FStarting
  | FRequesting
  | FIterating
  | FSelecting (done : option nat)
  | FStopping (closing : bool)
  | FCancelling (closing : bool)
  | FReleasing (errs : bool)
  | FReturned (r : res unit).
Record fworld := mkFWorld {
  fconsuming : bool; fdone : option nat; fclosedDone : gset nat; fnextDone : nat; fcrashed : bool;
  flib : amqp; fthreads : gmap nat fpc; fhandled : list (nat * bytes)
}.
Definition fthread (i : nat) (p : fpc) (w : fworld) : fworld :=
  mkFWorld (fconsuming w) (fdone w) (fclosedDone w) (fnextDone w) (fcrashed w) (flib w) (<[i := p]> (fthreads w)) (fhandled w).
Definition fset (b : bool) (w : fworld) : fworld :=
  mkFWorld b (fdone w) (fclosedDone w) (fnextDone w) (fcrashed w) (flib w) (fthreads w) (fhandled w).
Definition fmakeDone (w : fworld) : fworld :=
  mkFWorld (fconsuming w) (Some (fnextDone w)) (fclosedDone w) (S (fnextDone w)) (fcrashed w) (flib w) (fthreads w) (fhandled w).
Definition fcloseDone (w : fworld) : fworld :=
  let ok := match fdone w with Some c => bool_decide (c ∉ fclosedDone w) | None => false end in
  mkFWorld (fconsuming w) (fdone w) (match fdone w with Some c => {[c]} ∪ fclosedDone w | None => fclosedDone w end)
    (fnextDone w) (fcrashed w || negb ok) (flib w) (fthreads w) (fhandled w).
Definition flog (i : nat) (m : bytes) (w : fworld) : fworld :=
  mkFWorld (fconsuming w) (fdone w) (fclosedDone w) (fnextDone w) (fcrashed w) (flib w) (fthreads w) (fhandled w ++ [(i, m)]).
Definition fcalling (i : nat) (c : call) (k : option error -> fworld -> fworld) (w : fworld) : fworld :=
  match ask c (flib w) with
  | (Ok r, l) => k r (mkFWorld (fconsuming w) (fdone w) (fclosedDone w) (fnextDone w) (fcrashed w) l (fthreads w) (fhandled w))
  | _ => w
  end.
Definition finitial (l : amqp) : fworld := mkFWorld false None ∅ 0 false l ∅ [].
Inductive fevent :=
  | FCall (i : nat) (p : fpc)
  | FStep (i : nat)
  | FDeliver (i : nat) (body : bytes)
  | FEnded (i : nat)
  | FQuit (i : nat).
Definition fentry (p : fpc) : bool := match p with FStarting | FStopping _ => true | _ => false end.
(** The queue, its consumer's tag, which does not change, and the texts of the errors. *)
Record fanout := mkFanout { fqueue : string; ftag : string; consumeWhat : string; cancelWhat : string; closeWhat : string }.
Definition fgo (f : fanout) (i : nat) (p : fpc) (w : fworld) : option fworld :=
  match p with
  | FStarting => Some (if fconsuming w then fthread i (FReturned (Ok tt)) w else fthread i FRequesting (fset true (fmakeDone w)))
  | FRequesting =>
      Some (fcalling i (Consume (fqueue f) (ftag f))
        (fun r w => match r with
                    | Some e => fthread i (FReturned (Err (Wrapf (consumeWhat f) e))) (fset false w)
                    | None => fthread i FIterating w end) w)
  | FIterating => Some (fthread i (FSelecting (fdone w)) w)
  | FStopping closing =>
      Some (if fconsuming w then fthread i (FCancelling closing) (fset false (fcloseDone w))
            else fthread i (if closing then FReleasing false else FReturned (Ok tt)) w)
  | FCancelling closing =>
      Some (fcalling i (Cancel (ftag f))
        (fun r w => fthread i (if closing then FReleasing (match r with Some _ => true | None => false end)
                               else FReturned (match r with Some e => Err (Wrapf (cancelWhat f) e) | None => Ok tt end)) w) w)
  | FReleasing errs =>
      Some (fcalling i (CloseResource ConsumeChannel) (fun r1 => fcalling i (CloseResource Conn)
        (fun r2 => fthread i (FReturned (match errs, r1, r2 with false, None, None => Ok tt | _, _, _ => Err (ErrMsg (closeWhat f)) end)))) w)
  | FSelecting _ | FReturned _ => None
  end.
Definition fstep (f : fanout) (w : fworld) (e : fevent) : option fworld :=
  if fcrashed w then None else
  match e with
  | FCall i p => if fentry p && bool_decide (fthreads w !! i = None) then Some (fthread i p w) else None
  | FStep i => p ← fthreads w !! i; fgo f i p w
  | FDeliver i m =>
      match fthreads w !! i with
      | Some (FSelecting _) => Some (fthread i FIterating (flog i m w))
      | _ => None
      end
  | FEnded i => match fthreads w !! i with Some (FSelecting _) => Some (fthread i (FReturned (Ok tt)) w) | _ => None end
  | FQuit i =>
      match fthreads w !! i with
      | Some (FSelecting (Some c)) => if bool_decide (c ∈ fclosedDone w) then Some (fthread i (FReturned (Ok tt)) w) else None
      | _ => None
      end
  end.
Fixpoint fexec (f : fanout) (es : list fevent) (w : fworld) : option fworld :=
  match es with [] => Some w | e :: es' => w' ← fstep f w e; fexec f es' w' end.
(** The two; nobody looks at what [HeavyAccountsExchange.Close] finds. *)
Definition eofBroker_step (queue : string) : fworld -> fevent -> option fworld :=
  fstep (mkFanout queue ("eof_input_" +:+ queue) "EOFBroker: consume input queue" "EOFBroker: cancel input consumer" "EOFBroker: multiple close errors").
Definition heavyExchange_step (queue : string) : fworld -> fevent -> option fworld :=
  fstep (mkFanout queue ("heavy_" +:+ queue) "HeavyAccountsExchange: consume" "HeavyAccountsExchange: cancel consumer" "").

Context (f : fanout).
Record finv (w : fworld) : Prop := mkFInv {
  finv_running : fcrashed w = false;
  finv_done : forall c, fdone w = Some c -> (c < fnextDone w)%nat;
  finv_closed : forall c, c ∈ fclosedDone w -> (c < fnextDone w)%nat;
  finv_consuming : fconsuming w = true -> exists c, fdone w = Some c /\ c ∉ fclosedDone w
}.
Lemma fthread_inv i p w : finv w -> finv (fthread i p w).
Proof. by intros []. Qed.
Lemma flog_inv i m w : finv w -> finv (flog i m w).
Proof. by intros []. Qed.
Lemma fset_false_inv w : finv w -> finv (fset false w).
Proof. by intros []. Qed.
Lemma fcalling_inv i c k w : (forall r w, finv w -> finv (k r w)) -> finv w -> finv (fcalling i c k w).
Proof. intros Hk []. unfold fcalling, ask. cbn. by apply Hk. Qed.
#[local] Hint Resolve fthread_inv flog_inv fset_false_inv : core.
Lemma fstart_inv w : finv w -> finv (fset true (fmakeDone w)).
Proof.
  intros [H1 H2 H3 H4]. split; cbn; [done| | |].
  - intros c [= <-]. lia.
  - intros c Hc. apply H3 in Hc. lia.
  - intros _. eexists. split; [done|]. intros Hc. apply H3 in Hc. lia.
Qed.
Lemma fstop_inv w : finv w -> fconsuming w = true -> finv (fset false (fcloseDone w)).
Proof.
  intros [H1 H2 H3 H4] Hs. destruct (H4 Hs) as (c & Hc & Hn). unfold fcloseDone. rewrite Hc. split; cbn; try done.
  - by rewrite H1, bool_decide_eq_true_2.
  - intros d [= <-]. auto.
  - intros d. rewrite elem_of_union, elem_of_singleton. intros [->|Hd]; auto.
Qed.
Lemma fgo_inv i p w w' : finv w -> fgo f i p w = Some w' -> finv w'.
Proof.
  intros Hw H. destruct p; cbn [fgo] in H; try done; injection H as <-.
  - destruct (fconsuming w); auto using fstart_inv.
  - apply fcalling_inv; [|done]. intros [] ? ?; auto.
  - auto.
  - destruct (fconsuming w) eqn:E; auto using fstop_inv.
  - apply fcalling_inv; auto.
  - apply fcalling_inv; [|done]. intros r1 w1 H1. apply fcalling_inv; auto.
Qed.
Lemma fstep_inv w e w' : finv w -> fstep f w e = Some w' -> finv w'.
Proof.
  unfold fstep. intros Hw H. destruct e as [i p|i|i m|i|i]; repeat case_match; simplify_option_eq; auto.
  by eapply fgo_inv.
Qed.
Lemma fexec_inv es w w' : finv w -> fexec f es w = Some w' -> finv w'.
Proof.
  revert w. induction es as [|e es IH]; cbn [fexec]; intros w Hw H; [by injection H as <-|].
  destruct (fstep f w e) as [w1|] eqn:E; [|done]. eapply IH, H. by eapply fstep_inv.
Qed.
Theorem fanout_never_crashes es l w : fexec f es (finitial l) = Some w -> fcrashed w = false.
Proof. intros H. apply fexec_inv in H as []; [done|]. by split; cbn; [| |set_solver|]. Qed.

(** Nobody consumes, and nobody is about to, though the flag says so. *)
Definition abandoned (w : fworld) : Prop :=
  fconsuming w = true /\ forall j p, fthreads w !! j = Some p -> match p with FStarting => True | FReturned r => r = Ok tt | _ => False end.
Definition stops (e : fevent) : bool := match e with FCall _ (FStopping _) => true | _ => false end.
Lemma abandoned_thread i p w : match p with FStarting => True | FReturned r => r = Ok tt | _ => False end -> abandoned w -> abandoned (fthread i p w).
Proof. intros Hp [Hc Ht]. split; [done|]. intros j q Hj. cbn in Hj. apply lookup_insert_Some in Hj as [[_ <-]|[_ Hj]]; [done|]. by eapply Ht. Qed.
Lemma abandoned_step w e w' : abandoned w -> stops e = false -> fstep f w e = Some w' -> abandoned w' /\ flib w' = flib w /\ fhandled w' = fhandled w.
Proof.
  unfold fstep. intros [Hc Ht] He H. destruct (fcrashed w); [done|]. destruct e as [i p|i|i m|i|i];
    [|destruct (fthreads w !! i) as [p|] eqn:Ei; [|done]; specialize (Ht i p Ei) as Hp; destruct p; try done ..].
  - destruct (fentry p && _) eqn:E; [|done]. injection H as <-. apply andb_true_iff in E as [E _]. split; [|done].
    by apply abandoned_thread; [destruct p|split].
  - cbn in H. rewrite Hc in H. injection H as <-. split; [|done]. by apply abandoned_thread; [|split].
Qed.

(** The server ends the deliveries of the only consumer: [StartConsuming]
    returns no error and leaves the flag, so that until someone stops the broker,
    however often it is asked to consume, it reports success, handles nothing
    and does not call the library. *)
Theorem lost_deliveries_unnoticed w i c w' es w'' : fconsuming w = true -> fthreads w = {[i := FSelecting c]} ->
  fstep f w (FEnded i) = Some w' -> forallb (fun e => negb (stops e)) es = true -> fexec f es w' = Some w'' ->
  fthreads w' !! i = Some (FReturned (Ok tt)) /\ fhandled w'' = fhandled w /\ flib w'' = flib w /\
  forall j r, fthreads w'' !! j = Some (FReturned r) -> r = Ok tt.
Proof.
  intros Hc Ht He Hs Hx. unfold fstep in He. destruct (fcrashed w); [done|]. rewrite Ht, lookup_singleton_eq in He. injection He as <-.
  split; [cbn; by rewrite lookup_insert_eq|].
  assert (abandoned (fthread i (FReturned (Ok tt)) w)) as Ha.
  { split; [done|]. intros j p Hj. cbn in Hj. rewrite Ht, insert_singleton_eq in Hj. by apply lookup_singleton_Some in Hj as [_ <-]. }
  change (flib w) with (flib (fthread i (FReturned (Ok tt)) w)). change (fhandled w) with (fhandled (fthread i (FReturned (Ok tt)) w)).
  clear Hc Ht. set (v := fthread _ _ _) in *. clearbody v. revert v Ha Hx.
  induction es as [|e es IH]; cbn [fexec]; intros v Ha Hx.
  - injection Hx as <-. split_and!; [done|done|]. intros j r Hj. by apply Ha in Hj.
  - cbn in Hs. apply andb_true_iff in Hs as [He Hs]. destruct (fstep f v e) as [v1|] eqn:E; [|done].
    apply abandoned_step in E as (Hv & Hl & Hh); [|done|by apply negb_true_iff]. rewrite <- Hl, <- Hh. by apply IH.
Qed.
End Fanout.

Definition control : fanout := mkFanout "cleaner_eof_0" "eof_input_cleaner_eof_0" "EOFBroker: consume input queue" "EOFBroker: cancel input consumer" "".
Definition consumes_control : list fevent := [FCall 1 FStarting; FStep 1; FStep 1; FStep 1; FDeliver 1 [Byte.x01]; FStep 1].
Lemma fanout_never_crashes_witness : exists w,
  fexec (lib := server 1000) control (consumes_control ++ [FCall 2 (FStopping true); FStep 2; FQuit 1; FStep 2; FStep 2]) (finitial fresh) = Some w /\
  fcrashed w = false.
Proof.
  eexists. split; [vm_compute; reflexivity|].
  apply (fanout_never_crashes (lib := server 1000) control (consumes_control ++ [FCall 2 (FStopping true); FStep 2; FQuit 1; FStep 2; FStep 2]) fresh).
  vm_compute. reflexivity.
Defined.
Lemma lost_deliveries_unnoticed_witness : exists w w' w'',
  fexec (lib := server 1000) control consumes_control (finitial fresh) = Some w /\
  fstep (lib := server 1000) control w (FEnded 1) = Some w' /\
  fexec (lib := server 1000) control [FCall 2 FStarting; FStep 2] w' = Some w'' /\
  fthreads w' !! 1%nat = Some (FReturned (Ok tt)) /\ fhandled w'' = fhandled w /\ flib w'' = flib w /\
  forall j r, fthreads w'' !! j = Some (FReturned r) -> r = Ok tt.
Proof.
  let w := eval vm_compute in (default (finitial fresh) (fexec (lib := server 1000) control consumes_control (finitial fresh))) in
  exists w; let w' := eval vm_compute in (default w (fstep (lib := server 1000) control w (FEnded 1))) in exists w';
  let w'' := eval vm_compute in (default w (fexec (lib := server 1000) control [FCall 2 FStarting; FStep 2] w')) in exists w'';
  do 3 (split; [vm_compute; reflexivity|]);
  apply (lost_deliveries_unnoticed (lib := server 1000) control w 1 (Some 0%nat) w' [FCall 2 FStarting; FStep 2] w''); vm_compute; reflexivity.
Defined.
