(* ===== verification/EofBroker.v ===== *)
(** * The broker of control messages ([src/common/eof/eof_broker.go], the checks of
    [codec.go])

    Every replica has a queue of its own, bound to the exchange that broadcasts
    within the stage.  [Send] looks into the message to decide where it goes.
    The queues are what [EofSystem]'s network abstracts from. *)

From stdpp Require Import pretty.
From S2P Require Import Prelude Models Sharding Config EofSync.

(** [fmt.Sprintf("%s_%d", EOFPrefix, nodeID)] *)
Definition inputQueueName (prefix : string) (id : Z) : string := (prefix +:+ "_" +:+ itoa id)%string.
Record EOFBroker := mkEOFBroker { broadcastExchange : string; ownQueue : string; brPrefix : string }.
Definition NewEOFBroker (exchange : string) (id : Z) (prefix : string) : EOFBroker :=
  mkEOFBroker exchange (inputQueueName prefix id) prefix.

(** What [amqp] is asked to publish: to an exchange, with a routing key; the
    exchange without a name hands a message to the queue its key names. *)
Record publishing := mkPublishing { exchange : string; routingKey : string }.
(** [UnmarshalControlMessage]: a message has a kind and a client.  The kinds of
    [MsgKind] are the five there are. *)
Definition validControl (m : ControlMessage) : res ControlMessage :=
  if decide (CmClient m = zero16) then Err (ErrMsg "invalid control message") else Ok m.
Definition Send (eb : EOFBroker) (m : ControlMessage) : res publishing :=
  m ← wrapf "EOFBroker: fail to unmarshal control message" (validControl m);
  match Type_ m with
  | AmountResponse | FlushAck => Ok (mkPublishing "" (inputQueueName (brPrefix eb) (RequesterID m)))
  | AmountRequest | FlushMsg | RetryExceeded => Ok (mkPublishing (broadcastExchange eb) "")
  end.

(** The queues that get a publishing: RabbitMQ's default exchange routes by name,
    a [fanout] exchange to every queue bound to it. *)
Definition reaches (b : EOFBroker) (p : publishing) : bool :=
  if decide (exchange p = "")%string then bool_decide (routingKey p = ownQueue b) else bool_decide (exchange p = broadcastExchange b).

(** The broker of replica [id] of a stage, from the configuration of the stage. *)
Definition stageBroker (cfg : SyncEOFControllerConfig) (id : Z) : EOFBroker := NewEOFBroker (BroadcastExchange cfg) id (Config.EOFPrefix cfg).

Lemma inputQueueName_inj prefix i j : inputQueueName prefix i = inputQueueName prefix j -> i = j.
Proof.
  unfold inputQueueName, itoa. intros H. apply (inj (String.app _)) in H. apply (inj (String.app _)) in H. by apply (inj pretty) in H.
Qed.

(** Within a stage an answer reaches the replica that asked and no other, and
    a question, a flush or a failure reaches every replica - the sender
    included. *)
Theorem control_messages_reach cfg i j m : CmClient m <> zero16 -> BroadcastExchange cfg <> ""%string ->
  exists p, Send (stageBroker cfg i) m = Ok p /\
    reaches (stageBroker cfg j) p =
      match Type_ m with
      | AmountResponse | FlushAck => bool_decide (j = RequesterID m)
      | AmountRequest | FlushMsg | RetryExceeded => true
      end.
Proof.
  intros Hc Hx. unfold Send, validControl. rewrite decide_False by done. cbn [wrapf mbind res_bind].
  destruct (Type_ m); (eexists; split; [reflexivity|]); unfold reaches; cbn;
    try (rewrite decide_False by done; by apply bool_decide_eq_true_2);
    apply bool_decide_ext; (split; [intros H; symmetry; by eapply inputQueueName_inj|by intros ->]).
Qed.

Definition stage_cfg : SyncEOFControllerConfig := mkSyncEof (F64 0) (F64 0) 5 "" 0 "cleaner_eof" 3 "cleaner_eof_broadcast" [].
Lemma control_messages_reach_witness :
  let m := mkControl AmountResponse (copy16 [Byte.x01]) 2 0 [] ∅ in
  exists p, Send (stageBroker stage_cfg 0) m = Ok p /\
    reaches (stageBroker stage_cfg 2) p = true /\ reaches (stageBroker stage_cfg 12) p = false /\
    reaches (stageBroker stage_cfg 1) p = bool_decide (1 = RequesterID m).
Proof.
  intros m. destruct (control_messages_reach stage_cfg 0 1 m) as (p & H1 & H2).
  - apply (bool_decide_unpack (copy16 [Byte.x01] <> zero16)). vm_compute. exact I.
  - done.
  - exists p. assert (p = mkPublishing "" "cleaner_eof_2") as -> by (injection H1 as <-; vm_compute; reflexivity).
    split; [exact H1|]. split; [vm_compute; reflexivity|]. split; [vm_compute; reflexivity|exact H2].
Defined.
