(* ===== verification/Buffer.v ===== *)
(** * Batches by client and routing key ([src/common/batch/buffer.go])

    [Buffer] gathers items until a bucket has the size of a batch; the function
    that publishes a batch is a parameter [flush] over a state [S]. *)

From S2P Require Import Prelude Maps Models.
Abbreviation KeyType := string (only parsing).

Section Buffer.
Context {GR : GoRange} {T S : Type} (flush : id16 -> KeyType -> list T -> M S unit).

Record Buffer := mkBuffer { size : Z; buckets : gmap id16 (gmap KeyType (list T)) }.
Definition DefaultSize : Z := 100.
Definition NewBuffer (n : Z) : Buffer := mkBuffer (if n <=? 0 then DefaultSize else n) ∅.
(** A buffer and what its flushes change. *)
Definition flushing (c : id16) (key : KeyType) (items : list T) : M (Buffer * S) unit := fun s =>
  let (r, s') := flush c key items s.2 in (r, (s.1, s')).
Definition setBuckets (f : gmap id16 (gmap KeyType (list T)) -> gmap id16 (gmap KeyType (list T))) : M (Buffer * S) unit :=
  modS (fun s => (mkBuffer (size s.1) (f (buckets s.1)), s.2)).

Definition Add (c : id16) (key : KeyType) (item : T) : M (Buffer * S) unit :=
  s ← getS;
  let byKey := default ∅ (buckets s.1 !! c) in
  let items := default [] (byKey !! key) ++ [item] in
  if size s.1 <=? Zlen items then
    _ ← setBuckets (insert c (delete key byKey));
    flushing c key items
  else setBuckets (insert c (<[key := items]> byKey)).
(** The nil map is the empty one. *)
Definition nonempty (byKey : gmap KeyType (list T)) : gmap KeyType (list T) := filter (fun kv => kv.2 <> []) byKey.
Definition Snapshot (c : id16) (b : Buffer) : gmap KeyType (list T) := nonempty (default ∅ (buckets b !! c)).
Definition Restore (c : id16) (byKey : gmap KeyType (list T)) (b : Buffer) : Buffer :=
  let dst := nonempty byKey in
  if decide (dst = ∅) then b else mkBuffer (size b) (<[c := dst]> (buckets b)).
Definition FlushClient (c : id16) : M (Buffer * S) unit :=
  s ← getS;
  match buckets s.1 !! c with
  | None => mret tt
  | Some byKey =>
      _ ← setBuckets (delete c);
      forM (range (map_to_list byKey)) (fun kv =>
        match kv.2 with [] => mret tt | items => flushing c kv.1 items end)
  end.

(** ** What is waiting *)
Definition waiting (c : id16) (key : KeyType) (b : Buffer) : list T := default [] (default ∅ (buckets b !! c) !! key).
Lemma waiting_insert c c' key byKey b : waiting c key (mkBuffer (size b) (<[c' := byKey]> (buckets b))) =
  if decide (c = c') then default [] (byKey !! key) else waiting c key b.
Proof.
  unfold waiting. cbn [buckets]. case_decide as Hc; [subst; by rewrite lookup_insert_eq|by rewrite lookup_insert_ne by done].
Qed.
(** One item: its bucket grows by it, or is flushed with it. *)
Lemma Add_spec c key item b s r b' s' : Add c key item (b, s) = (r, (b', s')) ->
  size b' = size b /\
  (forall c2 k2, (c2, k2) <> (c, key) -> waiting c2 k2 b' = waiting c2 k2 b) /\
  let items := waiting c key b ++ [item] in
  if size b <=? Zlen items then waiting c key b' = [] /\ flush c key items s = (r, s')
  else waiting c key b' = items /\ r = Ok tt /\ s' = s.
Proof.
  unfold Add, setBuckets, flushing, modS. unfold mbind, M_bind, getS. cbn [fst snd].
  fold (waiting c key b). destruct (size b <=? Zlen (waiting c key b ++ [item])) eqn:E; cbn [fst snd].
  - destruct (flush c key _ s) as [r1 s1]. intros [= <- <- <-]. split; [done|]. split.
    + intros c2 k2 Hne. rewrite waiting_insert. case_decide as Hc; [|done]. subst c2. unfold waiting.
      rewrite lookup_delete_ne; [done|]. intros ->. by apply Hne.
    + split; [|done]. rewrite waiting_insert, decide_True by done. by rewrite lookup_delete_eq.
  - intros [= <- <- <-]. split; [done|]. split.
    + intros c2 k2 Hne. rewrite waiting_insert. case_decide as Hc; [|done]. subst c2. unfold waiting.
      rewrite lookup_insert_ne; [done|]. intros ->. by apply Hne.
    + split; [|done]. rewrite waiting_insert, decide_True by done. by rewrite lookup_insert_eq.
Qed.
(** Between two calls every bucket is smaller than a batch. *)
Definition bounded (b : Buffer) : Prop := 0 < size b /\ forall c key, Zlen (waiting c key b) < size b.
Lemma NewBuffer_bounded n : bounded (NewBuffer n).
Proof.
  unfold bounded, NewBuffer, waiting. cbn [size buckets]. destruct (Z.leb_spec n 0); (split; [unfold DefaultSize; lia|]); intros c key;
    rewrite lookup_empty; cbn [default]; rewrite lookup_empty; unfold Zlen, DefaultSize; cbn; lia.
Qed.
Lemma Add_bounded c key item b s r b' s' : bounded b -> Add c key item (b, s) = (r, (b', s')) -> bounded b'.
Proof.
  intros [Hs Hb] H. apply Add_spec in H as (Hsz & Ho & H). cbv zeta in H. split; [by rewrite Hsz|]. intros c2 k2. rewrite Hsz.
  destruct (decide ((c2, k2) = (c, key))) as [[= -> ->]|Hne]; [|by rewrite Ho].
  destruct (Z.leb_spec (size b) (Zlen (waiting c key b ++ [item]))); destruct H as [-> _]; [done|lia].
Qed.
(** A snapshot restored into a new buffer gives every bucket back. *)
Theorem snapshot_restores c key b n : waiting c key (Restore c (Snapshot c b) (NewBuffer n)) = waiting c key b.
Proof.
  assert (forall m, default [] (nonempty m !! key) = default [] (m !! key)) as Hn.
  { intros m. unfold nonempty. destruct (m !! key) as [l|] eqn:E.
    - destruct l as [|x l]; [|by rewrite (map_lookup_filter_Some_2 _ m key (x :: l))].
      destruct (filter _ m !! key) as [l|] eqn:E2; [|done]. apply map_lookup_filter_Some in E2 as [E2 Hl]. rewrite E in E2. by injection E2 as <-.
    - rewrite (proj2 (map_lookup_filter_None _ m key)); [done|by left]. }
  unfold Restore, Snapshot. set (m := default ∅ (buckets b !! c)).
  assert (nonempty (nonempty m) = nonempty m) as -> by (unfold nonempty; rewrite map_filter_filter; apply map_filter_ext; naive_solver).
  unfold waiting at 2. fold m. rewrite <- (Hn m). case_decide as He.
  - rewrite He. unfold waiting, NewBuffer. cbn. by rewrite !lookup_empty.
  - unfold waiting. cbn. by rewrite lookup_insert_eq.
Qed.
End Buffer.
Arguments Buffer : clear implicits.

(** ** Nothing is lost before the end of the stream *)
Section Recorded.
Context {GR : GoRange} {T : Type}.
(** A [flush] that publishes: what it was given, in order. *)
#[local] Abbreviation published := (list (id16 * KeyType * list T)).
Definition record (c : id16) (key : KeyType) (items : list T) : M published unit := modS (fun l => l ++ [(c, key, items)]).
Definition addAll (adds : list (id16 * KeyType * T)) : M (Buffer T * published) unit :=
  forM adds (fun a => Add record a.1.1 a.1.2 a.2).
Definition addedTo (c : id16) (key : KeyType) (adds : list (id16 * KeyType * T)) : list T := snd <$> filter (fun a => a.1 = (c, key)) adds.
Definition publishedTo (c : id16) (key : KeyType) (l : published) : list T := concat (snd <$> filter (fun p => p.1 = (c, key)) l).
Lemma publishedTo_app c key l k : publishedTo c key (l ++ k) = publishedTo c key l ++ publishedTo c key k.
Proof. unfold publishedTo. by rewrite filter_app, fmap_app, concat_app. Qed.
Lemma publishedTo_one c key p items : publishedTo c key [(p, items)] = if decide (p = (c, key)) then items else [].
Proof.
  unfold publishedTo. case_decide; [rewrite filter_cons_True by done; cbn; apply app_nil_r|by rewrite filter_cons_False].
Qed.
(** What was added is published or waits, in order. *)
Definition kept (adds : list (id16 * KeyType * T)) (s : Buffer T * published) : Prop :=
  forall c key, publishedTo c key s.2 ++ waiting c key s.1 = addedTo c key adds.
Lemma Add_kept adds c key item b l : kept adds (b, l) -> exists s, Add record c key item (b, l) = (Ok tt, s) /\ kept (adds ++ [(c, key, item)]) s.
Proof.
  intros Hk. destruct (Add record c key item (b, l)) as [r [b' l']] eqn:E. apply Add_spec in E as (_ & Ho & H). cbv zeta in H.
  assert (forall c2 k2, addedTo c2 k2 (adds ++ [(c, key, item)]) = addedTo c2 k2 adds ++ if decide ((c, key) = (c2, k2)) then [item] else []) as Ha.
  { intros c2 k2. unfold addedTo. rewrite filter_app, fmap_app. f_equal. case_decide; [by rewrite filter_cons_True|by rewrite filter_cons_False]. }
  destruct (size b <=? _) in H.
  - destruct H as [Hw Hf]. unfold record, modS in Hf. injection Hf as <- <-. eexists. split; [reflexivity|]. intros c2 k2. cbn [fst snd].
    rewrite Ha, publishedTo_app, publishedTo_one, <- (Hk c2 k2). cbn [fst snd]. case_decide as Hd.
    + injection Hd as <- <-. rewrite Hw, app_nil_r. by rewrite <- app_assoc.
    + by rewrite (Ho c2 k2), !app_nil_r by congruence.
  - destruct H as (Hw & -> & ->). eexists. split; [reflexivity|]. intros c2 k2. cbn [fst snd]. rewrite Ha, <- (Hk c2 k2). cbn [fst snd]. case_decide as Hd.
    + injection Hd as <- <-. rewrite Hw. by rewrite app_assoc.
    + by rewrite (Ho c2 k2), app_nil_r by congruence.
Qed.
Lemma addAll_kept adds : forall before s, kept before s -> exists s', addAll adds s = (Ok tt, s') /\ kept (before ++ adds) s'.
Proof.
  induction adds as [|[[c key] item] adds IH]; intros before [b l] Hs; [exists (b, l); rewrite app_nil_r; done|].
  destruct (Add_kept before c key item b l Hs) as (s1 & H1 & Hs1). destruct (IH _ s1 Hs1) as (s2 & H2 & Hs2).
  exists s2. rewrite <- app_assoc in Hs2. split; [|exact Hs2]. unfold addAll in *. cbn [forM fst snd]. unfold mbind, M_bind. by rewrite H1.
Qed.

Lemma publish_each c kvs b l : exists l', forM kvs (fun kv : KeyType * list T => match kv.2 with [] => mret tt | items => flushing record c kv.1 items end) (b, l) = (Ok tt, (b, l ++ l')) /\
  (forall p, p ∈ l' -> p.1.1 = c) /\ forall key, publishedTo c key l' = concat (snd <$> filter (fun kv => kv.1 = key) kvs).
Proof.
  revert l. induction kvs as [|[k items] kvs IH]; intros l; [exists []; rewrite app_nil_r; split; [done|]; split; [by intros p H%elem_of_nil|done]|].
  cbn [forM snd fst]. unfold mbind, M_bind. destruct items as [|x items].
  - destruct (IH l) as (l' & H1 & H2 & H3). exists l'. split; [exact H1|]. split; [done|]. intros key. rewrite H3.
    destruct (decide (k = key)) as [->|Hk]; [by rewrite (filter_cons_True _ (key, []))|by rewrite filter_cons_False].
  - unfold flushing at 1, record, modS. cbn [fst snd]. destruct (IH (l ++ [(c, k, x :: items)])) as (l' & H1 & H2 & H3).
    exists ((c, k, x :: items) :: l'). split; [etrans; [exact H1|by rewrite <- app_assoc]|]. split; [intros p [->|Hp]%elem_of_cons; [done|auto]|].
    intros key. rewrite (publishedTo_app c key [(c, k, x :: items)] l' : publishedTo c key ((c, k, x :: items) :: l') = _), publishedTo_one, H3. destruct (decide (k = key)) as [->|Hk].
    + rewrite decide_True by done. by rewrite filter_cons_True.
    + rewrite decide_False by congruence. by rewrite filter_cons_False.
Qed.
Lemma range_lookup (m : gmap KeyType (list T)) key :
  concat (snd <$> filter (fun kv : KeyType * list T => kv.1 = key) (range (map_to_list m))) = default [] (m !! key).
Proof.
  assert (NoDup (range (map_to_list m)).*1) as Hn by (rewrite range_perm; apply NoDup_fst_map_to_list).
  assert (forall v, (key, v) ∈ range (map_to_list m) <-> m !! key = Some v) as Hin by (intros v; by rewrite range_perm, elem_of_map_to_list).
  destruct (m !! key) as [v|] eqn:E; cbn [default].
  - assert ((key, v) ∈ range (map_to_list m)) as Hv by by apply Hin. clear Hin E. revert Hn Hv. generalize (range (map_to_list m)). intros kvs.
    induction kvs as [|[k w] kvs IH]; intros Hn Hv; [by apply elem_of_nil in Hv|]. cbn [fmap list_fmap fst] in Hn. apply NoDup_cons in Hn as [Hk Hn].
    apply elem_of_cons in Hv as [[= <- <-]|Hv].
    + rewrite filter_cons_True by done. cbn [fmap list_fmap concat snd]. rewrite <- (app_nil_r v) at 2. f_equal.
      assert (filter (fun kv : KeyType * list T => kv.1 = key) kvs = []) as ->; [|done]. clear - Hk. induction kvs as [|[k w] kvs IH]; [done|].
      cbn [fmap list_fmap fst] in Hk. rewrite filter_cons_False; [apply IH; set_solver|]. cbn. intros ->. set_solver.
    + rewrite filter_cons_False; [by apply IH|]. cbn. intros ->. apply Hk, list_elem_of_fmap. by exists (key, v).
  - assert (forall v, (key, v) ∉ range (map_to_list m)) as Hv by (intros v; rewrite Hin; done). clear Hn Hin E. revert Hv. generalize (range (map_to_list m)). intros kvs.
    induction kvs as [|[k w] kvs IH]; intros Hv; [done|]. rewrite filter_cons_False; [apply IH; set_solver|]. cbn. intros ->. apply (Hv w). set_solver.
Qed.

(** However items of clients and keys interleave, once [FlushClient] returned every
    item of the client has been published under its key, in the order in which it was added, and
    the client has left the buffer: the end of its stream can be announced. *)
Theorem flush_publishes_all n adds c : exists s1 s2,
  addAll adds (NewBuffer n, []) = (Ok tt, s1) /\ FlushClient record c s1 = (Ok tt, s2) /\
  (forall key, publishedTo c key s2.2 = addedTo c key adds) /\ buckets s2.1 !! c = None /\
  forall c' key, c' <> c -> publishedTo c' key s2.2 ++ waiting c' key s2.1 = addedTo c' key adds.
Proof.
  destruct (addAll_kept adds [] (NewBuffer n, [])) as ([b l] & H1 & Hk).
  { intros c0 key. unfold waiting, NewBuffer. cbn. by rewrite lookup_empty. }
  exists (b, l). unfold FlushClient, mbind, M_bind, getS. cbn [fst snd]. destruct (buckets b !! c) as [byKey|] eqn:E.
  - unfold setBuckets, modS. cbn [fst snd]. set (b' := mkBuffer (size b) (delete c (buckets b))).
    destruct (publish_each c (range (map_to_list byKey)) b' l) as (l' & H2 & Hc & H3). exists (b', l ++ l'). split; [exact H1|]. split; [exact H2|].
    split; [|split; [apply lookup_delete_eq|]].
    + intros key. cbn [snd]. rewrite publishedTo_app, H3, range_lookup. specialize (Hk c key). cbn [fst snd app] in Hk. rewrite <- Hk.
      f_equal. unfold waiting. by rewrite E.
    + intros c' key Hne. cbn [fst snd]. rewrite publishedTo_app. specialize (Hk c' key). cbn [fst snd app] in Hk. rewrite <- Hk.
      assert (publishedTo c' key l' = []) as ->.
      { unfold publishedTo. assert (filter (fun p : id16 * KeyType * list T => p.1 = (c', key)) l' = []) as ->; [|done].
        clear - Hc Hne. induction l' as [|p l' IH]; [done|]. rewrite filter_cons_False; [apply IH; set_solver|].
        intros Hp. apply Hne. rewrite <- (Hc p) by set_solver. by rewrite Hp. }
      rewrite app_nil_r. f_equal. unfold waiting, b'. cbn. by rewrite lookup_delete_ne by done.
  - exists (b, l). split; [exact H1|]. split; [done|]. split; [|split; [exact E|]].
    + intros key. specialize (Hk c key). cbn [fst snd app] in Hk |- *. rewrite <- Hk. unfold waiting. rewrite E. cbn. by rewrite app_nil_r.
    + intros c' key _. by specialize (Hk c' key).
Qed.
End Recorded.

(** What [FlushClient] removes before it publishes is gone when publishing fails:
    called again, it has nothing to publish and reports success. *)
Theorem failed_flush_forgets {GR : GoRange} {T S : Type} (flush : id16 -> KeyType -> list T -> M S unit) c key items b s e s' :
  buckets b !! c = Some {[key := items]} -> items <> [] -> flush c key items s = (Err e, s') ->
  exists b', FlushClient flush c (b, s) = (Err e, (b', s')) /\ waiting c key b' = [] /\ FlushClient flush c (b', s') = (Ok tt, (b', s')).
Proof.
  intros Hb Hi Hf. unfold FlushClient, mbind, M_bind, getS, setBuckets, modS. cbn [fst snd]. rewrite Hb.
  assert (range (map_to_list {[key := items]}) = [(key, items)]) as ->.
  { apply Permutation_singleton_r. rewrite range_perm. by rewrite map_to_list_singleton. }
  cbn [forM snd fst]. unfold mbind, M_bind, flushing. destruct items as [|x items]; [done|]. cbn [fst snd]. rewrite Hf.
  eexists. split; [reflexivity|]. unfold waiting. cbn [buckets]. rewrite lookup_delete_eq. done.
Qed.
Lemma failed_flush_forgets_witness :
  let flush : id16 -> KeyType -> list Z -> M unit unit := fun _ _ _ => failM (ErrMsg "disconnected") in
  let b := mkBuffer 10 {[zero16 := {["k" := [7]]}]} in
  Add flush zero16 "k" 7 (NewBuffer 10, tt) = (Ok tt, (b, tt)) /\
    exists b', FlushClient (GR := range_id) flush zero16 (b, tt) = (Err (ErrMsg "disconnected"), (b', tt)) /\ waiting zero16 "k" b' = [] /\
      FlushClient (GR := range_id) flush zero16 (b', tt) = (Ok tt, (b', tt)).
Proof.
  intros flush b. split; [reflexivity|].
  apply (failed_flush_forgets (GR := range_id) flush zero16 "k" [7] b tt (ErrMsg "disconnected") tt); [apply lookup_singleton_eq|discriminate|reflexivity].
Defined.
