(* ===== verification/Compose.v ===== *)
(** * The deployment ([src/scripts/gen_compose.go])

    The generator of the compose file: one container per replica, with the names,
    numbers and neighbours that the replica reads back from its environment
    ([Config]).  Here [tPipelines], a YAML map, is a [gmap]; the text of the
    compose file is a template of Docker's, of which only the entries of the
    environment matter here ([entries]). *)

From stdpp Require Import pretty.
From S2P Require Import Prelude Maps Models CodecQ4 Sharding Config Bully Monitor.

(** ** The topology and what is made of it *)
Record WorkerDef := mkWorkerDef { wdName : string; wdAmount : Z; wdVolumes : list string; wdEnv : gmap string string }.
Record ClientGroup := mkClientGroup { cgCount : Z; cgVolumes : list string; cgEnv : gmap string string }.
Record Topology := mkTopology {
  tEnv : gmap string string; tClients : ClientGroup; tMonitors : Z; tPipelines : gmap string (list WorkerDef)
}.
Record WorkerInstance := mkWorkerInstance {
  ContainerName : string; wiPrefix : string; ID : Z; wiAmount : Z; ConfigPath : string; VolumeMapping : string;
  HasPrev : bool; wiPrevPrefix : string; wiPrevAmount : Z; HasNext : bool; wiNextPrefix : string; wiNextAmount : Z;
  ExtraVolumes : list string; EnvSorted : list string
}.
Record ClientInstance := mkClientInstance { ciID : Z; ciEnvSorted : list string; ciExtraVolumes : list string }.
Record MonitorInstance := mkMonitorInstance {
  miContainerName : string; miPrefix : string; miID : Z; miAmount : Z; miEnvSorted : list string
}.
Record TemplateData := mkTemplateData {
  Clients : list ClientInstance; Monitors : list MonitorInstance; Workers : list WorkerInstance; GatewayDependsOn : list string
}.

(** [for id := range n] *)
Definition ids (n : Z) : list Z := seqZ 0 n.
(** [fmt.Sprintf("%s_%s", stage, name)], [fmt.Sprintf("%s_%d", prefix, id)] *)
Definition prefixOf (stage : string) (wd : WorkerDef) : string := (stage +:+ "_" +:+ wdName wd)%string.
Definition containerOf (prefix : string) (id : Z) : string := (prefix +:+ "_" +:+ itoa id)%string.
(** The keys sorted, and [key=value] of each. *)
Definition entry_of (k v : string) : string := (k +:+ "=" +:+ v)%string.
Definition envSorted (env : gmap string string) : list string :=
  (fun k => entry_of k (default "" (env !! k))%string) <$> sort_Strings (elements (dom env)).

(** The neighbours in the pipeline: [defs[i-1]] if [i > 0], [defs[i+1]] if there is one. *)
Definition prevDef (defs : list WorkerDef) (i : nat) : option WorkerDef := match i with O => None | S j => defs !! j end.
Definition nextDef (defs : list WorkerDef) (i : nat) : option WorkerDef := defs !! S i.
Definition neighbour (stage which : string) (wd : option WorkerDef) : gmap string string :=
  match wd with
  | Some d => {[ (which +:+ "_WORKER_PREFIX")%string := prefixOf stage d; (which +:+ "_WORKER_AMOUNT")%string := itoa (wdAmount d) ]}
  | None => ∅
  end.
(** The generated variables, then those of the topology, then those of the
    worker: assigning all entries of a map is a union that prefers them. *)
Definition workerEnv (topo : Topology) (stage : string) (defs : list WorkerDef) (i : nat) (wd : WorkerDef) (id : Z) : gmap string string :=
  wdEnv wd ∪ (tEnv topo ∪
    (neighbour stage "NEXT" (nextDef defs i) ∪ neighbour stage "PREV" (prevDef defs i) ∪
     {[ "LOG_LEVEL"%string := "debug"%string; "CONFIG_PATH"%string := "/app/config.yaml"%string;
        "WORKER_PREFIX"%string := prefixOf stage wd; "ID"%string := itoa id;
        "WORKER_AMOUNT"%string := itoa (wdAmount wd); "CHECKPOINT_DIR"%string := "/app/checkpoints"%string ]})).
(** The volumes that YAML reads are slices without spare capacity, so that
    [append] copies them. *)
Definition instance (topo : Topology) (stage : string) (defs : list WorkerDef) (i : nat) (wd : WorkerDef) (id : Z) : WorkerInstance :=
  let prev := prevDef defs i in let next := nextDef defs i in
  mkWorkerInstance (containerOf (prefixOf stage wd) id) (prefixOf stage wd) id (wdAmount wd) "/app/config.yaml"
    ("./configs/" +:+ stage +:+ "/" +:+ wdName wd +:+ ".yaml:/app/config.yaml")%string
    (match prev with Some _ => true | None => false end) (match prev with Some d => prefixOf stage d | None => "" end)%string
    (match prev with Some d => wdAmount d | None => 0 end)
    (match next with Some _ => true | None => false end) (match next with Some d => prefixOf stage d | None => "" end)%string
    (match next with Some d => wdAmount d | None => 0 end)
    (wdVolumes wd ++ [("./.checkpoints/" +:+ containerOf (prefixOf stage wd) id +:+ ":/app/checkpoints")%string])
    (envSorted (workerEnv topo stage defs i wd id)).
Definition stageWorkers (topo : Topology) (stage : string) : list WorkerInstance :=
  let defs := default [] (tPipelines topo !! stage) in
  concat (imap (fun i wd => instance topo stage defs i wd <$> ids (wdAmount wd)) defs).
Definition generateWorkers (topo : Topology) : list WorkerInstance :=
  concat (stageWorkers topo <$> sort_Strings (elements (dom (tPipelines topo)))).

Definition generateClients (topo : Topology) : list ClientInstance :=
  (fun id => mkClientInstance id (envSorted (cgEnv (tClients topo) ∪ {[ "LOG_LEVEL"%string := "debug"%string ]})) (cgVolumes (tClients topo)))
    <$> ids (cgCount (tClients topo)).
Definition monitorAmount (topo : Topology) : Z := if tMonitors topo <? 1 then 1 else tMonitors topo.
Definition monitorEnv (amount id : Z) : gmap string string :=
  {[ "LOG_LEVEL"%string := "debug"%string; "CONFIG_PATH"%string := "/app/config.yaml"%string; "SYSTEM_CONFIG_PATH"%string := "/app/system.yaml"%string;
     "WORKER_PREFIX"%string := "monitor"%string; "ID"%string := itoa id; "WORKER_AMOUNT"%string := itoa amount;
     "CHECKPOINT_DIR"%string := "/app/checkpoints"%string ]}.
Definition generateMonitors (topo : Topology) : list MonitorInstance :=
  let amount := monitorAmount topo in
  (fun id => mkMonitorInstance (containerOf "monitor" id) "monitor" id amount (envSorted (monitorEnv amount id))) <$> ids amount.

(** The names of all containers: what the gateway depends on, and what
    [writeWorkersYAML] writes for the monitors. *)
Definition writeWorkersYAML (workers : list WorkerInstance) (monitors : list MonitorInstance) : list string :=
  (ContainerName <$> workers) ++ (miContainerName <$> monitors).
Definition generate (topo : Topology) : TemplateData :=
  let workers := generateWorkers topo in let monitors := generateMonitors topo in
  mkTemplateData (generateClients topo) monitors workers (writeWorkersYAML workers monitors).
(** What the template writes under [environment] of a worker. *)
Definition entries (w : WorkerInstance) : list string := EnvSorted w ++ [entry_of "SYSTEM_CONFIG_PATH" "/app/system.yaml"].

(** A closed decidable fact. *)
Ltac decided := refine (bool_decide_unpack _ _); vm_compute; exact I.

(** ** Texts *)
(** What stands before the first, and after the last, separator. *)
Lemma pivot_first {A} (x : A) k k' v v' : x ∉ k -> x ∉ k' -> k ++ x :: v = k' ++ x :: v' -> k = k' /\ v = v'.
Proof.
  revert k'. induction k as [|a k IH]; intros [|b k'] Hk Hk' H; cbn in H; injection H; clear H.
  - by intros ->.
  - intros _ ->. destruct Hk'. left.
  - intros _ ->. destruct Hk. left.
  - intros H ->. destruct (IH k') as [-> ->]; [set_solver..|done|done].
Qed.
Lemma pivot_last {A} (x : A) k k' v v' : x ∉ v -> x ∉ v' -> k ++ x :: v = k' ++ x :: v' -> k = k' /\ v = v'.
Proof.
  intros Hv Hv' H. apply (f_equal reverse) in H. rewrite !reverse_app, !reverse_cons, <- !app_assoc in H. cbn [app] in H.
  apply pivot_first in H as [H1 H2]; [|by rewrite elem_of_reverse..]. split; by apply (inj reverse).
Qed.

Lemma digit_char (d : N) : (d < 10)%N -> digitZ (Ascii.byte_of_ascii (pretty_N_char d)) = Some (Z.of_N d).
Proof.
  intros H. assert (d ∈ [0; 1; 2; 3; 4; 5; 6; 7; 8; 9]%N) as Hd.
  { rewrite !elem_of_cons, elem_of_nil. lia. }
  rewrite !elem_of_cons, elem_of_nil in Hd. by repeat destruct Hd as [->|Hd].
Qed.
Lemma digits_go n s : digitsZ (str_bytes (pretty_N_go n s)) 0 = digitsZ (str_bytes s) (Z.of_N n).
Proof.
  revert s. induction (N.lt_wf_0 n) as [n _ IH]; intros s. destruct (decide (0 < n)%N) as [Hn|Hn].
  - rewrite pretty_N_go_step by done. rewrite IH by (apply N.div_lt; lia). unfold str_bytes. cbn.
    rewrite digit_char by (apply N.mod_lt; lia). f_equal. rewrite (N.div_mod n 10) at 3 by lia. lia.
  - replace n with 0%N by lia. by rewrite pretty_N_go_0.
Qed.
Lemma digits_itoa n : 0 <= n -> digitsZ (str_bytes (itoa n)) 0 = Some n /\ str_bytes (itoa n) <> [].
Proof.
  intros Hn. unfold itoa, pretty, pretty_Z. destruct n as [|p|p]; [done| |lia].
  assert (digitsZ (str_bytes (pretty (N.pos p))) 0 = Some (Z.pos p)) as H.
  { unfold pretty, pretty_N. rewrite decide_False by done. by rewrite digits_go. }
  change (pretty p) with (pretty (N.pos p)). split; [exact H|]. intros Heq. by rewrite Heq in H.
Qed.
Lemma digitsZ_all l acc n : digitsZ l acc = Some n -> Forall (fun b => is_Some (digitZ b)) l.
Proof.
  revert acc. induction l as [|b l IH]; intros acc; cbn; [constructor|]. destruct (digitZ b) eqn:E; [|done]. intros H. constructor; [by rewrite E|eauto].
Qed.
Lemma not_in_itoa b n : 0 <= n -> digitZ b = None -> b ∉ str_bytes (itoa n).
Proof.
  intros Hn Hb Hin. destruct (digits_itoa n Hn) as [H _]. apply digitsZ_all in H. rewrite Forall_forall in H. apply H in Hin. rewrite Hb in Hin. by destruct Hin.
Qed.
Lemma Atoi_itoa n : 0 <= n < 2 ^ 63 -> Atoi (itoa n) = Some n.
Proof.
  intros Hn. destruct (digits_itoa n ltac:(lia)) as [H Hne]. unfold Atoi.
  pose proof (not_in_itoa Byte.x2d n ltac:(lia) eq_refl) as H1. pose proof (not_in_itoa Byte.x2b n ltac:(lia) eq_refl) as H2.
  destruct (str_bytes (itoa n)) as [|b l]; [done|]. assert (b <> Byte.x2d /\ b <> Byte.x2b) as [? ?] by set_solver.
  transitivity (match digitsZ (b :: l) 0 with Some z => if decide (in_int64 z) then Some z else None | None => None end); [by destruct b|].
  rewrite H, decide_True; [done|]. unfold in_int64. lia.
Qed.

Lemma containerOf_inj p q i j : 0 <= i -> 0 <= j -> containerOf p i = containerOf q j -> p = q /\ i = j.
Proof.
  intros Hi Hj H. apply (f_equal str_bytes) in H. unfold containerOf in H. rewrite !str_bytes_app in H.
  change (str_bytes "_") with [Byte.x5f] in H. cbn [app] in H. apply pivot_last in H as [H1 H2]; [|by apply not_in_itoa..].
  apply (inj str_bytes) in H1, H2. split; [done|]. by apply (inj pretty).
Qed.
Definition noEq (k : string) : Prop := Byte.x3d ∉ str_bytes k.
#[global] Instance noEq_dec k : Decision (noEq k).
Proof. unfold noEq. apply _. Defined.
Lemma entry_of_inj k k' v v' : noEq k -> noEq k' -> entry_of k v = entry_of k' v' -> k = k' /\ v = v'.
Proof.
  intros Hk Hk' H. apply (f_equal str_bytes) in H. unfold entry_of in H. rewrite !str_bytes_app in H.
  change (str_bytes "=") with [Byte.x3d] in H. cbn [app] in H. apply pivot_first in H as [H1 H2]; [|done..].
  by apply (inj str_bytes) in H1, H2.
Qed.

(** ** The containers *)
Lemma sort_Strings_elem l x : x ∈ sort_Strings l <-> x ∈ l.
Proof. unfold sort_Strings. by rewrite merge_sort_Permutation. Qed.
Lemma elem_of_ids n i : i ∈ ids n <-> 0 <= i < n.
Proof. unfold ids. rewrite elem_of_seqZ. lia. Qed.
Lemma worker_iff topo w : w ∈ generateWorkers topo <-> exists stage defs i wd id,
  tPipelines topo !! stage = Some defs /\ defs !! i = Some wd /\ 0 <= id < wdAmount wd /\ w = instance topo stage defs i wd id.
Proof.
  unfold generateWorkers. rewrite list_elem_of_In, in_concat. split.
  - intros (l & Hl & Hw). apply list_elem_of_In, list_elem_of_fmap in Hl as (stage & -> & Hs). apply sort_Strings_elem, elem_of_elements, elem_of_dom in Hs as [defs Hd].
    unfold stageWorkers in Hw. rewrite Hd in Hw. cbn [default] in Hw. apply in_concat in Hw as (l & Hl & Hw).
    apply list_elem_of_In, elem_of_lookup_imap in Hl as (i & wd & -> & Hi). apply list_elem_of_In, list_elem_of_fmap in Hw as (id & -> & Hid).
    apply elem_of_ids in Hid. by exists stage, defs, i, wd, id.
  - intros (stage & defs & i & wd & id & Hd & Hi & Hid & ->). exists (stageWorkers topo stage). split.
    + apply list_elem_of_In, list_elem_of_fmap. exists stage. split; [done|]. apply sort_Strings_elem, elem_of_elements, elem_of_dom. by exists defs.
    + unfold stageWorkers. rewrite Hd. cbn [default]. apply in_concat. exists (instance topo stage defs i wd <$> ids (wdAmount wd)). split.
      * apply list_elem_of_In, elem_of_lookup_imap. by exists i, wd.
      * apply list_elem_of_In, list_elem_of_fmap. exists id. by rewrite elem_of_ids.
Qed.

(** The workers of the topology with their numbers of replicas, in the order of
    the compose file. *)
Definition slots (topo : Topology) : list (string * Z) :=
  concat ((fun stage => (fun wd => (prefixOf stage wd, wdAmount wd)) <$> default [] (tPipelines topo !! stage))
    <$> sort_Strings (elements (dom (tPipelines topo)))).
Definition prefixes (topo : Topology) : list string := (slots topo).*1.
Definition replicas (sl : list (string * Z)) : list (string * Z) := concat ((fun s : string * Z => (fun id => (s.1, id)) <$> ids s.2) <$> sl).
Lemma concat_map_concat {A B} (f : A -> list B) (ll : list (list A)) : concat (f <$> concat ll) = concat ((fun l => concat (f <$> l)) <$> ll).
Proof. induction ll as [|l ll IH]; [done|]. cbn [concat fmap list_fmap]. by rewrite fmap_app, concat_app, IH. Qed.
Lemma fmap_concat' {A B} (f : A -> B) (ll : list (list A)) : (f <$> concat ll : list B) = concat ((fun l : list A => f <$> l : list B) <$> ll).
Proof. induction ll as [|l ll IH]; [done|]. cbn [concat fmap list_fmap]. by rewrite fmap_app, IH. Qed.
Lemma workers_replicas topo : (fun w => (wiPrefix w, ID w)) <$> generateWorkers topo = replicas (slots topo).
Proof.
  unfold generateWorkers, replicas, slots. rewrite fmap_concat', concat_map_concat, <- !list_fmap_compose. f_equal. apply list_fmap_ext. intros _ stage _.
  unfold compose, stageWorkers. set (defs := default [] _). rewrite fmap_concat'. f_equal. rewrite <- list_fmap_compose, fmap_imap.
  rewrite <- imap_const. apply imap_ext. intros i wd Hi. unfold compose. rewrite <- list_fmap_compose. by apply list_fmap_ext.
Qed.
Lemma replicas_cons p n sl : replicas ((p, n) :: sl) = ((fun id => (p, id)) <$> ids n) ++ replicas sl.
Proof. done. Qed.
Lemma elem_of_replicas sl p i : (p, i) ∈ replicas sl <-> exists n, (p, n) ∈ sl /\ 0 <= i < n.
Proof.
  induction sl as [|[q m] sl IH]; [split; [by intros H%elem_of_nil|by intros (n & H%elem_of_nil & _)]|].
  rewrite replicas_cons, elem_of_app, IH, list_elem_of_fmap. setoid_rewrite elem_of_cons. setoid_rewrite elem_of_ids. naive_solver.
Qed.
Lemma replicas_nodup sl : NoDup sl.*1 -> NoDup (replicas sl).
Proof.
  induction sl as [|[p n] sl IH]; [constructor|]. cbn [fmap list_fmap fst]. intros [Hp Hn]%NoDup_cons.
  rewrite replicas_cons. apply NoDup_app. split; [apply NoDup_fmap_2; [by intros ? ? [= ->]|apply NoDup_seqZ]|]. split; [|by apply IH].
  intros x Hx Hy. apply list_elem_of_fmap in Hx as (i & -> & _). apply elem_of_replicas in Hy as (m & Hm & _).
  destruct Hp. apply list_elem_of_fmap. by exists (p, m).
Qed.
Lemma filter_none {A} (P : A -> Prop) `{!forall x, Decision (P x)} l : Forall (fun x => ~ P x) l -> filter P l = [].
Proof. induction 1 as [|x l Hx _ IH]; [done|]. by rewrite filter_cons_False. Qed.
Lemma replicas_count sl p n : NoDup sl.*1 -> (p, n) ∈ sl ->
  filter (fun r : string * Z => r.1 = p) (replicas sl) = ((fun id => (p, id)) <$> ids n : list (string * Z)).
Proof.
  assert (forall l, filter (fun r : string * Z => r.1 = p) ((fun id : Z => (p, id)) <$> l) = ((fun id : Z => (p, id)) <$> l : list (string * Z))) as Hall.
  { induction l as [|i l IH]; [done|]. cbn [fmap list_fmap]. rewrite filter_cons_True by done. f_equal. exact IH. }
  assert (forall q l, q <> p -> filter (fun r : string * Z => r.1 = p) ((fun id : Z => (q, id)) <$> l : list (string * Z)) = []) as Hnone.
  { intros q l Hq. induction l as [|i l IH]; [done|]. cbn [fmap list_fmap]. by rewrite filter_cons_False. }
  induction sl as [|[q m] sl IH]; [by intros _ H%elem_of_nil|]. cbn [fmap list_fmap fst]. intros [Hq Hn]%NoDup_cons Hin.
  rewrite replicas_cons, filter_app. apply elem_of_cons in Hin as [[= <- <-]|Hin].
  - rewrite Hall. rewrite <- (app_nil_r (_ <$> _)) at 2. f_equal. apply filter_none. rewrite Forall_forall. intros [x i] Hx Hxp. cbn in Hxp. subst x.
    apply elem_of_replicas in Hx as (k & Hk & _). destruct Hq. apply list_elem_of_fmap. by exists (p, k).
  - rewrite Hnone; [by apply IH|]. intros ->. destruct Hq. apply list_elem_of_fmap. by exists (p, n).
Qed.
Lemma filter_fmap' {A B} (P : B -> Prop) `{!forall x, Decision (P x)} (f : A -> B) l : filter P (f <$> l : list B) = (f <$> filter (fun x => P (f x)) l : list B).
Proof.
  induction l as [|a l IH]; [done|]. cbn [fmap list_fmap]. destruct (decide (P (f a))); [rewrite !filter_cons_True by done|by rewrite !filter_cons_False by done].
  cbn [fmap list_fmap]. by rewrite IH.
Qed.

Lemma slot_of topo stage defs i wd : tPipelines topo !! stage = Some defs -> defs !! i = Some wd -> (prefixOf stage wd, wdAmount wd) ∈ slots topo.
Proof.
  intros Hd Hi. unfold slots. apply list_elem_of_In, in_concat. eexists. split.
  - apply list_elem_of_In, list_elem_of_fmap. exists stage. split; [reflexivity|]. apply sort_Strings_elem, elem_of_elements, elem_of_dom. by exists defs.
  - rewrite Hd. cbn [default]. apply list_elem_of_In, list_elem_of_fmap. exists wd. split; [done|]. by eapply list_elem_of_lookup_2.
Qed.
(** The containers of one worker. *)
Definition containersOf (topo : Topology) (prefix : string) : list WorkerInstance := filter (fun w => wiPrefix w = prefix) (generateWorkers topo).
Lemma containers_count topo p n : NoDup (prefixes topo) -> (p, n) ∈ slots topo -> ID <$> containersOf topo p = ids n.
Proof.
  intros Hn Hp. pose proof (replicas_count _ _ _ Hn Hp) as H. rewrite <- workers_replicas, filter_fmap' in H.
  transitivity (((fun w => (wiPrefix w, ID w)) <$> containersOf topo p).*2); [by rewrite <- list_fmap_compose|].
  unfold containersOf. cbn [fst] in H. rewrite H, <- list_fmap_compose. apply list_fmap_id.
Qed.
Lemma worker_name topo w : w ∈ generateWorkers topo -> ContainerName w = containerOf (wiPrefix w) (ID w) /\ 0 <= ID w.
Proof. intros H. apply worker_iff in H as (stage & defs & i & wd & id & _ & _ & Hid & ->). split; [done|]. cbn. lia. Qed.
Lemma container_unique topo w w' : NoDup (prefixes topo) -> w ∈ generateWorkers topo -> w' ∈ generateWorkers topo ->
  ContainerName w = ContainerName w' -> w = w'.
Proof.
  intros Hn Hw Hw' Heq. pose proof (replicas_nodup _ Hn) as Hnd. rewrite <- workers_replicas in Hnd.
  destruct (worker_name _ _ Hw) as [H1 Hi], (worker_name _ _ Hw') as [H2 Hj]. rewrite H1, H2 in Heq. apply containerOf_inj in Heq as [Hp Hid]; [|done..].
  apply list_elem_of_lookup in Hw as [i Hl], Hw' as [j Hl'].
  assert (i = j) as ->; [|congruence]. eapply NoDup_lookup; [exact Hnd|rewrite list_lookup_fmap, Hl; reflexivity|].
  rewrite list_lookup_fmap, Hl'. cbn. by rewrite Hp, Hid.
Qed.

(** ** What a container reads back *)
(** The environment that Docker makes of the entries of a container. *)
Definition environ (es : list string) (env : string -> string) : Prop := forall k, noEq k ->
  (forall v, entry_of k v ∈ es -> env k = v) /\ ((forall v, entry_of k v ∉ es) -> env k = ""%string).
Definition clean (m : gmap string string) : Prop := map_Forall (fun k _ => noEq k) m.
#[global] Instance clean_dec m : Decision (clean m).
Proof. unfold clean. apply _. Defined.
Lemma envSorted_entry m k v : clean m -> noEq k -> entry_of k v ∈ envSorted m <-> m !! k = Some v.
Proof.
  intros Hm Hk. unfold envSorted. rewrite list_elem_of_fmap. setoid_rewrite sort_Strings_elem. setoid_rewrite elem_of_elements.
  setoid_rewrite elem_of_dom. split.
  - intros (k' & He & [v' Hv']). apply entry_of_inj in He as [<- ->]; [|done|by eapply Hm]. by rewrite Hv'.
  - intros Hv. exists k. rewrite Hv. split; [done|by eexists].
Qed.
Lemma environ_lookup m env k : clean m -> noEq k -> k <> "SYSTEM_CONFIG_PATH"%string ->
  environ (envSorted m ++ [entry_of "SYSTEM_CONFIG_PATH" "/app/system.yaml"]) env -> env k = default ""%string (m !! k).
Proof.
  intros Hm Hk Hne He. destruct (He k Hk) as [H1 H2]. destruct (m !! k) as [v|] eqn:E; cbn [default].
  - apply H1, elem_of_app. left. by apply envSorted_entry.
  - apply H2. intros v [Hin|Hin%list_elem_of_singleton]%elem_of_app; [by apply envSorted_entry in Hin; [rewrite Hin in E|..]|].
    apply entry_of_inj in Hin as [-> _]; [done|done|]. decided.
Qed.

(** The variables that the generator sets; a topology that leaves them alone. *)
Definition generated : list string :=
  ["WORKER_PREFIX"; "ID"; "WORKER_AMOUNT"; "PREV_WORKER_PREFIX"; "PREV_WORKER_AMOUNT"; "NEXT_WORKER_PREFIX"; "NEXT_WORKER_AMOUNT"; "CHECKPOINT_DIR"]%string.
Definition plain (m : gmap string string) : Prop := clean m /\ Forall (fun k => m !! k = None) generated.
#[global] Instance plain_dec m : Decision (plain m).
Proof. unfold plain. apply _. Defined.
Record deployable (topo : Topology) : Prop := mkDeployable {
  dp_prefixes : NoDup (prefixes topo);
  dp_env : plain (tEnv topo);
  dp_workers : forall stage defs, tPipelines topo !! stage = Some defs -> Forall (fun wd => plain (wdEnv wd) /\ 0 <= wdAmount wd < 2 ^ 63) defs
}.

Section Reads.
Context (topo : Topology) (Htopo : deployable topo) (stage : string) (defs : list WorkerDef) (Hstage : tPipelines topo !! stage = Some defs).
Lemma def_ok i wd : defs !! i = Some wd -> plain (wdEnv wd) /\ 0 <= wdAmount wd < 2 ^ 63.
Proof. intros Hi. pose proof (dp_workers _ Htopo _ _ Hstage) as H. by eapply Forall_lookup_1 in H. Qed.

Lemma workerEnv_clean i wd id : defs !! i = Some wd -> clean (workerEnv topo stage defs i wd id).
Proof.
  intros Hi. destruct (def_ok i wd Hi) as [[Hw _] _], (dp_env _ Htopo) as [Ht _]. unfold workerEnv, clean.
  apply map_Forall_union_2; [done|]. apply map_Forall_union_2; [done|].
  assert (forall which od, noEq (which +:+ "_WORKER_PREFIX") -> noEq (which +:+ "_WORKER_AMOUNT") -> clean (neighbour stage which od)) as Hn.
  { intros which [d|] H1 H2; [|by intros ? ? ?]. apply map_Forall_insert_2; [done|]. by apply map_Forall_singleton. }
  apply map_Forall_union_2; [apply map_Forall_union_2; apply Hn; decided|].
  repeat first [apply map_Forall_insert_2|apply map_Forall_singleton]; decided.
Qed.
Lemma workerEnv_generated i wd id k : defs !! i = Some wd -> k ∈ generated -> workerEnv topo stage defs i wd id !! k =
  (neighbour stage "NEXT" (nextDef defs i) ∪ neighbour stage "PREV" (prevDef defs i) ∪
     {[ "LOG_LEVEL"%string := "debug"%string; "CONFIG_PATH"%string := "/app/config.yaml"%string;
        "WORKER_PREFIX"%string := prefixOf stage wd; "ID"%string := itoa id;
        "WORKER_AMOUNT"%string := itoa (wdAmount wd); "CHECKPOINT_DIR"%string := "/app/checkpoints"%string ]} : gmap string string) !! k.
Proof.
  intros Hi Hk. destruct (def_ok i wd Hi) as [[_ Hw] _], (dp_env _ Htopo) as [_ Ht]. rewrite Forall_forall in Hw, Ht.
  unfold workerEnv. by rewrite lookup_union_r by auto; rewrite lookup_union_r by auto.
Qed.
(** What a replica reads. *)
Lemma replica_env i wd id env : defs !! i = Some wd -> environ (entries (instance topo stage defs i wd id)) env ->
  env "WORKER_PREFIX"%string = prefixOf stage wd /\ env "ID"%string = itoa id /\ env "WORKER_AMOUNT"%string = itoa (wdAmount wd) /\
  env "CHECKPOINT_DIR"%string = "/app/checkpoints"%string /\
  env "NEXT_WORKER_PREFIX"%string = match nextDef defs i with Some d => prefixOf stage d | None => "" end%string /\
  env "NEXT_WORKER_AMOUNT"%string = match nextDef defs i with Some d => itoa (wdAmount d) | None => "" end%string /\
  env "PREV_WORKER_PREFIX"%string = match prevDef defs i with Some d => prefixOf stage d | None => "" end%string /\
  env "PREV_WORKER_AMOUNT"%string = match prevDef defs i with Some d => itoa (wdAmount d) | None => "" end%string.
Proof.
  intros Hi He. assert (forall k, k ∈ generated -> env k = default ""%string (workerEnv topo stage defs i wd id !! k)) as Hk.
  { intros k Hk. apply environ_lookup; [by apply workerEnv_clean| | |exact He].
    - assert (Forall noEq generated) as Hg by decided.
      rewrite Forall_forall in Hg. by apply Hg.
    - intros ->. revert Hk. decided. }
  split_and!; (rewrite Hk by (decided);
    rewrite workerEnv_generated by (first [exact Hi|decided]);
    destruct (nextDef defs i), (prevDef defs i); reflexivity).
Qed.
End Reads.

Lemma envInt_itoa env name old n : env name = itoa n -> 0 <= n < 2 ^ 63 -> envInt env name old = Ok n.
Proof.
  intros He Hn. unfold envInt. rewrite He, Atoi_itoa by done. rewrite decide_False; [done|].
  intros Hz. destruct (digits_itoa n ltac:(lia)) as [_ H]. by rewrite Hz in H.
Qed.
Lemma envInt_none env name old : env name = ""%string -> envInt env name old = Ok old.
Proof. intros He. unfold envInt. by rewrite decide_True. Qed.
(** The number of a neighbour's replicas, or what the file says. *)
Definition amountOr (od : option WorkerDef) (old : Z) : Z := match od with Some d => wdAmount d | None => old end.
Definition nameOf (stage : string) (od : option WorkerDef) : string := match od with Some d => prefixOf stage d | None => ""%string end.

Section Loads.
Context (topo : Topology) (Htopo : deployable topo) (stage : string) (defs : list WorkerDef) (Hstage : tPipelines topo !! stage = Some defs).
Lemma replica_loads i wd id env cfg : defs !! i = Some wd -> 0 <= id < wdAmount wd ->
  environ (entries (instance topo stage defs i wd id)) env -> is_ok (envInt env "SCATTER_GATHER_THRESHOLD" (Threshold (Worker cfg))) = true ->
  exists c, applyEnv env cfg = Ok c /\
    WorkerPrefix (Broker c) = prefixOf stage wd /\ WorkerID (Broker c) = id /\ wPrefix (Worker c) = prefixOf stage wd /\ wID (Worker c) = id /\
    wAmount (Worker c) = wdAmount wd /\
    wNextPrefix (Worker c) = nameOf stage (nextDef defs i) /\ wNextAmount (Worker c) = amountOr (nextDef defs i) (wNextAmount (Worker cfg)) /\
    wPrevPrefix (Worker c) = nameOf stage (prevDef defs i) /\ wPrevAmount (Worker c) = amountOr (prevDef defs i) (wPrevAmount (Worker cfg)).
Proof.
  intros Hi Hid He Ht. destruct (def_ok topo Htopo stage defs Hstage i wd Hi) as [_ Hwd].
  destruct (replica_env topo Htopo stage defs Hstage i wd id env Hi He) as (E1 & E2 & E3 & E4 & E5 & E6 & E7 & E8).
  assert (forall which od, (od = nextDef defs i \/ od = prevDef defs i) ->
    env (which +:+ "_WORKER_AMOUNT")%string = match od with Some d => itoa (wdAmount d) | None => "" end%string -> forall old,
    envInt env (which +:+ "_WORKER_AMOUNT")%string old = Ok (amountOr od old)) as Hn.
  { intros which [d|] Hod Hwhich old; [|by apply envInt_none]. apply envInt_itoa; [done|].
    assert (exists j, defs !! j = Some d) as [j Hj]; [|by eapply (def_ok topo Htopo stage defs Hstage j d Hj)].
    destruct Hod as [Hod|Hod]; [by exists (S i)|]. destruct i as [|j]; [done|by exists j]. }
  unfold applyEnv. rewrite !(envInt_itoa env "ID" _ id) by (done || lia). rewrite !(envInt_itoa env "WORKER_AMOUNT" _ (wdAmount wd)) by done.
  rewrite !(Hn "PREV"%string (prevDef defs i)) by auto. rewrite !(Hn "NEXT"%string (nextDef defs i)) by auto.
  destruct (envInt env "SCATTER_GATHER_THRESHOLD" _) as [t|e|p]; [|done..]. cbn [mbind res_bind]. rewrite E4.
  eexists. split; [reflexivity|]. unfold nameOf. cbn. by rewrite E1, E5, E7.
Qed.
Lemma container_is i wd w : defs !! i = Some wd -> w ∈ containersOf topo (prefixOf stage wd) ->
  exists id, 0 <= id < wdAmount wd /\ w = instance topo stage defs i wd id.
Proof.
  intros Hi Hw. pose proof (containers_count topo _ _ (dp_prefixes _ Htopo) (slot_of topo stage defs i wd Hstage Hi)) as Hc.
  assert (ID w ∈ ids (wdAmount wd)) as Hid by (rewrite <- Hc; by apply list_elem_of_fmap_2). apply elem_of_ids in Hid.
  apply list_elem_of_filter in Hw as [Hp Hw]. exists (ID w). split; [done|].
  apply (container_unique topo); [apply Htopo|done|apply worker_iff; by exists stage, defs, i, wd, (ID w)|].
  destruct (worker_name topo w Hw) as [-> _]. rewrite Hp. done.
Qed.
Lemma containers_length i wd : defs !! i = Some wd -> Zlen (containersOf topo (prefixOf stage wd)) = wdAmount wd.
Proof.
  intros Hi. pose proof (containers_count topo _ _ (dp_prefixes _ Htopo) (slot_of topo stage defs i wd Hstage Hi)) as Hc.
  destruct (def_ok topo Htopo stage defs Hstage i wd Hi) as [_ Hwd].
  unfold Zlen. rewrite <- (length_fmap ID), Hc. unfold ids. rewrite length_seqZ. lia.
Qed.
End Loads.

(** C28. Two workers that follow each other in a pipeline.  Every container of the
    first and every container of the second read back names and numbers that
    agree: each replica is called after its container, the first counts on as
    many replicas as the second has containers and calls them by their prefix, the second waits
    for as many ends of stream as the first has containers, and whatever value
    the first routes, its shard is the name of exactly one container. *)
Theorem deployed_neighbours topo stage defs i wd next w w' env env' cfg cfg' :
  deployable topo -> tPipelines topo !! stage = Some defs -> defs !! i = Some wd -> defs !! S i = Some next ->
  w ∈ containersOf topo (prefixOf stage wd) -> w' ∈ containersOf topo (prefixOf stage next) ->
  environ (entries w) env -> environ (entries w') env' ->
  is_ok (envInt env "SCATTER_GATHER_THRESHOLD" (Threshold (Worker cfg))) = true ->
  is_ok (envInt env' "SCATTER_GATHER_THRESHOLD" (Threshold (Worker cfg'))) = true ->
  exists c c', applyEnv env cfg = Ok c /\ applyEnv env' cfg' = Ok c' /\
    nodeName (Broker c) = ContainerName w /\ nodeName (Broker c') = ContainerName w' /\
    wNextPrefix (Worker c) = wPrefix (Worker c') /\ wNextAmount (Worker c) = Zlen (containersOf topo (prefixOf stage next)) /\
    wPrevPrefix (Worker c') = wPrefix (Worker c) /\ wPrevAmount (Worker c') = Zlen (containersOf topo (prefixOf stage wd)) /\
    forall value, exists w'', shardByValue (wNextPrefix (Worker c)) (wNextAmount (Worker c)) value = Ok (ContainerName w'') /\
      w'' ∈ containersOf topo (prefixOf stage next) /\ forall v, v ∈ generateWorkers topo -> ContainerName v = ContainerName w'' -> v = w''.
Proof.
  intros Htopo Hs Hi Hi' Hw Hw' He He' Ht Ht'.
  destruct (container_is topo Htopo stage defs Hs i wd w Hi Hw) as (id & Hid & ->).
  destruct (container_is topo Htopo stage defs Hs (S i) next w' Hi' Hw') as (id' & Hid' & ->).
  destruct (replica_loads topo Htopo stage defs Hs i wd id env cfg Hi Hid He Ht) as (c & Hc & H1 & H2 & H3 & H4 & H5 & H6 & H7 & H8 & H9).
  destruct (replica_loads topo Htopo stage defs Hs (S i) next id' env' cfg' Hi' Hid' He' Ht') as (c' & Hc' & G1 & G2 & G3 & G4 & G5 & G6 & G7 & G8 & G9).
  unfold nextDef in *. cbn [prevDef] in *. rewrite Hi' in *. rewrite Hi in *. cbn [nameOf amountOr] in *.
  exists c, c'. rewrite (containers_length topo Htopo stage defs Hs (S i) next Hi'), (containers_length topo Htopo stage defs Hs i wd Hi).
  unfold nodeName. rewrite H1, H2, G1, G2, H3, G3, H6, H7, G8, G9. split_and!; try done.
  intros value. destruct (shardByValue_ok (prefixOf stage next) (wdAmount next) value ltac:(lia)) as (j & Hj & Hr).
  assert (instance topo stage defs (S i) next j ∈ generateWorkers topo) as Hin by (apply worker_iff; by exists stage, defs, (S i), next, j).
  exists (instance topo stage defs (S i) next j). split; [exact Hj|]. split; [by apply list_elem_of_filter|].
  intros v Hv Hn. by apply (container_unique topo); [apply Htopo|..].
Qed.

(** ** What the monitors know *)
Lemma prefix_sep stage wd : Byte.x5f ∈ str_bytes (prefixOf stage wd).
Proof. unfold prefixOf. rewrite !str_bytes_app. change (str_bytes "_") with [Byte.x5f]. set_solver. Qed.
Lemma prefix_other stage wd s : Byte.x5f ∉ str_bytes s -> prefixOf stage wd <> s.
Proof. intros Hs <-. by apply Hs, prefix_sep. Qed.
Lemma monitor_names topo : (miContainerName <$> generateMonitors topo) = containerOf "monitor" <$> ids (monitorAmount topo).
Proof. unfold generateMonitors. rewrite <- list_fmap_compose. by apply list_fmap_ext. Qed.

(** Every container has a name of its own, and the monitors know it by that
    name: what a worker's listener answers is read as the name that
    [workers.yaml] gives, never as the gateway's, so that an answer clears the
    failures counted under the name that is pinged and restarted; and the
    peers of a monitor are the containers of the other monitors. *)
Theorem deployment_names topo : deployable topo ->
  NoDup (writeWorkersYAML (generateWorkers topo) (generateMonitors topo)) /\
  (forall w, w ∈ generateWorkers topo -> str_len (wiPrefix w) <= 250 -> wiAmount w < 2 ^ 32 -> forall worker m,
    pingWorker worker (Some (Listen_payload (wiPrefix w) (ID w))) = Ok (ContainerName w, true) /\
    failures (handleResult (ContainerName w) true m) !! ContainerName w = Some 0) /\
  (forall m, m ∈ generateMonitors topo -> forall name,
    name ∈ (fun p => containerOf (miPrefix m) (peer_id p)) <$> peers (newBully (miAmount m) (miID m)) <->
    name ∈ miContainerName <$> generateMonitors topo /\ name <> miContainerName m).
Proof.
  intros Htopo. assert (Byte.x5f ∉ str_bytes "monitor" /\ Byte.x5f ∉ str_bytes "gateway") as [Hmon Hgw] by (split; decided).
  assert (forall w, w ∈ generateWorkers topo -> exists stage wd, wiPrefix w = prefixOf stage wd /\ 0 <= ID w < wiAmount w) as Hworker.
  { intros w Hw. apply worker_iff in Hw as (stage & defs & i & wd & id & _ & _ & Hid & ->). by exists stage, wd. }
  split_and!.
  - unfold writeWorkersYAML. rewrite monitor_names. apply NoDup_app. split_and!.
    + apply NoDup_fmap_2_strong; [|apply (NoDup_fmap_1 (fun w => (wiPrefix w, ID w))); rewrite workers_replicas; by apply replicas_nodup, Htopo].
      intros w w' Hw Hw'. by apply (container_unique topo); [apply Htopo|..].
    + intros x Hx Hy. apply list_elem_of_fmap in Hx as (w & -> & Hw), Hy as (id & Heq & Hid). apply elem_of_ids in Hid.
      destruct (worker_name topo w Hw) as [Hn Hi]. destruct (Hworker w Hw) as (stage & wd & Hp & _).
      rewrite Hn, Hp in Heq. apply containerOf_inj in Heq as [Heq _]; [|lia..]. by apply prefix_other in Heq.
    + apply NoDup_fmap_2_strong; [|apply NoDup_seqZ]. intros i j Hi%elem_of_ids Hj%elem_of_ids Heq. by apply containerOf_inj in Heq as [_ Heq]; [|lia..].
  - intros w Hw Hlen Ham worker m. destruct (worker_name topo w Hw) as [Hn Hi]. destruct (Hworker w Hw) as (stage & wd & Hp & Hid).
    destruct (ping_identifies (wiPrefix w) (ID w) worker Hlen) as (answer & [= <-] & Hping); [unfold in_uint; lia|]. split; [by rewrite Hn|].
    assert (normalizeMonitorKey (ContainerName w) = ContainerName w) as Hk.
    { unfold normalizeMonitorKey. rewrite decide_False; [done|]. intros Heq. rewrite Hn, Hp in Heq.
      change gatewayMonitorReportedKey with (containerOf "gateway" 0) in Heq. apply containerOf_inj in Heq as [Heq _]; [|lia..]. by apply prefix_other in Heq. }
    unfold handleResult. rewrite Hk. cbn. apply lookup_insert_eq.
  - intros m Hm name. unfold generateMonitors in Hm. apply list_elem_of_fmap in Hm as (id & -> & Hid). cbn [miPrefix miAmount miID miContainerName].
    apply elem_of_ids in Hid. rewrite monitor_names. unfold newBully, New. cbn [peers]. rewrite <- list_fmap_compose, !list_elem_of_fmap. unfold compose. cbn [peer_id].
    assert (forall j, j ∈ filter (fun j => j <> id) (Z.of_nat <$> seq 0 (Z.to_nat (monitorAmount topo))) <-> j <> id /\ 0 <= j < monitorAmount topo) as Hpeer.
    { intros j. rewrite list_elem_of_filter, list_elem_of_fmap. setoid_rewrite elem_of_seq. split; [intros [? (n & -> & ?)]; split; [done|lia]|].
      intros [? ?]. split; [done|]. exists (Z.to_nat j). lia. }
    setoid_rewrite Hpeer. setoid_rewrite elem_of_ids. split.
    + intros (j & -> & Hne & Hj). split; [by exists j|]. intros Heq. apply containerOf_inj in Heq as [_ Heq]; [done|lia..].
    + intros [(j & -> & Hj) Hne]. exists j. split; [done|]. split; [|done]. by intros ->.
Qed.

(** ** Example: [topology.yaml.example] *)
Definition worker (name : string) (amount : Z) : WorkerDef := mkWorkerDef name amount [] ∅.
Definition example_topology : Topology :=
  mkTopology {[ "SCATTER_GATHER_THRESHOLD"%string := "5"%string ]} (mkClientGroup 2 [] ∅) 3
    (list_to_map [
      ("query1", [worker "cleaner" 2; worker "filter" 3]);
      ("query2", [worker "cleaner" 2; worker "router" 2; worker "aggregator" 3;
        mkWorkerDef "join" 1 ["./configs/query2/join_account_queue.yaml:/app/config_2.yaml"]
          {[ "ACCOUNTS_CONFIG_PATH" := "/app/config_2.yaml" ]}]);
      ("query345", [worker "filter" 3]);
      ("query3a", [worker "cleaner" 3; worker "filter" 3]);
      ("query3b", [worker "cleaner" 3; worker "router" 3; worker "aggregator" 3; worker "filter" 3]);
      ("query4", [worker "cleaner" 1; worker "router" 1; worker "aggregator" 3; worker "accumulator" 3; worker "filter" 1; worker "join" 1]);
      ("query5", [worker "cleaner" 1; worker "format_filter" 3; worker "router" 3; worker "converter" 3; worker "amount_filter" 1; worker "aggregator" 1])
    ]%string).
Lemma example_deployable : deployable example_topology.
Proof.
  split; [decided|decided|]. intros stage defs Hs.
  assert (map_Forall (fun _ defs => Forall (fun wd => plain (wdEnv wd) /\ 0 <= wdAmount wd < 2 ^ 63) defs) (tPipelines example_topology)) as H by decided.
  by apply (H stage).
Qed.
(** Docker's environment for the entries of a map. *)
Definition envFun (m : gmap string string) (k : string) : string :=
  if decide (k = "SYSTEM_CONFIG_PATH")%string then "/app/system.yaml"%string else default ""%string (m !! k).
Lemma environ_map m : clean m -> m !! "SYSTEM_CONFIG_PATH"%string = None ->
  environ (envSorted m ++ [entry_of "SYSTEM_CONFIG_PATH" "/app/system.yaml"]) (envFun m).
Proof.
  intros Hm Hs k Hk. assert (noEq "SYSTEM_CONFIG_PATH") as Hsys by decided. unfold envFun. split.
  - intros v [Hv|Hv%list_elem_of_singleton]%elem_of_app.
    + apply envSorted_entry in Hv; [|done..]. rewrite decide_False; [by rewrite Hv|]. intros ->. by rewrite Hs in Hv.
    + apply entry_of_inj in Hv as [-> ->]; [|done..]. by rewrite decide_True.
  - intros Hn. rewrite decide_False.
    + destruct (m !! k) as [v|] eqn:E; [|done]. destruct (Hn v). apply elem_of_app. left. by apply envSorted_entry.
    + intros ->. destruct (Hn "/app/system.yaml"%string). apply elem_of_app. right. by apply list_elem_of_singleton.
Qed.
Definition query2 : list WorkerDef := default [] (tPipelines example_topology !! "query2"%string).
Definition env_of (i : nat) (id : Z) : string -> string :=
  envFun (workerEnv example_topology "query2" query2 i (default (worker "" 0) (query2 !! i)) id).
Definition container (i : nat) (id : Z) : WorkerInstance := instance example_topology "query2" query2 i (default (worker "" 0) (query2 !! i)) id.
Definition blank : Config := mkConfig newBroker None newWorker None.
Lemma deployed_neighbours_witness : exists c c',
  applyEnv (env_of 1 1) blank = Ok c /\ applyEnv (env_of 2 0) blank = Ok c' /\
  nodeName (Broker c) = "query2_router_1"%string /\ nodeName (Broker c') = "query2_aggregator_0"%string /\
  wNextAmount (Worker c) = 3 /\ wPrevAmount (Worker c') = 2 /\
  forall value, exists w'', shardByValue (wNextPrefix (Worker c)) (wNextAmount (Worker c)) value = Ok (ContainerName w'') /\
    w'' ∈ containersOf example_topology "query2_aggregator" /\
    forall v, v ∈ generateWorkers example_topology -> ContainerName v = ContainerName w'' -> v = w''.
Proof.
  destruct (deployed_neighbours example_topology "query2" query2 1 (worker "router" 2) (worker "aggregator" 3)
    (container 1 1) (container 2 0) (env_of 1 1) (env_of 2 0) blank blank) as (c & c' & H1 & H2 & H3 & H4 & _ & H6 & _ & H8 & H9).
  - exact example_deployable.
  - reflexivity.
  - reflexivity.
  - reflexivity.
  - apply list_elem_of_filter. split; [reflexivity|]. apply worker_iff. exists "query2"%string, query2, 1%nat, (worker "router" 2), 1. split_and!; (reflexivity || lia || (cbn; lia)).
  - apply list_elem_of_filter. split; [reflexivity|]. apply worker_iff. exists "query2"%string, query2, 2%nat, (worker "aggregator" 3), 0. split_and!; (reflexivity || lia || (cbn; lia)).
  - apply environ_map; [decided|reflexivity].
  - apply environ_map; [decided|reflexivity].
  - reflexivity.
  - reflexivity.
  - exists c, c'. split; [exact H1|]. split; [exact H2|]. split; [exact H3|]. split; [exact H4|]. split; [rewrite H6; vm_compute; reflexivity|].
    split; [rewrite H8; vm_compute; reflexivity|exact H9].
Defined.
Lemma deployment_names_witness :
  NoDup (writeWorkersYAML (generateWorkers example_topology) (generateMonitors example_topology)) /\
  Zlen (writeWorkersYAML (generateWorkers example_topology) (generateMonitors example_topology)) = 59 /\
  (forall m, m ∈ generateMonitors example_topology -> forall name,
    name ∈ (fun p => containerOf (miPrefix m) (peer_id p)) <$> peers (newBully (miAmount m) (miID m)) <->
    name ∈ miContainerName <$> generateMonitors example_topology /\ name <> miContainerName m).
Proof.
  destruct (deployment_names example_topology example_deployable) as (H1 & _ & H3). split; [exact H1|]. split; [vm_compute; reflexivity|exact H3].
Defined.
