(* ===== verification/Startup.v ===== *)
(** * From a configuration to a running worker ([src/core], the constructors and
    [Run] methods of [src/workers])

    [workerFactory] makes a worker from its configuration; [NewManager] opens
    its broker first.  A [Run] method is the sequence of what it asks of the
    other components, whose answers are the class [Outcomes]; what its consumers
    do with a delivery is in the components' own files.  [Manager.Run] is a
    machine whose events interleave. *)

From S2P Require Import Prelude Maps Models EofSync Sharding Router Aggregator Filter Q4Count Q5Filter AvgFilter Join Q4Pairs Bully Monitor Config Amqp Consuming.
Implicit Types (env : string -> string).

(** ** The worker of a node *)
Record MonitorWorkerParams := mkMonitorParams {
  mpTcpHost : string; mpTcpPort : Z; mpBullyInterval : string; mpBullyTimeout : string;
  mpUdpPort : Z; mpPingInterval : string; mpPingTimeout : string; mpFailureThreshold : Z
}.
(** The peers of the election, by their addresses. *)
Record MonitorNode := mkMonitorNode {
  mnParams : MonitorWorkerParams; mnState : Monitor; mnBully : Bully; mnPeers : list (Z * string); mnListen : string
}.
Inductive worker :=
  | WSyncFilter (cfg : FilterCfg)
  | WQ5Filter (cfg : Q5Cfg)
  | WDateRange (cfg : DateCfg)
  | WThreshold (cfg : WorkerCfg)
  | WCleaner (prefix : string) (syncKey : KeyType) (fields : list string)
  | WJoin (cfg : JoinCfg) (accounts : wrapper)
  | WQuery4 (cfg : WorkerCfg)
  | WAvgFilter (cfg : AvgCfg) (averages : wrapper)
  | WRouter (cfg : RouterCfg)
  | WSpliter (cfg : RouterCfg)
  | WAggregator (cfg : AggCfg)
  | WScatterAndGather (cfg : SagCfg) (workerAmount : Z)
  | WCounter (cfg : WorkerCfg)
  | WConverter (prefix : string)
  | WMonitor (m : MonitorNode).

(** What comes from files and from package [time]. *)
Class Files := {
  accountsFile : string -> res BrokerConfig;                    (** the broker of [LoadAccountConfig], before defaults *)
  monitorParams : gmap string json -> res MonitorWorkerParams;  (** [ParseMonitorParams]: through YAML and back *)
  parseDuration : string -> option Z
}.

Section Factory.
Context {GR : GoRange} {lib : AmqpLib} {files : Files} (env : string -> string) (sys : option SystemBrokerDefaults).

Definition openBroker (cfg : BrokerConfig) : res wrapper := (connectBroker cfg fresh).1.
Definition LoadAccountConfig (path : string) : res BrokerConfig := cfg ← accountsFile path; applyBrokerDefaults sys cfg.

Definition workerCfg (w : WorkerConfig) : WorkerCfg := mkWorkerCfg (wPrefix w) (wID w) (wPrevAmount w) (Config.Threshold w).
Definition syncKey (w : WorkerConfig) : KeyType := SyncKeyFromInputKeys (InputKeys (SyncEOFConfig w)).

Definition NewRouter (w : WorkerConfig) (params : gmap string json) : res RouterCfg :=
  let amount := env "NEXT_WORKER_AMOUNT"%string in
  if decide (amount = "")%string then Err (ErrMsg "NEXT_WORKER_AMOUNT environment variable is not set")
  else match Atoi amount with
       | None => Err (Wrapf "Invalid NEXT_WORKER_AMOUNT environment variable" (ErrMsg "invalid syntax"))
       | Some n =>
           let '(section, field) := parseRouteField params in
           Ok (mkRouterCfg (wNextPrefix w) (wPrefix w) n section field [] (syncKey w))
       end.
Definition NewSpliter (w : WorkerConfig) (params : gmap string json) : RouterCfg :=
  mkRouterCfg (wNextPrefix w) (wPrefix w) (wNextAmount w) "" "" (parseFields params) (syncKey w).
Definition NewAggregator (w : WorkerConfig) (params : gmap string json) : res AggCfg :=
  p ← parseParams params;
  let '(function, field, grouped, groupSource, groupField) := p in
  Ok (mkAggCfg (wPrefix w) (wID w) function field grouped groupSource groupField).
Definition NewThreshold (w : WorkerConfig) : res WorkerCfg :=
  if Config.Threshold w <=? 0 then Err (ErrMsg "ScatterGatherFilter requires SCATTER_GATHER_THRESHOLD > 0") else Ok (workerCfg w).
Definition NewScatterAndGather (w : WorkerConfig) (rabbitURL : string) : res SagCfg :=
  if Config.Threshold w <=? 0 then Err (ErrMsg "ScatterAndGather requires SCATTER_GATHER_THRESHOLD > 0")
  else
    _ ← wrapf "creating heavy accounts exchange" (connectHeavyExchange rabbitURL "e_q4_degrees" (wID w) fresh).1;
    Ok (mkSagCfg (wPrefix w) (wNextPrefix w) (wNextAmount w) (Config.Threshold w) (wID w)).
Definition NewJoin (w : WorkerConfig) : res (JoinCfg * wrapper) :=
  cfg ← wrapf "failed to load accounts config" (LoadAccountConfig (env "ACCOUNTS_CONFIG_PATH"%string));
  b ← wrapf "failed to create accounts broker" (openBroker cfg);
  Ok (mkJoinCfg (wPrefix w) (wPrevAmount w), b).

(** [monitor.New]: what the parameters leave out, then the election. *)
Definition textOr (s d : string) : string := if decide (s = "")%string then d else s.
Definition numberOr (n d : Z) : Z := if n =? 0 then d else n.
Definition monitorDefaults (p : MonitorWorkerParams) : MonitorWorkerParams :=
  mkMonitorParams (textOr (mpTcpHost p) "0.0.0.0") (numberOr (mpTcpPort p) 9001) (textOr (mpBullyInterval p) "1.5s") (textOr (mpBullyTimeout p) "500ms")
    (numberOr (mpUdpPort p) 9000) (textOr (mpPingInterval p) "3s") (textOr (mpPingTimeout p) "2s") (numberOr (mpFailureThreshold p) 3).
Definition duration (what s : string) : res Z := match parseDuration s with Some d => Ok d | None => Err (ErrMsg what) end.
Definition address (host : string) (port : Z) : string := (host +:+ ":" +:+ itoa port)%string.
Definition NewMonitor (p : MonitorWorkerParams) (w : WorkerConfig) : res MonitorNode :=
  let p := monitorDefaults p in
  _ ← duration "invalid bully.ping_interval" (mpBullyInterval p);
  _ ← duration "invalid bully.ping_timeout" (mpBullyTimeout p);
  let others := filter (fun id => id <> wID w) (Z.of_nat <$> List.seq 0 (Z.to_nat (wAmount w))) in
  Ok (mkMonitorNode p (Monitor_New (wPrefix w +:+ "_" +:+ itoa (wID w))%string (mpFailureThreshold p)) (newBully (wAmount w) (wID w))
    ((fun id => (id, address (wPrefix w +:+ "_" +:+ itoa id)%string (mpTcpPort p))) <$> others)
    (address (mpTcpHost p) (mpTcpPort p))).

Definition workerFactory (cfg : Config) (query : Z) (params : gmap string json) : res worker :=
  let w := Worker cfg in
  let typed t := bool_decide (wType w = t) in
  if typed "SyncFilter"%string then c ← wrapf "failed to create SyncFilter" (NewSyncFilter (wPrefix w) query (syncKey w) params); Ok (WSyncFilter c)
  else if typed "Q5Filter"%string then c ← wrapf "failed to create Q5Filter" (NewQ5Filter (workerCfg w) params); Ok (WQ5Filter c)
  else if typed "DateRangeFilter"%string then c ← wrapf "failed to create DateRangeFilter" (NewDateRange (wPrefix w) (syncKey w) params); Ok (WDateRange c)
  else if typed "ScatterGatherFilter"%string then c ← wrapf "failed to create ScatterGatherFilter" (NewThreshold w); Ok (WThreshold c)
  else if typed "Cleaner"%string then Ok (WCleaner (wPrefix w) (syncKey w) (fieldsToClean params))
  else if typed "Join"%string then j ← wrapf "failed to create Join" (NewJoin w); Ok (WJoin j.1 j.2)
  else if typed "JoinQuery4"%string then Ok (WQuery4 (workerCfg w))
  else if typed "AvgFormatFilter"%string then
    match AvgBroker cfg with
    | None => Err (ErrMsg "avg_broker config is required for AvgFormatFilter")
    | Some avg =>
        b ← wrapf "failed to create avg broker" (openBroker avg);
        c ← wrapf "failed to create AvgFormatFilter" (NewAvgFormatFilter (wPrefix w) (syncKey w) (wPrevAmount w) params);
        Ok (WAvgFilter c b)
    end
  else if typed "Router"%string then c ← wrapf "failed to create Router" (NewRouter w params); Ok (WRouter c)
  else if typed "Spliter"%string then Ok (WSpliter (NewSpliter w params))
  else if typed "Aggregator"%string then c ← wrapf "failed to create Aggregator" (NewAggregator w params); Ok (WAggregator c)
  else if typed "ScatterAndGather"%string then
    c ← wrapf "failed to create ScatterAndGather" (NewScatterAndGather w (RabbitURL (Broker cfg))); Ok (WScatterAndGather c (wAmount w))
  else if typed "ScatterGather"%string then Ok (WCounter (workerCfg w))
  else if typed "Converter"%string then Ok (WConverter (wPrefix w))
  else if typed "Monitor"%string then
    if hasParams w then
      p ← wrapf "failed to parse monitor params" (monitorParams params);
      m ← wrapf "failed to create Monitor" (NewMonitor p w);
      Ok (WMonitor m)
    else Err (ErrMsg "worker.params required for Monitor worker type")
  else Err (ErrMsg ("unknown worker type: " +:+ wType w)).

(** A monitor has no broker and does not listen for pings here. *)
Record manager := mkManager { mgWorker : worker; mgBroker : option wrapper; mgListens : option (Z * string * Z) }.
Definition NewManager (cfg : Config) (query : Z) (params : gmap string json) : res manager :=
  if decide (wType (Worker cfg) = "Monitor")%string then
    w ← workerFactory cfg query params; Ok (mkManager w None None)
  else
    b ← openBroker (Broker cfg);
    w ← workerFactory cfg query params;
    Ok (mkManager w (Some b) ((fun port => (port, wPrefix (Worker cfg), wID (Worker cfg))) <$> Monitoring cfg)).
End Factory.

(** ** [Run] *)
(** What a [Run] method asks for: [Sync] is the end-of-stream controller, [Second]
    the other broker of a worker that has two; [GoConsume] starts a consumer in a goroutine,
    [FirstResult] waits for the first consumer that returns. *)
Inductive which := Main | Second.
#[global] Instance which_eq_dec : EqDecision which.
Proof. solve_decision. Defined.
Inductive act :=
  | NewSync
  | NewCoord (eof state : bool)
  | RecoverAll
  | GoSync
  | Consume (b : which)
  | GoConsume (b : which)
  | FirstResult
  | StopConsuming (b : which)
  | BullyStart
  | GoListen
  | LoadWorkers
  | GoLeader (workers : bool)
  | WaitDone.
#[global] Instance act_eq_dec : EqDecision act.
Proof. solve_decision. Defined.
Class Outcomes := outcome : list act -> act -> option error.

Section Run.
Context {out : Outcomes}.
Definition perform (a : act) : M (list act) (option error) := fun tr => (Ok (outcome tr a), tr ++ [a]).
Definition must (a : act) : M (list act) unit := r ← perform a; match r with Some e => failM e | None => mret tt end.
Definition start (a : act) : M (list act) unit := _ ← perform a; mret tt.
(** [defer]: the stops run on every return, and their errors are dropped. *)
Fixpoint stopAll (bs : list which) : M (list act) unit :=
  match bs with [] => mret tt | b :: bs' => _ ← start (StopConsuming b); stopAll bs' end.
Definition deferStops (bs : list which) (body : M (list act) unit) : M (list act) unit := fun tr =>
  let (r, tr) := body tr in (r, (stopAll bs tr).2).

(** Here only the main consumer ends the worker: what the exchange's consumer
    returns is logged. *)
Definition ScatterAndGather_Run : M (list act) unit := deferStops [Main; Second]
  (_ ← must (NewCoord false true); _ ← must RecoverAll; _ ← start (GoConsume Second); must (Consume Main)).
Definition Monitor_Run {files : Files} (p : MonitorWorkerParams) : M (list act) unit :=
  _ ← liftR (duration "invalid monitoring.ping_interval" (mpPingInterval p));
  _ ← liftR (duration "invalid monitoring.ping_timeout" (mpPingTimeout p));
  _ ← must BullyStart;
  _ ← start GoListen;
  workers ← perform LoadWorkers;
  _ ← start (GoLeader (match workers with None => true | Some _ => false end));
  start WaitDone.
(** The brokers that a worker consumes from. *)
Definition consumesFrom (w : worker) : list which :=
  match w with
  | WMonitor _ => []
  | WJoin _ _ | WAvgFilter _ _ | WScatterAndGather _ _ => [Main; Second]
  | _ => [Main]
  end.
End Run.

(** ** Recovery comes first *)
Section Order.
Context {out : Outcomes} {files : Files}.






(** The end of the exchange between the replicas does not end a worker of query
    4: the worker ends with what its main consumer returns, whatever the
    exchange's returned. *)
Theorem exchange_end_ignored : outcome [] (NewCoord false true) = None -> outcome [NewCoord false true] RecoverAll = None ->
  (ScatterAndGather_Run []).1 =
    match outcome [NewCoord false true; RecoverAll; GoConsume Second] (Consume Main) with Some e => Err e | None => Ok tt end.
Proof.
  intros H1 H2. cbv [ScatterAndGather_Run deferStops must start perform mbind M_bind mret M_ret failM app].
  rewrite H1, H2. by destruct (outcome _ (Consume Main)).
Qed.

(** A monitor that cannot read the list of the workers does not try again, and as
    the leader pings the gateway only. *)
Theorem monitor_without_workers p r tr e : Monitor_Run p [] = (r, tr) -> outcome [BullyStart; GoListen] LoadWorkers = Some e ->
  filter (fun a => a = LoadWorkers) tr `prefix_of` [LoadWorkers] /\ GoLeader true ∉ tr /\
  forall m, pinging m = None -> pinging (leaderLoop_tick true [] m) = Some [gatewayMonitorAddress].
Proof.
  intros H He. assert (tr = [] \/ tr = [BullyStart] \/ tr = [BullyStart; GoListen; LoadWorkers; GoLeader false; WaitDone]) as Htr.
  { cbv [Monitor_Run liftR duration must start perform mbind M_bind mret M_ret failM app] in H.
    destruct (parseDuration (mpPingInterval p)); [|injection H as _ <-; auto].
    destruct (parseDuration (mpPingTimeout p)); [|injection H as _ <-; auto].
    destruct (outcome [] BullyStart); [injection H as _ <-; auto|]. rewrite He in H. injection H as _ <-. auto. }
  split; [|split; [|intros m Hm; unfold leaderLoop_tick; by rewrite Hm]]; destruct Htr as [-> | [-> | ->]];
    first [apply prefix_nil|reflexivity|set_solver].
Qed.
End Order.

(** ** [Manager.Run] *)
(** The worker's result waits in a channel; a signal starts a goroutine that
    stops the worker and then closes its broker, while the manager waits for the
    result or five seconds. *)
Inductive phase := Serving | ShuttingDown | Exited (r : res unit).
Record mstate := mkMState { mPhase : phase; result : option (res unit); stopperSteps : option nat; pingsAnswered : bool }.
Definition mInitial (m : manager) : mstate := mkMState Serving None None (match mgListens m with Some _ => true | None => false end).
Inductive mevent := Signal | WorkerReturns (r : res unit) | Stopper | Receive | Timeout.
Definition mstep (m : manager) (s : mstate) (e : mevent) : option mstate :=
  match e with
  | WorkerReturns r => match result s with None => Some (mkMState (mPhase s) (Some r) (stopperSteps s) (pingsAnswered s)) | Some _ => None end
  | Signal => match mPhase s with Serving => Some (mkMState ShuttingDown (result s) (Some 0%nat) false) | _ => None end
  | Stopper =>
      match stopperSteps s with
      | Some 0%nat => Some (mkMState (mPhase s) (result s) (Some 1%nat) (pingsAnswered s))
      | Some 1%nat => match mgBroker m with Some _ => Some (mkMState (mPhase s) (result s) (Some 2%nat) (pingsAnswered s)) | None => None end
      | _ => None
      end
  | Receive =>
      match mPhase s, result s with
      | Serving, Some r => Some (mkMState (Exited r) (result s) (stopperSteps s) (pingsAnswered s))
      | ShuttingDown, Some _ => Some (mkMState (Exited (Ok tt)) (result s) (stopperSteps s) (pingsAnswered s))
      | _, _ => None
      end
  | Timeout => match mPhase s with ShuttingDown => Some (mkMState (Exited (Ok tt)) (result s) (stopperSteps s) (pingsAnswered s)) | _ => None end
  end.
Fixpoint mexec (m : manager) (es : list mevent) (s : mstate) : option mstate :=
  match es with [] => Some s | e :: es' => s' ← mstep m s e; mexec m es' s' end.

(** [Stop] of a worker; [sync]: its controller was made. *)
Inductive stopCall := StopSync | StopConsumer (b : which) | CloseBroker (b : which) | CancelContext | StopElection | StopPinger.
#[global] Instance stopCall_eq_dec : EqDecision stopCall.
Proof. solve_decision. Defined.
Definition Stop (w : worker) (sync : bool) : list stopCall :=
  match w with
  | WSyncFilter _ | WDateRange _ | WCleaner _ _ _ | WRouter _ | WSpliter _ => if sync then [StopSync] else []
  | WAvgFilter _ _ => (if sync then [StopSync] else []) ++ [CloseBroker Second]
  | WJoin _ _ => [CloseBroker Second]
  | WScatterAndGather _ _ => [StopConsumer Main; CloseBroker Main; CloseBroker Second]
  | WCounter _ | WThreshold _ | WQuery4 _ => [StopConsumer Main; CloseBroker Main]
  | WQ5Filter _ | WAggregator _ | WConverter _ => []
  | WMonitor _ => [CancelContext; StopElection; StopPinger]
  end.
(** The goroutine of a shutdown after [n] of its two steps. *)
Definition stopped (m : manager) (sync : bool) (n : nat) : list stopCall :=
  match n with
  | O => []
  | S O => Stop (mgWorker m) sync
  | _ => Stop (mgWorker m) sync ++ match mgBroker m with Some _ => [CloseBroker Main] | None => [] end
  end.

(** Signals seen so far decide what the manager is doing. *)
Definition minv (sig : bool) (s : mstate) : Prop :=
  match mPhase s with
  | Serving => sig = false
  | ShuttingDown => sig = true
  | Exited r => if sig then r = Ok tt else result s = Some r
  end /\ (sig = false <-> stopperSteps s = None).
Lemma mstep_inv m sig s e s' : minv sig s -> mstep m s e = Some s' -> minv (sig || match e with Signal => true | _ => false end) s'.
Proof.
  intros [Hp Hs] H. destruct e as [|r| | |]; cbn [mstep] in H; rewrite ?orb_false_r, ?orb_true_r.
  - destruct (mPhase s); [|done..]. injection H as <-. by split; cbn.
  - destruct (result s) eqn:E; [done|]. injection H as <-. split; [|done]. cbn. destruct (mPhase s); [done..|]. by destruct sig.
  - destruct (stopperSteps s) as [[|[|n]]|] eqn:E; [|destruct (mgBroker m); [|done]|done..]; injection H as <-; split; cbn; try done; destruct sig; naive_solver.
  - destruct (mPhase s) eqn:E, (result s) eqn:Er; try done; injection H as <-; (split; [cbn|done]); by rewrite Hp.
  - destruct (mPhase s) eqn:E; try done. injection H as <-. (split; [cbn|done]). by rewrite Hp.
Qed.
Lemma mexec_inv m es sig s s' : minv sig s -> mexec m es s = Some s' ->
  minv (sig || existsb (fun e => match e with Signal => true | _ => false end) es) s'.
Proof.
  revert sig s. induction es as [|e es IH]; cbn [mexec existsb]; intros sig s Hs H; [injection H as <-; by rewrite orb_false_r|].
  destruct (mstep m s e) as [s1|] eqn:E; [|done]. cbn in H. rewrite orb_assoc. eapply IH, H. by eapply mstep_inv.
Qed.

(** A manager reports what its worker returned unless a signal came first; after
    a signal it exits without an error, at the latest by the timeout, which is
    always possible then, and only then is anything stopped. *)
Theorem manager_shutdown m es s : mexec m es (mInitial m) = Some s ->
  let sig := existsb (fun e => match e with Signal => true | _ => false end) es in
  match mPhase s with
  | Serving => sig = false /\ forall r, result s = Some r -> exists s', mstep m s Receive = Some s' /\ mPhase s' = Exited r
  | ShuttingDown => sig = true /\ exists s', mstep m s Timeout = Some s' /\ mPhase s' = Exited (Ok tt)
  | Exited r => if sig then r = Ok tt else result s = Some r
  end /\ (stopperSteps s <> None -> sig = true).
Proof.
  intros H sig. apply (mexec_inv _ _ false) in H; [|by split]. cbn [orb] in H. fold sig in H. destruct H as [Hp Hs].
  split; [|destruct sig; naive_solver]. destruct (mPhase s) eqn:E.
  - split; [done|]. intros r Hr. cbn [mstep]. rewrite E, Hr. by eexists.
  - split; [done|]. cbn [mstep]. rewrite E. by eexists.
  - done.
Qed.
(** After both steps of a shutdown every broker the worker may consume from is closed. *)
Theorem stopped_closes m sync b : b ∈ consumesFrom (mgWorker m) -> mgBroker m <> None -> CloseBroker b ∈ stopped m sync 2.
Proof.
  intros Hb Hm. unfold stopped. destruct (mgBroker m); [|done].
  destruct (mgWorker m), sync; cbn in Hb |- *; rewrite ?elem_of_cons, ?elem_of_nil in *; naive_solver.
Qed.

(** ** A node that starts *)
Lemma wrapf_ok {A} what (r : res A) a : wrapf what r = Ok a -> r = Ok a.
Proof. by destruct r. Qed.
Lemma worker_fixed sys cfg cfg' : verifyConfig (applyWorkerDefaults sys cfg) = Ok cfg' ->
  wNextAmount (Worker cfg') = wNextAmount (Worker cfg) /\ wPrevAmount (Worker cfg') = wPrevAmount (Worker cfg).
Proof.
  intros H. apply verifyConfig_ok in H as [-> _]. unfold applyWorkerDefaults. destruct sys; [|done]. by case_match.
Qed.
(** The number of an environment variable, 0 if it is not set. *)
Definition setNumber (env : string -> string) (name : string) : Z := default 0 (Atoi (env name)).
Lemma envInt_number env name n : envInt env name 0 = Ok n -> n = setNumber env name.
Proof.
  unfold envInt, setNumber. case_decide as He; [rewrite He; by intros [= <-]|]. destruct (Atoi _); [by intros [= <-]|done].
Qed.
Lemma applyEnv_numbers env cfg cfg' : applyEnv env cfg = Ok cfg' ->
  envInt env "NEXT_WORKER_AMOUNT" (wNextAmount (Worker cfg)) = Ok (wNextAmount (Worker cfg')) /\
  envInt env "PREV_WORKER_AMOUNT" (wPrevAmount (Worker cfg)) = Ok (wPrevAmount (Worker cfg')).
Proof.
  unfold applyEnv. intros H. do 5 apply res_bind_ok in H as (? & _ & H). apply res_bind_ok in H as (p & Hp & H).
  apply res_bind_ok in H as (? & _ & H). apply res_bind_ok in H as (n & Hn & H).
  apply res_bind_ok in H as (t & _ & H). case_decide; [done|]. by injection H as <-.
Qed.
(** The fields of [WorkerConfig] that the environment fills are tagged
    [yaml:"-"]: reading a file leaves the two amounts 0. *)
Definition untagged (readConfig : Config -> res Config) : Prop := forall monitoring c,
  readConfig (mkConfig newBroker None newWorker monitoring) = Ok c -> wNextAmount (Worker c) = 0 /\ wPrevAmount (Worker c) = 0.
Lemma Load_parts sysFile readConfig env d cfg d' : untagged readConfig ->
  Load sysFile readConfig env d = (Ok cfg, d') -> wType (Worker cfg) <> "Monitor"%string ->
  (exists c, applyBrokerDefaults (systemDefaults d') c = Ok (Broker cfg)) /\
  wNextAmount (Worker cfg) = setNumber env "NEXT_WORKER_AMOUNT" /\ wPrevAmount (Worker cfg) = setNumber env "PREV_WORKER_AMOUNT".
Proof.
  unfold Load. intros Hu. destruct (loadSystemDefaults sysFile d) as [mon d1]. intros H Hm. injection H as H <-.
  apply res_bind_ok in H as (c0 & Hr & H). apply Hu in Hr as [Hn Hp].
  apply res_bind_ok in H as (c1 & Henv & H). apply applyEnv_numbers in Henv as [Hnext Hprev]. rewrite Hn in Hnext. rewrite Hp in Hprev.
  apply res_bind_ok in H as (c2 & Hv & H). apply worker_fixed in Hv as [Hv1 Hv2]. rewrite <- Hv1 in Hnext. rewrite <- Hv2 in Hprev.
  destruct (decide (wType (Worker c2) = "Monitor"%string)) as [Ht|Ht]; [by injection H as <-|].
  apply res_bind_ok in H as (b & Hb & H). apply res_bind_ok in H as (avg & _ & H).
  destruct (Prefetch _ <? _) in H; [done|]. injection H as <-. split; [by eexists|]. split; by apply envInt_number.
Qed.

(** What a worker divides hashes by, and how many ends it waits for. *)
Definition modulus (w : worker) : option Z :=
  match w with
  | WRouter c | WSpliter c => Some (nextWorkerAmount c)
  | WScatterAndGather c _ => Some (sgNextWorkerAmount c)
  | _ => None
  end.
Definition endsAwaited (w : worker) : option Z :=
  match w with
  | WQ5Filter c => Some (prevWorkerAmount (q5Worker c))
  | WThreshold c | WQuery4 c | WCounter c => Some (prevWorkerAmount c)
  | WJoin c _ => Some (previousWorkerAmount c)
  | WAvgFilter c _ => Some (prevWorkers c)
  | _ => None
  end.
(** What the constructors insist on. *)
Definition checkedSettings (env : string -> string) (w : worker) : Prop :=
  match w with
  | WRouter _ => is_Some (Atoi (env "NEXT_WORKER_AMOUNT"%string))
  | WThreshold c => 0 < thresholdAmount c
  | WScatterAndGather c _ => 0 < threshold c
  | WQ5Filter c => 0 < prevWorkerAmount (q5Worker c)
  | WSyncFilter c => fType c = "format"%string -> fValueStrings c <> []
  | WDateRange c => fromDate c <> ""%string /\ toDate c <> ""%string
  | WAggregator c => agGrouped c = false -> agFunction c = opCount
  | _ => True
  end.
Definition placed (env : string -> string) (next prev : Z) (w : worker) : Prop :=
  checkedSettings env w /\ (forall n, modulus w = Some n -> n = next) /\ (forall n, endsAwaited w = Some n -> n = prev).
Section Ready.
Context {GR : GoRange} {lib : AmqpLib} {files : Files}.
Lemma parseParams_ungrouped params op field source groupField : parseParams params = Ok (op, field, false, source, groupField) -> op = opCount.
Proof.
  unfold parseParams. destruct (params !! _) as [[rawType| | | |]|]; try done. destruct (parseOp rawType) as [o|]; [|done].
  set (f := match params !! "field"%string with Some (JStr f) => f | _ => _ end). clearbody f.
  destruct (bool_decide (f = EmptyString) && bool_decide (o <> opCount)); [done|]. destruct (range _) as [|[k [g|]] [|? ?]]; try done.
  case_bool_decide as Ho; [done|]. by intros [= <- _ _ _].
Qed.
Lemma NewSyncFilter_fits prefix query key params c : NewSyncFilter prefix query key params = Ok c -> fType c = "format"%string -> fValueStrings c <> [].
Proof.
  unfold NewSyncFilter. destruct (params !! "type"%string) as [[]|], (params !! "field"%string) as [[]|], (params !! "operator"%string) as [[]|],
    (params !! "value_float"%string) as [[]|]; try done.
  intros H. apply res_bind_ok in H as (vs & _ & H). destruct (bool_decide (s = "format"%string)) eqn:E1, (bool_decide (vs = [])) eqn:E2; try done;
    injection H as <-; cbn; [by apply bool_decide_eq_false in E2|by apply bool_decide_eq_false in E1..].
Qed.
Lemma NewQ5Filter_fits w params c : NewQ5Filter w params = Ok c -> 0 < prevWorkerAmount w /\ q5Worker c = w.
Proof.
  unfold NewQ5Filter. destruct (params !! "type"%string) as [[]|], (params !! "field"%string) as [[]|], (params !! "operator"%string) as [[]|],
    (params !! "value_float"%string) as [[]|]; try done.
  intros H. apply res_bind_ok in H as (vs & _ & H). destruct (Z.leb_spec (prevWorkerAmount w) 0); [done|]. by injection H as <-.
Qed.
Lemma NewAvgFormatFilter_prev prefix key prev params c : NewAvgFormatFilter prefix key prev params = Ok c -> prevWorkers c = prev.
Proof. unfold NewAvgFormatFilter. destruct (params !! _) as [[]|]; try done. by intros [= <-]. Qed.
Lemma NewDateRange_fits prefix key params c : NewDateRange prefix key params = Ok c -> fromDate c <> ""%string /\ toDate c <> ""%string.
Proof.
  unfold NewDateRange. destruct (params !! "type"%string) as [[]|], (params !! "from"%string) as [[f| | | |]|], (params !! "to"%string) as [[t| | | |]|]; try done.
  destruct (bool_decide (f = EmptyString)) eqn:E1, (bool_decide (t = EmptyString)) eqn:E2; try done.
  intros [= <-]. by apply bool_decide_eq_false in E1, E2.
Qed.
Lemma NewRouter_fits env w params c : NewRouter env w params = Ok c ->
  is_Some (Atoi (env "NEXT_WORKER_AMOUNT"%string)) /\ nextWorkerAmount c = setNumber env "NEXT_WORKER_AMOUNT".
Proof.
  unfold NewRouter, setNumber. case_decide; [done|]. destruct (Atoi _) as [n|]; [|done]. destruct (parseRouteField params). intros [= <-]. by split; [eexists|].
Qed.
Lemma NewAggregator_fits w params c : NewAggregator w params = Ok c -> agGrouped c = false -> agFunction c = opCount.
Proof.
  unfold NewAggregator. intros H. apply res_bind_ok in H as ([[[[op field] g] source] groupField] & Hp & [= <-]). cbn. intros ->. by eapply parseParams_ungrouped.
Qed.
Lemma factory_fits env sys cfg query params w : wNextAmount (Worker cfg) = setNumber env "NEXT_WORKER_AMOUNT" ->
  workerFactory env sys cfg query params = Ok w -> placed env (wNextAmount (Worker cfg)) (wPrevAmount (Worker cfg)) w.
Proof.
  intros Henv. unfold workerFactory. repeat case_bool_decide; try done; intros H'.
  all: try (apply res_bind_ok in H' as (x & Hx & H'); apply wrapf_ok in Hx).
  all: try (injection H' as <-; unfold placed; cbn [checkedSettings modulus endsAwaited]; split_and!; try done; try by intros ? [= <-]).
  all: eauto using NewSyncFilter_fits, NewAggregator_fits.
  - by apply NewQ5Filter_fits in Hx as [? ->].
  - apply NewQ5Filter_fits in Hx as [_ ->]. by intros ? [= <-].
  - by apply NewDateRange_fits in Hx as [? _].
  - by apply NewDateRange_fits in Hx as [_ ?].
  - unfold NewThreshold in Hx. destruct (Z.leb_spec (Config.Threshold (Worker cfg)) 0); [done|]. by injection Hx as <-.
  - unfold NewThreshold in Hx. case_match; [done|]. injection Hx as <-. by intros ? [= <-].
  - unfold NewJoin in Hx. apply res_bind_ok in Hx as (? & _ & Hx). apply res_bind_ok in Hx as (? & _ & [= <-]). by intros ? [= <-].
  - destruct (AvgBroker cfg); [|done]. apply res_bind_ok in H' as (b' & _ & H'). apply res_bind_ok in H' as (c & Hc & [= <-]).
    apply wrapf_ok, NewAvgFormatFilter_prev in Hc. split_and!; try done. by intros ? [= <-].
  - by apply NewRouter_fits in Hx as [? _].
  - apply NewRouter_fits in Hx as [_ Hx]. intros ? [= <-]. congruence.
  - unfold NewScatterAndGather in Hx. destruct (Z.leb_spec (Config.Threshold (Worker cfg)) 0); [done|].
    by apply res_bind_ok in Hx as ([] & _ & [= <-]).
  - unfold NewScatterAndGather in Hx. case_match; [done|]. apply res_bind_ok in Hx as ([] & _ & [= <-]). by intros ? [= <-].
  - destruct (hasParams _); [|done]. apply res_bind_ok in H' as (p & _ & H'). by apply res_bind_ok in H' as (m & _ & [= <-]).
Qed.

(** C31. A node, other than the monitor, that comes up has a broker that is
    connected as its configuration describes; the number by which a worker
    divides hashes is [NEXT_WORKER_AMOUNT] of its environment, and the number of
    ends it waits for [PREV_WORKER_AMOUNT], each 0 where the variable is not
    set.  Where the first is positive every value has a shard among the next
    replicas; where it is 0 every value to be sharded ends the process (and such
    a worker can come up: [started_without_replicas]).  The constructors
    guarantee the settings of [checkedSettings]: that the router's number was
    given, positive thresholds, a positive number of ends for the filter of
    query 5, and parameters. *)
Theorem started_node_fits sysFile readConfig env d cfg d' query params m : untagged readConfig ->
  Load sysFile readConfig env d = (Ok cfg, d') -> wType (Worker cfg) <> "Monitor"%string ->
  NewManager env (systemDefaults d') cfg query params = Ok m ->
  (exists b s, mgBroker m = Some b /\ connectBroker (Broker cfg) fresh = (Ok b, s) /\ connected (Broker cfg) b s) /\
  checkedSettings env (mgWorker m) /\
  (forall n, modulus (mgWorker m) = Some n -> n = setNumber env "NEXT_WORKER_AMOUNT" /\
     (0 < n -> forall value, exists i, shardIndex value n = Ok i /\ 0 <= i < n) /\
     (n = 0 -> forall value, exists p, shardIndex value n = Panic p)) /\
  (forall n, endsAwaited (mgWorker m) = Some n -> n = setNumber env "PREV_WORKER_AMOUNT").
Proof.
  intros Hu Hl Hm H. destruct (Load_parts _ _ _ _ _ _ Hu Hl Hm) as ([c Hc] & Hnext & Hprev). unfold NewManager in H. rewrite decide_False in H by done.
  apply res_bind_ok in H as (b & Hb & H). apply res_bind_ok in H as (w & Hw & [= <-]). cbn [mgWorker mgBroker].
  apply factory_fits in Hw as (Hcheck & Hmod & Hends); [|done]. rewrite Hnext in Hmod. rewrite Hprev in Hends. split; [|split; [done|split; [|done]]].
  - unfold openBroker in Hb. destruct (connectBroker (Broker cfg) fresh) as [r s] eqn:E. cbn in Hb. subst r.
    exists b, s. split; [done|]. split; [done|]. apply applyBrokerDefaults_ready in Hc as [Hs _].
    pose proof (connectBroker_spec (Broker cfg) Hs fresh eq_refl) as Hspec. rewrite E in Hspec. exact Hspec.
  - intros n Hn. split; [by apply Hmod|]. split; [intros Hpos value; by apply shardIndex_range|]. intros -> value. by eexists.
Qed.
End Ready.

(** ** Examples *)
#[local] Instance accepts : Outcomes := fun _ _ => None.
#[local] Instance no_files : Files := {|
  accountsFile := fun _ => Err (ErrMsg "no file"); monitorParams := fun _ => Err (ErrMsg "no parameters"); parseDuration := fun _ => Some 1
|}.
Lemma exchange_end_ignored_witness :
  let out : Outcomes := fun _ a => match a with GoConsume Second => Some (ErrMsg "gone") | _ => None end in
  (ScatterAndGather_Run (out := out) []).1 = Ok tt.
Proof.
  intros out. exact (exchange_end_ignored (out := out) eq_refl eq_refl).
Defined.
Lemma monitor_without_workers_witness :
  let out : Outcomes := fun _ a => match a with LoadWorkers => Some (ErrMsg "read workers config") | _ => None end in
  let p := mkMonitorParams "" 0 "" "" 0 "3s" "2s" 0 in
  (Monitor_Run (out := out) p []).1 = Ok tt /\
  forall m, pinging m = None -> pinging (leaderLoop_tick true [] m) = Some ["gateway"%string].
Proof.
  intros out p. split; [reflexivity|].
  apply (monitor_without_workers (out := out) p (Ok tt) [BullyStart; GoListen; LoadWorkers; GoLeader false; WaitDone] (ErrMsg "read workers config")); reflexivity.
Defined.
Definition a_manager : manager := mkManager (WConverter "query5_converter") (Some (mkWrapper newBroker "q" "x")) None.
Lemma manager_shutdown_witness : exists s, mexec a_manager [Signal; Stopper; WorkerReturns (Err (ErrMsg "closed")); Stopper; Receive] (mInitial a_manager) = Some s /\
  mPhase s = Exited (Ok tt) /\ stopperSteps s = Some 2%nat /\ (stopperSteps s <> None -> true = true).
Proof.
  eexists. split; [reflexivity|]. split; [reflexivity|]. split; [reflexivity|].
  apply (manager_shutdown a_manager [Signal; Stopper; WorkerReturns (Err (ErrMsg "closed")); Stopper; Receive]
    (mkMState (Exited (Ok tt)) (Some (Err (ErrMsg "closed"))) (Some 2%nat) false)). reflexivity.
Defined.
Lemma stopped_closes_witness : CloseBroker Main ∈ stopped a_manager true 2.
Proof. apply (stopped_closes a_manager true Main); [left|discriminate]. Defined.
Definition node_env (name : string) : string :=
  if decide (name = "SCATTER_GATHER_THRESHOLD")%string then "5"%string
  else if decide (name = "NEXT_WORKER_AMOUNT")%string then "3"%string else agg_env name.
#[local] Instance any_range : GoRange := range_id.
Lemma agg_untagged : untagged agg_yaml.
Proof. intros mon c [= <-]. by split. Qed.
Lemma started_node_fits_witness : exists cfg d' m,
  Load (Some (Ok system_yaml)) agg_yaml node_env no_defaults = (Ok cfg, d') /\ wType (Worker cfg) <> "Monitor"%string /\
  NewManager (lib := server 1000) node_env (systemDefaults d') cfg 4 ∅ = Ok m /\
  mgWorker m = WScatterAndGather (mkSagCfg "sag" "" 3 5 1) 2 /\
  (exists b s, mgBroker m = Some b /\ connectBroker (lib := server 1000) (Broker cfg) fresh = (Ok b, s) /\
    connected (lib := server 1000) (Broker cfg) b s) /\
  checkedSettings node_env (mgWorker m) /\
  (forall n, modulus (mgWorker m) = Some n -> n = setNumber node_env "NEXT_WORKER_AMOUNT" /\
     (0 < n -> forall value, exists i, shardIndex value n = Ok i /\ 0 <= i < n) /\
     (n = 0 -> forall value, exists p, shardIndex value n = Panic p)) /\
  (forall n, endsAwaited (mgWorker m) = Some n -> n = setNumber node_env "PREV_WORKER_AMOUNT").
Proof.
  eexists _, _, _. split; [vm_compute; reflexivity|]. split; [discriminate|]. split; [vm_compute; reflexivity|]. split; [reflexivity|].
  apply (started_node_fits (lib := server 1000) (Some (Ok system_yaml)) agg_yaml node_env no_defaults _
    (mkDefaults (sysBroker system_yaml) (Some 100)) 4 ∅); [exact agg_untagged|vm_compute; reflexivity|discriminate|vm_compute; reflexivity].
Defined.
(** The same node without [NEXT_WORKER_AMOUNT] comes up, and has nothing to divide by. *)
Definition bare_env (name : string) : string := if decide (name = "NEXT_WORKER_AMOUNT")%string then ""%string else node_env name.
Theorem started_without_replicas : exists cfg d' m c n,
  Load (Some (Ok system_yaml)) agg_yaml bare_env no_defaults = (Ok cfg, d') /\
  NewManager (lib := server 1000) bare_env (systemDefaults d') cfg 4 ∅ = Ok m /\ mgWorker m = WScatterAndGather c n /\
  forall value, exists p, shardByValue (sgNextWorkerPrefix c) (sgNextWorkerAmount c) value = Panic p.
Proof.
  eexists _, _, _, _, _. split; [vm_compute; reflexivity|]. split; [vm_compute; reflexivity|]. split; [reflexivity|]. intros value. by eexists.
Qed.
