(* ===== verification/GatewayStart.v ===== *)
(** * How the gateway starts ([src/gateway/config/config.go], [NewGateway]), and
    its message handler ([gateway/internal/messagehandler])

    The gateway reads its own file, takes what that leaves out from the system's
    file and the environment, and opens its brokers.  Unlike a worker it drops
    the error of applying the defaults to its broker, which then keeps what was
    filled in before: [applyInPlace] is [applyBrokerDefaults] as the code runs
    it, on the configuration in place. *)

From S2P Require Import Prelude Maps Slices Models Config Amqp Startup.
Implicit Types (env : string -> string).

(** ** The defaults of a broker, in place *)
Definition set (f : BrokerConfig -> BrokerConfig) : M BrokerConfig unit := modS f.
Definition failIf (b : bool) (what : string) : M BrokerConfig unit := if b then failM (ErrMsg what) else mret tt.
Definition inputKeysInPlace : M BrokerConfig unit :=
  cfg ← getS;
  _ ← (if decide (Keys (inExchange cfg) = [] /\ eType (inExchange cfg) <> "fanout")%string then
         _ ← failIf (bool_decide (WorkerPrefix cfg = "")%string) "WORKER_PREFIX environment variable is required for input keys";
         _ ← set (fun cfg => setInExchange (withKeys [nodeName cfg] (inExchange cfg)) cfg);
         set (fun cfg => setInQueue (withQueueName (nodeName cfg) (inQueue cfg)) cfg)
       else mret tt);
  cfg ← getS;
  if decide (Keys (inExchange cfg) = [] /\ eType (inExchange cfg) = "fanout")%string then
    _ ← failIf (bool_decide (WorkerPrefix cfg = "")%string) "WORKER_PREFIX environment variable is required for input keys";
    set (fun cfg => setInQueue (withQueueName (nodeName cfg) (inQueue cfg)) cfg)
  else mret tt.
Definition inputInPlace : M BrokerConfig unit :=
  cfg ← getS;
  if isInputExchangeType (Type_ cfg) then
    _ ← set (fun cfg => setInExchange (inExchange cfg) cfg);
    name ← liftR (nameOr "WORKER_PREFIX environment variable is required for input exchange" (eName (inExchange cfg)) (WorkerPrefix cfg));
    _ ← set (fun cfg => setInExchange (withExchangeName name (inExchange cfg)) cfg);
    _ ← failIf (bool_decide (eType (inExchange cfg) = "")%string) "input exchange type is required for exchange input";
    _ ← inputKeysInPlace;
    set (fun cfg => setInQueue (inQueue cfg) cfg)
  else
    _ ← set (fun cfg => setInQueue (inQueue cfg) cfg);
    name ← liftR (nameOr "WORKER_PREFIX environment variable is required for input queue" (qName (inQueue cfg)) (WorkerPrefix cfg));
    set (fun cfg => setInQueue (withQueueName name (inQueue cfg)) cfg).
Definition outputInPlace : M BrokerConfig unit :=
  cfg ← getS;
  if isOutputExchangeType (Type_ cfg) then
    _ ← set (fun cfg => setOutExchange (outExchange cfg) cfg);
    name ← liftR (nameOr "NEXT_WORKER_PREFIX environment variable is required for output exchange" (eName (outExchange cfg)) (NextWorkerPrefix cfg));
    _ ← set (fun cfg => setOutExchange (withExchangeName name (outExchange cfg)) cfg);
    failIf (bool_decide (eType (outExchange cfg) = "")%string) "output exchange type is required for exchange output"
  else
    _ ← set (fun cfg => setOutQueue (outQueue cfg) cfg);
    name ← liftR (nameOr "NEXT_WORKER_PREFIX environment variable is required for output queue" (qName (outQueue cfg)) (NextWorkerPrefix cfg));
    set (fun cfg => setOutQueue (withQueueName name (outQueue cfg)) cfg).
Definition applyInPlace (sys : option SystemBrokerDefaults) : M BrokerConfig unit :=
  _ ← set (applyPlain sys);
  cfg ← getS;
  if decide (Type_ cfg = "queue")%string then
    _ ← failIf (bool_decide (Queue (inEp cfg) = None /\ Queue (outEp cfg) = None)) "queue broker requires input.queue or output.queue";
    failIf (bool_decide (qName (inQueue cfg) = "" /\ qName (outQueue cfg) = "")%string) "queue broker requires input.queue.name or output.queue.name"
  else
    _ ← inputInPlace;
    outputInPlace.
(** The error is dropped. *)
Definition LoadSystemDefaultsForBroker (sys : option SystemBrokerDefaults) (cfg : BrokerConfig) : BrokerConfig := (applyInPlace sys cfg).2.

(** ** The gateway's configuration *)
Record GatewayConfig := mkGatewayConfig {
  gcBroker : BrokerConfig; gcAccounts : option BrokerConfig; ServerHost : string; ServerPort : string;
  gcInterval : Z; gcDir : string; gcMonitoring : option Z
}.
(** What it reads of the system's file: the monitoring port and the interval. *)
Definition gwSystemDefaults (sysFile : option (res (option Z * option Z))) (cfg : GatewayConfig) : res GatewayConfig :=
  match sysFile with
  | None => Ok cfg
  | Some r =>
      s ← r;
      Ok (mkGatewayConfig (gcBroker cfg) (gcAccounts cfg) (ServerHost cfg) (ServerPort cfg)
        (if gcInterval cfg =? 0 then default 0 s.2 else gcInterval cfg) (gcDir cfg)
        (match gcMonitoring cfg with None => s.1 | m => m end))
  end.
Definition InitSystemDefaults (sysFile : option (res SystemConfig)) : M Defaults unit := _ ← catchM (loadSystemDefaults sysFile); mret tt.

Section Gateway.
Context {lib : AmqpLib} {files : Files}.
(** The system's file is read twice, into two shapes; [file] is the gateway's own. *)
Definition LoadConfig (sysFile : option (res SystemConfig)) (gwSysFile : option (res (option Z * option Z))) (file : res GatewayConfig) env : M Defaults GatewayConfig :=
  _ ← InitSystemDefaults sysFile;
  d ← getS;
  let sys := systemDefaults d in
  cfg ← liftR file;
  cfg ← liftR (gwSystemDefaults gwSysFile cfg);
  let b := LoadSystemDefaultsForBroker sys (gcBroker cfg) in
  let path := env "ACCOUNTS_CONFIG_PATH"%string in
  accounts ← (if decide (path = "")%string then mret (gcAccounts cfg) else a ← liftR (LoadAccountConfig sys path); mret (Some a));
  let dir := textOr (textOr (env "CHECKPOINT_DIR"%string) (gcDir cfg)) "/app/checkpoints" in
  interval ← liftR (envInt env "CHECKPOINT_INTERVAL" (gcInterval cfg));
  mret (mkGatewayConfig b accounts (ServerHost cfg) (ServerPort cfg) (if interval <? 1 then 1 else interval) dir
    (match gcMonitoring cfg with Some p => if p =? 0 then Some 9000 else Some p | None => Some 9000 end)).

(** [NewGateway]: the brokers, the listener, the checkpoints; [listen] and
    [coordinator] are what the last two answer. *)
Definition NewGateway (listen : string -> option error) (coordinator : string -> Z -> option error) (cfg : GatewayConfig) : res (wrapper * option wrapper) :=
  b ← openBroker (gcBroker cfg);
  a ← match gcAccounts cfg with
      | Some a => if decide (Type_ a = "")%string then Ok None else w ← openBroker a; Ok (Some w)
      | None => Ok None
      end;
  match listen (ServerHost cfg +:+ ":" +:+ ServerPort cfg)%string with
  | Some e => Err e
  | None =>
      match coordinator (gcDir cfg) (gcInterval cfg) with
      | Some e => Err e
      | None => Ok (b, a)
      end
  end.

End Gateway.

(** ** In place or not *)
(** A broker that its constructor refuses: a named exchange is missing. *)
Definition refused (cfg : BrokerConfig) : Prop :=
  (isInputExchangeType (Type_ cfg) = true /\ eName (inExchange cfg) = ""%string) \/
  (isOutputExchangeType (Type_ cfg) = true /\ eName (outExchange cfg) = ""%string).
(** What a step leaves behind when it fails. *)
Definition inPlaceOf (m : M BrokerConfig unit) (r : res BrokerConfig) (cfg : BrokerConfig) : Prop :=
  match r with
  | Ok c => m cfg = (Ok tt, c)
  | Err e => exists c, m cfg = (Err e, c) /\ (settled c \/ refused c)
  | Panic _ => False
  end.
Lemma failIf_run b what cfg : failIf b what cfg = if b then (Err (ErrMsg what), cfg) else (Ok tt, cfg).
Proof. by destruct b. Qed.
Lemma nameOr_unprefixed what name : nameOr what name "" = if decide (name = "")%string then Err (ErrMsg what) else Ok name.
Proof. unfold nameOr. by repeat case_decide. Qed.

Lemma inputKeys_in_place cfg : settled cfg -> WorkerPrefix cfg = ""%string ->
  match c ← inputKeys cfg; fanoutQueue c with
  | Ok c => inputKeysInPlace cfg = (Ok tt, c)
  | Err e => inputKeysInPlace cfg = (Err e, cfg)
  | Panic _ => False
  end.
Proof.
  intros Hs Hp. unfold inputKeys, fanoutQueue, inputKeysInPlace, getS, set, modS. unfold mbind, M_bind, res_bind, mret, M_ret.
  destruct (decide (Keys (inExchange cfg) = [] /\ eType (inExchange cfg) <> "fanout"%string)) as [[Hk Hf]|Hk].
  - rewrite failIf_run, decide_True, bool_decide_true by done. done.
  - destruct (decide (Keys (inExchange cfg) = [] /\ eType (inExchange cfg) = "fanout"%string)) as [[Hk' Hf]|Hk']; [|done].
    by rewrite failIf_run, decide_True, bool_decide_true by done.
Qed.
Lemma set_bind {A} f (m : M BrokerConfig A) cfg : (_ ← set f; m) cfg = m (f cfg).
Proof. done. Qed.
Lemma name_bind {A} what name (k : string -> M BrokerConfig A) cfg :
  (n ← liftR (nameOr what name ""); k n) cfg = if decide (name = "")%string then (Err (ErrMsg what), cfg) else k name cfg.
Proof. rewrite nameOr_unprefixed. unfold liftR, mbind, M_bind. by case_decide. Qed.
Lemma fail_bind {A} b what (m : M BrokerConfig A) cfg : (_ ← failIf b what; m) cfg = if b then (Err (ErrMsg what), cfg) else m cfg.
Proof. by destruct b. Qed.
Lemma get_bind {A} (k : BrokerConfig -> M BrokerConfig A) cfg : (c ← getS; k c) cfg = k cfg cfg.
Proof. done. Qed.

(** Writing back what is there. *)
Lemma rewrite_inExchange cfg : settled cfg -> eName (inExchange cfg) <> ""%string ->
  setInExchange (inExchange cfg) cfg = cfg /\ setInExchange (withExchangeName (eName (inExchange cfg)) (inExchange cfg)) cfg = cfg.
Proof. intros Hs. unsettle Hs. destruct xi as [[]|]; [done|]. cbn. done. Qed.
Lemma rewrite_outExchange cfg : settled cfg -> eName (outExchange cfg) <> ""%string ->
  setOutExchange (outExchange cfg) cfg = cfg /\ setOutExchange (withExchangeName (eName (outExchange cfg)) (outExchange cfg)) cfg = cfg.
Proof. intros Hs. unsettle Hs. destruct xo as [[]|]; [done|]. cbn. done. Qed.
Lemma rewrite_queues cfg : settled cfg ->
  setInQueue (inQueue cfg) cfg = cfg /\ setInQueue (withQueueName (qName (inQueue cfg)) (inQueue cfg)) cfg = cfg /\
  setOutQueue (outQueue cfg) cfg = cfg /\ setOutQueue (withQueueName (qName (outQueue cfg)) (outQueue cfg)) cfg = cfg.
Proof. intros Hs. unsettle Hs. by destruct qi, qo. Qed.

Lemma input_in_place cfg : settled cfg -> WorkerPrefix cfg = ""%string -> inPlaceOf inputInPlace (inputNames cfg) cfg.
Proof.
  intros Hs Hp. unfold inPlaceOf, inputInPlace, inputNames. rewrite get_bind. destruct (isInputExchangeType (Type_ cfg)) eqn:Et.
  - rewrite set_bind, Hp, name_bind, nameOr_unprefixed. case_decide as Hn; cbn [mbind res_bind].
    { eexists. split; [reflexivity|]. right. left. by split. }
    destruct (rewrite_inExchange cfg Hs Hn) as [E1 E2]. rewrite set_bind, fail_bind, !E1, !E2.
    case_decide as Ht; [rewrite bool_decide_true by done|rewrite bool_decide_false by done]; [eexists; eauto|].
    pose proof (inputKeys_in_place cfg Hs Hp) as Hk. cbn [mbind res_bind] in Hk. unfold mbind, M_bind.
    destruct (inputKeys cfg) as [c1|e|p]; cbn in Hk |- *; [|rewrite Hk; eauto|done].
    destruct (fanoutQueue c1) as [c2|e|p]; cbn in Hk |- *; [by rewrite Hk|rewrite Hk; eauto|done].
  - destruct (rewrite_queues cfg Hs) as (E1 & E2 & _). rewrite set_bind, Hp, name_bind, nameOr_unprefixed, !E1.
    case_decide; cbn [mbind res_bind]; eauto.
Qed.
Lemma output_in_place cfg : settled cfg -> NextWorkerPrefix cfg = ""%string -> inPlaceOf outputInPlace (outputNames cfg) cfg.
Proof.
  intros Hs Hp. unfold inPlaceOf, outputInPlace, outputNames. rewrite get_bind. destruct (isOutputExchangeType (Type_ cfg)) eqn:Et.
  - rewrite set_bind, Hp, name_bind, nameOr_unprefixed. case_decide as Hn; cbn [mbind res_bind].
    { eexists. split; [reflexivity|]. right. right. by split. }
    destruct (rewrite_outExchange cfg Hs Hn) as [E1 E2]. rewrite set_bind, failIf_run, !E1, !E2.
    case_decide as Ht; [rewrite bool_decide_true by done|rewrite bool_decide_false by done]; [eexists; eauto|done].
  - destruct (rewrite_queues cfg Hs) as (_ & _ & E1 & E2). rewrite set_bind, Hp, name_bind, nameOr_unprefixed, !E1.
    case_decide; cbn [mbind res_bind]; eauto.
Qed.
(** A broker as a file gives it: it has no prefixes. *)
Definition unprefixed (cfg : BrokerConfig) : Prop := WorkerPrefix cfg = ""%string /\ NextWorkerPrefix cfg = ""%string.
Lemma applyInPlace_spec sys cfg : unprefixed cfg -> inPlaceOf (applyInPlace sys) (applyBrokerDefaults sys cfg) cfg.
Proof.
  intros [Hp Hn]. unfold inPlaceOf, applyInPlace, applyBrokerDefaults. rewrite set_bind, get_bind.
  pose proof (applyPlain_settled sys cfg) as Hs. change (WorkerPrefix (applyPlain sys cfg) = ""%string) in Hp.
  change (NextWorkerPrefix (applyPlain sys cfg) = ""%string) in Hn. set (p := applyPlain sys cfg) in *. clearbody p.
  case_decide as Ht.
  - rewrite fail_bind, failIf_run. case_decide; [rewrite bool_decide_true by done; eauto|]. rewrite bool_decide_false by done.
    case_decide; [rewrite bool_decide_true by done; eauto|by rewrite bool_decide_false by done].
  - pose proof (input_in_place p Hs Hp) as Hi. unfold inPlaceOf in Hi.
    assert ((_ ← inputInPlace; outputInPlace) p = match inputInPlace p with (Ok _, c) => outputInPlace c | (Err e, c) => (Err e, c) | (Panic x, c) => (Panic x, c) end) as -> by done.
    destruct (inputNames p) as [c|e|x] eqn:E; cbn [mbind res_bind]; [|destruct Hi as (c & -> & Hc); eauto|done].
    rewrite Hi. apply inputNames_ready in E as (Hs1 & _ & _ & _ & Hn1 & _); [|done]. apply output_in_place; [done|congruence].
Qed.
Lemma refused_connect {lib : AmqpLib} cfg s : refused cfg -> exists e, connectBroker cfg s = (Err e, s).
Proof.
  intros Hr. unfold refused, isInputExchangeType, isOutputExchangeType in Hr. rewrite !bool_decide_eq_true, !elem_of_cons, !elem_of_nil in Hr.
  assert (forall what cfg, eName (inExchange cfg) = ""%string -> hasExchange what (Input cfg) = Err (ErrMsg what)) as Hi.
  { intros what c H. unfold hasExchange, inExchange, inEp in *. destruct (Input c) as [[q [x|]]|]; cbn in *; [by rewrite decide_True|done..]. }
  assert (forall what cfg, eName (outExchange cfg) = ""%string -> hasExchange what (Output cfg) = Err (ErrMsg what)) as Ho.
  { intros what c H. unfold hasExchange, outExchange, outEp in *. destruct (Output c) as [[q [x|]]|]; cbn in *; [by rewrite decide_True|done..]. }
  unfold connectBroker. destruct Hr as [[[Ht|[Ht|[]]] Hn]|[[Ht|[Ht|[]]] Hn]]; rewrite Ht; repeat rewrite decide_False by done; rewrite decide_True by done.
  - unfold connectExchangeToQueueBroker, newExchangeToQueueBroker. rewrite Hi by done. by eexists.
  - unfold connectExchangeToExchangeBroker, newExchangeToExchangeBroker. rewrite Hi by done. by eexists.
  - unfold connectQueueToExchangeBroker, newQueueToExchangeBroker. rewrite Ho by done. destruct (hasQueue _ _) as [|e|p] eqn:E; [by eexists..|].
    exfalso. clear - E. unfold hasQueue in E. repeat case_match; done.
  - unfold connectExchangeToExchangeBroker, newExchangeToExchangeBroker. rewrite Ho by done. destruct (hasExchange _ (Input cfg)) as [|e|p] eqn:E; [by eexists..|].
    exfalso. clear - E. unfold hasExchange in E. repeat case_match; done.
Qed.
Lemma openBroker_safe {lib : AmqpLib} cfg : settled cfg \/ refused cfg ->
  match openBroker cfg with Ok b => exists s, connectBroker cfg fresh = (Ok b, s) /\ connected cfg b s | Err _ => True | Panic _ => False end.
Proof.
  unfold openBroker. intros [Hs|Hr].
  - pose proof (connectBroker_spec cfg Hs fresh eq_refl) as Hc. destruct (connectBroker cfg fresh) as [[b|e|p] s]; cbn; [by eexists|done|done].
  - destruct (refused_connect cfg fresh Hr) as [e ->]. done.
Qed.
Lemma defaulted_safe sys cfg : unprefixed cfg -> let c := LoadSystemDefaultsForBroker sys cfg in settled c \/ refused c.
Proof.
  intros Hu. pose proof (applyInPlace_spec sys cfg Hu) as H. unfold inPlaceOf in H. unfold LoadSystemDefaultsForBroker.
  destruct (applyBrokerDefaults sys cfg) as [c|e|p] eqn:E; [|destruct H as (c & -> & Hc); exact Hc|done].
  rewrite H. left. by eapply applyBrokerDefaults_ready.
Qed.
Section Starts.
Context {lib : AmqpLib} {files : Files}.
(** A gateway whose configuration loads has checkpoints and a port to be asked
    on, and does not panic when it opens its brokers, although the errors of
    their defaults are dropped: a configuration that the defaults gave up on is
    either refused by the constructor or complete enough to connect, and once
    [NewGateway] returns a gateway both brokers have everything declared and
    bound. *)
Theorem gateway_starts sysFile gwSysFile file env d cfg d' listen coordinator :
  (forall c, file = Ok c -> unprefixed (gcBroker c) /\ gcAccounts c = None) ->
  LoadConfig sysFile gwSysFile file env d = (Ok cfg, d') ->
  1 <= gcInterval cfg /\ gcDir cfg <> ""%string /\ (exists port, gcMonitoring cfg = Some port /\ port <> 0) /\
  match NewGateway listen coordinator cfg with
  | Ok (b, a) =>
      (exists s, connectBroker (gcBroker cfg) fresh = (Ok b, s) /\ connected (gcBroker cfg) b s) /\
      forall w, a = Some w -> exists acc s, gcAccounts cfg = Some acc /\ connectBroker acc fresh = (Ok w, s) /\ connected acc w s
  | Err _ => True
  | Panic _ => False
  end.
Proof.
  intros Hfile H. unfold LoadConfig in H.
  apply M_bind_ok in H as ([] & d1 & _ & H). apply M_bind_ok in H as (? & ? & [= <- <-] & H).
  apply M_bind_ok in H as (c0 & ? & [= Hf <-] & H). destruct (Hfile c0 Hf) as [Hu Ha0].
  apply M_bind_ok in H as (c1 & ? & [= Hg <-] & H). cbv zeta in H.
  apply M_bind_ok in H as (accounts & d2 & Hacc & H). apply M_bind_ok in H as (interval & ? & [= Hi <-] & H).
  injection H as <- <-. assert (gcBroker c1 = gcBroker c0 /\ gcAccounts c1 = None) as [Eb Ea].
  { unfold gwSystemDefaults in Hg. destruct gwSysFile as [r|]; [|injection Hg as <-; by split].
    apply res_bind_ok in Hg as (s & _ & [= <-]). by split. }
  cbn [gcInterval gcDir gcMonitoring gcBroker gcAccounts]. split_and!.
  - destruct (Z.ltb_spec interval 1); lia.
  - unfold textOr. repeat case_decide; done.
  - destruct (gcMonitoring c1) as [p|]; [|by exists 9000]. destruct (Z.eqb_spec p 0); [by exists 9000|by exists p].
  - unfold NewGateway. cbn [gcBroker gcAccounts ServerHost ServerPort gcDir gcInterval]. rewrite Eb.
    pose proof (openBroker_safe _ (defaulted_safe (systemDefaults d1) _ Hu)) as Hb.
    destruct (openBroker (LoadSystemDefaultsForBroker _ _)) as [b|e|p]; cbn [mbind res_bind]; [|done|done].
    assert (match accounts with Some acc => settled acc | None => True end) as Hs.
    { destruct (decide (env "ACCOUNTS_CONFIG_PATH"%string = ""%string)); [injection Hacc as <- _; by rewrite Ea|].
      apply M_bind_ok in Hacc as (a & ? & [= Hl _] & [= <- _]). unfold LoadAccountConfig in Hl.
      apply res_bind_ok in Hl as (? & _ & Hl). by eapply applyBrokerDefaults_ready. }
    destruct accounts as [acc|]; cbn [mbind res_bind].
    + destruct (decide (Type_ acc = ""%string)); cbn [mbind res_bind]; [destruct (listen _); [done|]; destruct (coordinator _ _); [done|by split]|]. pose proof (openBroker_safe acc (or_introl Hs)) as Hw.
      destruct (openBroker acc) as [w|e|p]; cbn [mbind res_bind]; [|done|done]. destruct (listen _); [done|]. destruct (coordinator _ _); [done|].
      split; [done|]. intros w' [= <-]. destruct Hw as (s & ? & ?). by exists acc, s.
    + destruct (listen _); [done|]. destruct (coordinator _ _); [done|by split].
Qed.
End Starts.

(** ** The message handler of a connection

    It filters query 1 in the gateway and hands the results out in batches. *)
Record MessageHandler := mkHandler {
  accountsTotal : Z; transactionsTotal : Z; filteredTransactions : list Transaction; nextResultIdx : Z
}.
Definition TransactionResultBatchSize : Z := 10.
Definition NewMessageHandler : MessageHandler := mkHandler 0 0 [] 0.
Definition smallDollar (tx : Transaction) : bool := bool_decide (PaymentCurrency tx = "US Dollar"%string) && f64_lt (AmountPaid tx) (f64_of_int 50).
Definition HandleTransactionsBatch (txs : list Transaction) (h : MessageHandler) : MessageHandler :=
  mkHandler (accountsTotal h) (int64 (transactionsTotal h + Zlen txs))
    (filteredTransactions h ++ filter (fun tx => Is_true (smallDollar tx)) txs) (nextResultIdx h).
Definition HandleAccountsBatch (accounts : list AccountData) (h : MessageHandler) : MessageHandler :=
  mkHandler (int64 (accountsTotal h + Zlen accounts)) (transactionsTotal h) (filteredTransactions h) (nextResultIdx h).
(** Nothing is the nil slice. *)
Definition GetTransactionResultBatch (h : MessageHandler) : list Transaction * MessageHandler :=
  let remaining := Zlen (filteredTransactions h) - nextResultIdx h in
  if remaining <=? 0 then ([], h)
  else
    let size := Z.min TransactionResultBatchSize remaining in
    (take (Z.to_nat size) (drop (Z.to_nat (nextResultIdx h)) (filteredTransactions h)),
     mkHandler (accountsTotal h) (transactionsTotal h) (filteredTransactions h) (nextResultIdx h + size)).
(** The batches of [n] calls. *)
Fixpoint resultBatches (n : nat) (h : MessageHandler) : list (list Transaction) :=
  match n with O => [] | S n' => let (b, h') := GetTransactionResultBatch h in b :: resultBatches n' h' end.

(** Calling for batches gives the filtered transactions in order, each once, ten
    at a time, and then nothing. *)
Theorem batches_in_order n h : 0 <= nextResultIdx h ->
  concat (resultBatches n h) = take (10 * n) (drop (Z.to_nat (nextResultIdx h)) (filteredTransactions h)) /\
  Forall (fun b => Zlen b <= TransactionResultBatchSize) (resultBatches n h).
Proof.
  revert h. induction n as [|n IH]; intros [a t l i] Hi; cbn [resultBatches nextResultIdx filteredTransactions] in *; [by split|].
  unfold GetTransactionResultBatch. cbn [accountsTotal transactionsTotal nextResultIdx filteredTransactions]. destruct (Z.leb_spec (Zlen l - i) 0) as [Hl|Hl].
  - destruct (IH (mkHandler a t l i) Hi) as [IH1 IH2]. cbn [concat app nextResultIdx filteredTransactions] in *. rewrite IH1.
    unfold Zlen in Hl. rewrite drop_ge by lia. rewrite !take_nil. split; [done|]. by constructor.
  - set (k := Z.min TransactionResultBatchSize (Zlen l - i)). assert (0 < k <= 10) as Hk by (unfold k, TransactionResultBatchSize; lia).
    destruct (IH (mkHandler a t l (i + k)) ltac:(cbn; lia)) as [IH1 IH2]. cbn [concat nextResultIdx filteredTransactions] in *. rewrite IH1.
    split; [|constructor; [unfold Zlen; rewrite length_take; unfold TransactionResultBatchSize; lia|done]].
    rewrite Z2Nat.inj_add, <- drop_drop by lia. set (m := drop (Z.to_nat i) l) in *. unfold k, TransactionResultBatchSize, Zlen in *.
    assert (length m = length l - Z.to_nat i)%nat as Hm by (unfold m; apply length_drop).
    destruct (decide (10 <= length m)%nat) as [Hge|Hlt].
    + replace (Z.to_nat (Z.min 10 (Z.of_nat (length l) - i))) with 10%nat by lia.
      replace (10 * S n)%nat with (10 + 10 * n)%nat by lia. by rewrite take_take_drop.
    + rewrite take_ge by lia. rewrite (drop_ge m) by lia. rewrite take_nil, app_nil_r. by rewrite take_ge by lia.
Qed.

(** ** Example: [configs/gateway.yaml] with [configs/system.yaml] *)
Definition gateway_yaml : GatewayConfig :=
  mkGatewayConfig (mkBroker "q-e" "" (Some (mkEndpoint (Some (mkQueue "query_results" 0 None None None None None None)) None))
    (Some (mkEndpoint None (Some (mkExchange "e_entry" "topic" [] None None None None None)))) 0 "" 0 0 "" 0 "")
    None "0.0.0.0" "8080" 100 "" (Some 9000).
(** [configs/query2/join_account_queue.yaml] *)
Definition accounts_yaml : BrokerConfig :=
  mkBroker "queue" "" (Some (mkEndpoint (Some (mkQueue "q_q2_accounts" 0 None None None None None None)) None)) None 0 "" 0 0 "" 0 "".
Definition gateway_env (name : string) : string :=
  if decide (name = "ACCOUNTS_CONFIG_PATH")%string then "/app/accounts_queue_config.yaml"%string
  else if decide (name = "CHECKPOINT_DIR")%string then "/app/checkpoints"%string else ""%string.
#[local] Instance gateway_files : Files := {|
  accountsFile := fun path => if decide (path = "/app/accounts_queue_config.yaml")%string then Ok accounts_yaml else Err (ErrMsg "no file");
  monitorParams := fun _ => Err (ErrMsg "no parameters"); parseDuration := fun _ => None
|}.
Lemma gateway_starts_witness :
  let load := LoadConfig (Some (Ok system_yaml)) (Some (Ok (Some 9000, Some 100))) (Ok gateway_yaml) gateway_env no_defaults in
  exists cfg d', load = (Ok cfg, d') /\ is_ok (NewGateway (lib := server 1000) (fun _ => None) (fun _ _ => None) cfg) = true /\
  1 <= gcInterval cfg /\ gcDir cfg <> ""%string /\ (exists port, gcMonitoring cfg = Some port /\ port <> 0) /\
  match NewGateway (lib := server 1000) (fun _ => None) (fun _ _ => None) cfg with
  | Ok (b, a) =>
      (exists s, connectBroker (lib := server 1000) (gcBroker cfg) fresh = (Ok b, s) /\ connected (lib := server 1000) (gcBroker cfg) b s) /\
      forall w, a = Some w -> exists acc s, gcAccounts cfg = Some acc /\ connectBroker (lib := server 1000) acc fresh = (Ok w, s) /\ connected (lib := server 1000) acc w s
  | Err _ => True
  | Panic _ => False
  end.
Proof.
  intros load. eexists _, _. split; [vm_compute; reflexivity|]. split; [vm_compute; reflexivity|].
  apply (gateway_starts (lib := server 1000) (Some (Ok system_yaml)) (Some (Ok (Some 9000, Some 100))) (Ok gateway_yaml) gateway_env no_defaults _
    (mkDefaults (sysBroker system_yaml) (Some 100))); [|vm_compute; reflexivity]. by intros c [= <-].
Defined.
