(* ===== verification/GatewayRun.v ===== *)
(** * The life of the gateway's process ([Gateway.Run])

    Recovery, the loop that accepts connections, the goroutine of every client,
    the consumer of the results and the signal that stops them, as steps that
    come in any order; each step runs the handlers of [Gateway] on the memory and
    the disk.  Here is also what a socket adds: which connections are open. *)

From S2P Require Import Prelude Maps Models MsgIDs Wire Codec CodecQ4 Disk Store Coordinator Publisher Consumer Gateway.

(** ** Handlers that leave the clients alone *)
(** [R] relates the memory before and after, whatever the outcome. *)
Definition within {W A} (R : W -> W -> Prop) (m : D (Co W) A) : Prop := forall s d, R (coMem s) (coMem (run (m s) d).1.2).
Definition withinM {W A} (R : W -> W -> Prop) (m : M W A) : Prop := forall w, R w (m w).2.
Section Keeps.
Context {W : Type} (R : W -> W -> Prop) `{!PreOrder R}.
Lemma withinM_ret {A} (a : A) : withinM R (mret a).
Proof. intros w. reflexivity. Qed.
Lemma withinM_lift {A} (r : res A) : withinM R (liftR r).
Proof. intros w. reflexivity. Qed.
Lemma withinM_get : withinM R getS.
Proof. intros w. reflexivity. Qed.
Lemma withinM_bind {A B} (m : M W A) (f : A -> M W B) : withinM R m -> (forall a, withinM R (f a)) -> withinM R (m ≫= f).
Proof.
  intros Hm Hf w. specialize (Hm w). unfold mbind, M_bind. destruct (m w) as [[a|e|p] w']; cbn in *; [|done..].
  etrans; [exact Hm|apply Hf].
Qed.
Lemma withinM_catch {A} (m : M W A) : withinM R m -> withinM R (catchM m).
Proof. intros Hm w. specialize (Hm w). unfold catchM. by destruct (m w) as [[a|e|p] w']. Qed.
Lemma within_ret {A} (a : A) : within R (mret a).
Proof. intros s d. reflexivity. Qed.
Lemma within_get : within R getD.
Proof. intros s d. reflexivity. Qed.
Lemma within_mod f : (forall s, R (coMem s) (coMem (f s))) -> within R (modD f).
Proof. intros H s d. apply H. Qed.
Lemma within_IO {A} (m : io A) : within R (liftIO m).
Proof. intros s d. rewrite run_liftIO. reflexivity. Qed.
Lemma within_onMem {A} (m : M W A) : withinM R m -> within R (onMem m).
Proof. intros Hm s d. specialize (Hm (coMem s)). unfold onMem. by destruct (m (coMem s)) as [r w]. Qed.
Lemma within_bind {A B} (m : D (Co W) A) (f : A -> D (Co W) B) : within R m -> (forall a, within R (f a)) -> within R (m ≫= f).
Proof.
  intros Hm Hf s d. specialize (Hm s d). unfold mbind, D_bind. rewrite run_bind. destruct (run (m s) d) as [[[a|e|p] s'] d']; cbn in *; [|done..].
  etrans; [exact Hm|apply Hf].
Qed.
Lemma within_try {A} (m : D (Co W) A) : within R m -> within R (tryD m).
Proof. 
  intros Hm s d. specialize (Hm s d). unfold tryD, attempt, mbind, D_bind. rewrite !run_bind. by destruct (run (m s) d) as [[[a|e|p] s'] d'].
Qed.
Lemma within_wrap {A} ctx (m : D (Co W) A) : within R m -> within R (wrapD ctx m).
Proof. intros Hm s d. specialize (Hm s d). unfold wrapD. rewrite run_bind. by destruct (run (m s) d) as [[r s'] d']. Qed.
Lemma within_for {A} (l : list A) f : (forall x, within R (f x)) -> within R (forD l f).
Proof. intros Hf. induction l as [|x l IH]; [apply within_ret|]. apply within_bind; [apply Hf|]. by intros _. Qed.
End Keeps.

(** Which clients have a connection, and which are known. *)
Definition quiet (g g' : Gateway) : Prop := registry g' = registry g /\ dom (clients g') = dom (clients g).
#[global] Instance quiet_pre : PreOrder quiet.
Proof. split; [done|]. intros g1 g2 g3 [H1 H2] [H3 H4]. split; congruence. Qed.

Section Quiet.
Context {UL : UuidLib} {GR : GoRange} (dir : string) (interval : Z).
Abbreviation co := (gatewayCo dir interval).

Lemma quiet_next c t : withinM quiet (nextSourceMsgID c t).
Proof.
  intros g. unfold nextSourceMsgID. destruct (clients g !! c) as [cl|] eqn:E; [|done].
  destruct (isAccounts t); (split; [done|]); cbn; rewrite dom_insert_L; apply elem_of_dom_2 in E; set_solver.
Qed.
Lemma quiet_send key body : withinM quiet (send (W := Gateway) key body).
Proof. intros g. unfold send. by destruct (script (pub g)) as [|[e|] rest]. Qed.
Lemma quiet_accounts key body : withinM quiet (sendAccounts key body).
Proof. intros g. unfold sendAccounts. destruct (accountsBroker g) as [p|]; [|done]. by destruct (send key body p) as [r p']. Qed.
Lemma quiet_ok {A} (m : M Gateway A) : withinM quiet m -> withinM quiet (okM m).
Proof. intros H. apply withinM_bind; [apply _|by apply withinM_catch|]. intros r. apply withinM_ret, _. Qed.
Lemma quiet_message t c payload key : withinM quiet (sendMessageToBroker t c payload key).
Proof.
  apply withinM_bind; [apply _|apply quiet_next|]. intros id. apply quiet_ok. destruct (isAccounts t); [apply quiet_accounts|apply quiet_send].
Qed.
Lemma quiet_flush c : withinM quiet (sendFlushEOF c).
Proof. unfold sendFlushEOF. destruct (EncodeEOFCounts _); [apply quiet_ok, quiet_send|apply withinM_ret, _|apply withinM_lift, _]. Qed.
Lemma quiet_disconnect c : withinM quiet (disconnectMessages c).
Proof.
  apply withinM_bind; [apply _|apply quiet_message|]. intros ok. apply withinM_bind; [apply _|apply quiet_flush|]. intros. apply withinM_ret, _.
Qed.
Lemma quiet_group c txs key : withinM quiet (sendTransactionBatch c txs key).
Proof.
  unfold sendTransactionBatch. destruct txs; [apply withinM_ret, _|].
  destruct (EncodeTransactionBatch _); [apply quiet_message|apply withinM_ret, _|apply withinM_lift, _].
Qed.
Lemma quiet_batch c payload : withinM quiet (handleTransactionsBatch c payload).
Proof.
  unfold handleTransactionsBatch. destruct (DecodeTransactionBatch payload); [|apply withinM_ret, _|apply withinM_lift, _].
  apply withinM_bind; [apply _|apply quiet_group|]. intros []; [|apply withinM_ret, _]. cbn [negb].
  apply withinM_bind; [apply _|apply quiet_group|]. intros []; [|apply withinM_ret, _]. cbn [negb].
  apply withinM_bind; [apply _| |intros; apply withinM_ret, _]. intros g. unfold modS. cbn [snd].
  destruct (clients g !! c) as [cl|] eqn:E; [|done]. split; [done|]. cbn. rewrite dom_insert_L. apply elem_of_dom_2 in E. set_solver.
Qed.
Lemma quiet_end c : withinM quiet (handleTransactionsEOF c).
Proof.
  apply withinM_bind; [apply _|apply withinM_get, _|]. intros g. destruct (clients g !! c); [|apply withinM_ret, _].
  destruct (EncodeEOFCounts _); [apply quiet_message|apply withinM_ret, _|apply withinM_lift, _].
Qed.
Lemma quiet_delete c : within quiet (tryDeleteCheckpoint co c).
Proof.
  apply within_bind; [apply _| |intros; apply within_ret, _]. apply within_try. unfold Delete.
  repeat (apply within_bind; [apply _|apply within_IO, _ || apply within_ret, _|intros _]). by apply within_mod.
Qed.
Lemma quiet_save c : within quiet (persistClientState co c).
Proof.
  apply within_bind; [apply _| |intros; apply within_ret, _]. apply within_try. unfold SaveClient, checkpoint.
  apply within_bind; [apply _|apply within_get, _|intros s].
  cbn [coState coEof coSeen gatewayCo NewCoordinator stageSlot promoteSlot].
  repeat (apply within_bind; [apply _|first [apply within_IO, _|apply within_ret, _|by apply within_mod|by apply within_onMem|
    apply within_bind; [apply _|by apply within_onMem|intros; apply within_IO, _]]|intros]).
  apply within_ret, _.
Qed.
Lemma quiet_request c fuel : forall input, within quiet (HandleClientRequest_loop co fuel c input).
Proof.
  induction fuel as [|fuel IH]; intros input; cbn [HandleClientRequest_loop]; [apply within_ret, _|].
  case_match; [apply within_ret, _|]. apply within_bind; [apply _|apply within_onMem, withinM_lift, _|]. intros [t size].
  case_match; [apply within_ret, _|].
  assert (forall m rest, withinM quiet m -> within quiet (ok ← onMem m; if (ok : bool) then HandleClientRequest_loop co fuel c rest else mret false)) as Hc.
  { intros m rest Hm. apply within_bind; [apply _|by apply within_onMem|]. intros []; [apply IH|apply within_ret, _]. }
  cbv zeta. destruct (decide (t = MsgAccountsBatch)); [apply Hc, quiet_message|].
  destruct (decide (t = MsgAccountsEOF)); [apply Hc, quiet_message|].
  destruct (decide (t = MsgTransactionsBatch)); [apply Hc, quiet_batch|].
  destruct (decide (t = MsgTransactionsEOF)); [|apply within_ret, _]. apply within_bind; [apply _|apply within_onMem, quiet_end|]. intros []; [|apply within_ret, _].
  apply within_bind; [apply _|apply quiet_delete|]. intros. apply within_ret, _.
Qed.
Lemma quiet_leave c : within quiet (handleClientDisconnect co c).
Proof.
  apply within_bind; [apply _|apply within_onMem, quiet_disconnect|]. intros ok. apply within_bind; [apply _|apply quiet_delete|]. intros. apply within_ret, _.
Qed.
End Quiet.

(** ** The process *)
Inductive gwPhase := Accepting | Returned (r : option error) | Crashed.
(** The goroutine of a client reads its stream, then waits for [client.Done()]. *)
Inductive clientPhase := Serving | WaitingDone.
#[global] Instance clientPhase_eq_dec : EqDecision clientPhase.
Proof. solve_decision. Defined.
(** [open] are the connections that are not closed, [ended] those whose [done]
    is. *)
Record gwProcess := mkProcess {
  pMem : Co Gateway;
  pDisk : disk;
  pPhase : gwPhase;
  gwRunning : bool;
  listening : bool;
  consuming : bool;
  open : gset id16;
  ended : gset id16;
  goroutines : gmap id16 clientPhase
}.
Definition setPhase (x : gwPhase) (p : gwProcess) : gwProcess :=
  mkProcess (pMem p) (pDisk p) x (gwRunning p) (listening p) (consuming p) (open p) (ended p) (goroutines p).
Definition setFlags (run listen consume : bool) (p : gwProcess) : gwProcess :=
  mkProcess (pMem p) (pDisk p) (pPhase p) run listen consume (open p) (ended p) (goroutines p).
Definition setOpen (x : gset id16) (p : gwProcess) : gwProcess :=
  mkProcess (pMem p) (pDisk p) (pPhase p) (gwRunning p) (listening p) (consuming p) x (ended p) (goroutines p).
Definition setEnded (x : gset id16) (p : gwProcess) : gwProcess :=
  mkProcess (pMem p) (pDisk p) (pPhase p) (gwRunning p) (listening p) (consuming p) (open p) x (goroutines p).
Definition setGoroutines (x : gmap id16 clientPhase) (p : gwProcess) : gwProcess :=
  mkProcess (pMem p) (pDisk p) (pPhase p) (gwRunning p) (listening p) (consuming p) (open p) (ended p) x.
(** A handler runs on memory and disk; they report by value, so anything but
    [Ok] is a panic, which ends the process. *)
Definition handle {A} (m : D (Co Gateway) A) (p : gwProcess) (k : A -> gwProcess -> gwProcess) : gwProcess :=
  let rsd := run (m (pMem p)) (pDisk p) in
  let p' := mkProcess rsd.1.2 rsd.2 (pPhase p) (gwRunning p) (listening p) (consuming p) (open p) (ended p) (goroutines p) in
  match rsd.1.1 with Ok a => k a p' | _ => setPhase Crashed p' end.

Inductive event :=
  | Accepted (c : id16) (writes : list (option error))   (** [Accept] returns a connection; [c] is its new id *)
  | AcceptFails (e : error)
  | Signal
  | ResultsEnd                                           (** [StartConsuming] returns *)
  | Request (c : id16) (input : bytes)                   (** the stream of a client, up to its end or its fault *)
  | Result (body : bytes) (ack : nat)
  | DoneClosed (c : id16).

Section Process.
Context {UL : UuidLib} {GR : GoRange} (co : CoConfig Gateway).

(** Nothing is accepted before both recoveries; on an error the deferred calls
    close the listener. *)
Definition startGateway (g : Gateway) (d : disk) : gwProcess :=
  let rsd := run ((_ ← Recover co; recoverPendingClients co) (newCo g)) d in
  let p x up := mkProcess rsd.1.2 rsd.2 x true up up ∅ ∅ ∅ in
  match rsd.1.1 with Ok _ => p Accepting true | Err e => p (Returned (Some e)) false | Panic _ => p Crashed false end.

(** The [Close] and the other deferred calls of a client's goroutine. *)
Definition leave (c : id16) (p : gwProcess) : gwProcess :=
  handle (closeClient co c) (setOpen (open p ∖ {[c]}) p) (fun _ p => setGoroutines (delete c (goroutines p)) p).
Definition doneConns (g : Gateway) : gset id16 := dom (filter (fun kv : id16 * Conn => cnDone kv.2 = true) (registry g)).
(** A closed connection delivers nothing. *)
Definition pgstep (p : gwProcess) (e : event) : option gwProcess :=
  match pPhase p with Accepting =>
    match e with
    | Accepted c writes =>
        if decide (listening p = true /\ goroutines p !! c = None) then
          Some (handle (acceptClient co c (newConn writes)) p (fun (ok : bool) p =>
            if ok then setEnded (ended p ∖ {[c]}) (setOpen ({[c]} ∪ open p) (setGoroutines (<[c := Serving]> (goroutines p)) p)) else p))
        else None
    | AcceptFails e =>
        if gwRunning p then Some (setFlags true false false (setPhase (Returned (Some e)) p))
        else Some (setFlags false false false (setOpen (open p ∖ dom (registry (coMem (pMem p)))) (setPhase (Returned None) p)))
    | Signal => Some (setFlags false false (consuming p) p)
    | ResultsEnd => Some (setFlags (gwRunning p) (listening p) false p)
    | Request c input =>
        if decide (goroutines p !! c = Some Serving /\ (c ∈ open p \/ input = [])) then
          Some (handle (HandleClientRequest co c input) p (fun (ok : bool) p =>
            if ok then setGoroutines (<[c := WaitingDone]> (goroutines p)) p
            else handle (handleClientDisconnect co c) p (fun _ => leave c)))
        else None
    | Result body ack =>
        if consuming p then
          Some (handle (forwardResponse co body ack) p (fun _ p' =>
            setEnded (ended p ∪ doneConns (coMem (pMem p')))
              (setOpen (open p ∖ (dom (registry (coMem (pMem p))) ∖ dom (registry (coMem (pMem p'))))) p')))
        else None
    | DoneClosed c =>
        if decide (goroutines p !! c = Some WaitingDone /\ c ∈ ended p) then Some (leave c p) else None
    end
  | _ => None
  end.
Fixpoint live (es : list event) (p : gwProcess) : option gwProcess :=
  match es with [] => Some p | e :: es' => p' ← pgstep p e; live es' p' end.
End Process.

(** ** What the handlers do to the clients *)
(** What holds after a program that succeeded. *)
Definition ends {A} (Q : Gateway -> Gateway -> Prop) (m : D (Co Gateway) A) : Prop := forall s d r s' d',
  run (m s) d = ((Ok r, s'), d') -> Q (coMem s) (coMem s').
Lemma ends_after {A B} Q (m : D (Co Gateway) A) (f : A -> D (Co Gateway) B) :
  (forall g g1 g2, quiet g g1 -> Q g1 g2 -> Q g g2) -> within quiet m -> (forall a, ends Q (f a)) -> ends Q (m ≫= f).
Proof.
  intros HQ Hm Hf s d r s' d'. specialize (Hm s d). unfold mbind, D_bind. rewrite run_bind.
  destruct (run (m s) d) as [[[a|e|p] s1] d1]; cbn in *; [|done..]. intros H. eapply HQ; [exact Hm|]. by eapply Hf.
Qed.
Definition gone (X : gset id16) (g g' : Gateway) : Prop :=
  dom (registry g') = dom (registry g) ∖ X /\ dom (clients g') = dom (clients g) ∖ X.
Definition shrinks (g g' : Gateway) : Prop := exists X, gone X g g'.
Lemma quiet_gone X g g1 g2 : quiet g g1 -> gone X g1 g2 -> gone X g g2.
Proof. intros [H1 H2] [H3 H4]. unfold gone. by rewrite H3, H4, H1, H2. Qed.
Lemma gone_quiet X g g1 g2 : gone X g g1 -> quiet g1 g2 -> gone X g g2.
Proof. intros [H1 H2] [H3 H4]. unfold gone. by rewrite H3, H4, H1, H2. Qed.
#[global] Instance shrinks_pre : PreOrder shrinks.
Proof.
  split; [intros g; exists ∅; split; set_solver|]. intros g1 g2 g3 [X [H1 H2]] [Y [H3 H4]]. exists (X ∪ Y). unfold gone. rewrite H3, H4, H1, H2. split; set_solver.
Qed.
Lemma within_impl {A} (R R' : Gateway -> Gateway -> Prop) (m : D (Co Gateway) A) : (forall g g', R g g' -> R' g g') -> within R m -> within R' m.
Proof. intros H Hm s d. apply H, Hm. Qed.
Lemma quiet_shrinks g g' : quiet g g' -> shrinks g g'.
Proof. intros [H1 H2]. exists ∅. unfold gone. rewrite H1, H2. split; set_solver. Qed.

Section Clients.
Context {UL : UuidLib} {GR : GoRange} (dir : string) (interval : Z).
Abbreviation co := (gatewayCo dir interval).

Lemma close_gone c : within (gone {[c]}) (closeClient co c).
Proof.
  intros s d. unfold closeClient, updG, forgetClient, modS, mbind, D_bind, onMem. cbn [prog_bind].
  eapply gone_quiet; [|apply quiet_delete]. unfold gone. cbn. by rewrite !dom_delete_L.
Qed.
Lemma accept_clients c conn s d ok s' d' : run (acceptClient co c conn s) d = ((Ok ok, s'), d') ->
  if (ok : bool) then dom (registry (coMem s')) = {[c]} ∪ dom (registry (coMem s)) /\ dom (clients (coMem s')) = {[c]} ∪ dom (clients (coMem s))
  else gone {[c]} (coMem s) (coMem s').
Proof.
  unfold acceptClient, updG, modS. unfold mbind at 1 2 3, D_bind at 1 2 3, onMem at 1 2. cbn [prog_bind]. rewrite run_bind.
  set (s1 := setMem _ (setMem _ s)). pose proof (quiet_save dir interval c s1 d) as [Hr Hc].
  destruct (run (persistClientState co c s1) d) as [[[[]|e|p] s2] d2]; cbn in *; [| |done..].
  - intros [= <- <- <-]. rewrite Hr, Hc. cbn. by rewrite !dom_insert_L.
  - intros [= <- <- <-]. unfold gone. cbn. rewrite !dom_delete_L, Hr, Hc. cbn. rewrite !dom_insert_L. split; set_solver.
Qed.
Lemma within_upd f : (forall g, shrinks g (f g)) -> within shrinks (updG f).
Proof. intros Hf. apply within_onMem. intros g. apply Hf. Qed.
Lemma acked_same f n g : (forall g, quiet g (f g)) -> shrinks g (gwAck n (f g)).
Proof. intros Hf. apply quiet_shrinks. exact (Hf g). Qed.
Lemma dropped_shrinks c ack : within shrinks (_ ← handleClientDisconnect co c;
  _ ← updG (fun g => gwSetRegistry (delete c (registry g)) g);
  _ ← onMem (forgetClient c);
  updG (fun g => gwAck ack (gwSetSeen (delete c (seenResults g)) g))).
Proof.
  apply within_bind; [apply _|eapply within_impl; [apply quiet_shrinks|apply quiet_leave]|]. intros _ s d. exists {[c]}.
  unfold updG, forgetClient, modS, mbind, D_bind, onMem, gone. cbn. by rewrite !dom_delete_L.
Qed.
Lemma forward_shrinks body ack : within shrinks (forwardResponse co body ack).
Proof.
  intros s d. unfold forwardResponse. destruct (DecodeInternalEnvelope body) as [e|e|e]; [|by apply within_upd; intros; apply quiet_shrinks|reflexivity].
  unfold mbind at 1, D_bind at 1, getD at 1. cbn [prog_bind]. case_match; [by apply within_upd; intros; apply quiet_shrinks|].
  destruct (registry (coMem s) !! ClientId e) as [conn|] eqn:Er; [|by apply within_upd; intros; apply quiet_shrinks].
  destruct (ForwardEnvelope (MsgType_ e) (Payload e) conn) as [failed conn'].
  unfold mbind at 1, D_bind at 1, updG at 1, onMem at 1, modS at 1. cbn [prog_bind].
  transitivity (gwSetRegistry (<[ClientId e := conn']> (registry (coMem s))) (coMem s)).
  - exists ∅. apply elem_of_dom_2 in Er. unfold gone. cbn. rewrite dom_insert_L. split; set_solver.
  - destruct failed as [e0|]; [apply (dropped_shrinks _ _ (setMem _ s))|].
    match goal with |- shrinks _ (coMem (run (?m ?s1) _).1.2) => assert (within shrinks m) as Hk; [|exact (Hk s1 d)] end.
    apply within_bind; [apply _| |intros _]; apply within_upd; intros g; apply quiet_shrinks; [by case_match|].
    by destruct (allEOFSent conn').
Qed.

(** Recovery leaves no connection and, when it succeeds, no client. *)
Definition sameRegistry (g g' : Gateway) : Prop := registry g' = registry g.
#[local] Instance sameRegistry_pre : PreOrder sameRegistry.
Proof. unfold sameRegistry. split; [done|]. intros g1 g2 g3 H1 H2. congruence. Qed.
Lemma quiet_registry {A} (m : D (Co Gateway) A) : within quiet m -> within sameRegistry m.
Proof. apply within_impl. by intros g g' [H _]. Qed.
Lemma recoverKey_registry key : within sameRegistry (recoverKey co key).
Proof.
  unfold recoverKey. destruct (uuid_Parse key) as [c|]; [|apply within_ret, _].
  apply within_bind; [apply _|apply within_wrap, within_IO, _|]. intros [recs gen].
  apply within_bind; [apply _|apply within_wrap, within_IO, _|]. intros _.
  apply within_bind; [apply _| |intros _].
  { apply within_wrap. apply within_bind; [apply _|apply within_IO, _|intros _]. apply within_bind; [apply _|apply within_IO, _|].
    intros [[data n]|]; [by apply within_onMem|apply within_ret, _]. }
  apply within_bind; [apply _|apply within_ret, _|intros _]. apply within_bind; [apply _| |intros _; by apply within_mod].
  apply within_for; [apply _|]. intros r. by apply within_onMem.
Qed.
Lemma recoverClient_gone c : ends (fun g g' => registry g' = registry g /\ dom (clients g') = dom (clients g) ∖ {[c]}) (recoverClient co c).
Proof.
  assert (forall g g1 g2, quiet g g1 -> registry g2 = registry g1 /\ dom (clients g2) = dom (clients g1) ∖ {[c]} ->
    registry g2 = registry g /\ dom (clients g2) = dom (clients g) ∖ {[c]}) as HQ.
  { intros g g1 g2 [H1 H2] [H3 H4]. by rewrite H3, H4, H1, H2. }
  apply ends_after; [done|apply within_onMem, quiet_message|intros _].
  apply ends_after; [done|apply within_onMem, quiet_flush|intros _].
  apply ends_after; [done|apply quiet_delete|intros _].
  intros s d r s' d' [= <- <- <-]. cbn. by rewrite dom_delete_L.
Qed.
Lemma recovered_none g d r s' d' : registry g = ∅ ->
  run ((_ ← Recover co; recoverPendingClients co) (newCo g)) d = ((Ok r, s'), d') -> registry (coMem s') = ∅ /\ clients (coMem s') = ∅.
Proof.
  intros Hg. unfold mbind at 1, D_bind at 1. rewrite run_bind.
  assert (within sameRegistry (Recover co)) as HR.
  { apply within_bind; [apply _|apply within_IO, _|]. intros keys. apply within_for; [apply _|]. intros key. apply recoverKey_registry. }
  specialize (HR (newCo g) d). destruct (run (Recover co (newCo g)) d) as [[[a|e|x] s1] d1]; cbn in HR |- *; [|done..].
  unfold recoverPendingClients. unfold mbind, D_bind, getD. cbn [prog_bind].
  assert (forall l s d, run (forD l (recoverClient co) s) d = ((Ok r, s'), d') ->
    registry (coMem s') = registry (coMem s) /\ dom (clients (coMem s')) = dom (clients (coMem s)) ∖ list_to_set l) as Hl.
  { induction l as [|c l IH]; intros s d0; cbn [forD].
    - intros [= _ <- <-]. split; [done|]. set_solver.
    - unfold mbind, D_bind. rewrite run_bind. destruct (run (recoverClient co c s) d0) as [[[b|e|x] s2] d2] eqn:E; cbn [fst snd]; [|done..].
      intros H%IH. apply recoverClient_gone in E as [H1 H2]. destruct H as [H3 H4]. rewrite H3, H4, H1, H2. split; [done|]. set_solver. }
  intros [H1 H2]%Hl. split; [by rewrite H1, HR|]. apply dom_empty_iff_L. rewrite H2.
  apply elem_of_equiv_empty_L. intros c Hc. apply elem_of_difference in Hc as [Hin Hn]. apply Hn, elem_of_list_to_set.
  rewrite range_perm. apply list_elem_of_fmap. apply elem_of_dom in Hin as [cl Hcl]. exists (c, cl). split; [done|]. by apply elem_of_map_to_list.
Qed.
End Clients.

(** ** What is open is registered, known and served *)
Section Life.
Context {UL : UuidLib} {GR : GoRange} (dir : string) (interval : Z).
Abbreviation co := (gatewayCo dir interval).

Definition pReg (p : gwProcess) : gset id16 := dom (registry (coMem (pMem p))).
Definition pClients (p : gwProcess) : gset id16 := dom (clients (coMem (pMem p))).
(** While connections are accepted, exactly the open ones are registered, and
    their clients are those the gateway knows; each has its goroutine. *)
Definition served (p : gwProcess) : Prop :=
  open p = pReg p /\ pClients p = pReg p /\ pReg p ⊆ dom (goroutines p) /\ listening p = gwRunning p.
Definition sound (p : gwProcess) : Prop :=
  match pPhase p with
  | Accepting => served p
  | Returned None => gwRunning p = false /\ listening p = false /\ consuming p = false /\ open p = ∅
  | Returned (Some _) => listening p = false /\ consuming p = false
  | Crashed => True
  end.
Lemma handle_sound {A} (m : D (Co Gateway) A) p k :
  (forall a s' d', run (m (pMem p)) (pDisk p) = ((Ok a, s'), d') ->
    sound (k a (mkProcess s' d' (pPhase p) (gwRunning p) (listening p) (consuming p) (open p) (ended p) (goroutines p)))) -> sound (handle m p k).
Proof. intros H. unfold handle. destruct (run (m (pMem p)) (pDisk p)) as [[[a|e|x] s'] d'] eqn:E; cbn; [by apply H|done..]. Qed.
(** A goroutine that leaves takes its client along. *)
Lemma leave_sound c p : pPhase p = Accepting -> served p -> sound (leave co c p).
Proof.
  intros Hph (Ho & Hc & Hg & Hl). apply handle_sound. intros a s' d' E. pose proof (close_gone dir interval c (pMem p) (pDisk p)) as [H1 H2].
  cbn [pMem pDisk setOpen] in E. rewrite E in H1, H2. cbn in H1, H2. unfold sound, served, pReg, pClients in *. cbn. rewrite Hph, H1, H2, Ho, Hc. split_and!; try done.
  rewrite dom_delete_L. set_solver.
Qed.
Lemma sound_step p e p' : sound p -> pgstep co p e = Some p' -> sound p'.
Proof.
  intros Hs Hstep. unfold pgstep in Hstep. unfold sound in Hs. destruct (pPhase p) as [| |] eqn:Hph; [|done..]. pose proof Hs as (Ho & Hc & Hg & Hl).
  destruct e as [c writes|e| | |c input|body ack|c].
  - destruct (decide _) as [[_ Hnew]|]; [|done]. injection Hstep as <-. apply handle_sound. intros ok s' d' E%accept_clients.
    unfold sound, served, pReg, pClients in *. assert (c ∉ dom (registry (coMem (pMem p)))) as Hn by (intros Hin; apply Hg, elem_of_dom in Hin as [x Hx]; congruence).
    destruct ok; cbn; rewrite Hph.
    + destruct E as [H1 H2]. rewrite H1, H2, Ho, Hc. split_and!; try done. rewrite dom_insert_L. set_solver.
    + destruct E as [H1 H2]. rewrite H1, H2, Hc. rewrite difference_disjoint_L by set_solver. by split_and!.
  - destruct (gwRunning p) eqn:Hr; injection Hstep as <-; unfold sound, pReg in *; cbn; [done|]. rewrite Ho. split_and!; try done. set_solver.
  - injection Hstep as <-. unfold sound. cbn. rewrite Hph. by split_and!.
  - injection Hstep as <-. unfold sound. cbn. by rewrite Hph.
  - destruct (decide _) as [[Hsv _]|]; [|done]. injection Hstep as <-. apply handle_sound. intros ok s' d' E.
    pose proof (quiet_request dir interval c (S (length input)) input (pMem p) (pDisk p)) as [H1 H2]. unfold HandleClientRequest in E.
    rewrite E in H1, H2. cbn in H1, H2.
    assert (served (mkProcess s' d' (pPhase p) (gwRunning p) (listening p) (consuming p) (open p) (ended p) (goroutines p))) as Hs1.
    { unfold served, pReg, pClients in *. cbn. by rewrite H1, H2. }
    destruct ok.
    + unfold sound. cbn. rewrite Hph. destruct Hs1 as (? & ? & Hsub & ?). split_and!; try done. cbn in *. rewrite dom_insert_L. etrans; [exact Hsub|]. set_solver.
    + apply handle_sound. cbn [pMem pDisk]. intros b s2 d2 E2. pose proof (quiet_leave dir interval c s' d') as [H3 H4]. rewrite E2 in H3, H4. cbn in H3, H4.
      apply leave_sound; [done|]. unfold served, pReg, pClients in *. cbn in *. by rewrite H3, H4.
  - destruct (consuming p) eqn:Hcons; [|done]. injection Hstep as <-. apply handle_sound. intros u s' d' E.
    destruct (forward_shrinks dir interval body ack (pMem p) (pDisk p)) as [X [H1 H2]]. rewrite E in H1, H2. cbn in H1, H2.
    unfold sound, served, pReg, pClients in *. cbn. rewrite Hph, H1, H2, Ho, Hc. split_and!; try done; set_solver.
  - destruct (decide _) as [_|]; [|done]. injection Hstep as <-. by apply leave_sound.
Qed.
Lemma sound_start g d : registry g = ∅ -> sound (startGateway co g d).
Proof.
  intros Hg. unfold startGateway. destruct (run _ d) as [[[a|e|x] s'] d'] eqn:E; [|done..].
  apply (recovered_none dir interval) in E as [H1 H2]; [|done]. unfold sound, served, pReg, pClients. cbn. by rewrite H1, H2, !dom_empty_L.
Qed.
Lemma sound_live es : forall p p', sound p -> live co es p = Some p' -> sound p'.
Proof.
  induction es as [|e es IH]; intros p p' Hs Hl; cbn in Hl; [by injection Hl as <-|].
  apply bind_Some in Hl as (p1 & H1 & Hl). apply (IH p1); [|done]. by eapply sound_step.
Qed.

(** C7. However connections, requests, results, write errors and the signal
    interleave: while the gateway accepts, the open connections are exactly the
    registered ones, the clients it knows are theirs, and each is served by a
    goroutine - a client that leaves or cannot be written to leaves nothing
    behind in the three; and when [Run] returns without an error it was told to
    stop, no connection is open, nothing listens and nothing is consumed. *)
Theorem shutdown_closes_all g d es p : registry g = ∅ -> live co es (startGateway co g d) = Some p ->
  match pPhase p with
  | Accepting => open p = dom (registry (coMem (pMem p))) /\ dom (clients (coMem (pMem p))) = open p /\ open p ⊆ dom (goroutines p)
  | Returned None => gwRunning p = false /\ listening p = false /\ consuming p = false /\ open p = ∅
  | Returned (Some _) => listening p = false /\ consuming p = false
  | Crashed => True
  end.
Proof.
  intros Hg Hl. pose proof (sound_live es _ _ (sound_start g d Hg) Hl) as Hs. unfold sound in Hs.
  destruct (pPhase p) as [| |]; [|done..]. destruct Hs as (H1 & H2 & H3 & _).
  unfold pReg, pClients in *. by rewrite H1, H2.
Qed.

(** ** A goroutine that waits for ever *)
(** Its client waits for results, but is not registered any more and its [done]
    was not closed. *)
Definition stuck (c : id16) (p : gwProcess) : Prop :=
  pPhase p = Accepting /\ goroutines p !! c = Some WaitingDone /\ c ∉ ended p /\ c ∉ pReg p.
Lemma handle_phase {A} (m : D (Co Gateway) A) p k : pPhase (handle m p k) = Accepting -> exists a s' d', run (m (pMem p)) (pDisk p) = ((Ok a, s'), d') /\
  handle m p k = k a (mkProcess s' d' (pPhase p) (gwRunning p) (listening p) (consuming p) (open p) (ended p) (goroutines p)).
Proof. unfold handle. destruct (run (m (pMem p)) (pDisk p)) as [[[a|e|x] s'] d']; cbn; [by eauto|done..]. Qed.
Lemma leave_stuck c c' p : c <> c' -> stuck c p -> pPhase (leave co c' p) = Accepting -> stuck c (leave co c' p).
Proof.
  intros Hne (Hph & Hw & He & Hr) Ha. apply handle_phase in Ha as (a & s' & d' & E & Heq). unfold leave. rewrite Heq.
  pose proof (close_gone dir interval c' (pMem p) (pDisk p)) as [H1 _]. cbn [pMem pDisk setOpen] in E. rewrite E in H1. cbn in H1.
  unfold stuck, pReg in *. cbn. rewrite H1, lookup_delete_ne by done. split_and!; try done. set_solver.
Qed.
Lemma doneConns_registered g : doneConns g ⊆ dom (registry g).
Proof. unfold doneConns. apply dom_filter_subseteq. Qed.
Lemma stuck_step c p e p' : pgstep co p e = Some p' -> pPhase p' = Accepting -> stuck c p -> stuck c p'.
Proof.
  intros Hstep Ha Hst. pose proof Hst as (Hph & Hw & He & Hr). unfold pgstep in Hstep. rewrite Hph in Hstep.
  destruct e as [c' writes|e| | |c' input|body ack|c'].
  - destruct (decide _) as [[_ Hnew]|]; [|done]. injection Hstep as <-. assert (c <> c') as Hne by congruence.
    apply handle_phase in Ha as (ok & s' & d' & E & ->). apply accept_clients in E. unfold stuck, pReg in *. destruct ok; cbn.
    + destruct E as [H1 _]. rewrite H1, lookup_insert_ne by done. split_and!; try done; set_solver.
    + destruct E as [H1 _]. rewrite H1. split_and!; try done; set_solver.
  - destruct (gwRunning p); by injection Hstep as <-.
  - by injection Hstep as <-.
  - by injection Hstep as <-.
  - destruct (decide _) as [[Hsv _]|]; [|done]. injection Hstep as <-. assert (c <> c') as Hne by congruence.
    pose proof Ha as Ha2. apply handle_phase in Ha as (ok & s' & d' & E & Heq). rewrite Heq in Ha2 |- *.
    pose proof (quiet_request dir interval c' (S (length input)) input (pMem p) (pDisk p)) as [H1 _]. unfold HandleClientRequest in E. rewrite E in H1. cbn in H1.
    destruct ok.
    + unfold stuck, pReg in *. cbn. by rewrite H1, lookup_insert_ne.
    + pose proof Ha2 as Ha3. apply handle_phase in Ha2 as (b & s2 & d2 & E2 & Heq2). rewrite Heq2 in Ha3 |- *. cbn [pMem pDisk] in E2.
      pose proof (quiet_leave dir interval c' s' d') as [H3 _]. rewrite E2 in H3. cbn in H3.
      apply leave_stuck; [done| |done]. unfold stuck, pReg in *. cbn. by rewrite H3, H1.
  - destruct (consuming p); [|done]. injection Hstep as <-. apply handle_phase in Ha as (u & s' & d' & E & ->).
    destruct (forward_shrinks dir interval body ack (pMem p) (pDisk p)) as [X [H1 _]]. rewrite E in H1. cbn in H1.
    unfold stuck, pReg in *. cbn. pose proof (doneConns_registered (coMem s')) as Hd. rewrite H1 in Hd |- *. split_and!; try done; set_solver.
  - destruct (decide _) as [[Hw' He']|]; [|done]. injection Hstep as <-. apply leave_stuck; [|done|done]. intros ->. by destruct He.
Qed.
(** A client whose whole stream was read waits for [done], which only a result
    that could be written closes.  When a write to it fails instead, it is
    disconnected and forgotten, and its goroutine waits for ever. *)
Theorem waiting_goroutine_stuck c es : forall p p', live co es p = Some p' -> stuck c p -> pPhase p' = Accepting ->
  goroutines p' !! c = Some WaitingDone.
Proof.
  induction es as [|e es IH]; intros p p' Hl Hst Ha; cbn in Hl.
  - injection Hl as <-. by destruct Hst as (_ & ? & _).
  - apply bind_Some in Hl as (p1 & H1 & Hl). apply (IH p1 p' Hl); [|done]. apply (stuck_step c p e p1 H1); [|done].
    destruct es as [|e' es]; [by injection Hl as <-|]. cbn in Hl. apply bind_Some in Hl as (p2 & H2 & _). unfold pgstep in H2. by destruct (pPhase p1).
Qed.
End Life.

(** ** A run *)
#[local] Instance letters : UuidLib := uuid_letters.
#[local] Instance order : GoRange := range_id.
Definition gwConfig : CoConfig Gateway := gatewayCo "d" 1.
Definition booted : gwProcess := startGateway gwConfig new_gateway ∅.
Definition lastFrame : bytes := EncodeExternalEnvelope (mkExternalEnvelope MsgTransactionsEOF []).
Definition aResult : bytes := EncodeInternalEnvelope (mkInternalEnvelope MsgQuery1ResultEOF id1 id2 []).
(** A client whose stream was read, and whose connection breaks at its first
    result. *)
Definition broken_run : list event := [Accepted id1 [Some (ErrMsg "broken pipe")]; Request id1 lastFrame; Result aResult 1].
Definition broken_process : gwProcess := default booted (live gwConfig broken_run booted).
(** Another that hangs up at once, and the signal. *)
Definition final_run : list event := broken_run ++ [Accepted id2 []; Request id2 []; Signal; AcceptFails (ErrMsg "closed")].
Definition final_process : gwProcess := default booted (live gwConfig final_run booted).

Lemma shutdown_closes_all_witness : live gwConfig final_run booted = Some final_process /\ pPhase final_process = Returned None /\
  open final_process = ∅ /\ consuming final_process = false.
Proof.
  assert (live gwConfig final_run booted = Some final_process) as Hl by (vm_compute; reflexivity).
  assert (pPhase final_process = Returned None) as Hp by (vm_compute; reflexivity).
  pose proof (shutdown_closes_all "d" 1 new_gateway ∅ final_run final_process eq_refl Hl) as H. rewrite Hp in H.
  destruct H as (_ & _ & H3 & H4). split; [exact Hl|]. split; [exact Hp|]. split; [exact H4|exact H3].
Defined.
Example broken_stuck : stuck id1 broken_process.
Proof. split; [vm_compute; reflexivity|]. split; [vm_compute; reflexivity|]. split; (apply (bool_decide_unpack (_ ∉ _)); vm_compute; exact I). Qed.
Lemma waiting_goroutine_stuck_witness : pPhase broken_process = Accepting /\ goroutines broken_process !! id1 = Some WaitingDone /\ open broken_process = ∅.
Proof.
  split; [vm_compute; reflexivity|]. split; [|vm_compute; reflexivity].
  apply (waiting_goroutine_stuck "d" 1 id1 [] broken_process broken_process eq_refl broken_stuck). vm_compute. reflexivity.
Defined.
