(* ===== verification/ChaosMonkey.v ===== *)
(** * Fault injection ([src/chaos_monkey/main.go])

    The chaos monkey reads the names of the containers that [Compose] wrote and
    asks Docker to kill some: one at random every interval, all of them, those of
    a query, or one given by name.  In all modes but the last it spares the
    monitor of the highest number, so that somebody is left to restart the
    others; the one given by name may be that monitor.  Here [docker kill]
    is a name added to the list of targets; its errors are only logged. *)

From S2P Require Import Prelude Maps Slices Models Sharding Config Monitor Compose.

(** ** Names *)
(** [strings.HasPrefix] *)
Fixpoint stripPrefix (p l : bytes) : option bytes :=
  match p, l with
  | [], _ => Some l
  | a :: p', b :: l' => if bool_decide (a = b) then stripPrefix p' l' else None
  | _ :: _, [] => None
  end.
Definition HasPrefix (s prefix : string) : bool := match stripPrefix (str_bytes prefix) (str_bytes s) with Some _ => true | None => false end.
(** [strings.Split]: never empty. *)
Fixpoint splitBytes (sep : byte) (l : bytes) : list bytes :=
  match l with
  | [] => [[]]
  | b :: l' =>
      if bool_decide (b = sep) then [] :: splitBytes sep l'
      else match splitBytes sep l' with p :: ps => (b :: p) :: ps | [] => [[b]] end
  end.
Definition Split (s : string) : list string := bytes_str <$> splitBytes Byte.x5f (str_bytes s).
(** [strings.Contains] *)
Fixpoint Contains (l sub : bytes) : bool :=
  match stripPrefix sub l with Some _ => true | None => match l with [] => false | _ :: l' => Contains l' sub end end.

Definition isMonitor (w : string) : bool := HasPrefix w "monitor_".
Fixpoint splitMonitors (workers : list string) : list string * list string :=
  match workers with
  | [] => ([], [])
  | w :: ws => let (monitors, regulars) := splitMonitors ws in
      if isMonitor w then (w :: monitors, regulars) else (monitors, w :: regulars)
  end.
Definition extractMonitorID (name : string) : res Z :=
  let parts := Split name in
  if Zlen parts <? 2 then Err (ErrMsg "invalid monitor name")
  else match Atoi (List.last parts "")%string with Some n => Ok n | None => Err (ErrMsg "invalid syntax") end.

(** ** Who may be killed *)
Definition maxID (monitors : list string) : Z :=
  fold_left (fun acc m => match extractMonitorID m with Ok id => if acc <? id then id else acc | _ => acc end) monitors (-1).
Definition resolveShielded (monitors : list string) (shielded : string) : res Z :=
  if decide (shielded = "last")%string then
    let n := maxID monitors in
    if n <? 0 then Err (ErrMsg "no monitors found to determine 'last'") else Ok n
  else
    match Atoi shielded with
    | None => Err (ErrMsg "shielded must be 'last' or a numeric ID")
    | Some id =>
        if bool_decide (containerOf "monitor" id ∈ monitors) then Ok id else Err (ErrMsg "shielded monitor not found in workers list")
    end.
(** A monitor whose number cannot be read is left out. *)
Definition unshielded (shieldedID : Z) (m : string) : bool :=
  match extractMonitorID m with Ok id => negb (id =? shieldedID) | _ => false end.
Definition buildKillable (regulars monitors : list string) (shieldedID : Z) : list string :=
  regulars ++ filter (fun m => Is_true (unshielded shieldedID m)) monitors.
(** [^query%d(?:[a-z]?)_] *)
Definition isLower (b : byte) : bool := let z := byte_Z b in (97 <=? z) && (z <=? 122).
Definition matchesQuery (queryNum : Z) (w : string) : bool :=
  match stripPrefix (str_bytes ("query" +:+ itoa queryNum)%string) (str_bytes w) with
  | Some (b :: l) => bool_decide (b = Byte.x5f) || (isLower b && match l with c :: _ => bool_decide (c = Byte.x5f) | [] => false end)
  | _ => false
  end.
Definition filterQuery (killable : list string) (queryNum : Z) : list string := filter (fun w => Is_true (matchesQuery queryNum w)) killable.

(** ** Modes *)
Definition dockerKill (container : string) : list string := [container].
(** The events of the random mode: the interval passes and [rand.Intn] draws, or
    a signal arrives. *)
Inductive tick := Tick (draw : nat) | Signalled.
Fixpoint runRandom_loop (killable : list string) (es : list tick) : list string :=
  match es with
  | [] | Signalled :: _ => []
  | Tick draw :: es' => dockerKill (nth (draw mod length killable) killable ""%string) ++ runRandom_loop killable es'
  end.
Definition runRandom (killable : list string) (es : list tick) : list string :=
  match killable with [] => [] | _ => runRandom_loop killable es end.
(** One goroutine for each, in the order in which they start. *)
Fixpoint bulkKill (targets : list string) : list string :=
  match targets with [] => [] | t :: ts => dockerKill t ++ bulkKill ts end.
Definition runNuke (killable : list string) : list string := match killable with [] => [] | _ => bulkKill killable end.
(** The lines of [docker logs], up to the first that is a call. *)
Fixpoint runSniper (container : string) (lines : list bytes) : list string :=
  match lines with
  | [] => []
  | line :: lines' => if Contains line (str_bytes "SNIPER") then dockerKill container else runSniper container lines'
  end.
Record Flags := mkFlags { nukeMode : bool; queryNum : Z; sniperTarget : string }.
(** [workers]: what [configs/workers.yaml] holds. *)
Definition main (f : Flags) (workers : res (list string)) (es : list tick) (lines : list bytes) : res (list string) :=
  if decide (sniperTarget f <> "")%string then Ok (runSniper (sniperTarget f) lines)
  else
    workers ← workers;
    let '(monitors, regulars) := splitMonitors workers in
    shieldedID ← resolveShielded monitors "last";
    let killable := buildKillable regulars monitors shieldedID in
    Ok (if nukeMode f then runNuke killable
        else if 0 <? queryNum f then bulkKill (filterQuery killable (queryNum f))
        else runRandom killable es).

(** ** Names of containers *)
Lemma stripPrefix_app p l : stripPrefix p (p ++ l) = Some l.
Proof. induction p as [|a p IH]; [done|]. cbn. by rewrite bool_decide_true. Qed.
Lemma stripPrefix_some p l k : stripPrefix p l = Some k -> l = p ++ k.
Proof.
  revert l. induction p as [|a p IH]; intros [|b l]; cbn; try congruence.
  case_bool_decide; [|done]. intros H'. subst. f_equal. by apply IH.
Qed.
Lemma splitBytes_last sep l k : sep ∉ k -> exists ps, splitBytes sep (l ++ sep :: k) = ps ++ [k] /\ (1 <= length ps)%nat.
Proof.
  intros Hk. assert (splitBytes sep k = [k]) as Hs.
  { induction k as [|b k IH]; [done|]. cbn. rewrite bool_decide_false by set_solver. rewrite IH by set_solver. done. }
  induction l as [|b l IH]; cbn.
  - rewrite bool_decide_true by done. rewrite Hs. by exists [[]].
  - destruct IH as (ps & -> & Hl). case_bool_decide; [exists ([] :: ps); cbn; split; [done|lia]|].
    destruct ps as [|p ps]; [cbn in Hl; lia|]. exists ((b :: p) :: ps). cbn. split; [done|lia].
Qed.
Lemma extractMonitorID_name p id : 0 <= id < 2 ^ 63 -> extractMonitorID (containerOf p id) = Ok id.
Proof.
  intros Hid. unfold extractMonitorID, Split, containerOf. rewrite !str_bytes_app. change (str_bytes "_") with [Byte.x5f]. cbn [app].
  destruct (splitBytes_last Byte.x5f (str_bytes p) (str_bytes (itoa id))) as (ps & -> & Hl); [by apply not_in_itoa; [lia|]|].
  rewrite fmap_app. cbn [fmap list_fmap]. rewrite List.last_last. unfold Zlen. rewrite length_app, length_fmap. cbn [length].
  destruct (Z.ltb_spec (Z.of_nat (length ps + 1)) 2); [lia|]. rewrite str_bytes_str, Atoi_itoa by done. done.
Qed.

(** ** The deployment under attack *)
(** Stages are told apart from each other and from the monitors by their names. *)
Definition plainStages (topo : Topology) : Prop := forall stage, is_Some (tPipelines topo !! stage) -> Byte.x5f ∉ str_bytes stage /\ stage <> "monitor"%string.
(** The stages of a query: its number, with a letter or without. *)
Definition stageOf (queryNum : Z) (stage : string) : Prop :=
  str_bytes stage = str_bytes ("query" +:+ itoa queryNum)%string \/
  exists b, isLower b = true /\ str_bytes stage = str_bytes ("query" +:+ itoa queryNum)%string ++ [b].

Lemma container_bytes stage wd id : exists l, str_bytes (containerOf (prefixOf stage wd) id) = str_bytes stage ++ Byte.x5f :: l.
Proof.
  unfold containerOf, prefixOf. rewrite !str_bytes_app. change (str_bytes "_") with [Byte.x5f]. eexists. rewrite <- !app_assoc. cbn [app]. reflexivity.
Qed.
Lemma worker_not_monitor stage wd id : Byte.x5f ∉ str_bytes stage -> stage <> "monitor"%string -> isMonitor (containerOf (prefixOf stage wd) id) = false.
Proof.
  intros Hs Hne. destruct (container_bytes stage wd id) as [l Hl]. unfold isMonitor, HasPrefix. rewrite Hl.
  destruct (stripPrefix _ _) as [k|] eqn:E; [|done]. apply stripPrefix_some in E. destruct Hne.
  change (str_bytes "monitor_") with (str_bytes "monitor" ++ [Byte.x5f]) in E. rewrite <- app_assoc in E. cbn [app] in E.
  apply pivot_first in E as [E _]; [by apply (inj str_bytes)|done|decided].
Qed.
Lemma monitor_is_monitor id : isMonitor (containerOf "monitor" id) = true.
Proof.
  unfold isMonitor, HasPrefix, containerOf. rewrite !str_bytes_app, app_assoc.
  change (str_bytes "monitor" ++ str_bytes "_") with (str_bytes "monitor_"). by rewrite stripPrefix_app.
Qed.
Lemma matchesQuery_stage n stage wd id : 0 <= n -> Byte.x5f ∉ str_bytes stage ->
  matchesQuery n (containerOf (prefixOf stage wd) id) = true <-> stageOf n stage.
Proof.
  intros Hn Hs. destruct (container_bytes stage wd id) as [l Hl]. unfold matchesQuery, stageOf. rewrite Hl. set (q := str_bytes ("query" +:+ itoa n)%string).
  assert (Byte.x5f ∉ q) as Hq.
  { unfold q. rewrite str_bytes_app. apply not_elem_of_app. split; [decided|by apply not_in_itoa]. }
  assert (forall b, isLower b = true -> Byte.x5f ∉ q ++ [b]) as Hq2.
  { intros b Hb. apply not_elem_of_app. split; [done|]. intros <-%list_elem_of_singleton. done. }
  split.
  - destruct (stripPrefix q _) as [[|b k]|] eqn:E; try done. apply stripPrefix_some in E. rewrite orb_true_iff, andb_true_iff, bool_decide_eq_true.
    intros [->|[Hb Hk]]; [left|right].
    + by apply pivot_first in E as [E _].
    + exists b. split; [done|]. destruct k as [|c k]; [done|]. apply bool_decide_eq_true in Hk as ->.
      change (q ++ b :: Byte.x5f :: k) with (q ++ [b] ++ Byte.x5f :: k) in E. rewrite app_assoc in E. apply pivot_first in E as [E _]; auto.
  - intros [->|(b & Hb & ->)].
    + by rewrite stripPrefix_app.
    + rewrite <- app_assoc, stripPrefix_app. cbn [app]. rewrite Hb. by rewrite orb_true_r.
Qed.

Lemma splitMonitors_spec l : splitMonitors l = (filter (fun w => Is_true (isMonitor w)) l, filter (fun w => Is_true (negb (isMonitor w))) l).
Proof.
  induction l as [|w l IH]; [done|]. cbn [splitMonitors]. rewrite IH. destruct (isMonitor w) eqn:E.
  - rewrite filter_cons_True, filter_cons_False; [done|rewrite E; cbn; tauto..].
  - rewrite filter_cons_False, filter_cons_True; [done|rewrite E; cbn; tauto..].
Qed.
Lemma maxID_monitors n : 0 <= n < 2 ^ 63 -> maxID (containerOf "monitor" <$> ids n) = n - 1.
Proof.
  intros [H0 Hn]. rewrite <- (Z2Nat.id n) in Hn |- * by done. clear H0. induction (Z.to_nat n) as [|k IH]; [done|].
  unfold ids in *. rewrite seqZ_S, fmap_app. unfold maxID in *. rewrite fold_left_app, IH by lia. cbn [fmap list_fmap fold_left].
  rewrite extractMonitorID_name by lia. destruct (Z.ltb_spec (Z.of_nat k - 1) (0 + Z.of_nat k)); lia.
Qed.
Lemma bulkKill_all ts : bulkKill ts = ts.
Proof. induction ts as [|t ts IH]; [done|]. cbn. by rewrite IH. Qed.
Lemma runRandom_subset killable es t : t ∈ runRandom killable es -> t ∈ killable.
Proof.
  unfold runRandom. destruct killable as [|k ks]; [by intros H%elem_of_nil|]. induction es as [|[draw|] es IH]; cbn [runRandom_loop dockerKill app]; [by intros H%elem_of_nil| |by intros H%elem_of_nil].
  intros [->|H]%elem_of_cons; [|by apply IH]. apply list_elem_of_In, nth_In. apply Nat.mod_upper_bound. done.
Qed.

Lemma runSniper_spec container lines :
  runSniper container lines = if existsb (fun line => Contains line (str_bytes "SNIPER")) lines then [container] else [].
Proof. induction lines as [|line lines IH]; [done|]. cbn [runSniper existsb]. rewrite IH. by destruct (Contains line _). Qed.

Section Attack.
Context (topo : Topology) (Hstages : plainStages topo) (Hamount : tMonitors topo < 2 ^ 63).
#[local] Abbreviation last_monitor := (monitorAmount topo - 1).
Lemma amount_bounds : 1 <= monitorAmount topo < 2 ^ 63.
Proof using Hamount. unfold monitorAmount. destruct (Z.ltb_spec (tMonitors topo) 1); lia. Qed.
(** What is left to kill: every worker and every monitor but the last. *)
Lemma killable_names : let '(monitors, regulars) := splitMonitors (writeWorkersYAML (generateWorkers topo) (generateMonitors topo)) in
  resolveShielded monitors "last" = Ok last_monitor /\
  buildKillable regulars monitors last_monitor = (ContainerName <$> generateWorkers topo) ++ (containerOf "monitor" <$> ids last_monitor).
Proof using Hstages Hamount.
  pose proof amount_bounds as Ha. rewrite splitMonitors_spec. unfold writeWorkersYAML. rewrite monitor_names, !filter_app.
  assert (Forall (fun w => isMonitor w = false) (ContainerName <$> generateWorkers topo)) as Hw.
  { apply Forall_fmap, Forall_forall. intros w Hw. apply worker_iff in Hw as (stage & defs & i & wd & id & Hs & _ & _ & ->).
    destruct (Hstages stage) as [H1 H2]; [by eexists|]. by apply worker_not_monitor. }
  assert (forall n, Forall (fun w => isMonitor w = true) (containerOf "monitor" <$> ids n)) as Hm.
  { intros n. apply Forall_fmap, Forall_forall. intros id _. apply monitor_is_monitor. }
  rewrite (filter_none (fun w => Is_true (isMonitor w))) by (eapply Forall_impl; [exact Hw|]; intros ? ->; cbn; tauto).
  rewrite (filter_all (fun w => Is_true (isMonitor w))) by (eapply Forall_impl; [apply Hm|]; intros ? ->; done).
  rewrite (filter_all (fun w => Is_true (negb (isMonitor w)))) by (eapply Forall_impl; [exact Hw|]; intros ? ->; done).
  rewrite (filter_none (fun w => Is_true (negb (isMonitor w)))) by (eapply Forall_impl; [apply Hm|]; intros ? ->; cbn; tauto).
  cbn [app]. rewrite app_nil_r. split.
  - unfold resolveShielded. rewrite decide_True, maxID_monitors by (done || lia). destruct (Z.ltb_spec last_monitor 0); [lia|done].
  - unfold buildKillable. f_equal. replace (monitorAmount topo) with (Z.of_nat (S (Z.to_nat last_monitor))) at 1 by lia.
    unfold ids. rewrite seqZ_S, fmap_app, filter_app. cbn [fmap list_fmap]. rewrite Z2Nat.id by lia.
    rewrite filter_all, filter_cons_False, filter_nil, app_nil_r; [done| |].
    + unfold unshielded. rewrite extractMonitorID_name by lia. replace (0 + last_monitor) with last_monitor by lia. rewrite Z.eqb_refl. cbn. tauto.
    + apply Forall_fmap, Forall_forall. intros id Hid%elem_of_seqZ. unfold compose, unshielded. rewrite extractMonitorID_name by lia.
      destruct (Z.eqb_spec id last_monitor); [lia|done].
Qed.

(** C29. In sniper mode the chaos monkey kills exactly the container it was given, the
    last monitor too, once, and only if a line of its log calls for it.  In the
    other modes, whatever it is told and whenever it strikes, it only kills
    containers of the deployment and never the last monitor; told to kill
    everything it kills every other worker and monitor, and told to kill a query
    it kills, of the workers, exactly the containers of the query's stages. *)
Theorem monkey_spares_monitor f es lines : deployable topo ->
  let names := writeWorkersYAML (generateWorkers topo) (generateMonitors topo) in
  exists targets, main f (Ok names) es lines = Ok targets /\
    (sniperTarget f <> ""%string ->
      targets = if existsb (fun line => Contains line (str_bytes "SNIPER")) lines then [sniperTarget f] else []) /\
    (sniperTarget f = ""%string ->
      (forall t, t ∈ targets -> t ∈ names) /\
      containerOf "monitor" last_monitor ∈ names /\ containerOf "monitor" last_monitor ∉ targets /\
      (nukeMode f = true -> forall t, t ∈ names -> t <> containerOf "monitor" last_monitor -> t ∈ targets) /\
      (nukeMode f = false -> 0 < queryNum f -> forall stage defs i wd id, tPipelines topo !! stage = Some defs -> defs !! i = Some wd -> 0 <= id < wdAmount wd ->
        containerOf (prefixOf stage wd) id ∈ targets <-> stageOf (queryNum f) stage)).
Proof using Hstages Hamount.
  intros Htopo names. pose proof amount_bounds as Ha. pose proof killable_names as Hk. fold names in Hk. unfold main.
  destruct (decide (sniperTarget f = ""%string)) as [Hf|Hf].
  2: { rewrite decide_True by done. eexists. split; [reflexivity|]. split; [intros _; apply runSniper_spec|done]. }
  rewrite decide_False by (rewrite Hf; tauto).
  cbn [mbind res_bind]. destruct (splitMonitors names) as [monitors regulars]. destruct Hk as [-> Hk]. cbn [mbind res_bind]. rewrite Hk.
  set (killable := (ContainerName <$> generateWorkers topo) ++ (containerOf "monitor" <$> ids last_monitor)).
  assert (forall t, t ∈ killable <-> t ∈ names /\ t <> containerOf "monitor" last_monitor) as Hin.
  { intros t. unfold killable, names, writeWorkersYAML. rewrite monitor_names, !elem_of_app, !list_elem_of_fmap. setoid_rewrite elem_of_ids. split.
    - intros [(w & -> & Hw)|(id & -> & Hid)].
      + split; [left; by exists w|]. intros Heq. apply worker_iff in Hw as (stage & defs & i & wd & id & Hs & _ & Hid & ->).
        destruct (Hstages stage) as [H1 H2]; [by eexists|]. pose proof (worker_not_monitor stage wd id H1 H2) as Hm. cbn in Heq. rewrite Heq, monitor_is_monitor in Hm. done.
      + split; [right; exists id; split; [done|lia]|]. intros Heq. apply containerOf_inj in Heq as [_ Heq]; lia.
    - intros [[?|(id & -> & Hid)] Hne]; [by left|right]. exists id. split; [done|]. assert (id <> last_monitor) by (by intros ->). lia. }
  eexists. split; [reflexivity|]. split; [done|]. intros _. set (targets := if nukeMode f then _ else _).
  assert (forall t, t ∈ targets -> t ∈ killable) as Hsub.
  { intros t. unfold targets, runNuke. rewrite !bulkKill_all. destruct (nukeMode f); [by destruct killable|].
    destruct (0 <? queryNum f); [by intros [_ ?]%list_elem_of_filter|apply runRandom_subset]. }
  split_and!.
  - intros t Ht. by apply Hin, Hsub.
  - unfold names, writeWorkersYAML. rewrite monitor_names, elem_of_app, !list_elem_of_fmap. right. exists last_monitor. split; [done|]. apply elem_of_ids. lia.
  - intros Ht%Hsub%Hin. by destruct Ht.
  - intros Hn t Ht Hne. assert (t ∈ killable) as Htk by by apply Hin. unfold targets. rewrite Hn. unfold runNuke. rewrite bulkKill_all. by destruct killable.
  - intros Hn Hq stage defs i wd id Hs Hi Hid. unfold targets. rewrite Hn. destruct (Z.ltb_spec 0 (queryNum f)); [|lia]. rewrite bulkKill_all. unfold filterQuery.
    destruct (Hstages stage) as [H1 H2]; [by eexists|]. rewrite list_elem_of_filter, Is_true_true, matchesQuery_stage by (done || lia).
    split; [by intros [? _]|]. intros Hst. split; [done|]. unfold killable. apply elem_of_app. left. apply list_elem_of_fmap.
    exists (instance topo stage defs i wd id). split; [done|]. apply worker_iff. by exists stage, defs, i, wd, id.
Qed.
End Attack.

Lemma example_stages : plainStages example_topology.
Proof.
  intros stage [defs Hs]. assert (map_Forall (fun stage _ => Byte.x5f ∉ str_bytes stage /\ stage <> "monitor"%string) (tPipelines example_topology)) as H by decided.
  by apply (H stage defs).
Qed.
(** Killing query 2 of the example: the eight containers of its four workers. *)
Lemma monkey_spares_monitor_witness :
  let names := writeWorkersYAML (generateWorkers example_topology) (generateMonitors example_topology) in
  exists targets, main (mkFlags false 2 "") (Ok names) [] [] = Ok targets /\ Zlen targets = 8 /\
    "query2_join_0"%string ∈ targets /\ (forall t, t ∈ targets -> t ∈ names) /\ "monitor_2"%string ∈ names /\ "monitor_2"%string ∉ targets.
Proof.
  intros names. destruct (monkey_spares_monitor example_topology example_stages ltac:(cbn; lia) (mkFlags false 2 "") [] [] example_deployable)
    as (targets & H1 & _ & H). destruct (H eq_refl) as (H2 & H3 & H4 & _ & H6). exists targets. split; [exact H1|]. split; [vm_compute in H1; injection H1 as <-; reflexivity|].
  split; [|split; [exact H2|split; [exact H3|exact H4]]].
  refine (proj2 (H6 eq_refl ltac:(cbn; lia) "query2"%string query2 3%nat (default (worker "" 0) (query2 !! 3%nat)) 0 eq_refl eq_refl ltac:(split; vm_compute; [discriminate|reflexivity])) _).
  left. reflexivity.
Defined.
Example random_kills : main (mkFlags false 0 "") (Ok ["query1_filter_0"; "monitor_0"; "monitor_1"]%string) [Tick 5; Tick 2; Signalled; Tick 1] [] =
  Ok ["monitor_0"; "query1_filter_0"]%string.
Proof. reflexivity. Qed.
