(* ===== verification/Pinging.v ===== *)
(** * The goroutines of a monitor ([src/workers/monitor/monitor.go],
    [src/common/monitoring/pinger.go])

    [Monitor] takes the result of a ping as one step.  In the program the pings
    of a pinger run at once, each in a goroutine of its own; [handleResult]
    counts a failure and forgets it under two separate locks and starts the
    container under none; the loop that follows the leader starts and stops
    pingers, and [Monitor.Stop] stops them too.  Here every goroutine advances by
    itself between two accesses to what they share. *)

From S2P Require Import Prelude Codec Sharding Bully Monitor.

(** ** Goroutines *)
(** [loop]: the goroutine is that of [leaderLoop], not of [Monitor.Stop]. *)
Inductive ppc :=
  | Looping                                   (** [leaderLoop] waits for its ticker *)
  | Testing (loop : bool)                     (** [stopPinger]: [m.pinger != nil]? *)
  | Calling (loop : bool)                     (** [m.pinger.Stop()] *)
  | Waiting (loop : bool) (k : nat)           (** [p.wg.Wait()] *)
  | Clearing (loop : bool)                    (** [m.pinger = nil] *)
  | Pinging (k : nat) (worker : string)       (** [pingWorker] of pinger [k] *)
  | Forgetting (k : nat) (key : string)       (** [handleResult]: the threshold is reached *)
  | Restarting (k : nat) (key : string)       (** [docker start] *)
  | Over.
#[global] Instance pc_eq_dec : EqDecision ppc.
Proof. solve_decision. Defined.

(** A pinger: [begun] when its goroutine has set [p.cancel], [cancelled] when
    that was called, [finished] when the goroutine has returned. *)
Record pinger := mkPinger { targets : list string; begun : bool; cancelled : bool; finished : bool }.
(** [current] is [m.pinger]; [stopped] is the root context, which [Monitor.Stop]
    cancels.  A nil dereference is [panicked]. *)
Record pworld := mkWorld {
  mon : Monitor;
  current : option nat;
  pingers : gmap nat pinger;
  stopped : bool;
  panicked : bool;
  threads : gmap nat ppc
}.
Definition setMon (m : Monitor) (w : pworld) : pworld := mkWorld m (current w) (pingers w) (stopped w) (panicked w) (threads w).
Definition setCurrent (c : option nat) (w : pworld) : pworld := mkWorld (mon w) c (pingers w) (stopped w) (panicked w) (threads w).
Definition setPinger (k : nat) (p : pinger) (w : pworld) : pworld :=
  mkWorld (mon w) (current w) (<[k := p]> (pingers w)) (stopped w) (panicked w) (threads w).
Definition setStopped (w : pworld) : pworld := mkWorld (mon w) (current w) (pingers w) true (panicked w) (threads w).
Definition setPanicked (w : pworld) : pworld := mkWorld (mon w) (current w) (pingers w) (stopped w) true (threads w).
Definition setThread (i : nat) (p : ppc) (w : pworld) : pworld :=
  mkWorld (mon w) (current w) (pingers w) (stopped w) (panicked w) (<[i := p]> (threads w)).
(** Goroutine 0 is [leaderLoop]. *)
Definition started (m : Monitor) : pworld := mkWorld m None ∅ false false {[0%nat := Looping]}.

(** [startPinger] of [Monitor] says whom the new pinger pings. *)
Definition startNew (workers : list string) (w : pworld) : pworld :=
  match pinging (startPinger workers (mon w)) with
  | Some filtered =>
      let k := fresh (dom (pingers w)) in
      setCurrent (Some k) (setPinger k (mkPinger filtered false false false) w)
  | None => w
  end.
(** [Pinger.Stop]: without [p.cancel] it cancels nothing. *)
Definition cancelPinger (k : nat) (w : pworld) : pworld :=
  match pingers w !! k with
  | Some p => if begun p then setPinger k (mkPinger (targets p) true true (finished p)) w else w
  | None => w
  end.
(** The goroutines that [p.wg] counts. *)
Definition pings (k : nat) (p : ppc) : bool :=
  match p with Pinging j _ | Forgetting j _ | Restarting j _ => bool_decide (j = k) | _ => false end.
Definition inFlight (k : nat) (w : pworld) : bool := existsb (fun ip : nat * ppc => pings k ip.2) (map_to_list (threads w)).
(** The end of [stopPinger]. *)
Definition resume (loop : bool) : ppc := if loop then Looping else Over.

(** [handleResult] up to its first unlock. *)
Definition countResult (i k : nat) (key : string) (ok : bool) (w : pworld) : pworld :=
  let key := normalizeMonitorKey key in
  let m := mon w in
  if ok then setThread i Over (setMon (setFailures (<[key := 0]> (failures m)) m) w)
  else
    let fails := int64 (default 0 (failures m !! key) + 1) in
    let w := setMon (setFailures (<[key := fails]> (failures m)) m) w in
    setThread i (if failureThreshold m <=? fails then Forgetting k key else Over) w.

(** What happens: a tick of [leaderLoop] ([bully.IsLeader] is asked twice), its
    end, a call of [Monitor.Stop], a goroutine that goes on, a pinger's goroutine
    that begins, ticks ([ids] are the goroutines it makes) or returns, and a ping
    that gets its answer, or none. *)
Inductive event :=
  | Tick (leads stillLeads : bool)
  | LoopEnds
  | CallStop (i : nat)
  | Go (i : nat)
  | Begin (k : nat)
  | PingerTick (k : nat) (ids : list nat)
  | PingerEnds (k : nat)
  | Answer (i : nat) (datagram : option bytes).

Definition pgo (i : nat) (p : ppc) (w : pworld) : option pworld :=
  match p with
  | Testing loop => Some (setThread i (match current w with Some _ => Calling loop | None => resume loop end) w)
  | Calling loop =>
      match current w with
      | Some k => Some (setThread i (Waiting loop k) (cancelPinger k w))
      | None => Some (setPanicked w)
      end
  | Waiting loop k => if inFlight k w then None else Some (setThread i (Clearing loop) w)
  | Clearing loop => Some (setThread i (resume loop) (setCurrent None w))
  | Forgetting k key => Some (setThread i (Restarting k key) (setMon (setFailures (delete key (failures (mon w))) (mon w)) w))
  | Restarting k key => Some (setThread i Over (setMon (restartContainer key (mon w)) w))
  | Looping | Pinging _ _ | Over => None
  end.
Section Machine.
Context (workers : list string).
Fixpoint spawn (k : nat) (ids : list nat) (ws : list string) (w : pworld) : option pworld :=
  match ids, ws with
  | [], [] => Some w
  | i :: ids, x :: ws => if decide (threads w !! i = None) then spawn k ids ws (setThread i (Pinging k x) w) else None
  | _, _ => None
  end.
Definition pstep (w : pworld) (e : event) : option pworld :=
  if panicked w then None else
  match e with
  | Tick leads stillLeads =>
      if decide (threads w !! 0%nat = Some Looping) then
        match leads, current w with
        | true, None => Some (startNew workers w)
        | _, Some _ => if stillLeads then Some w else Some (setThread 0 (Testing true) w)
        | _, None => Some w
        end
      else None
  | LoopEnds => if decide (threads w !! 0%nat = Some Looping /\ stopped w = true) then Some (setThread 0 Over w) else None
  | CallStop i => if decide (threads w !! i = None) then Some (setThread i (Testing false) (setStopped w)) else None
  | Go i => p ← threads w !! i; pgo i p w
  | Begin k => p ← pingers w !! k; if begun p then None else Some (setPinger k (mkPinger (targets p) true (cancelled p) false) w)
  | PingerTick k ids => p ← pingers w !! k; if begun p && negb (finished p) then spawn k ids (targets p) w else None
  | PingerEnds k =>
      p ← pingers w !! k;
      if begun p && (cancelled p || stopped w) then Some (setPinger k (mkPinger (targets p) true (cancelled p) true) w) else None
  | Answer i datagram =>
      match threads w !! i with
      | Some (Pinging k x) => match pingWorker x datagram with Ok (key, ok) => Some (countResult i k key ok w) | _ => Some (setPanicked w) end
      | _ => None
      end
  end.
Fixpoint exec (es : list event) (w : pworld) : option pworld :=
  match es with [] => Some w | e :: es' => w' ← pstep w e; exec es' w' end.
End Machine.

(** ** Counting goroutines *)
Definition count (P : ppc -> bool) (m : gmap nat ppc) : Z := Zlen (filter (fun ip : nat * ppc => Is_true (P ip.2)) (map_to_list m)).
Definition one (b : bool) : Z := if b then 1 else 0.
Definition kept (P : ppc -> bool) (o : option ppc) : Z := match o with Some p => one (P p) | None => 0 end.
Lemma count_perm P l k : l ≡ₚ k -> Zlen (filter (fun ip : nat * ppc => Is_true (P ip.2)) l) = Zlen (filter (fun ip : nat * ppc => Is_true (P ip.2)) k).
Proof. intros H. unfold Zlen. f_equal. by apply Permutation_length, filter_Permutation. Qed.
Lemma count_cons P ip l : Zlen (filter (fun ip : nat * ppc => Is_true (P ip.2)) (ip :: l)) = one (P ip.2) + Zlen (filter (fun ip : nat * ppc => Is_true (P ip.2)) l).
Proof.
  rewrite filter_cons. destruct (decide (Is_true (P ip.2))) as [H|H]; unfold one.
  - rewrite (Is_true_true_1 _ H). unfold Zlen. cbn [length]. lia.
  - rewrite (Is_true_false_1 _ H). lia.
Qed.
Lemma count_insert P m i q : count P (<[i := q]> m) = count P m - kept P (m !! i) + one (P q).
Proof.
  unfold count. rewrite <- insert_delete_eq, (count_perm P _ _ (map_to_list_insert (delete i m) i q (lookup_delete_eq m i))), count_cons. cbn [snd].
  destruct (m !! i) as [p|] eqn:E; cbn [kept].
  - rewrite (count_perm P (map_to_list m) _ (Permutation_sym (map_to_list_delete m i p E))), count_cons. cbn [snd]. lia.
  - rewrite (delete_id m i E). lia.
Qed.
Lemma count_nonneg P m : 0 <= count P m.
Proof. unfold count, Zlen. lia. Qed.

Lemma count_started P : count P {[0%nat := Looping]} = one (P Looping).
Proof. rewrite <- insert_empty, count_insert, lookup_empty. unfold count. rewrite map_to_list_empty, filter_nil. unfold Zlen, kept. cbn [length]. lia. Qed.

(** ** Missed pings and restarts, in any interleaving *)
(** What a ping's goroutine notifies when it gets its answer. *)
Definition outcome (w : pworld) (e : event) : option (string * bool) :=
  match e with
  | Answer i datagram =>
      match threads w !! i with
      | Some (Pinging k x) => match pingWorker x datagram with Ok (key, ok) => Some (normalizeMonitorKey key, ok) | _ => None end
      | _ => None
      end
  | _ => None
  end.
Section Counting.
Context (workers : list string).
Fixpoint outcomes (es : list event) (w : pworld) : list (string * bool) :=
  match es with
  | [] => []
  | e :: es' =>
      match pstep workers w e with
      | Some w' => match outcome w e with Some r => r :: outcomes es' w' | None => outcomes es' w' end
      | None => []
      end
  end.
Definition misses (key : string) (rs : list (string * bool)) : Z := Zlen (filter (fun r => r.1 = key) rs).
Definition forgetting (key : string) (p : ppc) : bool := match p with Forgetting _ k => bool_decide (k = key) | _ => false end.
Definition restarting (key : string) (p : ppc) : bool := match p with Restarting _ k => bool_decide (k = key) | _ => false end.

(** [n] failures of [key] were counted since the monitor had restarted it [r0]
    times.  A failure beyond the threshold makes a restart of its own; the
    failures that a restart forgets are fewer than the threshold. *)
Definition accounted (key : string) (T r0 n : Z) (w : pworld) : Prop :=
  let r := restartsOf key (mon w) - r0 + count (restarting key) (threads w) in
  let c := fails key (mon w) in
  failureThreshold (mon w) = T /\ 0 <= c <= n /\
  n <= T * r + Z.min c (T - 1) + count (forgetting key) (threads w) /\
  0 <= r /\ r + count (forgetting key) (threads w) <= n.
Context (key : string) (T r0 : Z) (HT : 0 < T).

(** A goroutine that is, and stays, outside [handleResult]. *)
Definition neutral (o : option ppc) : Prop := kept (forgetting key) o = 0 /\ kept (restarting key) o = 0.
Lemma accounted_thread n i q w : neutral (threads w !! i) -> neutral (Some q) -> accounted key T r0 n w -> accounted key T r0 n (setThread i q w).
Proof.
  intros [H1 H2] [H3 H4] H. unfold accounted in *. cbn [threads setThread mon kept] in *. rewrite !count_insert, H1, H2, H3, H4, !Z.sub_0_r, !Z.add_0_r. exact H.
Qed.
Lemma accounted_same n w w' : mon w' = mon w -> threads w' = threads w -> accounted key T r0 n w -> accounted key T r0 n w'.
Proof. unfold accounted. by intros -> ->. Qed.
Lemma accounted_spawn n k ids ws w w' : spawn k ids ws w = Some w' -> accounted key T r0 n w -> accounted key T r0 n w'.
Proof.
  revert ws w. induction ids as [|i ids IH]; intros [|x ws] w H; cbn in H; try done; [by injection H as ->|].
  destruct (decide (threads w !! i = None)) as [Hi|]; [|done]. intros Ha. apply (IH ws _ H), accounted_thread; [by rewrite Hi|done|done].
Qed.
Lemma accounted_other n i k key' ok w : threads w !! i = Some (Pinging k key') -> forall name, normalizeMonitorKey name <> key ->
  accounted key T r0 n w -> accounted key T r0 n (countResult i k name ok w).
Proof.
  intros Hi name Hne Ha. unfold countResult. set (name' := normalizeMonitorKey name) in *.
  assert (forall x, accounted key T r0 n (setMon (setFailures (<[name' := x]> (failures (mon w))) (mon w)) w)) as Hm.
  { intros x. unfold accounted, fails, restartsOf in *. cbn [mon setMon failures setFailures restarts failureThreshold threads] in *.
    by rewrite lookup_insert_ne. }
  destruct ok; [apply accounted_thread; [by cbn; rewrite Hi|done|apply Hm]|].
  apply accounted_thread; [by cbn; rewrite Hi| |apply Hm]. destruct (_ <=? _); [|done]. split; cbn; [|done]. by rewrite bool_decide_eq_false_2.
Qed.
Lemma accounted_miss n i k x w name : threads w !! i = Some (Pinging k x) -> normalizeMonitorKey name = key -> n + 1 < 2 ^ 63 ->
  accounted key T r0 n w -> accounted key T r0 (n + 1) (countResult i k name false w).
Proof.
  intros Hi Hk Hn (Ht & Hc & Hlo & Hr & Hhi). unfold countResult. rewrite Hk. cbv zeta.
  fold (fails key (mon w)). rewrite int64_small by (unfold in_int64; lia).
  unfold accounted, fails, restartsOf in *. cbn [mon setMon setThread failures setFailures restarts failureThreshold threads] in *.
  rewrite lookup_insert_eq, !count_insert, Hi. cbn [kept forgetting restarting one default from_option id]. rewrite Ht.
  destruct (Z.leb_spec T (default 0 (failures (mon w) !! key) + 1)) as [Hge|Hlt]; cbn [forgetting restarting one].
  - rewrite bool_decide_eq_true_2 by done. cbn [one]. split_and!; lia.
  - split_and!; lia.
Qed.
Lemma accounted_go n i p w w' : threads w !! i = Some p -> pgo i p w = Some w' -> accounted key T r0 n w -> accounted key T r0 n w'.
Proof.
  intros Hi Hg Ha. destruct p as [|loop|loop|loop j|loop|j x|j k|j k|]; cbn in Hg; try done.
  - injection Hg as <-. apply accounted_thread; [by rewrite Hi| |done]. by destruct (current w), loop.
  - destruct (current w) as [j|]; injection Hg as <-; [|by apply (accounted_same n w)].
    apply accounted_thread; [|done|].
    + unfold cancelPinger. destruct (pingers w !! j) as [q|]; [destruct (begun q)|]; cbn; by rewrite Hi.
    + apply (accounted_same n w); [..|done]; unfold cancelPinger; destruct (pingers w !! j) as [q|]; [destruct (begun q)| |destruct (begun q)|]; done.
  - destruct (inFlight j w); [done|]. injection Hg as <-. apply accounted_thread; [by rewrite Hi|done|done].
  - injection Hg as <-. apply accounted_thread; [by cbn; rewrite Hi|by destruct loop|by apply (accounted_same n w)].
  - injection Hg as <-. destruct Ha as (Ht & Hc & Hlo & Hr & Hhi). unfold accounted, fails, restartsOf in *.
    cbn [mon setMon setThread failures setFailures restarts failureThreshold threads] in *. rewrite !count_insert, Hi. cbn [kept forgetting restarting].
    destruct (decide (k = key)) as [->|Hk].
    + rewrite lookup_delete_eq, !bool_decide_eq_true_2 by done. cbn [one default from_option id]. split_and!; try done; lia.
    + rewrite lookup_delete_ne, !bool_decide_eq_false_2 by done. cbn [one]. split_and!; try done; lia.
  - injection Hg as <-. destruct Ha as (Ht & Hc & Hlo & Hr & Hhi). unfold accounted, fails, restartsOf in *.
    cbn [mon setMon setThread failures restartContainer restarts failureThreshold threads] in *. rewrite !count_insert, Hi. cbn [kept forgetting restarting one].
    rewrite filter_app. destruct (decide (k = key)) as [->|Hk].
    + rewrite filter_cons_True, filter_nil, bool_decide_eq_true_2 by done. unfold Zlen in *. rewrite length_app. cbn [one length]. split_and!; try done; lia.
    + rewrite filter_cons_False, filter_nil, app_nil_r, bool_decide_eq_false_2 by done. cbn [one]. split_and!; try done; lia.
Qed.
Lemma accounted_step n w e w' : n + 1 < 2 ^ 63 -> pstep workers w e = Some w' -> accounted key T r0 n w ->
  match outcome w e with
  | Some (k, ok) => if decide (k = key) then ok = false -> accounted key T r0 (n + 1) w' else accounted key T r0 n w'
  | None => accounted key T r0 n w'
  end.
Proof.
  intros Hn Hs Ha. unfold pstep in Hs. destruct (panicked w); [done|].
  destruct e as [leads still| |i|i|k|k ids|k|i datagram]; cbn [outcome].
  - destruct (decide (threads w !! 0%nat = Some Looping)) as [H0|]; [|done].
    assert (accounted key T r0 n (setThread 0 (Testing true) w)) as Ht by (apply accounted_thread; [by rewrite H0|done|done]).
    destruct leads, (current w), still; injection Hs as <-; try done; unfold startNew; destruct (pinging _); by try apply (accounted_same n w).
  - destruct (decide _) as [[H0 _]|]; [|done]. injection Hs as <-. apply accounted_thread; [by rewrite H0|done|done].
  - destruct (decide _) as [Hi|]; [|done]. injection Hs as <-. apply accounted_thread; [by cbn; rewrite Hi|done|by apply (accounted_same n w)].
  - apply bind_Some in Hs as (p & Hi & Hg). by eapply accounted_go.
  - apply bind_Some in Hs as (p & Hp & Hs). destruct (begun p); [done|]. injection Hs as <-. by apply (accounted_same n w).
  - apply bind_Some in Hs as (p & Hp & Hs). destruct (begun p && negb (finished p)); [|done]. by eapply accounted_spawn.
  - apply bind_Some in Hs as (p & Hp & Hs). destruct (begun p && (cancelled p || stopped w)); [|done]. injection Hs as <-. by apply (accounted_same n w).
  - destruct (threads w !! i) as [p|] eqn:Hi; [|done]. destruct p; try done.
    destruct (pingWorker worker datagram) as [[name ok]|e|e]; [|by injection Hs as <-; apply (accounted_same n w)..].
    injection Hs as <-. destruct (decide (normalizeMonitorKey name = key)) as [Hk|Hk].
    + intros ->. by eapply accounted_miss.
    + by eapply accounted_other.
Qed.
Lemma misses_cons k ok rs : misses key ((k, ok) :: rs) = (if decide (k = key) then 1 else 0) + misses key rs.
Proof. unfold misses. rewrite filter_cons. cbn [fst]. destruct (decide (k = key)); unfold Zlen; cbn [length]; lia. Qed.
Lemma misses_nonneg rs : 0 <= misses key rs.
Proof. unfold misses, Zlen. lia. Qed.
Lemma accounted_exec es : forall n w w', exec workers es w = Some w' ->
  Forall (fun r => r.1 = key -> r.2 = false) (outcomes es w) -> 0 <= n -> n + Zlen es < 2 ^ 63 ->
  accounted key T r0 n w -> accounted key T r0 (n + misses key (outcomes es w)) w'.
Proof.
  induction es as [|e es IH]; intros n w w' Hx Hf Hn Hl Ha; cbn [exec outcomes] in *.
  { injection Hx as <-. unfold misses. cbn. by rewrite Z.add_0_r. }
  apply bind_Some in Hx as (w1 & Hs & Hx). rewrite Hs in *. unfold Zlen in Hl. cbn [length] in Hl. fold (Zlen es) in Hl.
  pose proof (accounted_step n w e w1 ltac:(unfold Zlen in *; lia) Hs Ha) as H1.
  assert (n + 1 + Zlen es < 2 ^ 63) as Hl1 by (unfold Zlen in *; lia).
  destruct (outcome w e) as [[k ok]|]; [|apply (IH n w1); [done|done|done|lia|done]].
  apply Forall_cons in Hf as [Hr Hf]. rewrite misses_cons. cbn [fst snd] in *. destruct (decide (k = key)) as [->|].
  - rewrite Z.add_assoc. apply (IH (n + 1) w1); [done|done|lia|lia|by apply H1, Hr].
  - rewrite Z.add_0_l. apply (IH n w1); [done|done|done|lia|done].
Qed.
End Counting.

(** C26. However the goroutines of a monitor interleave - pings of one or of
    several pingers, failures counted and forgotten under separate locks,
    pingers started and stopped - a container that misses [n] pings in a row is
    started at least [n / threshold] times and at most [n] times once the results
    are handled: two failures may restart it twice, but none is lost. *)
Theorem restarts_in_any_order workers m key es w : exec workers es (started m) = Some w ->
  0 < failureThreshold m -> failures m !! key = None -> Zlen es < 2 ^ 63 ->
  let rs := outcomes workers es (started m) in
  Forall (fun r => r.1 = key -> r.2 = false) rs ->
  count (forgetting key) (threads w) = 0 -> count (restarting key) (threads w) = 0 ->
  misses key rs / failureThreshold m <= restartsOf key (mon w) - restartsOf key m <= misses key rs.
Proof.
  intros Hx HT Hf Hl rs Hrs Hq1 Hq2.
  assert (accounted key (failureThreshold m) (restartsOf key m) 0 (started m)) as H0.
  { unfold accounted, fails. cbn [mon started threads]. rewrite Hf, !count_started. cbn [default forgetting restarting one]. lia. }
  pose proof (accounted_exec workers key _ _ HT es 0 _ _ Hx Hrs ltac:(lia) ltac:(lia) H0) as (_ & Hc & Hlo & Hr & Hhi).
  fold rs in Hc, Hlo, Hr, Hhi. rewrite Hq1, Hq2 in *. rewrite Z.add_0_l in *. split; [|lia].
  apply Z.lt_succ_r, Z.div_lt_upper_bound; [done|]. lia.
Qed.

(** ** A pinger that nobody can stop *)
(** A pinger that is neither [m.pinger] nor cancelled. *)
Definition orphan (k : nat) (w : pworld) : Prop :=
  current w <> Some k /\ exists p, pingers w !! k = Some p /\ cancelled p = false /\ finished p = false.
Lemma orphan_same k w w' : pingers w' = pingers w -> current w' = current w -> orphan k w -> orphan k w'.
Proof. unfold orphan. by intros -> ->. Qed.
Lemma spawn_same k ids ws w w' : spawn k ids ws w = Some w' -> pingers w' = pingers w /\ current w' = current w /\ stopped w' = stopped w.
Proof.
  revert ws w. induction ids as [|i ids IH]; intros [|x ws] w H; cbn in H; try done; [by injection H as ->|].
  destruct (decide _); [|done]. by apply IH in H.
Qed.
Lemma orphan_step workers k w e w' : pstep workers w e = Some w' -> stopped w' = false -> orphan k w -> orphan k w'.
Proof.
  intros Hs Hns (Hk & p & Hp & Hc & Hf). unfold pstep in Hs. destruct (panicked w); [done|].
  assert (forall w', pingers w' = pingers w -> current w' = current w -> orphan k w') as Hsame.
  { intros w2 H1 H2. apply (orphan_same k w); [done..|]. split; [done|by exists p]. }
  destruct e as [leads still| |i|i|j|j ids|j|i datagram].
  - destruct (decide (threads w !! 0%nat = Some Looping)) as [_|]; [|done].
    destruct leads, (current w) as [j|] eqn:Ecur, still; injection Hs as <-; try (apply Hsame; [done|cbn; congruence]);
      unfold startNew in *; (destruct (pinging _) as [l|]; [|apply Hsame; [done|cbn; congruence]]);
      set (f := fresh (dom (pingers w))) in *;
      assert (f <> k) as Hne by (intros <-; apply (is_fresh (dom (pingers w))), elem_of_dom; by exists p);
      (split; [cbn; congruence|]); exists p; cbn; by rewrite lookup_insert_ne.
  - destruct (decide _); [|done]. injection Hs as <-. by apply Hsame.
  - destruct (decide _); [|done]. by injection Hs as <-.
  - apply bind_Some in Hs as (q & Hi & Hg). destruct q as [|loop|loop|loop j|loop|j x|j key|j key|]; cbn in Hg; try done.
    + injection Hg as <-. by apply Hsame.
    + destruct (current w) as [j|] eqn:Ecur; injection Hg as <-; [|apply Hsame; [done|cbn; congruence]].
      assert (j <> k) as Hne by congruence. unfold cancelPinger in *.
      destruct (pingers w !! j) as [q|]; [destruct (begun q)|]; try (apply Hsame; [done|cbn; congruence]).
      split; [cbn; congruence|]. exists p. cbn. by rewrite lookup_insert_ne.
    + destruct (inFlight j w); [done|]. injection Hg as <-. by apply Hsame.
    + injection Hg as <-. split; [done|by exists p].
    + injection Hg as <-. by apply Hsame.
    + injection Hg as <-. by apply Hsame.
  - apply bind_Some in Hs as (q & Hq & Hs). destruct (begun q); [done|]. injection Hs as <-. split; [done|]. cbn.
    destruct (decide (j = k)) as [->|Hne]; [|exists p; by rewrite lookup_insert_ne].
    rewrite Hp in Hq. injection Hq as <-. eexists. by rewrite lookup_insert_eq.
  - apply bind_Some in Hs as (q & Hq & Hs). destruct (begun q && negb (finished q)); [|done]. apply spawn_same in Hs as (H1 & H2 & H3). by apply Hsame.
  - apply bind_Some in Hs as (q & Hq & Hs). destruct (begun q && (cancelled q || stopped w)) eqn:Eb; [|done]. injection Hs as <-.
    cbn [stopped setPinger] in Hns. split; [done|]. cbn. destruct (decide (j = k)) as [->|Hne]; [|exists p; by rewrite lookup_insert_ne].
    rewrite Hp in Hq. injection Hq as <-. rewrite Hc, Hns, andb_false_r in Eb. done.
  - destruct (threads w !! i) as [q|]; [|done]. destruct q; try done.
    destruct (pingWorker worker datagram) as [[name ok]|e|e]; injection Hs as <-; [|by apply Hsame..].
    unfold countResult in *. by destruct ok; apply Hsame.
Qed.
Lemma go_stopped i p w w' : pgo i p w = Some w' -> stopped w' = stopped w.
Proof.
  destruct p as [|loop|loop|loop j|loop|j x|j key|j key|]; cbn; try done; [by intros [= <-]| | |by intros [= <-]..].
  - destruct (current w); intros [= <-]; [|done]. unfold cancelPinger. cbn. destruct (pingers w !! _) as [q|]; [by destruct (begun q)|done].
  - destruct (inFlight j w); [done|]. by intros [= <-].
Qed.
Lemma step_stopped workers w e w' : pstep workers w e = Some w' -> stopped w = true -> stopped w' = true.
Proof.
  unfold pstep. destruct (panicked w); [done|]. intros Hs H. destruct e as [leads still| |i|i|j|j ids|j|i datagram].
  - destruct (decide _); [|done]. destruct leads, (current w), still; injection Hs as <-; try done; unfold startNew; by destruct (pinging _).
  - destruct (decide _); [|done]. by injection Hs as <-.
  - destruct (decide _); [|done]. by injection Hs as <-.
  - apply bind_Some in Hs as (q & _ & Hg). by rewrite (go_stopped _ _ _ _ Hg).
  - apply bind_Some in Hs as (q & _ & Hs). destruct (begun q); [done|]. by injection Hs as <-.
  - apply bind_Some in Hs as (q & _ & Hs). destruct (begun q && negb (finished q)); [|done]. apply spawn_same in Hs as (_ & _ & Hst). by rewrite Hst.
  - apply bind_Some in Hs as (q & _ & Hs). destruct (begun q && (cancelled q || stopped w)); [|done]. by injection Hs as <-.
  - destruct (threads w !! i) as [q|]; [|done]. destruct q; try done.
    destruct (pingWorker worker datagram) as [[name ok]|e|e]; injection Hs as <-; [|done..]. unfold countResult. by destruct ok.
Qed.
Lemma exec_stopped workers es : forall w w', exec workers es w = Some w' -> stopped w = true -> stopped w' = true.
Proof.
  induction es as [|e es IH]; intros w w' Hx H; cbn in Hx; [by injection Hx as <-|].
  apply bind_Some in Hx as (w1 & Hs & Hx). apply (IH w1 w' Hx). by eapply step_stopped.
Qed.
(** C27. [Pinger.Start] sets [p.cancel] in a goroutine of its own, so a leader that
    is deposed before that goroutine has run drops its pinger without cancelling
    it: whatever happens later, as long as the monitor runs this pinger is never
    cancelled and never ends - it goes on pinging, and counting failures, beside
    the pinger of the next leader and of the same monitor when it leads again. *)
Theorem orphan_pinger_stays workers es : forall k w w', exec workers es w = Some w' -> orphan k w -> stopped w' = false -> orphan k w'.
Proof.
  induction es as [|e es IH]; intros k w w' Hx Ho Hns; cbn in Hx; [by injection Hx as <-|].
  apply bind_Some in Hx as (w1 & Hs & Hx). apply (IH k w1 w' Hx); [|done]. apply (orphan_step _ _ _ _ _ Hs); [|done].
  destruct (stopped w1) eqn:E; [|done]. apply (exec_stopped _ _ _ _ Hx) in E. congruence.
Qed.

(** ** A monitor that follows its leader never dereferences a nil pinger *)
Lemma pingWorker_ok x d : exists r, pingWorker x d = Ok r.
Proof.
  unfold pingWorker. destruct d as [d|]; [|by eexists]. set (data := take 256 d). destruct (Z.ltb_spec (Zlen data) 6) as [|H6]; [by eexists|].
  pose proof (be_val_range (slice data 0 2)) as [Hp _]. set (n := be_val (slice data 0 2)) in *.
  destruct (Z.ltb_spec (Zlen data) (2 + n + 4)) as [|Hn]; [by eexists|]. unfold slice_chk.
  rewrite bool_decide_eq_true_2 by lia. cbn. rewrite bool_decide_eq_true_2 by lia. by eexists.
Qed.
Definition outside (p : ppc) : Prop := match p with Testing _ | Calling _ | Waiting _ _ | Clearing _ => False | _ => True end.
(** Only the loop stops pingers, and it calls [Stop] on the one it saw. *)
Definition loopOk (c : option nat) (p : option ppc) : Prop :=
  match p with
  | Some (Calling loop) => loop = true /\ c <> None
  | Some (Testing loop | Waiting loop _ | Clearing loop) => loop = true
  | _ => True
  end.
Definition orderly (w : pworld) : Prop :=
  panicked w = false /\ (forall i p, threads w !! i = Some p -> i <> 0%nat -> outside p) /\ loopOk (current w) (threads w !! 0%nat).
Lemma orderly_thread i q w w' : orderly w -> (i = 0%nat /\ loopOk (current w') (Some q) \/ outside q /\ current w' = current w) ->
  panicked w' = false -> threads w' = <[i := q]> (threads w) -> orderly w'.
Proof.
  intros (Hp & Hi & H0) Hq Hp' Ht. unfold orderly. rewrite Ht. split; [done|]. split.
  - intros j p' Hj Hne. destruct (decide (j = i)) as [->|Hji]; [|rewrite lookup_insert_ne in Hj by done; by apply (Hi j)].
    rewrite lookup_insert_eq in Hj. injection Hj as <-. destruct Hq as [[-> _]|[Hq _]]; done.
  - destruct (decide (i = 0%nat)) as [->|Hne].
    + rewrite lookup_insert_eq. destruct Hq as [[_ Hq]|[Hq _]]; [done|by destruct q].
    + rewrite lookup_insert_ne by done. destruct Hq as [[? _]|[_ ->]]; done.
Qed.
Lemma orderly_same w w' : panicked w' = panicked w -> threads w' = threads w -> current w' = current w -> orderly w -> orderly w'.
Proof. unfold orderly. by intros -> -> ->. Qed.
Lemma orderly_spawn k ids ws w w' : spawn k ids ws w = Some w' -> orderly w -> orderly w'.
Proof.
  revert ws w. induction ids as [|i ids IH]; intros [|x ws] w H; cbn in H; try done; [by injection H as ->|].
  destruct (decide _); [|done]. intros Ho. apply (IH ws _ H), (orderly_thread i (Pinging k x) w); [done|by right|apply Ho|done].
Qed.
Lemma orderly_go i p w w' : threads w !! i = Some p -> pgo i p w = Some w' -> orderly w -> orderly w'.
Proof.
  intros Hi Hg Ho. pose proof Ho as (Hp & Hout & H0).
  assert (~ outside p -> i = 0%nat /\ loopOk (current w) (Some p)) as Hloop.
  { intros Hn. destruct (decide (i = 0%nat)) as [->|Hne]; [by rewrite Hi in H0|]. by destruct (Hn (Hout i p Hi Hne)). }
  destruct p as [|loop|loop|loop j|loop|j x|j key|j key|]; cbn in Hg; try done;
    try (destruct Hloop as [-> Hl]; [by intros []|]; cbn in Hl).
  - injection Hg as <-. apply (orderly_thread 0 (match current w with Some _ => Calling loop | None => resume loop end) w); [done| |done|done].
    left. split; [done|]. cbn. destruct (current w); [done|by subst loop].
  - destruct Hl as [-> Hc]. destruct (current w) as [j|] eqn:Ecur; [|done]. injection Hg as <-.
    apply (orderly_thread 0 (Waiting true j) w); [done|by left| |]; unfold cancelPinger; destruct (pingers w !! j) as [q|]; try done; by destruct (begun q).
  - destruct (inFlight j w); [done|]. injection Hg as <-. apply (orderly_thread 0 (Clearing loop) w); [done|by left|done|done].
  - injection Hg as <-. subst loop. apply (orderly_thread 0 Looping w); [done|by left|done|done].
  - injection Hg as <-. apply (orderly_thread i (Restarting j key) w); [done|by right|done|done].
  - injection Hg as <-. apply (orderly_thread i Over w); [done|by right|done|done].
Qed.
Lemma orderly_step workers w e w' : (forall i, e <> CallStop i) -> pstep workers w e = Some w' -> orderly w -> orderly w'.
Proof.
  intros He Hs Ho. pose proof Ho as (Hp & _). unfold pstep in Hs. rewrite Hp in Hs.
  destruct e as [leads still| |i|i|j|j ids|j|i datagram].
  - destruct (decide (threads w !! 0%nat = Some Looping)) as [H0|]; [|done].
    assert (orderly (setThread 0 (Testing true) w)) as Ht by (apply (orderly_thread 0 (Testing true) w); [done|by left|done|done]).
    assert (orderly (startNew workers w)) as Hn.
    { unfold startNew. destruct (pinging _); [|done]. destruct Ho as (_ & Hout & _). split; [done|]. split; [done|]. cbn. by rewrite H0. }
    destruct leads, (current w), still; by injection Hs as <-.
  - destruct (decide _); [|done]. injection Hs as <-. apply (orderly_thread 0 Over w); [done|by left|done|done].
  - by destruct (He i).
  - apply bind_Some in Hs as (q & Hi & Hg). by eapply orderly_go.
  - apply bind_Some in Hs as (q & _ & Hs). destruct (begun q); [done|]. injection Hs as <-. by apply (orderly_same w).
  - apply bind_Some in Hs as (q & _ & Hs). destruct (begun q && negb (finished q)); [|done]. by eapply orderly_spawn.
  - apply bind_Some in Hs as (q & _ & Hs). destruct (begun q && (cancelled q || stopped w)); [|done]. injection Hs as <-. by apply (orderly_same w).
  - destruct (threads w !! i) as [q|]; [|done]. destruct q; try done. destruct (pingWorker_ok worker datagram) as [[name ok] Hr]. rewrite Hr in Hs.
    injection Hs as <-. unfold countResult. destruct ok; [apply (orderly_thread i Over w); [done|by right|done|done]|].
    apply (orderly_thread i (if failureThreshold (mon w) <=? int64 (default 0 (failures (mon w) !! normalizeMonitorKey name) + 1)
      then Forgetting k (normalizeMonitorKey name) else Over) w); [done|right; by destruct (_ <=? _)|done|done].
Qed.
(** Until it is told to stop, a monitor never panics. *)
Theorem follower_safe workers m es w : (forall i, CallStop i ∉ es) -> exec workers es (started m) = Some w -> panicked w = false.
Proof.
  intros He Hx. assert (orderly (started m)) as Ho.
  { split; [done|]. split; [|done]. intros i p Hi Hne. cbn in Hi. by rewrite lookup_singleton_ne in Hi. }
  assert (orderly w) as [H _]; [|done]. revert Hx Ho. generalize (started m). induction es as [|e es IH]; intros w0 Hx Ho; cbn in Hx; [by injection Hx as <-|].
  apply bind_Some in Hx as (w1 & Hs & Hx). apply (IH ltac:(set_solver) w1); [done|]. eapply orderly_step; [|exact Hs|done]. intros i ->. apply (He i). set_solver.
Qed.

(** ** Runs *)
Definition team : list string := ["join_0"; "monitor_0"]%string.
Definition leader : pworld := started (Monitor_New "monitor_0" 1).
(** [Monitor.Stop] and the loop of a deposed leader stop the pinger at once: the
    second to call [Stop] finds it gone. *)
Example stop_race_panics : panicked <$> exec team
  [Tick true true; CallStop 7; Tick false false; Go 0; Go 7; Go 0; Go 0; Go 0; Go 7] leader = Some true.
Proof. vm_compute. reflexivity. Qed.
(** Deposed before the pinger's goroutine ran, leader again later: the container
    that does not answer either pinger is started twice for a threshold of one. *)
Definition deposed : list event := [Tick true true; Tick false false; Go 0; Go 0; Go 0; Go 0; Begin 0].
Definition led_again : list event := [Tick true true; Begin 1; PingerTick 0 [1; 2]; PingerTick 1 [3; 4]]%nat.
Definition unanswered : list event := [Answer 1 None; Answer 3 None; Go 1; Go 3; Go 1; Go 3]%nat.
Definition after (es : list event) (w : pworld) : pworld := default w (exec team es w).
Definition deposed_world : pworld := after deposed leader.
Definition led_world : pworld := after led_again deposed_world.
Definition busy_run : list event := deposed ++ led_again ++ unanswered.
Definition busy_world : pworld := after busy_run leader.
Lemma orphan_pinger_stays_witness : exec team deposed leader = Some deposed_world /\
  exec team led_again deposed_world = Some led_world /\ orphan 0 led_world.
Proof.
  assert (exec team led_again deposed_world = Some led_world) as Hx by (vm_compute; reflexivity).
  split; [vm_compute; reflexivity|]. split; [exact Hx|]. apply (orphan_pinger_stays team led_again 0 deposed_world led_world Hx).
  - split; [vm_compute; congruence|]. eexists. split; [vm_compute; reflexivity|done].
  - vm_compute. reflexivity.
Defined.
Lemma restarts_in_any_order_witness : exec team busy_run leader = Some busy_world /\
  restartsOf "join_0" (mon busy_world) = 2 /\ 2 / 1 <= restartsOf "join_0" (mon busy_world) - 0 <= 2.
Proof.
  assert (exec team busy_run leader = Some busy_world) as Hx by (vm_compute; reflexivity).
  split; [exact Hx|]. split; [vm_compute; reflexivity|].
  refine (restarts_in_any_order team (Monitor_New "monitor_0" 1) "join_0" busy_run busy_world Hx _ _ _ _ _ _).
  - reflexivity.
  - reflexivity.
  - vm_compute. reflexivity.
  - vm_compute. repeat constructor.
  - vm_compute. reflexivity.
  - vm_compute. reflexivity.
Defined.
