(* ===== verification/Json.v ===== *)
(** * The text of JSON ([encoding/json])

    The checkpoints of the workers and the control messages of the end-of-stream
    protocol are JSON.  This file has the text: [print] is what [json.Marshal]
    writes for a value (compact, strings escaped for HTML), [parse] what
    [json.Unmarshal] accepts, with its treatment of invalid UTF-8, escapes,
    surrogates, white space, the grammar of numbers and the limit of nesting.
    [Marshal] has the values of the program's types. *)

From Stdlib Require Import Strings.Byte.
From S2P Require Import Prelude.

(** ** UTF-8 ([unicode/utf8])

    A string splits into runes; a byte that begins none is [Bad]. *)
Inductive rune := Rune (l : bytes) | Bad (b : byte).
Definition between (lo hi : Z) (b : byte) : bool := (lo <=? byte_Z b) && (byte_Z b <=? hi).
Definition isCont : byte -> bool := between 128 191.
Definition lead2 (a b : byte) : bool := between 194 223 a && isCont b.
Definition lead3 (a b c : byte) : bool :=
  between 224 239 a && between (if byte_Z a =? 224 then 160 else 128) (if byte_Z a =? 237 then 159 else 191) b && isCont c.
Definition lead4 (a b c d : byte) : bool :=
  between 240 244 a && between (if byte_Z a =? 240 then 144 else 128) (if byte_Z a =? 244 then 143 else 191) b
  && isCont c && isCont d.

Fixpoint runes (l : bytes) : list rune :=
  match l with
  | [] => []
  | a :: l1 =>
      if byte_Z a <? 128 then Rune [a] :: runes l1 else
      match l1 with
      | b :: l2 =>
          if lead2 a b then Rune [a; b] :: runes l2 else
          match l2 with
          | c :: l3 =>
              if lead3 a b c then Rune [a; b; c] :: runes l3 else
              match l3 with
              | d :: l4 => if lead4 a b c d then Rune [a; b; c; d] :: runes l4 else Bad a :: runes l1
              | [] => Bad a :: runes l1
              end
          | [] => Bad a :: runes l1
          end
      | [] => Bad a :: runes l1
      end
  end.

(** [utf8.RuneError], U+FFFD. *)
Definition replacement : bytes := [Byte.xef; Byte.xbf; Byte.xbd].
Definition rune_bytes (r : rune) : bytes := match r with Rune l => l | Bad b => [b] end.
Definition rune_valid (r : rune) : bytes := match r with Rune l => l | Bad _ => replacement end.
(** [strings.ToValidUTF8], byte by byte, and [utf8.Valid]. *)
Definition toValid (l : bytes) : bytes := flat_map rune_valid (runes l).
Definition isRune (r : rune) : bool := match r with Rune _ => true | Bad _ => false end.
Definition validUTF8 (l : bytes) : bool := forallb isRune (runes l).

(** [utf8.AppendRune] for a code point that is not a surrogate. *)
Definition utf8 (r : Z) : bytes :=
  Z_byte <$>
  (if r <? 128 then [r]
   else if r <? 2048 then [192 + r / 64; 128 + r mod 64]
   else if r <? 65536 then [224 + r / 4096; 128 + r / 64 mod 64; 128 + r mod 64]
   else [240 + r / 262144; 128 + r / 4096 mod 64; 128 + r / 64 mod 64; 128 + r mod 64]).

(** ** Strings *)
Definition quoteByte : byte := Byte.x22.
Definition backslash : byte := Byte.x5c.
Definition hexDigit (z : Z) : byte := Z_byte (if z <? 10 then 48 + z else 87 + z).
(** [appendString]: an escape of two characters, or [\u00XX]. *)
Definition escapeASCII (b : byte) : bytes :=
  if bool_decide (b ∈ [quoteByte; backslash]) then [backslash; b]
  else match b with
  | Byte.x08 => [backslash; "b"%byte]
  | Byte.x09 => [backslash; "t"%byte]
  | Byte.x0a => [backslash; "n"%byte]
  | Byte.x0c => [backslash; "f"%byte]
  | Byte.x0d => [backslash; "r"%byte]
  | _ =>
      if (byte_Z b <? 32) || bool_decide (b ∈ ["<"; ">"; "&"]%byte)
      then [backslash; "u"; "0"; "0"]%byte ++ [hexDigit (byte_Z b / 16); hexDigit (byte_Z b mod 16)]
      else [b]
  end.
Definition u2028 : bytes := [Byte.xe2; Byte.x80; Byte.xa8].
Definition u2029 : bytes := [Byte.xe2; Byte.x80; Byte.xa9].
Definition escape (r : rune) : bytes :=
  match r with
  | Bad _ => [backslash; "u"; "f"; "f"; "f"; "d"]%byte
  | Rune [a] => escapeASCII a
  | Rune l =>
      if bool_decide (l = u2028) then [backslash; "u"; "2"; "0"; "2"; "8"]%byte
      else if bool_decide (l = u2029) then [backslash; "u"; "2"; "0"; "2"; "9"]%byte
      else l
  end.
Definition quote (s : string) : bytes := quoteByte :: flat_map escape (runes (str_bytes s)) ++ [quoteByte].

Definition hexValue (b : byte) : option Z :=
  if between 48 57 b then Some (byte_Z b - 48)
  else if between 97 102 b then Some (byte_Z b - 87)
  else if between 65 70 b then Some (byte_Z b - 55)
  else None.
(** [getu4] *)
Definition hex4 (a b c d : byte) : option Z :=
  a ← hexValue a; b ← hexValue b; c ← hexValue c; d ← hexValue d; Some (((a * 16 + b) * 16 + c) * 16 + d).
Definition simpleEscape (e : byte) : option byte :=
  match e with
  | Byte.x22 => Some Byte.x22 | Byte.x5c => Some Byte.x5c | Byte.x2f => Some Byte.x2f
  | Byte.x62 => Some Byte.x08 | Byte.x66 => Some Byte.x0c | Byte.x6e => Some Byte.x0a
  | Byte.x72 => Some Byte.x0d | Byte.x74 => Some Byte.x09 | _ => None
  end.
Definition isSurrogate (r : Z) : bool := (55296 <=? r) && (r <? 57344).
(** [utf16.DecodeRune] of a high and a low half. *)
Definition surrogatePair (r1 r2 : Z) : option Z :=
  if (55296 <=? r1) && (r1 <? 56320) && (56320 <=? r2) && (r2 <? 57344)
  then Some ((r1 - 55296) * 1024 + (r2 - 56320) + 65536) else None.

Definition prepend (p : bytes) (m : option (bytes * bytes)) : option (bytes * bytes) :=
  '(s, r) ← m; Some (p ++ s, r).
(** The literal after its opening quote, up to the closing one.  Escapes become
    whole runes, so that the bytes which are invalid UTF-8 are those of the
    literal: [toValid] may replace them afterwards. *)
Fixpoint unquote (l : bytes) : option (bytes * bytes) :=
  match l with
  | [] => None
  | a :: l1 =>
      if Byte.eqb a quoteByte then Some ([], l1)
      else if Byte.eqb a backslash then
        match l1 with
        | [] => None
        | e :: l2 =>
            if Byte.eqb e "u"%byte then
              match l2 with
              | h1 :: h2 :: h3 :: h4 :: l3 =>
                  match hex4 h1 h2 h3 h4 with
                  | None => None
                  | Some r =>
                      if isSurrogate r then
                        match l3 with
                        | b :: u :: g1 :: g2 :: g3 :: g4 :: l4 =>
                            match (if Byte.eqb b backslash && Byte.eqb u "u"%byte then hex4 g1 g2 g3 g4 else None)
                                  ≫= surrogatePair r with
                            | Some z => prepend (utf8 z) (unquote l4)
                            | None => prepend replacement (unquote l3)
                            end
                        | _ => prepend replacement (unquote l3)
                        end
                      else prepend (utf8 r) (unquote l3)
                  end
              | _ => None
              end
            else match simpleEscape e with Some c => prepend [c] (unquote l2) | None => None end
        end
      else if byte_Z a <? 32 then None
      else prepend [a] (unquote l1)
  end.

(** ** Numbers *)
Definition isDigit : byte -> bool := between 48 57.
Fixpoint spanDigits (l : bytes) : bytes * bytes :=
  match l with
  | b :: l' => if isDigit b then let (d, r) := spanDigits l' in (b :: d, r) else ([], l)
  | [] => ([], [])
  end.
Definition digits1 (l : bytes) : option (bytes * bytes) :=
  match spanDigits l with ([], _) => None | (d, r) => Some (d, r) end.
(** One byte of a kind, if there is one. *)
Definition takeIf (p : byte -> bool) (l : bytes) : bytes * bytes :=
  match l with b :: r => if p b then ([b], r) else ([], l) | [] => ([], []) end.
Definition isMinus (b : byte) : bool := Byte.eqb b "-".
Definition isSign (b : byte) : bool := Byte.eqb b "+" || Byte.eqb b "-".
Definition isZero (b : byte) : bool := Byte.eqb b "0".
Definition isPoint (b : byte) : bool := Byte.eqb b ".".
Definition isExp (b : byte) : bool := Byte.eqb b "e" || Byte.eqb b "E".
Definition intPart (l : bytes) : option (bytes * bytes) :=
  match takeIf isZero l with ([], _) => digits1 l | zero => Some zero end.
Definition fracPart (l : bytes) : option (bytes * bytes) :=
  match takeIf isPoint l with
  | ([], _) => Some ([], l)
  | (p, l) => '(d, r) ← digits1 l; Some (p ++ d, r)
  end.
Definition expPart (l : bytes) : option (bytes * bytes) :=
  match takeIf isExp l with
  | ([], _) => Some ([], l)
  | (e, l) => let (s, l) := takeIf isSign l in '(d, r) ← digits1 l; Some (e ++ s ++ d, r)
  end.
Definition number (l : bytes) : option (bytes * bytes) :=
  let (m, l) := takeIf isMinus l in
  '(i, l) ← intPart l; '(f, l) ← fracPart l; '(e, l) ← expPart l; Some (m ++ i ++ f ++ e, l).

(** ** Values *)
Inductive jvalue :=
  | JNull
  | JBool (b : bool)
  | JNumber (lit : string)
  | JString (s : string)
  | JArray (l : list jvalue)
  | JObject (l : list (string * jvalue)).

Fixpoint commas (l : list bytes) : bytes :=
  match l with
  | [] => []
  | [x] => x
  | x :: l' => x ++ ","%byte :: commas l'
  end.
Fixpoint print (v : jvalue) : bytes :=
  match v with
  | JNull => ["n"; "u"; "l"; "l"]%byte
  | JBool true => ["t"; "r"; "u"; "e"]%byte
  | JBool false => ["f"; "a"; "l"; "s"; "e"]%byte
  | JNumber lit => str_bytes lit
  | JString s => quote s
  | JArray l => "["%byte :: commas (List.map print l) ++ ["]"%byte]
  | JObject l => "{"%byte :: commas (List.map (fun kv => quote kv.1 ++ ":"%byte :: print kv.2) l) ++ ["}"%byte]
  end.

Definition isSpace (b : byte) : bool := bool_decide (b ∈ [Byte.x20; Byte.x09; Byte.x0a; Byte.x0d]).
Fixpoint skipSpace (l : bytes) : bytes :=
  match l with b :: l' => if isSpace b then skipSpace l' else l | [] => [] end.
Fixpoint strip (p l : bytes) : option bytes :=
  match p, l with
  | [], _ => Some l
  | a :: p', b :: l' => if Byte.eqb a b then strip p' l' else None
  | _ :: _, [] => None
  end.
(** The next byte that is not space. *)
Definition expect (b : byte) (l : bytes) : option bytes :=
  match skipSpace l with c :: r => if Byte.eqb c b then Some r else None | [] => None end.
Definition maxNestingDepth : Z := 10000.

(** [d] containers are open; the fuel is spent on values and separators. *)
Fixpoint value (n : nat) (d : Z) (l : bytes) {struct n} : option (jvalue * bytes) :=
  match n with
  | O => None
  | S n' =>
      match skipSpace l with
      | [] => None
      | b :: l1 =>
          if Byte.eqb b "{" then
            if maxNestingDepth <=? d then None else
            match expect "}" l1 with
            | Some l2 => Some (JObject [], l2)
            | None => '(kvs, r) ← members n' (d + 1) l1; Some (JObject kvs, r)
            end
          else if Byte.eqb b "[" then
            if maxNestingDepth <=? d then None else
            match expect "]" l1 with
            | Some l2 => Some (JArray [], l2)
            | None => '(vs, r) ← elements n' (d + 1) l1; Some (JArray vs, r)
            end
          else if Byte.eqb b quoteByte then '(s, r) ← unquote l1; Some (JString (bytes_str (toValid s)), r)
          else if Byte.eqb b "t" then r ← strip ["r"; "u"; "e"]%byte l1; Some (JBool true, r)
          else if Byte.eqb b "f" then r ← strip ["a"; "l"; "s"; "e"]%byte l1; Some (JBool false, r)
          else if Byte.eqb b "n" then r ← strip ["u"; "l"; "l"]%byte l1; Some (JNull, r)
          else '(lit, r) ← number (b :: l1); Some (JNumber (bytes_str lit), r)
      end
  end
with elements (n : nat) (d : Z) (l : bytes) {struct n} : option (list jvalue * bytes) :=
  match n with
  | O => None
  | S n' =>
      '(v, r) ← value n' d l;
      match expect "," r with
      | Some r => '(vs, r) ← elements n' d r; Some (v :: vs, r)
      | None => r ← expect "]" r; Some ([v], r)
      end
  end
with members (n : nat) (d : Z) (l : bytes) {struct n} : option (list (string * jvalue) * bytes) :=
  match n with
  | O => None
  | S n' =>
      l ← expect quoteByte l; '(k, r) ← unquote l; r ← expect ":" r; '(v, r) ← value n' d r;
      let kv := (bytes_str (toValid k), v) in
      match expect "," r with
      | Some r => '(kvs, r) ← members n' d r; Some (kv :: kvs, r)
      | None => r ← expect "}" r; Some ([kv], r)
      end
  end.
Definition parseFuel (l : bytes) : nat := 2 * length l + 2.
Definition parse (l : bytes) : option jvalue :=
  '(v, r) ← value (parseFuel l) 0 l; match skipSpace r with [] => Some v | _ => None end.
(** ** Runes *)
(** [utf8.ValidRune] of the bytes of one rune. *)
Definition rune_ok (x : bytes) : bool :=
  match x with
  | [a] => byte_Z a <? 128
  | [a; b] => lead2 a b
  | [a; b; c] => lead3 a b c
  | [a; b; c; d] => lead4 a b c d
  | _ => false
  end.
Lemma rune_ok_head x : rune_ok x = true -> exists a l, x = a :: l /\ (l = [] -> byte_Z a < 128) /\ (l <> [] -> 128 <= byte_Z a).
Proof.
  destruct x as [|a [|b [|c [|d [|]]]]]; try done; intros H; (eexists _, _; split; [reflexivity|]); cbn in H;
    unfold lead2, lead3, lead4, between in H; (split; intros; [try done; lia|try done; lia]).
Qed.
Lemma runes_ok x l : rune_ok x = true -> runes (x ++ l) = Rune x :: runes l.
Proof.
  destruct x as [|a [|b [|c [|d [|]]]]]; try done; intros H; cbn [rune_ok app runes] in *.
  - by rewrite H.
  - assert (byte_Z a <? 128 = false) as -> by (unfold lead2, between in H; lia). by rewrite H.
  - assert (byte_Z a <? 128 = false) as -> by (unfold lead3, between in H; lia).
    assert (lead2 a b = false) as -> by (unfold lead2, lead3, between in *; lia). by rewrite H.
  - assert (byte_Z a <? 128 = false) as -> by (unfold lead4, between in H; lia).
    assert (lead2 a b = false) as -> by (unfold lead2, lead4, between in *; lia).
    assert (lead3 a b c = false) as -> by (unfold lead3, lead4, between in *; lia). by rewrite H.
Qed.
Definition rune_wf (r : rune) : Prop := match r with Rune x => rune_ok x = true | Bad _ => True end.
Lemma runes_cons a l : runes (a :: l) =
  if byte_Z a <? 128 then Rune [a] :: runes l else
  match l with
  | b :: l2 => if lead2 a b then Rune [a; b] :: runes l2 else
      match l2 with
      | c :: l3 => if lead3 a b c then Rune [a; b; c] :: runes l3 else
          match l3 with
          | d :: l4 => if lead4 a b c d then Rune [a; b; c; d] :: runes l4 else Bad a :: runes l
          | [] => Bad a :: runes l
          end
      | [] => Bad a :: runes l
      end
  | [] => Bad a :: runes l
  end.
Proof. done. Qed.
Lemma runes_step a l : exists r l', a :: l = rune_bytes r ++ l' /\ runes (a :: l) = r :: runes l' /\ rune_wf r.
Proof.
  rewrite runes_cons. destruct (byte_Z a <? 128) eqn:E1; [by exists (Rune [a]), l|].
  destruct l as [|b l2]; [by exists (Bad a), []|]. destruct (lead2 a b) eqn:E2; [by exists (Rune [a; b]), l2|].
  destruct l2 as [|c l3]; [by exists (Bad a), [b]|]. destruct (lead3 a b c) eqn:E3; [by exists (Rune [a; b; c]), l3|].
  destruct l3 as [|d l4]; [by exists (Bad a), [b; c]|].
  destruct (lead4 a b c d) eqn:E4; [by exists (Rune [a; b; c; d]), l4|by exists (Bad a), (b :: c :: d :: l4)].
Qed.
Lemma rune_bytes_nonnil r : rune_wf r -> rune_bytes r <> [].
Proof. destruct r as [[|]|]; done. Qed.
(** Induction on the runes of a string. *)
Lemma runes_ind (P : bytes -> Prop) : P [] ->
  (forall r l, rune_wf r -> runes (rune_bytes r ++ l) = r :: runes l -> P l -> P (rune_bytes r ++ l)) -> forall l, P l.
Proof.
  intros H0 HS l. remember (length l) as n eqn:Hn. revert l Hn.
  induction n as [n IH] using lt_wf_ind. intros [|a l] ->; [done|].
  destruct (runes_step a l) as (r & l' & E & Hr & Hw). rewrite E. apply HS; [done|by rewrite <- E|].
  eapply IH; [|reflexivity]. apply rune_bytes_nonnil in Hw. rewrite E, length_app. destruct (rune_bytes r); [done|cbn; lia].
Qed.
Lemma runes_wf l : Forall rune_wf (runes l).
Proof. induction l as [|r l Hw Hr IH] using runes_ind; [constructor|]. rewrite Hr. by constructor. Qed.

Lemma runes_valid_app r l : rune_wf r -> runes (rune_valid r ++ l) = Rune (rune_valid r) :: runes l.
Proof. intros Hw. apply runes_ok. by destruct r. Qed.
Lemma toValid_fix rs : Forall rune_wf rs -> toValid (flat_map rune_valid rs) = flat_map rune_valid rs.
Proof.
  intros Hw. unfold toValid. induction Hw as [|r rs Hr _ IH]; [done|]. cbn [flat_map].
  rewrite runes_valid_app by done. cbn. by rewrite IH.
Qed.
(** Replacing the invalid bytes twice changes nothing more. *)
Lemma toValid_idemp l : toValid (toValid l) = toValid l.
Proof. apply toValid_fix, runes_wf. Qed.
Lemma toValid_valid l : validUTF8 l = true <-> toValid l = l.
Proof.
  unfold validUTF8, toValid. induction l as [|r l Hw Hr IH] using runes_ind; [done|]. rewrite Hr. cbn [forallb flat_map].
  destruct r as [x|b]; cbn.
  - rewrite IH. split; [by intros ->|by intros ?%(inj _)].
  - split; [done|]. intros [= <- H]. exfalso. clear IH Hw.
    (* the first byte of the replacement begins a rune *)
    rewrite <- H in Hr. cbn in Hr. by injection Hr.
Qed.
Lemma toValid_is_valid l : validUTF8 (toValid l) = true.
Proof. apply toValid_valid, toValid_idemp. Qed.
Lemma valid_app l k : validUTF8 l = true -> toValid (l ++ k) = l ++ toValid k.
Proof.
  unfold validUTF8, toValid. induction l as [|r l Hw Hr IH] using runes_ind; [done|]. rewrite Hr. cbn [forallb].
  destruct r as [x|b]; [|done]. cbn. intros H. rewrite <- !app_assoc, runes_ok by done. cbn. by rewrite IH, app_assoc.
Qed.
(** ASCII text is valid. *)
Lemma ascii_valid l : Forall (fun b => byte_Z b < 128) l -> validUTF8 l = true.
Proof.
  unfold validUTF8. induction 1 as [|b l Hb _ IH]; [done|]. cbn [runes].
  by replace (byte_Z b <? 128) with true by lia.
Qed.

(** ** Strings: reading what [quote] writes *)
Lemma eqb_high a c : 128 <= byte_Z a -> byte_Z c < 128 -> Byte.eqb a c = false.
Proof. intros Ha Hc. destruct (Byte.eqb a c) eqn:E; [|done]. apply Byte.byte_dec_bl in E as ->. lia. Qed.
Lemma unquote_high a l : 128 <= byte_Z a -> unquote (a :: l) = prepend [a] (unquote l).
Proof.
  intros Ha. cbn [unquote]. rewrite !eqb_high by (done || by vm_compute). by replace (byte_Z a <? 32) with false by lia.
Qed.
Lemma prepend_prepend p q m : prepend p (prepend q m) = prepend (p ++ q) m.
Proof. destruct m as [[s r]|]; [|done]. cbn. by rewrite app_assoc. Qed.
Lemma prepend_nil m : prepend [] m = m.
Proof. by destruct m as [[s r]|]. Qed.
Lemma unquote_highs x l : Forall (fun a => 128 <= byte_Z a) x -> unquote (x ++ l) = prepend x (unquote l).
Proof.
  induction 1 as [|a x Ha _ IH]; [by rewrite prepend_nil|]. cbn [app]. by rewrite unquote_high, IH, prepend_prepend.
Qed.
Lemma unquote_ascii a l : byte_Z a < 128 -> unquote (escapeASCII a ++ l) = prepend [a] (unquote l).
Proof. intros Ha. destruct a; try reflexivity; exfalso; vm_compute in Ha; done. Qed.
Lemma unquote_escape r l : rune_wf r -> unquote (escape r ++ l) = prepend (rune_valid r) (unquote l).
Proof.
  intros Hw. destruct r as [x|b]; [|reflexivity]. cbn [rune_valid rune_wf] in *.
  destruct x as [|a [|b x]]; [done|apply unquote_ascii; cbn in Hw; lia|].
  unfold escape. destruct (bool_decide_reflect (a :: b :: x = u2028)) as [->|_]; [reflexivity|].
  destruct (bool_decide_reflect (a :: b :: x = u2029)) as [->|_]; [reflexivity|].
  apply unquote_highs. destruct x as [|c [|d [|]]]; try done; cbn in Hw; unfold lead2, lead3, lead4, isCont, between in Hw;
    repeat constructor; repeat case_match; lia.
Qed.
Lemma unquote_quoted rs l : Forall rune_wf rs ->
  unquote (flat_map escape rs ++ quoteByte :: l) = Some (flat_map rune_valid rs, l).
Proof.
  induction 1 as [|r rs Hw _ IH]; [reflexivity|]. cbn [flat_map]. by rewrite <- app_assoc, unquote_escape, IH.
Qed.
(** A string comes back with its invalid bytes replaced. *)
Lemma unquote_quote s l : exists k, quote s ++ l = quoteByte :: k /\
  exists x, unquote k = Some (x, l) /\ toValid x = toValid (str_bytes s).
Proof.
  exists (flat_map escape (runes (str_bytes s)) ++ quoteByte :: l). split.
  - unfold quote. cbn [app]. by rewrite <- app_assoc.
  - eexists. split; [apply unquote_quoted, runes_wf|]. apply toValid_idemp.
Qed.

(** ** Numbers: reading what was printed *)
(** What may follow a value inside a text that [print] writes. *)
Definition stop (k : bytes) : Prop := match k with [] => True | b :: _ => b ∈ [Byte.x2c; Byte.x5d; Byte.x7d] end.
Definition isNumber (lit : bytes) : bool := bool_decide (number lit = Some (lit, [])).
Lemma stop_cases k (P : bytes -> Prop) : stop k -> P [] -> (forall r, P (Byte.x2c :: r)) -> (forall r, P (Byte.x5d :: r)) ->
  (forall r, P (Byte.x7d :: r)) -> P k.
Proof. destruct k as [|b k]; [done|]. cbn. rewrite !elem_of_cons, elem_of_nil. intros [->|[->|[->|[]]]]; auto. Qed.
Ltac by_stop H := revert H; intros H; pattern_stop H
with pattern_stop H := match type of H with stop ?k => pattern k; apply (stop_cases k _ H); intros; try reflexivity; try done end.

Lemma spanDigits_app l k d r : stop k -> spanDigits l = (d, r) -> spanDigits (l ++ k) = (d, r ++ k).
Proof.
  intros Hk. revert d r. induction l as [|b l IH]; intros d r H; cbn [spanDigits app] in *.
  - injection H as <- <-. by_stop Hk.
  - destruct (isDigit b); [|by injection H as <- <-]. destruct (spanDigits l) as [d' r']. injection H as <- <-. by rewrite (IH d' r').
Qed.
Lemma digits1_app l k d r : stop k -> digits1 l = Some (d, r) -> digits1 (l ++ k) = Some (d, r ++ k).
Proof.
  intros Hk. unfold digits1. destruct (spanDigits l) as [d' r'] eqn:E. rewrite (spanDigits_app _ _ _ _ Hk E).
  destruct d'; [done|]. by intros [= <- <-].
Qed.
Lemma takeIf_app p l k d r : stop k -> p Byte.x2c = false -> p Byte.x5d = false -> p Byte.x7d = false ->
  takeIf p l = (d, r) -> takeIf p (l ++ k) = (d, r ++ k).
Proof.
  intros Hk H1 H2 H3 H. destruct l as [|b l]; cbn in *.
  - injection H as <- <-. pattern k; apply (stop_cases k _ Hk); intros; cbn; by rewrite ?H1, ?H2, ?H3.
  - destruct (p b); by injection H as <- <-.
Qed.
Ltac takeIf_app Hk H := erewrite (takeIf_app _ _ _ _ _ Hk) by (try exact H; reflexivity).
Lemma intPart_app l k d r : stop k -> intPart l = Some (d, r) -> intPart (l ++ k) = Some (d, r ++ k).
Proof.
  intros Hk. unfold intPart. destruct (takeIf isZero l) as [z l'] eqn:E. takeIf_app Hk E.
  destruct z; [by apply digits1_app|by intros [= <- <-]].
Qed.
Lemma fracPart_app l k d r : stop k -> fracPart l = Some (d, r) -> fracPart (l ++ k) = Some (d, r ++ k).
Proof.
  intros Hk. unfold fracPart. destruct (takeIf isPoint l) as [z l'] eqn:E. takeIf_app Hk E.
  destruct z; [by intros [= <- <-]|]. destruct (digits1 l') as [[d' r']|] eqn:E'; [|done].
  rewrite (digits1_app _ _ _ _ Hk E'). by intros [= <- <-].
Qed.
Lemma expPart_app l k d r : stop k -> expPart l = Some (d, r) -> expPart (l ++ k) = Some (d, r ++ k).
Proof.
  intros Hk. unfold expPart. destruct (takeIf isExp l) as [z l'] eqn:E. takeIf_app Hk E.
  destruct z; [by intros [= <- <-]|]. destruct (takeIf isSign l') as [s l''] eqn:Es. takeIf_app Hk Es.
  destruct (digits1 l'') as [[d' r']|] eqn:E'; [|done]. rewrite (digits1_app _ _ _ _ Hk E'). by intros [= <- <-].
Qed.
Lemma number_app l k : stop k -> isNumber l = true -> number (l ++ k) = Some (l, k).
Proof.
  intros Hk H%bool_decide_eq_true. unfold number in *. destruct (takeIf isMinus l) as [m l0] eqn:E0. takeIf_app Hk E0.
  destruct (intPart l0) as [[i l1]|] eqn:E1; [|done]. rewrite (intPart_app _ _ _ _ Hk E1). cbn in *.
  destruct (fracPart l1) as [[f l2]|] eqn:E2; [|done]. rewrite (fracPart_app _ _ _ _ Hk E2). cbn in *.
  destruct (expPart l2) as [[e l3]|] eqn:E3; [|done]. rewrite (expPart_app _ _ _ _ Hk E3). cbn in *.
  injection H as H ->. by rewrite H.
Qed.
Lemma number_head l : isNumber l = true -> exists b r, l = b :: r /\ (isDigit b = true \/ b = Byte.x2d).
Proof.
  intros H%bool_decide_eq_true. destruct l as [|b r]; [done|]. exists b, r. split; [done|].
  destruct (decide (b = Byte.x2d)) as [->|Hb]; [by right|left]. unfold number in H.
  assert (takeIf isMinus (b :: r) = ([], b :: r)) as Em by by destruct b. rewrite Em in H.
  unfold intPart, digits1 in H. cbn [spanDigits takeIf] in H.
  destruct (isZero b) eqn:Ez; [by destruct b|]. by destruct (isDigit b).
Qed.

(** ** Values: reading what was printed *)
Fixpoint numbersOk (v : jvalue) : bool :=
  match v with
  | JNumber lit => isNumber (str_bytes lit)
  | JArray l => forallb numbersOk l
  | JObject l => forallb (fun kv => numbersOk kv.2) l
  | _ => true
  end.
Fixpoint nesting (v : jvalue) : Z :=
  match v with
  | JArray l => 1 + fold_right Z.max 0 (List.map nesting l)
  | JObject l => 1 + fold_right Z.max 0 (List.map (fun kv => nesting kv.2) l)
  | _ => 0
  end.
(** What the text keeps of a string. *)
Definition clean (s : string) : string := bytes_str (toValid (str_bytes s)).
#[global] Arguments clean : simpl never.
Fixpoint cleaned (v : jvalue) : jvalue :=
  match v with
  | JString s => JString (clean s)
  | JArray l => JArray (List.map cleaned l)
  | JObject l => JObject (List.map (fun kv => (clean kv.1, cleaned kv.2)) l)
  | _ => v
  end.

Section Induction.
Context (P : jvalue -> Prop) (Hnull : P JNull) (Hbool : forall b, P (JBool b)) (Hnum : forall n, P (JNumber n))
  (Hstr : forall s, P (JString s)) (Harr : forall l, Forall P l -> P (JArray l))
  (Hobj : forall l, Forall (fun kv => P kv.2) l -> P (JObject l)).
Fixpoint jvalue_induction (v : jvalue) : P v :=
  match v with
  | JNull => Hnull
  | JBool b => Hbool b
  | JNumber n => Hnum n
  | JString s => Hstr s
  | JArray l => Harr l ((fix go l := match l return Forall P l with
      | [] => List.Forall_nil _ | x :: l => List.Forall_cons _ _ _ (jvalue_induction x) (go l) end) l)
  | JObject l => Hobj l ((fix go l := match l return Forall (fun kv : string * jvalue => P kv.2) l with
      | [] => List.Forall_nil _ | x :: l => List.Forall_cons _ _ _ (jvalue_induction x.2) (go l) end) l)
  end.
End Induction.

Lemma value_number n d b r : isDigit b = true \/ b = Byte.x2d ->
  value (S n) d (b :: r) = '(lit, r') ← number (b :: r); Some (JNumber (bytes_str lit), r').
Proof. intros [H| ->]; [|reflexivity]. destruct b; try reflexivity; exfalso; vm_compute in H; done. Qed.
Lemma value_string n d l : value (S n) d (quoteByte :: l) = '(s, r) ← unquote l; Some (JString (bytes_str (toValid s)), r).
Proof. reflexivity. Qed.
(** What a printed value begins with. *)
Lemma print_head v : numbersOk v = true -> exists b l, print v = b :: l /\ isSpace b = false /\ b <> Byte.x5d.
Proof.
  destruct v as [|[]|lit|s|l|l]; intros H; try (eexists _, _; split; [reflexivity|done]).
  cbn in *. destruct (number_head _ H) as (b & r & -> & Hb). exists b, r. split; [done|].
  destruct Hb as [Hb| ->]; [|done]. destruct b; try done; exfalso; vm_compute in Hb; done.
Qed.
Lemma stop_comma k : stop (Byte.x2c :: k).
Proof. cbn. set_solver. Qed.
Lemma stop_bracket k : stop (Byte.x5d :: k).
Proof. cbn. set_solver. Qed.
Lemma stop_brace k : stop (Byte.x7d :: k).
Proof. cbn. set_solver. Qed.
#[local] Hint Resolve stop_comma stop_bracket stop_brace : core.
Lemma skip_head b l : isSpace b = false -> skipSpace (b :: l) = b :: l.
Proof. cbn. by intros ->. Qed.

Lemma expect_eq b k : isSpace b = false -> expect b (b :: k) = Some k.
Proof. intros H. unfold expect. rewrite skip_head by done. by rewrite (Byte.byte_dec_lb (eq_refl b)). Qed.
Lemma expect_ne b c k : isSpace c = false -> b <> c -> expect b (c :: k) = None.
Proof.
  intros H Hne. unfold expect. rewrite skip_head by done. destruct (Byte.eqb c b) eqn:E; [|done].
  by apply Byte.byte_dec_bl in E as ->.
Qed.
(** A value reads back, whatever follows it. *)
Definition reads (v : jvalue) : Prop := forall n d k, numbersOk v = true -> (2 * length (print v) + 1 <= n)%nat ->
  d + nesting v <= maxNestingDepth -> stop k -> value n d (print v ++ k) = Some (cleaned v, k).
Lemma unquote_clean s l : exists k, quote s ++ l = quoteByte :: k /\
  exists x, unquote k = Some (x, l) /\ bytes_str (toValid x) = clean s.
Proof. destruct (unquote_quote s l) as (k & Hk & x & Hx & Ht). exists k. split; [done|]. exists x. unfold clean. by rewrite Ht. Qed.

Lemma length_commas_cons x y l : length (commas (x :: y :: l)) = (length x + 1 + length (commas (y :: l)))%nat.
Proof. change (commas (x :: y :: l)) with (x ++ ","%byte :: commas (y :: l)). rewrite length_app. cbn [length]. lia. Qed.
Lemma reads_elements v l : Forall reads (v :: l) -> forall n d k, forallb numbersOk (v :: l) = true ->
  (2 * length (commas (List.map print (v :: l))) + 2 <= n)%nat ->
  d + fold_right Z.max 0 (List.map nesting (v :: l)) <= maxNestingDepth ->
  elements n d (commas (List.map print (v :: l)) ++ Byte.x5d :: k) = Some (List.map cleaned (v :: l), k).
Proof.
  revert v. induction l as [|w l IH]; intros v Hall n d k Hn Hf Hd; apply Forall_cons in Hall as [Hv Hl];
    cbn [forallb] in Hn; apply andb_prop in Hn as [Hnv Hnl]; (destruct n as [|n]; [lia|]); cbn [elements].
  - cbn [List.map commas] in *. cbn [fold_right] in Hd. rewrite Hv by (auto || lia). cbn [mbind option_bind].
    by rewrite expect_ne, expect_eq by done.
  - cbn [List.map] in Hf. rewrite length_commas_cons in Hf. cbn [List.map fold_right fst snd] in Hd.
    assert (commas (List.map print (v :: w :: l)) ++ Byte.x5d :: k
      = print v ++ Byte.x2c :: (commas (List.map print (w :: l)) ++ Byte.x5d :: k)) as -> by (cbn [List.map commas]; by rewrite <- app_assoc).
    rewrite Hv by (auto; cbn [fold_right] in Hd; lia). cbn [mbind option_bind].
    rewrite expect_eq by done. cbn [List.map] in IH |- *. rewrite IH; [done|done|done|lia|cbn [List.map fold_right]; lia].
Qed.
Lemma reads_members kv l : Forall (fun kv => reads kv.2) (kv :: l) -> forall n d k,
  forallb (fun kv => numbersOk kv.2) (kv :: l) = true ->
  (2 * length (commas (List.map (fun kv => quote kv.1 ++ ":"%byte :: print kv.2) (kv :: l))) + 2 <= n)%nat ->
  d + fold_right Z.max 0 (List.map (fun kv => nesting kv.2) (kv :: l)) <= maxNestingDepth ->
  members n d (commas (List.map (fun kv => quote kv.1 ++ ":"%byte :: print kv.2) (kv :: l)) ++ Byte.x7d :: k)
  = Some (List.map (fun kv => (clean kv.1, cleaned kv.2)) (kv :: l), k).
Proof.
  revert kv. induction l as [|w l IH]; intros [s v] Hall n d k Hn Hf Hd; apply Forall_cons in Hall as [Hv Hl];
    cbn [forallb] in Hn; apply andb_prop in Hn as [Hnv Hnl]; (destruct n as [|n]; [lia|]); cbn [members]; cbn [fst snd] in *.
  - cbn [List.map commas fst snd] in *. cbn [fold_right fst snd] in Hd. rewrite length_app in Hf. cbn [length] in Hf.
    rewrite <- app_assoc. destruct (unquote_clean s ((":"%byte :: print v) ++ Byte.x7d :: k)) as (k' & -> & x & Hx & Hc).
    rewrite expect_eq by done. cbn [mbind option_bind]. rewrite Hx. cbn [mbind option_bind app].
    rewrite expect_eq by done. cbn [mbind option_bind]. rewrite Hv by (auto || lia). cbn [mbind option_bind].
    rewrite expect_ne, expect_eq by done. by rewrite <- Hc.
  - cbn [List.map fst snd] in Hf. rewrite length_commas_cons, length_app in Hf. cbn [length] in Hf. cbn [List.map fold_right fst snd] in Hd.
    assert (commas (List.map (fun kv => quote kv.1 ++ ":"%byte :: print kv.2) ((s, v) :: w :: l)) ++ Byte.x7d :: k
      = quote s ++ ":"%byte :: print v ++ Byte.x2c :: (commas (List.map (fun kv => quote kv.1 ++ ":"%byte :: print kv.2) (w :: l)) ++ Byte.x7d :: k)) as ->
      by (cbn [List.map commas fst snd]; by rewrite <- !app_assoc).
    destruct (unquote_clean s (":"%byte :: print v ++ Byte.x2c :: (commas (List.map (fun kv => quote kv.1 ++ ":"%byte :: print kv.2) (w :: l)) ++ Byte.x7d :: k)))
      as (k' & -> & x & Hx & Hc).
    rewrite expect_eq by done. cbn [mbind option_bind]. rewrite Hx. cbn [mbind option_bind]. rewrite expect_eq by done. cbn [mbind option_bind].
    rewrite Hv by (auto; cbn [fold_right] in Hd; lia). cbn [mbind option_bind]. rewrite expect_eq by done.
    cbn [List.map fst snd] in IH |- *. rewrite IH; [by rewrite Hc|done|done|lia|cbn [List.map fold_right]; lia].
Qed.
Lemma max_nonneg l : 0 <= fold_right Z.max 0 l.
Proof. induction l; cbn; lia. Qed.
Lemma value_reads v : reads v.
Proof.
  induction v as [|b|lit|s|l IH|l IH] using jvalue_induction; intros n d k Hn Hf Hd Hk; (destruct n as [|n]; [lia|]).
  - done.
  - by destruct b.
  - cbn [print numbersOk cleaned] in *. destruct (number_head _ Hn) as (c & r & Hb & Hc). pose proof (number_app _ _ Hk Hn) as H.
    rewrite Hb in *. cbn [app] in *. rewrite value_number by done. rewrite H. cbn [mbind option_bind]. by rewrite <- Hb, str_bytes_str.
  - cbn [print cleaned]. destruct (unquote_clean s k) as (k' & -> & x & Hx & <-). by rewrite value_string, Hx.
  - cbn [print numbersOk nesting cleaned] in *. cbn [length] in Hf. rewrite length_app in Hf. cbn [length] in Hf. cbn [app]. rewrite <- app_assoc. cbn [app].
    cbn [value]. rewrite (skip_head "["%byte) by done.
    destruct l as [|v l].
    + cbn in Hd |- *. replace (maxNestingDepth <=? d) with false by lia. done.
    + assert (0 <= fold_right Z.max 0 (List.map nesting (v :: l))) as H0 by (cbn [List.map fold_right]; clear; induction (List.map nesting l); cbn; lia).
      replace (maxNestingDepth <=? d) with false by lia.
      assert (Hh := Hn). cbn [forallb] in Hh. apply andb_prop in Hh as [Hh _]. destruct (print_head _ Hh) as (b & r & Hp & Hs & Hb).
      pose proof (reads_elements v l IH n (d + 1) k Hn ltac:(lia) ltac:(lia)) as He.
      assert (exists t, commas (List.map print (v :: l)) ++ Byte.x5d :: k = b :: t) as [t Ht].
      { destruct l; cbn [List.map commas]; rewrite Hp; eauto. }
      rewrite Ht in *. change (Byte.eqb "[" "{") with false. change (Byte.eqb "[" "[") with true. cbv iota.
      rewrite expect_ne by done. by rewrite He.
  - cbn [print numbersOk nesting cleaned] in *. cbn [length] in Hf. rewrite length_app in Hf. cbn [length] in Hf. cbn [app]. rewrite <- app_assoc. cbn [app].
    cbn [value]. rewrite (skip_head "{"%byte) by done.
    destruct l as [|[s v] l].
    + cbn in Hd |- *. replace (maxNestingDepth <=? d) with false by lia. done.
    + pose proof (reads_members (s, v) l IH n (d + 1) k Hn ltac:(lia) ltac:(lia)) as He.
      set (m := (s, v) :: l) in *.
      pose proof (max_nonneg (List.map (fun kv => nesting kv.2) m)) as H0.
      replace (maxNestingDepth <=? d) with false by lia.
      assert (exists t, commas (List.map (fun kv => quote kv.1 ++ ":"%byte :: print kv.2) m) ++ Byte.x7d :: k = quoteByte :: t) as [t Ht].
      { subst m. destruct l; cbn [List.map commas fst]; unfold quote; eauto. }
      subst m. rewrite Ht in *. change (Byte.eqb "{" "{") with true. cbv iota. rewrite expect_ne by done. by rewrite He.
Qed.
(** A printed value parses to itself, up to what was not UTF-8. *)
Lemma parse_print v : numbersOk v = true -> nesting v <= maxNestingDepth -> parse (print v) = Some (cleaned v).
Proof.
  intros Hn Hd. unfold parse. rewrite <- (app_nil_r (print v)) at 2.
  rewrite value_reads; [done|done|unfold parseFuel; lia|lia|done].
Qed.

(** ** The fuel is enough *)
Lemma skipSpace_len l : (length (skipSpace l) <= length l)%nat.
Proof. induction l as [|b l IH]; [done|]. cbn. case_match; cbn; lia. Qed.
Lemma strip_len p l r : strip p l = Some r -> (length r <= length l)%nat.
Proof.
  revert l. induction p as [|a p IH]; intros [|b l] H; cbn in H; try (injection H as ->; done); [done|].
  destruct (Byte.eqb a b); [|done]. apply IH in H. cbn. lia.
Qed.
Lemma prepend_some p m s r : prepend p m = Some (s, r) -> exists s', m = Some (s', r).
Proof. destruct m as [[s' r']|]; [|done]. intros [= _ ->]. by eexists. Qed.
Lemma unquote_len l s r : unquote l = Some (s, r) -> (length r < length l)%nat.
Proof.
  remember (length l) as n eqn:Hn. revert l s Hn. induction n as [n IH] using lt_wf_ind. intros l s -> H.
  assert (forall l' s', (length l' < length l)%nat -> unquote l' = Some (s', r) -> (length r < length l)%nat) as IH'
    by (intros l' s' Hl Hu; specialize (IH _ Hl l' s' eq_refl Hu); lia).
  clear IH. destruct l as [|a l]; [done|]. cbn [unquote] in H.
  repeat (case_match; try discriminate); try (injection H as _ <-; cbn; lia);
    apply prepend_some in H as [s' H]; (eapply IH'; [|exact H]); subst; cbn; lia.
Qed.
Lemma spanDigits_len l d r : spanDigits l = (d, r) -> (length r <= length l)%nat /\ (d <> [] -> (length r < length l)%nat).
Proof.
  revert d r. induction l as [|b l IH]; intros d r H; cbn in H; [by injection H as <- <-|].
  destruct (isDigit b); [|injection H as <- <-; split; [done|by intros []]].
  destruct (spanDigits l) as [d' r'] eqn:E. injection H as <- <-. destruct (IH _ _ eq_refl) as [Hle _]. cbn. split; [lia|intros _; lia].
Qed.
Lemma digits1_len l d r : digits1 l = Some (d, r) -> (length r < length l)%nat.
Proof.
  unfold digits1. destruct (spanDigits l) as [d' r'] eqn:E. apply spanDigits_len in E as [_ E]. destruct d'; [done|].
  intros [= _ <-]. by apply E.
Qed.
Lemma takeIf_len p l d r : takeIf p l = (d, r) -> (length r <= length l)%nat /\ (d <> [] -> (length r < length l)%nat).
Proof. destruct l as [|b l]; cbn; [|destruct (p b)]; intros [= <- <-]; cbn; split; (lia || by intros []). Qed.
Lemma number_len l d r : number l = Some (d, r) -> (length r < length l)%nat.
Proof.
  unfold number. destruct (takeIf isMinus l) as [m l0] eqn:E0. apply takeIf_len in E0 as [E0 _]. intros H.
  apply bind_Some in H as ([i l1] & E1 & H). apply bind_Some in H as ([f l2] & E2 & H). apply bind_Some in H as ([e l3] & E3 & [= _ <-]).
  assert (length l1 < length l0)%nat as H1.
  { unfold intPart in E1. destruct (takeIf isZero l0) as [[|z s] t] eqn:Et; [by apply digits1_len in E1|].
    injection E1 as _ <-. apply takeIf_len in Et as [_ Et]. by apply Et. }
  assert (length l2 <= length l1)%nat as H2.
  { unfold fracPart in E2. destruct (takeIf isPoint l1) as [[|z s] t] eqn:Et; [by injection E2 as _ <-|].
    apply bind_Some in E2 as ([? ?] & Hd & [= _ <-]). apply digits1_len in Hd. apply takeIf_len in Et as [Et _]. lia. }
  assert (length l3 <= length l2)%nat as H3.
  { unfold expPart in E3. destruct (takeIf isExp l2) as [[|z s] t] eqn:Et; [by injection E3 as _ <-|].
    destruct (takeIf isSign t) as [s' t'] eqn:Es. apply bind_Some in E3 as ([? ?] & Hd & [= _ <-]). apply digits1_len in Hd.
    apply takeIf_len in Et as [Et _]. apply takeIf_len in Es as [Es _]. lia. }
  lia.
Qed.
Lemma expect_len b l r : expect b l = Some r -> (length r < length l)%nat.
Proof.
  unfold expect. pose proof (skipSpace_len l) as Hs. destruct (skipSpace l) as [|c k]; [done|]. cbn in Hs.
  destruct (Byte.eqb c b); [|done]. intros [= <-]. lia.
Qed.

(** What a successful parser leaves is shorter. *)
Definition shorter {A} (f : bytes -> option (A * bytes)) : Prop := forall l v r, f l = Some (v, r) -> (length r < length l)%nat.
Ltac shrink1 :=
  match goal with
  | H : None = Some _ |- _ => discriminate
  | H : Some _ = Some _ |- _ => injection H as ? ?; subst
  | H : unquote _ = Some _ |- _ => apply unquote_len in H
  | H : number _ = Some _ |- _ => apply number_len in H
  | H : strip _ _ = Some _ |- _ => apply strip_len in H
  | H : expect _ _ = Some _ |- _ => apply expect_len in H
  | Hs : shorter ?f, H : _ = Some _ |- _ => apply Hs in H
  | H : (match ?x with _ => _ end) = Some _ |- _ => destruct x eqn:?
  | H : mbind _ _ = Some _ |- _ => apply bind_Some in H as (? & ? & H)
  | H : prod _ _ |- _ => destruct H
  | H : (match expect _ _ with _ => _ end) = Some _ |- _ => case_match
  end.
Lemma shorter_all n d : shorter (value n d) /\ shorter (elements n d) /\ shorter (members n d).
Proof.
  revert d. induction n as [|n IH]; intros d; [by split_and!|].
  destruct (IH d) as (Hv & He & Hm). destruct (IH (d + 1)) as (_ & He' & Hm'). clear IH.
  split_and!; intros l v r H.
  - cbn [value] in H. pose proof (skipSpace_len l) as Hl. repeat shrink1; cbn [length] in *; lia.
  - cbn [elements] in H. repeat shrink1; lia.
  - cbn [members] in H. repeat shrink1; lia.
Qed.

(** More fuel than [parseFuel] changes nothing. *)
Lemma fuel_all n d l :
  (forall m, (2 * length l < n)%nat -> (2 * length l < m)%nat -> value n d l = value m d l) /\
  (forall m, (2 * length l + 1 < n)%nat -> (2 * length l + 1 < m)%nat -> elements n d l = elements m d l) /\
  (forall m, (2 * length l + 1 < n)%nat -> (2 * length l + 1 < m)%nat -> members n d l = members m d l).
Proof.
  revert d l. induction n as [|n IH]; intros d l; [split_and!; lia|]. split_and!; intros [|m] Hn Hm; try lia.
  - cbn [value]. pose proof (skipSpace_len l) as Hl. destruct (skipSpace l) as [|b l1]; [done|]. cbn [length] in Hl.
    destruct (IH (d + 1) l1) as (_ & He & Hk). by rewrite (He m), (Hk m) by lia.
  - cbn [elements]. destruct (IH d l) as (Hv & _). rewrite (Hv m) by lia. destruct (value m d l) as [[v r]|] eqn:E; [|done].
    apply shorter_all in E. cbn [mbind option_bind]. destruct (expect "," r) as [r'|] eqn:Ex; [|done]. apply expect_len in Ex.
    destruct (IH d r') as (_ & He & _). by rewrite (He m) by lia.
  - cbn [members]. destruct (expect quoteByte l) as [l1|] eqn:E1; [|done]. apply expect_len in E1. cbn [mbind option_bind].
    destruct (unquote l1) as [[k r]|] eqn:E2; [|done]. apply unquote_len in E2. cbn [mbind option_bind].
    destruct (expect ":" r) as [r1|] eqn:E3; [|done]. apply expect_len in E3. cbn [mbind option_bind].
    destruct (IH d r1) as (Hv & _). rewrite (Hv m) by lia. destruct (value m d r1) as [[v r2]|] eqn:E4; [|done].
    apply shorter_all in E4. cbn [mbind option_bind]. destruct (expect "," r2) as [r'|] eqn:Ex; [|done]. apply expect_len in Ex.
    destruct (IH d r') as (_ & _ & He). by rewrite (He m) by lia.
Qed.
Lemma parse_fuel l n : (parseFuel l <= n)%nat -> value n 0 l = value (parseFuel l) 0 l.
Proof. intros Hn. apply fuel_all; unfold parseFuel in *; lia. Qed.
