(* ===== verification/Marshal.v ===== *)
(** * The values of JSON ([json.Marshal] and [json.Unmarshal])

    An instance of [Json] says how a Go type is written and how a JSON value is
    decoded into a variable of it: numbers, strings, [[]byte] in base 64, slices,
    maps with string keys in sorted order, structs by the names of their fields.
    A struct is described by its [fields]: the tag of each and whether it is
    [omitempty].  A value whose numbers are in range ([jraw]) is read back as
    [jnorm] of it, which cleans its strings; a value that [jok] accepts is read
    back as it was. *)

From Stdlib Require Import Strings.Byte.
From stdpp Require Import pretty.
From S2P Require Import Prelude Maps Slices Models Codec CodecQ4 Sharding Config Compose Json.

(** [jdec v a]: what [v] makes of a variable that holds [a]; [None] is an
    error.  [jdepth] bounds the containers in a value of the type. *)
Class Json (A : Type) := {
  jzero : A;
  jenc : A -> res jvalue;
  jdec : jvalue -> A -> option A;
  jraw : A -> Prop;
  jnorm : A -> A;
  jok : A -> Prop;
  jdepth : Z;
  jdepth_nonneg : 0 <= jdepth;
  jok_raw a : jok a -> jraw a;
  jnorm_ok a : jok a -> jnorm a = a;
  jenc_ok a : jraw a -> exists v, jenc a = Ok v /\ numbersOk v = true /\ nesting v <= jdepth /\ jdec (cleaned v) jzero = Some (jnorm a)
}.
Arguments jdepth A {_} : assert.
(** What [omitempty] leaves out: the values that are read as if they were. *)
Class Omits (A : Type) `{!Json A} := {
  jempty : A -> bool;
  jempty_zero a : jempty a = true -> jnorm a = jzero
}.

Definition Marshal {A} `{!Json A} (a : A) : res bytes := print <$> jenc a.
Definition Unmarshal {A} `{!Json A} (data : bytes) : res A :=
  match parse data with
  | None => Err (ErrMsg "invalid JSON")
  | Some v => match jdec v jzero with Some a => Ok a | None => Err (ErrMsg "json: cannot unmarshal") end
  end.

Lemma marshal_norm {A} `{!Json A} (a : A) : jraw a -> jdepth A <= maxNestingDepth ->
  exists data, Marshal a = Ok data /\ Unmarshal data = Ok (jnorm a) /\ data <> [].
Proof.
  intros Ha Hd. destruct (jenc_ok a Ha) as (v & Hv & Hn & Hd' & Hdec). unfold Marshal, Unmarshal. rewrite Hv.
  eexists. split; [reflexivity|]. rewrite parse_print by (done || lia). rewrite Hdec. split; [done|].
  destruct (print_head v Hn) as (b & l & -> & _). done.
Qed.
Lemma marshal_unmarshal {A} `{!Json A} (a : A) : jok a -> jdepth A <= maxNestingDepth ->
  exists data, Marshal a = Ok data /\ Unmarshal data = Ok a /\ data <> [].
Proof.
  intros Ha Hd. destruct (marshal_norm a (jok_raw a Ha) Hd) as (data & H). rewrite jnorm_ok in H by done. by exists data.
Qed.

(** ** Strings, booleans, integers *)
(** A string of valid UTF-8. *)
Definition valid (s : string) : Prop := validUTF8 (str_bytes s) = true.
Lemma clean_valid s : valid s <-> clean s = s.
Proof.
  unfold valid, clean. rewrite toValid_valid. split; [intros ->; apply str_bytes_str|].
  intros H. apply (f_equal str_bytes) in H. by rewrite bytes_str_bytes in H.
Qed.
Lemma valid_clean s : valid (clean s).
Proof. unfold valid, clean. rewrite bytes_str_bytes. apply toValid_is_valid. Qed.

#[global] Instance string_json : Json string.
Proof.
  refine {|
    jzero := EmptyString;
    jenc := fun s => Ok (JString s);
    jdec := fun v s => match v with JString t => Some t | JNull => Some s | _ => None end;
    jraw := fun _ => True;
    jnorm := clean;
    jok := valid;
    jdepth := 0
  |}.
  - done.
  - done.
  - intros s. apply clean_valid.
  - intros s _. by eexists.
Defined.

#[global] Instance string_omits : Omits string.
Proof. refine {| jempty := fun s => bool_decide (s = EmptyString) |}. by intros s ->%bool_decide_eq_true. Defined.

#[global] Instance bool_json : Json bool.
Proof.
  refine {|
    jzero := false;
    jenc := fun b => Ok (JBool b);
    jdec := fun v b => match v with JBool c => Some c | JNull => Some b | _ => None end;
    jraw := fun _ => True;
    jnorm := fun b => b;
    jok := fun _ => True;
    jdepth := 0
  |}.
  - done.
  - done.
  - done.
  - intros b _. by eexists.
Defined.

#[global] Instance bool_omits : Omits bool.
Proof. refine {| jempty := negb |}. by intros []. Defined.

(** Digits without a leading zero are a number. *)
Lemma digit_isDigit b : is_Some (digitZ b) -> isDigit b = true.
Proof. unfold digitZ, isDigit, between, byte_Z. intros [n H]. cbv zeta in H. destruct (decide _); [lia|done]. Qed.
Lemma spanDigits_all l : Forall (fun b => is_Some (digitZ b)) l -> spanDigits l = (l, []).
Proof. induction 1 as [|b l Hb _ IH]; [done|]. cbn. by rewrite digit_isDigit, IH by done. Qed.
Lemma pretty_head n s : (0 < n)%N -> exists d t, pretty_N_go n s = String (pretty_N_char d) t /\ (0 < d < 10)%N.
Proof.
  revert s. induction (N.lt_wf_0 n) as [n _ IH]; intros s Hn. rewrite pretty_N_go_step by done.
  destruct (decide (n < 10)%N) as [Hlt|Hge].
  - rewrite N.div_small by done. rewrite pretty_N_go_0, N.mod_small by done. by eexists _, _.
  - apply IH; [apply N.div_lt; lia|]. apply N.div_str_pos. lia.
Qed.
Lemma number_pos p : exists b l, str_bytes (pretty (N.pos p)) = b :: l /\ isZero b = false /\ isMinus b = false /\ number (b :: l) = Some (b :: l, []).
Proof.
  destruct (digits_itoa (Z.pos p) ltac:(lia)) as [H _]. apply digitsZ_all in H. change (itoa (Z.pos p)) with (pretty (N.pos p)) in H.
  unfold pretty, pretty_N in *. rewrite decide_False in * by done.
  destruct (pretty_head (N.pos p) "" ltac:(lia)) as (d & t & E & Hd). rewrite E in *.
  set (b := Ascii.byte_of_ascii (pretty_N_char d)). exists b, (str_bytes t). split; [done|].
  assert (isZero b = false /\ isMinus b = false) as [Hz Hm].
  { assert (d ∈ [1; 2; 3; 4; 5; 6; 7; 8; 9]%N) as Hin by (rewrite !elem_of_cons, elem_of_nil; lia).
    unfold b. rewrite !elem_of_cons, elem_of_nil in Hin. by repeat destruct Hin as [->|Hin]. }
  split_and!; [done..|]. unfold number, intPart, digits1. cbn [takeIf]. rewrite Hm. cbn [takeIf]. rewrite Hz.
  change (b :: str_bytes t) with (str_bytes (String (pretty_N_char d) t)). rewrite spanDigits_all by done. cbn. by rewrite app_nil_r.
Qed.
Lemma itoa_neg p : str_bytes (itoa (Z.neg p)) = Byte.x2d :: str_bytes (itoa (Z.pos p)).
Proof. done. Qed.
Lemma isNumber_itoa z : isNumber (str_bytes (itoa z)) = true.
Proof.
  apply bool_decide_eq_true. destruct z as [|p|p].
  - done.
  - destruct (number_pos p) as (b & l & E & _ & _ & H). change (itoa (Z.pos p)) with (pretty (N.pos p)). by rewrite E.
  - destruct (number_pos p) as (b & l & E & Hz & Hm & H). rewrite itoa_neg. change (itoa (Z.pos p)) with (pretty (N.pos p)). rewrite E.
    unfold number in *. cbn [takeIf isMinus Byte.eqb] in H. rewrite Hm in H. change (takeIf isMinus (Byte.x2d :: b :: l)) with ([Byte.x2d], b :: l).
    cbv beta iota. destruct (intPart (b :: l)) as [[i r]|]; [|done]. cbn [mbind option_bind] in *.
    destruct (fracPart r) as [[f r']|]; [|done]. cbn [mbind option_bind] in *.
    destruct (expPart r') as [[e r'']|]; [|done]. cbn in *. by injection H as -> ->.
Qed.
Lemma Atoi_int z : in_int64 z -> Atoi (itoa z) = Some z.
Proof.
  intros Hz. destruct (decide (0 <= z)) as [H|H]; [apply Atoi_itoa; unfold in_int64 in Hz; lia|].
  destruct z as [|p|p]; [lia..|]. unfold Atoi. rewrite itoa_neg.
  destruct (digits_itoa (Z.pos p) ltac:(lia)) as [Hd Hne]. destruct (str_bytes (itoa (Z.pos p))) as [|b l] eqn:E; [done|]. rewrite Hd. cbn [fmap option_fmap option_map].
  by rewrite decide_True.
Qed.
(** [int]: [strconv.ParseInt(lit, 10, 64)]. *)
#[global] Instance int_json : Json Z.
Proof.
  refine {|
    jzero := 0;
    jenc := fun z => Ok (JNumber (itoa z));
    jdec := fun v z => match v with JNumber lit => Atoi lit | JNull => Some z | _ => None end;
    jraw := in_int64;
    jnorm := fun z => z;
    jok := in_int64;
    jdepth := 0
  |}.
  - done.
  - done.
  - done.
  - intros z Hz. eexists. split; [reflexivity|]. cbn [numbersOk nesting cleaned]. by rewrite isNumber_itoa, Atoi_int.
Defined.

#[global] Instance int_omits : Omits Z.
Proof. refine {| jempty := fun z => z =? 0 |}. by intros z H%Z.eqb_eq. Defined.

(** ** [float64] *)
(** Package [strconv] writes a number in the grammar of JSON that reads back as
    the same one; [json.Marshal] refuses NaN and the infinities. *)
Definition f64_finite (x : float64) : bool := negb (f64_bits x `mod` 2 ^ 63 >=? 2047 * 2 ^ 52).
Class FloatText := {
  formatFloat : float64 -> string;
  parseFloat : string -> option float64;
  formatFloat_number x : f64_finite x = true -> isNumber (str_bytes (formatFloat x)) = true;
  parseFloat_format x : f64_wf x -> f64_finite x = true -> parseFloat (formatFloat x) = Some x
}.
Section Float.
Context {FT : FloatText}.
#[global] Instance float_json : Json float64.
Proof.
  refine {|
    jzero := F64 0;
    jenc := fun x => if f64_finite x then Ok (JNumber (formatFloat x)) else Err (ErrMsg "json: unsupported value");
    jdec := fun v x => match v with JNumber lit => parseFloat lit | JNull => Some x | _ => None end;
    jraw := fun x => f64_wf x /\ f64_finite x = true;
    jnorm := fun x => x;
    jok := fun x => f64_wf x /\ f64_finite x = true;
    jdepth := 0
  |}.
  - done.
  - done.
  - done.
  - intros x [Hw Hf]. cbn beta. rewrite Hf. eexists. split; [reflexivity|]. cbn [numbersOk nesting cleaned]. by rewrite formatFloat_number, parseFloat_format.
Defined.
End Float.
Lemma bits_number x : isNumber (str_bytes (itoa (f64_bits x))) = true.
Proof. apply isNumber_itoa. Qed.
Lemma bits_parse x : f64_wf x -> F64 <$> digitsZ (str_bytes (itoa (f64_bits x))) 0 = Some x.
Proof. intros [H _]. destruct (digits_itoa (f64_bits x) H) as [-> _]. by destruct x. Qed.
(** A text for numbers that reads back: their bits. *)
Definition float_bits : FloatText := {|
  formatFloat := fun x => itoa (f64_bits x);
  parseFloat := fun s => F64 <$> digitsZ (str_bytes s) 0;
  formatFloat_number := fun x _ => bits_number x;
  parseFloat_format := fun x Hx _ => bits_parse x Hx
|}.

(** ** Slices and maps *)
(** [null] clears a slice or a map. *)
Lemma max_bound n l : 0 <= n -> Forall (fun x => x <= n) l -> fold_right Z.max 0 l <= n.
Proof. intros H. induction 1; cbn; lia. Qed.

Section Containers.
Context {A : Type} {J : Json A}.

(** The texts of the elements, in order. *)
Lemma jenc_all (l : list A) : Forall jraw l -> exists vs, mapM jenc l = Ok vs /\ forallb numbersOk vs = true /\
  Forall (fun v => nesting v <= jdepth A) vs /\ mapM (fun v => jdec v jzero) (List.map cleaned vs) = Some (jnorm <$> l).
Proof.
  induction 1 as [|a l Ha _ (vs & Hvs & Hn & Hd & Hm)]; [by exists []|].
  destruct (jenc_ok a Ha) as (v & Hv & Hnv & Hdv & Hdec). exists (v :: vs). cbn. rewrite Hv. cbn. rewrite Hvs. cbn.
  split_and!; [done|by rewrite Hnv, Hn|by constructor|]. rewrite Hdec. cbn. by rewrite Hm.
Qed.
#[global] Instance list_json : Json (list A).
Proof.
  refine {|
    jzero := [];
    jenc := fun l => JArray <$> mapM jenc l;
    jdec := fun v l => match v with JArray vs => mapM (fun v => jdec v jzero) vs | JNull => Some [] | _ => None end;
    jraw := Forall jraw;
    jnorm := fmap jnorm;
    jok := Forall jok;
    jdepth := 1 + jdepth A
  |}.
  - pose proof (jdepth_nonneg (A := A)). lia.
  - intros l Hl. eapply Forall_impl; [exact Hl|]. apply jok_raw.
  - intros l Hl. induction Hl as [|a l Ha _ IH]; [done|]. cbn. by rewrite jnorm_ok, IH.
  - intros l Hl. destruct (jenc_all l Hl) as (vs & Hvs & Hn & Hd & Hm). exists (JArray vs). rewrite Hvs.
    split_and!; [done|done| |done]. cbn [nesting]. apply Zplus_le_compat_l, max_bound; [apply jdepth_nonneg|].
    clear -Hd. induction Hd; by constructor.
Defined.
#[global] Instance list_omits : Omits (list A).
Proof. refine {| jempty := fun l => match l with [] => true | _ => false end |}. by intros []. Defined.

(** A map is written in the order of its keys, whatever the order of the
    iteration; decoding adds to the map that is there. *)
Definition sortedEntries (m : gmap string A) : list (string * A) :=
  omap (fun k => (fun a => (k, a)) <$> m !! k) (sort_Strings (map_to_list m).*1).
Definition encEntry (kv : string * A) : res (string * jvalue) := v ← jenc kv.2; Ok (kv.1, v).
Definition decEntry (m : gmap string A) (kv : string * jvalue) : option (gmap string A) :=
  a ← jdec kv.2 jzero; Some (<[kv.1 := a]> m).
Fixpoint foldO {S B} (f : S -> B -> option S) (l : list B) (s : S) : option S :=
  match l with [] => Some s | x :: l' => s' ← f s x; foldO f l' s' end.

Lemma sortedEntries_perm m : sortedEntries m ≡ₚ map_to_list m.
Proof.
  unfold sortedEntries. rewrite sort_Strings_perm.
  assert (forall l, (forall k a, (k, a) ∈ l -> m !! k = Some a) -> omap (fun k => (fun a => (k, a)) <$> m !! k) l.*1 = l) as ->; [|done|].
  - induction l as [|[k a] l IH]; intros H; [done|]. cbn. rewrite (H k a) by set_solver. cbn. f_equal. apply IH. set_solver.
  - intros k a. apply elem_of_map_to_list.
Qed.
Lemma sortedEntries_map m : list_to_map (sortedEntries m) = m.
Proof.
  rewrite <- (list_to_map_to_list m) at 2. apply list_to_map_proper; [|apply sortedEntries_perm].
  rewrite sortedEntries_perm. apply NoDup_fst_map_to_list.
Qed.
Lemma foldO_insert (l : list (string * A)) (m : gmap string A) : NoDup l.*1 ->
  fold_left (fun m kv => <[kv.1 := kv.2]> m) l m = list_to_map l ∪ m.
Proof.
  revert m. induction l as [|[k a] l IH]; intros m Hnd; cbn in *; [by rewrite (left_id_L ∅ (∪))|].
  apply NoDup_cons in Hnd as [Hk Hnd]. rewrite IH by done. rewrite <- insert_union_l.
  rewrite insert_union_r; [done|]. by apply not_elem_of_list_to_map_1.
Qed.
Definition normEntry (kv : string * A) : string * A := (clean kv.1, jnorm kv.2).
Definition insertAll (l : list (string * A)) (m : gmap string A) : gmap string A := fold_left (fun m kv => <[kv.1 := kv.2]> m) l m.
Lemma entries_ok (l : list (string * A)) : Forall (fun kv => jraw kv.2) l ->
  exists kvs, mapM encEntry l = Ok kvs /\ forallb (fun kv => numbersOk kv.2) kvs = true /\
  Forall (fun kv => nesting kv.2 <= jdepth A) kvs /\
  forall m, foldO decEntry (List.map (fun kv => (clean kv.1, cleaned kv.2)) kvs) m = Some (insertAll (normEntry <$> l) m).
Proof.
  induction 1 as [|[k a] l Ha _ (kvs & Hvs & Hn & Hd & Hm)]; [by exists []|].
  destruct (jenc_ok a Ha) as (v & Hv & Hnv & Hdv & Hdec). exists ((k, v) :: kvs).
  assert (encEntry (k, a) = Ok (k, v)) as He by (unfold encEntry; cbn in *; by rewrite Hv). cbn. rewrite He. cbn. rewrite Hvs. cbn.
  split_and!; [done|by rewrite Hnv, Hn|by constructor|]. intros m.
  assert (decEntry m (clean k, cleaned v) = Some (<[clean k := jnorm a]> m)) as -> by (unfold decEntry; cbn in *; by rewrite Hdec). apply Hm.
Qed.
#[global] Instance map_json : Json (gmap string A).
Proof.
  refine {|
    jzero := ∅;
    jenc := fun m => JObject <$> mapM encEntry (sortedEntries m);
    jdec := fun v m => match v with JObject kvs => foldO decEntry kvs m | JNull => Some ∅ | _ => None end;
    jraw := map_Forall (fun _ a => jraw a);
    jnorm := fun m => insertAll (normEntry <$> sortedEntries m) ∅;
    jok := map_Forall (fun k a => valid k /\ jok a);
    jdepth := 1 + jdepth A
  |}.
  - pose proof (jdepth_nonneg (A := A)). lia.
  - intros m Hm k a Hk. by apply jok_raw, (Hm k a).
  - intros m Hm. assert (normEntry <$> sortedEntries m = sortedEntries m) as ->.
    { assert (Forall (fun kv => valid kv.1 /\ jok kv.2) (sortedEntries m)) as H.
      { rewrite sortedEntries_perm. apply Forall_forall. intros [k a] Hin%elem_of_map_to_list. by apply Hm. }
      induction H as [|[k a] l [Hk Ha] _ IH]; [done|]. cbn in *. rewrite IH. unfold normEntry. cbn. apply clean_valid in Hk. by rewrite Hk, jnorm_ok. }
    unfold insertAll. rewrite foldO_insert by (rewrite sortedEntries_perm; apply NoDup_fst_map_to_list).
    by rewrite sortedEntries_map, (right_id_L ∅ (∪)).
  - intros m Hm. destruct (entries_ok (sortedEntries m)) as (kvs & Hvs & Hn & Hd & Hf).
    { rewrite sortedEntries_perm. apply Forall_forall. intros [k a] Hin%elem_of_map_to_list. by apply (Hm k a). }
    exists (JObject kvs). rewrite Hvs. split_and!; [done|done| |].
    + cbn [nesting]. apply Zplus_le_compat_l, max_bound; [apply jdepth_nonneg|]. clear -Hd. induction Hd; by constructor.
    + cbn [cleaned]. apply Hf.
Defined.
#[global] Instance map_omits : Omits (gmap string A).
Proof. refine {| jempty := fun m => bool_decide (m = ∅) |}. by intros m ->%bool_decide_eq_true. Defined.
(** A map that is nil when it is empty. *)
Definition nil_map_json : Json (gmap string A).
Proof.
  refine {|
    jzero := ∅;
    jenc := fun m : gmap string A => if decide (m = ∅) then Ok JNull else jenc m;
    jdec := jdec;
    jraw := jraw;
    jnorm := jnorm;
    jok := jok;
    jdepth := jdepth (gmap string A)
  |}.
  - apply jdepth_nonneg.
  - apply jok_raw.
  - apply jnorm_ok.
  - intros m Hm. destruct (decide (m = ∅)) as [->|_]; [|exact (@jenc_ok _ map_json m Hm)].
    eexists. split; [reflexivity|]. split_and!; [done|apply jdepth_nonneg|done].
Defined.
End Containers.

(** ** [[]byte]: base 64 *)
Definition sextet (z : Z) : byte :=
  Z_byte (if z <? 26 then 65 + z else if z <? 52 then 71 + z else if z <? 62 then z - 4 else if z =? 62 then 43 else 47).
Definition sextetValue (b : byte) : option Z :=
  let z := byte_Z b in
  if between 65 90 b then Some (z - 65) else if between 97 122 b then Some (z - 71)
  else if between 48 57 b then Some (z + 4) else if z =? 43 then Some 62 else if z =? 47 then Some 63 else None.
Definition pad : byte := "="%byte.
(** [base64.StdEncoding]; the decoder skips line breaks. *)
Fixpoint base64 (l : bytes) : bytes :=
  match l with
  | [] => []
  | [a] => let z := byte_Z a in [sextet (z / 4); sextet (z mod 4 * 16); pad; pad]
  | [a; b] => let z := byte_Z a * 256 + byte_Z b in
      [sextet (z / 1024); sextet (z / 16 mod 64); sextet (z mod 16 * 4); pad]
  | a :: b :: c :: l' => let z := (byte_Z a * 256 + byte_Z b) * 256 + byte_Z c in
      sextet (z / 262144) :: sextet (z / 4096 mod 64) :: sextet (z / 64 mod 64) :: sextet (z mod 64) :: base64 l'
  end.
Fixpoint unbase64 (l : bytes) : option bytes :=
  match l with
  | [] => Some []
  | a :: b :: c :: d :: l' =>
      a ← sextetValue a; b ← sextetValue b;
      if bool_decide (l' = []) && Byte.eqb d pad then
        if Byte.eqb c pad then Some [Z_byte (a * 4 + b / 16)]
        else c ← sextetValue c; Some [Z_byte (a * 4 + b / 16); Z_byte (b * 16 + c / 4)]
      else
        c ← sextetValue c; d ← sextetValue d; r ← unbase64 l';
        Some (Z_byte (a * 4 + b / 16) :: Z_byte (b * 16 + c / 4) :: Z_byte (c * 64 + d) :: r)
  | _ => None
  end.
Definition isBreak (b : byte) : bool := Byte.eqb b Byte.x0a || Byte.eqb b Byte.x0d.

Lemma sextetValue_sextet z : 0 <= z < 64 -> sextetValue (sextet z) = Some z.
Proof.
  intros Hz. assert (forallb (fun n => bool_decide (sextetValue (sextet (Z.of_nat n)) = Some (Z.of_nat n))) (List.seq 0 64) = true) as H by (vm_compute; reflexivity).
  rewrite forallb_forall in H. specialize (H (Z.to_nat z)). rewrite Z2Nat.id in H by lia.
  apply bool_decide_eq_true in H; [done|]. apply in_seq. lia.
Qed.
Lemma sextet_plain z : 0 <= z < 64 -> Byte.eqb (sextet z) pad = false /\ isBreak (sextet z) = false.
Proof.
  intros Hz. assert (forallb (fun n => negb (Byte.eqb (sextet (Z.of_nat n)) pad) && negb (isBreak (sextet (Z.of_nat n)))) (List.seq 0 64) = true) as H by (vm_compute; reflexivity).
  rewrite forallb_forall in H. specialize (H (Z.to_nat z)). rewrite Z2Nat.id in H by lia.
  assert (Z.to_nat z ∈ List.seq 0 64) as Hin by (apply list_elem_of_In, in_seq; lia). apply list_elem_of_In in Hin.
  apply H in Hin. apply andb_prop in Hin as [H1 H2]. by rewrite negb_true_iff in H1, H2.
Qed.
Lemma Z_byte_eq z b : z mod 256 = byte_Z b -> Z_byte z = b.
Proof. intros H. rewrite <- (Z_byte_Z b). unfold Z_byte. by rewrite H, Z.mod_small by apply byte_Z_range. Qed.
(** Induction by groups of three. *)
Lemma triples_ind (P : bytes -> Prop) : P [] -> (forall a, P [a]) -> (forall a b, P [a; b]) ->
  (forall a b c l, P l -> P (a :: b :: c :: l)) -> forall l, P l.
Proof.
  intros H0 H1 H2 H3. fix IH 1. intros [|a [|b [|c l]]]; [done..|]. apply H3, IH.
Qed.
Ltac sextets := repeat match goal with |- context [sextetValue (sextet ?z)] => rewrite (sextetValue_sextet z) by lia end.
Ltac group_ok a b c := pose proof (byte_Z_range a); pose proof (byte_Z_range b); pose proof (byte_Z_range c); (Z.to_euclidean_division_equations; lia).
Lemma unbase64_group w x y z l : 0 <= w < 64 -> 0 <= x < 64 -> 0 <= y < 64 -> 0 <= z < 64 ->
  unbase64 (sextet w :: sextet x :: sextet y :: sextet z :: l)
  = r ← unbase64 l; Some (Z_byte (w * 4 + x / 16) :: Z_byte (x * 16 + y / 4) :: Z_byte (y * 64 + z) :: r).
Proof.
  intros Hw Hx Hy Hz. cbn [unbase64]. destruct (sextet_plain z Hz) as [-> _]. rewrite andb_false_r.
  by rewrite !sextetValue_sextet by done.
Qed.
Lemma unbase64_base64 l : unbase64 (base64 l) = Some l.
Proof.
  induction l as [|a|a b|a b c l IH] using triples_ind; [done|..]; cbn [base64]; cbv zeta.
  - pose proof (byte_Z_range a). cbn [unbase64]. rewrite !sextetValue_sextet by (Z.to_euclidean_division_equations; lia).
    cbn. do 2 f_equal. apply Z_byte_eq. Z.to_euclidean_division_equations; lia.
  - pose proof (byte_Z_range a). pose proof (byte_Z_range b). cbn [unbase64].
    rewrite !sextetValue_sextet by (Z.to_euclidean_division_equations; lia). cbn [mbind option_bind].
    destruct (sextet_plain ((byte_Z a * 256 + byte_Z b) mod 16 * 4) ltac:(Z.to_euclidean_division_equations; lia)) as [-> _].
    cbn. f_equal. f_equal; [|f_equal]; apply Z_byte_eq; Z.to_euclidean_division_equations; lia.
  - pose proof (byte_Z_range a). pose proof (byte_Z_range b). pose proof (byte_Z_range c).
    rewrite unbase64_group by (Z.to_euclidean_division_equations; lia). rewrite IH. cbn [mbind option_bind]. f_equal.
    f_equal; [|f_equal; [|f_equal]]; apply Z_byte_eq; Z.to_euclidean_division_equations; lia.
Qed.
Lemma sextet_ascii z : 0 <= z < 64 -> byte_Z (sextet z) < 128 /\ isBreak (sextet z) = false.
Proof.
  intros Hz. split; [|by apply sextet_plain]. unfold sextet. rewrite byte_Z_byte. repeat case_match; Z.to_euclidean_division_equations; lia.
Qed.
Lemma base64_ascii l : Forall (fun b => byte_Z b < 128 /\ isBreak b = false) (base64 l).
Proof.
  induction l as [|a|a b|a b c l IH] using triples_ind; [constructor|..]; cbn [base64]; cbv zeta;
    pose proof (byte_Z_range a); try pose proof (byte_Z_range b); try pose proof (byte_Z_range c);
    repeat (apply Forall_cons; split; [first [apply sextet_ascii; Z.to_euclidean_division_equations; lia | by vm_compute]|]); done.
Qed.
(** The empty [[]byte] of the records that are saved or sent is nil. *)
#[global] Instance bytes_json : Json bytes.
Proof.
  refine {|
    jzero := [];
    jenc := fun l => Ok (match l with [] => JNull | _ => JString (bytes_str (base64 l)) end);
    jdec := fun v _ => match v with
      | JString s => unbase64 (filter (fun b => isBreak b = false) (str_bytes s)) | JNull => Some [] | _ => None end;
    jraw := fun _ => True;
    jnorm := fun l => l;
    jok := fun _ => True;
    jdepth := 0
  |}.
  - done.
  - done.
  - done.
  - intros [|x l0]; [by intros _; eexists|]. set (l := x :: l0). intros _. eexists. split; [reflexivity|].
    cbn [numbersOk nesting cleaned]. split_and!; [done..|]. pose proof (base64_ascii l) as Ha. unfold clean. rewrite !bytes_str_bytes.
    rewrite (proj1 (toValid_valid _)) by (apply ascii_valid; eapply Forall_impl; [exact Ha|]; by intros b [? _]). rewrite filter_all; [apply unbase64_base64|].
    eapply Forall_impl; [exact Ha|]. by intros b [_ ?].
Defined.
#[global] Instance bytes_omits : Omits bytes.
Proof. refine {| jempty := fun l => match l with [] => true | _ => false end |}. by intros []. Defined.

(** ** The two kinds of identifiers *)
(** [uuid.UUID] is written as its text ([encoding.TextMarshaler]). *)
Class UuidText `{!UuidLib} := uuid_String_valid : forall u, valid (uuid_String u).
Definition uuid_json `{!UuidLib} {UT : UuidText} : Json id16.
Proof.
  refine {|
    jzero := zero16;
    jenc := fun u => Ok (JString (uuid_String u));
    jdec := fun v u => match v with JString s => uuid_Parse s | JNull => Some u | _ => None end;
    jraw := fun _ => True;
    jnorm := fun u => u;
    jok := fun _ => True;
    jdepth := 0
  |}.
  - done.
  - done.
  - done.
  - intros u _. eexists. split; [reflexivity|]. cbn [numbersOk nesting cleaned]. split_and!; [done..|].
    rewrite (proj1 (clean_valid _) (uuid_String_valid u)). apply uuid_Parse_String.
Defined.

(** [protocol.MsgID] is an array: its sixteen bytes are numbers.  Decoding
    ignores further elements and clears those that are missing. *)
Definition decByte (v : jvalue) : option byte :=
  match v with
  | JNumber lit => z ← Atoi lit; if bool_decide (0 <= z < 256) then Some (Z_byte z) else None
  | JNull => Some Byte.x00
  | _ => None
  end.
Definition msgid_json : Json id16.
Proof.
  refine {|
    jzero := zero16;
    jenc := fun i => Ok (JArray ((fun b => JNumber (itoa (byte_Z b))) <$> id16_bytes i));
    jdec := fun v i => match v with JArray vs => copy16 <$> mapM decByte (take 16 vs) | JNull => Some i | _ => None end;
    jraw := fun _ => True;
    jnorm := fun i => i;
    jok := fun _ => True;
    jdepth := 1
  |}.
  - done.
  - done.
  - done.
  - intros i _. eexists. split; [reflexivity|]. cbn [numbersOk nesting cleaned]. split_and!.
    + generalize (id16_bytes i). intros l. induction l as [|b l IH]; [done|]. cbn. by rewrite isNumber_itoa, IH.
    + generalize (id16_bytes i). intros l. induction l as [|b l IH]; [done|]. cbn in *. lia.
    + rewrite take_ge by (rewrite length_map, length_fmap, length_id16; lia).
      assert (forall l, mapM decByte (List.map cleaned ((fun b => JNumber (itoa (byte_Z b))) <$> l)) = Some l) as ->.
      { intros l. induction l as [|b l IH]; [done|]. cbn in *. pose proof (byte_Z_range b).
        rewrite Atoi_int by (unfold in_int64; lia). cbn. rewrite bool_decide_eq_true_2 by done. rewrite Z_byte_Z. cbn in *. by rewrite IH. }
      cbn. by rewrite copy16_bytes.
Defined.

(** ** Structs *)
(** [FOmit] is a field that is [omitempty]. *)
Inductive fields : Type -> Type :=
  | FNil : fields unit
  | FCons {A R} (name : string) (J : Json A) (rest : fields R) : fields (A * R)
  | FOmit {A R} (name : string) (J : Json A) (Om : Omits A) (rest : fields R) : fields (A * R).
Fixpoint names {R} (fs : fields R) : list string :=
  match fs with FNil => [] | FCons n _ fs | FOmit n _ _ fs => n :: names fs end.
Fixpoint fzero {R} (fs : fields R) : R :=
  match fs with FNil => tt | FCons _ _ fs | FOmit _ _ _ fs => (jzero, fzero fs) end.
Fixpoint fok {R} (fs : fields R) : R -> Prop :=
  match fs with FNil => fun _ => True | FCons _ _ fs | FOmit _ _ _ fs => fun r => jok r.1 /\ fok fs r.2 end.
Fixpoint fraw {R} (fs : fields R) : R -> Prop :=
  match fs with FNil => fun _ => True | FCons _ _ fs | FOmit _ _ _ fs => fun r => jraw r.1 /\ fraw fs r.2 end.
Fixpoint fnorm {R} (fs : fields R) : R -> R :=
  match fs with FNil => fun r => r | FCons _ _ fs | FOmit _ _ _ fs => fun r => (jnorm r.1, fnorm fs r.2) end.
Fixpoint fdepth {R} (fs : fields R) : Z :=
  match fs with FNil => 0 | @FCons A _ _ _ fs | @FOmit A _ _ _ _ fs => Z.max (jdepth A) (fdepth fs) end.
Fixpoint fenc {R} (fs : fields R) : R -> res (list (string * jvalue)) :=
  match fs with
  | FNil => fun _ => Ok []
  | FCons n _ fs => fun r => v ← jenc r.1; kvs ← fenc fs r.2; Ok ((n, v) :: kvs)
  | FOmit n _ _ fs => fun r => if jempty r.1 then fenc fs r.2 else v ← jenc r.1; kvs ← fenc fs r.2; Ok ((n, v) :: kvs)
  end.
(** Decoding [v] into the first field whose name passes the test. *)
Fixpoint fdec {R} (fs : fields R) (test : string -> bool) (v : jvalue) : option (R -> option R) :=
  match fs with
  | FNil => None
  | FCons n _ fs | FOmit n _ _ fs =>
      if test n then Some (fun r => a ← jdec v r.1; Some (a, r.2))
      else (fun g r => r' ← g r.2; Some (r.1, r')) <$> fdec fs test v
  end.
(** [foldName]: letter case, and the two signs that fold to ASCII letters. *)
Definition foldRune (r : rune) : rune :=
  match r with
  | Rune [a] => Rune [if between 97 122 a then Z_byte (byte_Z a - 32) else a]
  | Rune [Byte.xc5; Byte.xbf] => Rune ["S"%byte]
  | Rune [Byte.xe2; Byte.x84; Byte.xaa] => Rune ["K"%byte]
  | _ => r
  end.
Definition foldName (s : string) : bytes := flat_map rune_bytes (foldRune <$> runes (str_bytes s)).
(** A key names a field exactly, or up to folding; an unknown one is ignored. *)
Definition decField {R} (fs : fields R) (r : R) (kv : string * jvalue) : option R :=
  match fdec fs (String.eqb kv.1) kv.2 with
  | Some g => g r
  | None => match fdec fs (fun n => bool_decide (foldName n = foldName kv.1)) kv.2 with Some g => g r | None => Some r end
  end.
Definition decObject {R} (fs : fields R) (v : jvalue) (r : R) : option R :=
  match v with JObject kvs => foldO (decField fs) kvs r | JNull => Some r | _ => None end.

Lemma fdec_head {R} (fs : fields R) k v : k ∈ names fs -> is_Some (fdec fs (String.eqb k) v).
Proof.
  induction fs as [|A R n J fs IH|A R n J Om fs IH]; cbn [names fdec]; [set_solver|..]; intros [->|Hin]%elem_of_cons;
    rewrite ?String.eqb_refl; try done; destruct (String.eqb k n); try done; by destruct IH as [g ->].
Qed.
(** The fields written for a value, and what reading them does to the zero. *)
Definition fieldsRead {R} (fs : fields R) : Prop := forall r, fraw fs r -> exists kvs,
  fenc fs r = Ok kvs /\ forallb (fun kv => numbersOk kv.2) kvs = true /\ Forall (fun kv => nesting kv.2 <= fdepth fs) kvs /\
  Forall (fun kv => kv.1 ∈ names fs) kvs /\
  foldO (decField fs) (List.map (fun kv => (clean kv.1, cleaned kv.2)) kvs) (fzero fs) = Some (fnorm fs r).
Definition namesOk (l : list string) : bool := bool_decide (NoDup l) && bool_decide (Forall (fun n => clean n = n) l).

Lemma decField_rest {A R} n (J : Json A) (fs : fields R) Om kvs a r :
  n ∉ names fs -> Forall (fun kv => kv.1 ∈ names fs /\ clean kv.1 = kv.1) kvs ->
  foldO (decField (match Om with Some Om => FOmit n J Om fs | None => FCons n J fs end)) (List.map (fun kv => (clean kv.1, cleaned kv.2)) kvs) (a, r)
  = (fun r' => (a, r')) <$> foldO (decField fs) (List.map (fun kv => (clean kv.1, cleaned kv.2)) kvs) r.
Proof.
  intros Hn Hk. revert r. induction Hk as [|[k v] kvs [Hin Hc] _ IH]; intros r; [done|]. cbn [List.map foldO fst snd] in *. rewrite Hc.
  destruct (fdec_head fs k (cleaned v) Hin) as [g Hg].
  assert (decField fs r (k, cleaned v) = g r) as -> by (unfold decField; cbn; by rewrite Hg).
  assert (decField (match Om with Some Om => FOmit n J Om fs | None => FCons n J fs end) (a, r) (k, cleaned v) = (fun r' => (a, r')) <$> g r) as ->.
  { unfold decField. cbn [fst snd]. assert (String.eqb k n = false) as Hne by (apply String.eqb_neq; congruence).
    destruct Om; cbn [fdec]; rewrite Hne, Hg; cbn; by destruct (g r). }
  destruct (g r) as [r'|]; [|done]. cbn. apply IH.
Qed.
Lemma decField_head {A R} n (J : Json A) (fs : fields R) Om a r v :
  decField (match Om with Some Om => FOmit n J Om fs | None => FCons n J fs end) (a, r) (n, v) = (fun a' => (a', r)) <$> jdec v a.
Proof. unfold decField. cbn [fst snd]. destruct Om; cbn [fdec]; rewrite String.eqb_refl; cbn; by destruct (jdec v a). Qed.
Lemma fields_read {R} (fs : fields R) : namesOk (names fs) = true -> fieldsRead fs.
Proof.
  unfold namesOk. intros [Hnd Hc]%andb_prop. apply bool_decide_eq_true in Hnd, Hc.
  induction fs as [|A R n J fs IH|A R n J Om fs IH]; intros r Hr; cbn [names fraw fnorm fzero fdepth fenc] in *; [by exists []; destruct r|..];
    destruct r as [a r]; cbn [fst snd] in *; destruct Hr as [Ha Hr]; apply NoDup_cons in Hnd as [Hn Hnd]; apply Forall_cons in Hc as [Hcn Hc];
    destruct (IH Hnd Hc r Hr) as (kvs & Hkvs & Hnum & Hdep & Hkeys & Hfold);
    assert (Forall (fun kv : string * jvalue => kv.1 ∈ names fs /\ clean kv.1 = kv.1) kvs) as Hk
      by (eapply Forall_impl; [exact Hkeys|]; intros kv Hin; split; [done|]; by apply (proj1 (Forall_forall _ _) Hc));
    assert (Forall (fun kv : string * jvalue => nesting kv.2 <= jdepth A `max` fdepth fs) kvs) as Hdep'
      by (eapply Forall_impl; [exact Hdep|]; cbn; lia);
    assert (Forall (fun kv : string * jvalue => kv.1 ∈ n :: names fs) kvs) as Hkeys' by (eapply Forall_impl; [exact Hkeys|]; set_solver);
    destruct (jenc_ok a Ha) as (v & Hv & Hnv & Hdv & Hdec).
  - exists ((n, v) :: kvs). rewrite Hv. cbn [mbind res_bind]. rewrite Hkvs. cbn [mbind res_bind]. split_and!.
    + done.
    + cbn. by rewrite Hnv.
    + constructor; [cbn; lia|done].
    + constructor; [set_solver|done].
    + cbn [List.map foldO fst snd]. rewrite Hcn, (decField_head n J fs None). rewrite Hdec. cbn [fmap option_fmap option_map mbind option_bind].
      by rewrite (decField_rest n J fs None), Hfold.
  - destruct (jempty a) eqn:He.
    + exists kvs. split_and!; [done..|]. rewrite (decField_rest n J fs (Some Om)), Hfold by done. cbn. by rewrite (jempty_zero a He).
    + exists ((n, v) :: kvs). rewrite Hv. cbn [mbind res_bind]. rewrite Hkvs. cbn [mbind res_bind]. split_and!.
      * done.
      * cbn. by rewrite Hnv.
      * constructor; [cbn; lia|done].
      * constructor; [set_solver|done].
      * cbn [List.map foldO fst snd]. rewrite Hcn, (decField_head n J fs (Some Om)). rewrite Hdec. cbn [fmap option_fmap option_map mbind option_bind].
        by rewrite (decField_rest n J fs (Some Om)), Hfold.
Qed.
Lemma fok_raw {R} (fs : fields R) r : fok fs r -> fraw fs r.
Proof. induction fs as [|A R n J fs IH|A R n J Om fs IH]; cbn; [done|..]; intros [H1 H2]; (split; [by apply jok_raw|by apply IH]). Qed.
Lemma fnorm_ok {R} (fs : fields R) r : fok fs r -> fnorm fs r = r.
Proof.
  induction fs as [|A R n J fs IH|A R n J Om fs IH]; cbn; [done|..]; destruct r as [a r]; cbn; intros [H1 H2]; by rewrite jnorm_ok, IH.
Qed.
Lemma fdepth_nonneg {R} (fs : fields R) : 0 <= fdepth fs.
Proof. induction fs as [|A R n J fs IH|A R n J Om fs IH]; cbn; [done|lia..]. Qed.

(** The instance of a record that is the tuple of its fields. *)
Definition struct_json {T R} (fs : fields R) (to : T -> R) (mk : R -> T) (Hmk : forall t, mk (to t) = t)
    (Hto : forall r, to (mk r) = r) (Hn : namesOk (names fs) = true) : Json T.
Proof.
  refine {|
    jzero := mk (fzero fs);
    jenc := fun t => JObject <$> fenc fs (to t);
    jdec := fun v t => mk <$> decObject fs v (to t);
    jraw := fun t => fraw fs (to t);
    jnorm := fun t => mk (fnorm fs (to t));
    jok := fun t => fok fs (to t);
    jdepth := 1 + fdepth fs
  |}.
  - pose proof (fdepth_nonneg fs). lia.
  - intros t. apply fok_raw.
  - intros t Ht. by rewrite fnorm_ok, Hmk.
  - intros t Ht. destruct (fields_read fs Hn (to t) Ht) as (kvs & Hkvs & Hnum & Hdep & _ & Hfold).
    exists (JObject kvs). rewrite Hkvs. split_and!; [done|done| |].
    + cbn [nesting]. apply Zplus_le_compat_l, max_bound; [apply fdepth_nonneg|]. clear -Hdep. induction Hdep; by constructor.
    + cbn [cleaned decObject]. by rewrite Hto, Hfold.
Defined.
