(* ===== verification/Persist.v ===== *)
(** * The checkpoints of the workers as they are on disk

    [Coordinator] takes the bytes of a client's state from the worker.  Here they
    are: the JSON of the checkpoint records of [sync_controller.go],
    [aggregator.go], [join.go], [query4.go], [scattergather.go],
    [scatter_and_gather.go], [avg_format_filter.go], [q5_filter.go] and
    [converter.go], and with them the coordinator that each [Run] makes.  A worker
    that is killed resumes from the bytes it saved; a state that JSON cannot
    express is not saved, or comes back changed. *)

From Stdlib Require Import Strings.Byte.
From stdpp Require Import pretty.
From S2P Require Import Json Marshal Prelude Maps Models MsgIDs Wire Codec CodecQ4 Disk Store Coordinator CrashSafety Recovery Publisher Worker Acks EofSync HeavyMonitor Sharding WorkerMem Aggregator Join Q4Pairs Q4Count AvgFilter Q5Filter Converter Config.

(** ** A state saved as JSON *)
Section JsonState.
Context {W R : Type} `{!Json R} (snap : id16 -> W -> option R) (restore : id16 -> R -> W -> W).

(** [if err := json.Unmarshal(data, &cp); err != nil { return err }] *)
Definition restoreText (c : id16) (data : bytes) : M W unit := fun w =>
  match Unmarshal data with
  | Ok cp => (Ok tt, restore c cp w)
  | Err e => (Err e, w)
  | Panic p => (Panic p, w)
  end.
(** No data for an unknown client; [if len(data) == 0 { return nil }]. *)
Definition jsonState : Checkpointable W := mkCheckpointable W
  (fun c w => (match snap c w with None => Ok [] | Some cp => Marshal cp end, w))
  (fun c data w => match data with [] => (Ok tt, w) | _ => restoreText c data w end).

Lemma jsonState_restores c cp w : snap c w = Some cp -> jraw cp -> jdepth R <= maxNestingDepth ->
  exists data, SnapshotClient jsonState c w = (Ok data, w) /\ forall w', RestoreClient jsonState c data w' = (Ok tt, restore c (jnorm cp) w').
Proof.
  intros Hs Hok Hd. destruct (marshal_norm cp Hok Hd) as (data & Hm & Hu & Hne). exists data. cbn. rewrite Hs, Hm.
  split; [done|]. intros w'. destruct data; [done|]. unfold restoreText. by rewrite Hu.
Qed.
End JsonState.

(** ** A state that JSON cannot express *)
Section Unsaved.
Context {UL : UuidLib} {GR : GoRange} {W R : Type} `{!HasPublisher W, !Json R}.
Context (snap : id16 -> W -> option R) (restore : id16 -> R -> W -> W) (dir : string) (interval : Z).
Abbreviation co := (NewCoordinator dir seenSource None (Some (jsonState snap restore)) interval).
Lemma gather_json c w : gather co c w =
  (st ← wrapf "snapshot state" (match snap c w with None => Ok [] | Some cp => Marshal cp end);
   Ok (fun b : bool => if b then Some st else None, drainClient c (dedup (pub w))), w).
Proof.
  unfold gather, snapO, slotSrc. cbn [coState coEof coSeen NewCoordinator]. unfold mbind, M_bind, wrapM. cbn [SnapshotClient jsonState].
  by destruct (match snap c w with None => _ | Some _ => _ end).
Qed.
Lemma Marshal_fails (cp : R) : (forall v, jenc cp <> Ok v) -> forall data, Marshal cp <> Ok data.
Proof. unfold Marshal. intros H data. destruct (jenc cp) as [v| |]; [by destruct (H v)|done..]. Qed.
(** While the state of a client cannot be written no flush that has to save it
    succeeds, and none of the deliveries that wait for it is acknowledged. *)
Lemma gatherAll_fails {Y} (view' : W -> Y) (Hview' : forall f w, view' (onDedup f w).2 = view' w) c cp ids w :
  (forall f w, snap c (onDedup f w).2 = snap c w) -> snap c w = Some cp -> (forall v, jenc cp <> Ok v) ->
  view' (gatherAll co ids w).2 = view' w /\ snap c (gatherAll co ids w).2 = Some cp /\
  (c ∈ ids -> forall outs, (gatherAll co ids w).1 <> Ok outs).
Proof.
  intros Hd Hs Hbad. revert w Hs. induction ids as [|i ids IH]; intros w Hs; [split_and!; [done|done|by intros ?%elem_of_nil]|].
  cbn [gatherAll]. unfold mbind, M_bind. rewrite gather_json.
  assert (snap i w = Some cp /\ i = c \/ i <> c) as Hi by (destruct (decide (i = c)) as [->|]; [by left|by right]).
  destruct (wrapf "snapshot state" (match snap i w with None => Ok [] | Some cp => Marshal cp end)) as [st|e|p] eqn:E; cbn [mbind res_bind];
    [|split_and!; done..].
  destruct Hi as [[Hi _]|Hi].
  { exfalso. rewrite Hi in E. destruct (Marshal cp) as [data| |] eqn:Em; try done. by apply (Marshal_fails cp Hbad data). }
  set (w1 := (onDedup (commitDrained i) w).2).
  assert (CommitClient (coSeen co) i w = (Ok tt, w1)) as -> by reflexivity. cbv beta iota.
  destruct (IH w1) as (H1 & H2 & H3); [unfold w1; by rewrite Hd|].
  destruct (gatherAll co ids w1) as [[outs|e|p] w2]; unfold mret, M_ret; cbn [fst snd] in *; split_and!; try done;
    try (rewrite H1; apply Hview'). intros [->|Hin]%elem_of_cons; [done|]. intros outs' _. by destruct (H3 Hin outs).
Qed.
Lemma unsaved_not_acked {Y} (view' : W -> Y) (Hview' : forall f w, view' (onDedup f w).2 = view' w) c cp V s d :
  (forall f w, snap c (onDedup f w).2 = snap c w) -> snap c (coMem s) = Some cp -> (forall v, jenc cp <> Ok v) ->
  c ∈ coDirty s -> fits co V (range (elements (coDirty s))) (coMem s) ->
  (forall i, default 0 (coGen s !! i) = vGen (V i)) -> (forall i, clean co i (V i) d) ->
  let rs := run (Flush co s) d in
  rs.1.1 <> Ok tt /\ coAcks rs.1.2 = [] /\ view' (coMem rs.1.2) = view' (coMem s) /\ snap c (coMem rs.1.2) = Some cp.
Proof.
  intros Hd Hs Hbad Hc Hf Hg Hcl.
  destruct (gatherAll_fails view' Hview' c cp (range (elements (coDirty s))) (coMem s) Hd Hs Hbad) as (H1 & H2 & H3).
  specialize (H3 ltac:(rewrite range_perm; set_solver)).
  destruct (gatherAll co (range (elements (coDirty s))) (coMem s)) as [r w] eqn:E.
  destruct (flush_cht co V s r w (seenSource_commits _ _ _ _) Hf Hg E d Hcl) as [(Ha & _ & Hr) _]. cbn [fst snd] in *. cbv zeta.
  destruct r as [outs|e|p]; [by destruct (H3 outs)|..]; destruct Hr as [Hr ->]; rewrite Hr; by split_and!.
Qed.

End Unsaved.

(** ** A worker that saves its state and is killed *)
(** What recovery finds for a client in a worker that starts with [blank]. *)
Definition resumesWith {UL : UuidLib} {W X} (co : CoConfig W) (view : W -> X) (blank x : X) (c : id16) (d : disk) : Prop :=
  forall s, view (coMem s) = blank ->
    let rk := run (recoverKey co (uuid_String c) s) d in rk.1.1 = Ok tt /\ view (coMem rk.1.2) = x.
Section Killed.
Context {UL : UuidLib} {GR : GoRange} {W R X : Type} `{!HasPublisher W, !Json R}.
Context (snap : id16 -> W -> option R) (restore : id16 -> R -> W -> W) (view : W -> X).
(** What the worker keeps besides its publisher. *)
Context (Hview : forall f w, view (onDedup f w).2 = view w) (Hdepth : jdepth R <= maxNestingDepth).
Context (dir : string) (interval : Z).
Abbreviation co := (NewCoordinator dir seenSource None (Some (jsonState snap restore)) interval).

Lemma replay_view c (recs : list Rec) w : exists w', forM recs (fun r => wrapM "recover replay seen" (ReplayClient (coSeen co) c (RPayload r))) w = (Ok tt, w') /\ view w' = view w.
Proof.
  revert w. induction recs as [|r recs IH]; intros w; [by exists w|]. cbn [forM]. unfold mbind, M_bind, wrapM at 1.
  cbn [coSeen NewCoordinator ReplayClient seenSource]. unfold Pub_ReplayClient. pose proof (Hview (replayClient c (RPayload r)) w) as Hv.
  destruct (onDedup (replayClient c (RPayload r)) w) as [r0 w1] eqn:E. assert (r0 = Ok tt) as ->.
  { unfold onDedup in E. by injection E. }
  cbn [wrapf]. destruct (IH w1) as (w' & Hw' & Hv'). exists w'. cbn [snd] in Hv. by rewrite Hv', Hv.
Qed.
(** What recovery makes of the view on disk. *)
Lemma restoreMem_view c v data cp w : vSlot v true = Some data ->
  RestoreClient (jsonState snap restore) c data w = (Ok tt, restore c cp w) ->
  exists w', restoreMem co c v w = (Ok tt, w') /\ view w' = view (restore c cp w).
Proof.
  intros Hs Hr. unfold restoreMem, restoreO, slotSrc. cbn [coState coEof NewCoordinator]. rewrite Hs. unfold mbind, M_bind, wrapM at 1.
  rewrite Hr. cbn [wrapf mret M_ret]. apply replay_view.
Qed.
Lemma recovered_view c v data cp d s : durable co c v d -> vSlot v true = Some data ->
  RestoreClient (jsonState snap restore) c data (coMem s) = (Ok tt, restore c cp (coMem s)) ->
  let rk := run (recoverKey co (uuid_String c) s) d in rk.1.1 = Ok tt /\ view (coMem rk.1.2) = view (restore c cp (coMem s)).
Proof.
  intros Hd Hs Hr. destruct (restoreMem_view c v data cp (coMem s) Hs Hr) as (w' & Hw & Hv).
  destruct (recover_restores co c v s _ _ Hw d Hd) as [[_ [Hrun _]] _]. cbv zeta. rewrite Hrun. by cbn.
Qed.

Context (c : id16) (blank : X) (val : R -> X) (Hval : forall cp w, view w = blank -> view (restore c cp w) = val cp).
(** The state that a finished checkpoint saved comes back; one that is cut by a
    crash leaves it or the view before. *)
Lemma killed_resumes v s d cp :
  clean co c v d -> default 0 (coGen s !! c) = vGen v -> in_uint 64 (vGen v + 1) ->
  in_uint 32 (Zlen (drainClient c (dedup (pub (coMem s))))) -> snap c (coMem s) = Some cp -> jraw cp ->
  let resumed := resumesWith co view blank (val (jnorm cp)) c in
  (run (checkpoint co c s) d).1.1 = Ok tt /\ resumed (run (checkpoint co c s) d).2 /\
  forall d', crashes (checkpoint co c s) d d' -> durable co c v d' \/ resumed d'.
Proof.
  intros Hc Hg Hg1 Hl Hs Hok resumed. destruct (jsonState_restores snap restore c cp (coMem s) Hs Hok Hdepth) as (data & Hsn & Hr).
  assert (gather co c (coMem s) = (Ok (fun b : bool => if b then Some data else None, drainClient c (dedup (pub (coMem s)))), coMem s)) as Hga.
  { unfold gather, snapO, slotSrc. cbn [coState coEof coSeen NewCoordinator]. unfold mbind, M_bind, wrapM. by rewrite Hsn. }
  destruct (checkpoint_cht co c v s _ _ Hg Hg1 (seenSource_commits _ _ _ _ _) Hga) with (d := d) as [[Hrun Hcl] Hcr]; [|done|].
  { intros st delta [= <- <-]. done. }
  assert (forall d', durable co c (commitView v (drainClient c (dedup (pub (coMem s)))) (fun b : bool => if b then Some data else None)) d' -> resumed d') as Hres.
  { intros d' Hd' s' Hs'. destruct (recovered_view c _ data (jnorm cp) d' s' Hd' eq_refl (Hr _)) as [H1 H2].
    split; [done|]. by rewrite H2, Hval. }
  split_and!.
  - by rewrite Hrun.
  - by apply Hres, clean_durable.
  - intros d' Hd'. destruct (Hcr d' Hd') as [Hdu|(st & delta & [= <- <-] & Hdu)]; [by left|right; by apply Hres].
Qed.
End Killed.

(** ** The records of the checkpoints *)
Ltac struct_ok := first [by intros [] | by intros (? & ?) | by vm_compute].
Ltac tuple_ok := let r := fresh in intros r; repeat match goal with p : (_ * _)%type |- _ => destruct p | u : unit |- _ => destruct u end; reflexivity.

#[global] Instance Account_json : Json Account.
Proof.
  apply (struct_json (FCons "BankID" string_json (FCons "ID" string_json FNil))
    (fun a => (BankID a, (ID a, tt))) (fun r => mkAccount r.1 r.2.1)); [by intros []|tuple_ok|by vm_compute].
Defined.
Definition adjacency_fields := FCons "account" Account_json (FCons "neighbors" (list_json (A := Account)) FNil).
#[global] Instance accountAdjacency_json : Json accountAdjacency.
Proof.
  apply (struct_json adjacency_fields (fun a => (AdjAccount a, (Neighbors a, tt))) (fun r => mkAdjacency r.1 r.2.1));
    [by intros []|tuple_ok|by vm_compute].
Defined.
Definition sagCheckpoint_fields :=
  FOmit "scatter_groups" (list_json (A := accountAdjacency)) _ (FOmit "gather_groups" (list_json (A := accountAdjacency)) _
  (FOmit "heavy_sources" (list_json (A := Account)) _ (FOmit "heavy_sinks" (list_json (A := Account)) _
  (FOmit "done_peers" (list_json (A := Z)) _ (FOmit "local_done" bool_json _ (FOmit "sealed" bool_json _ (FOmit "completed" bool_json _ FNil))))))).
#[global] Instance scatterGatherCheckpoint_json : Json scatterGatherCheckpoint.
Proof.
  apply (struct_json sagCheckpoint_fields
    (fun c => (ScatterGroups c, (GatherGroups c, (HeavySources_cp c, (HeavySinks_cp c, (DonePeers_cp c, (LocalDone_cp c, (Sealed_cp c, (Completed c, tt)))))))))
    (fun r => mkSagCheckpoint r.1 r.2.1 r.2.2.1 r.2.2.2.1 r.2.2.2.2.1 r.2.2.2.2.2.1 r.2.2.2.2.2.2.1 r.2.2.2.2.2.2.2.1));
    [by intros []|tuple_ok|by vm_compute].
Defined.
#[global] Instance TxQ4PairKey_json : Json TxQ4PairKey.
Proof.
  apply (struct_json (FCons "Src" string_json (FCons "Dst" string_json FNil))
    (fun k => (Src k, (Dst k, tt))) (fun r => mkTxQ4PairKey r.1 r.2.1)); [by intros []|tuple_ok|by vm_compute].
Defined.
#[global] Instance TxQ4PairCount_json : Json TxQ4PairCount.
Proof.
  apply (struct_json (FCons "Key" TxQ4PairKey_json (FCons "Count" int_json FNil))
    (fun p => (pc_Key p, (pc_Count p, tt))) (fun r => mkTxQ4PairCount r.1 r.2.1)); [by intros []|tuple_ok|by vm_compute].
Defined.
Definition countCheckpoint_fields := FOmit "pairs" (list_json (A := TxQ4PairCount)) _ (FOmit "eof_counters" int_json _ FNil).
#[global] Instance scatterGatherCountCheckpoint_json : Json PairCounter.countCheckpoint.
Proof.
  apply (struct_json countCheckpoint_fields
    (fun c => (PairCounter.cp_Pairs c, (PairCounter.cp_EOFCounters c, tt))) (fun r => PairCounter.mkCountCheckpoint r.1 r.2.1));
    [by intros []|tuple_ok|by vm_compute].
Defined.
Definition query4Checkpoint_fields := FOmit "accounts" (list_json (A := Account)) _ (FOmit "eof_count" int_json _ FNil).
#[global] Instance query4Checkpoint_json : Json Query4.query4Checkpoint.
Proof.
  apply (struct_json query4Checkpoint_fields
    (fun c => (Query4.cp_Accounts c, (Query4.cp_EOFCount c, tt))) (fun r => Query4.mkQuery4Checkpoint r.1 r.2.1));
    [by intros []|tuple_ok|by vm_compute].
Defined.
(** Checkpoints that are one number: [scatterGatherThresholdCheckpoint] and
    [converterCheckpoint]. *)
Definition number_json (name : string) (Hn : namesOk [name] = true) : Json Z.
Proof.
  apply (struct_json (FOmit name int_json _ FNil) (fun n => (n, tt)) (fun r => r.1)); [done|tuple_ok|exact Hn].
Defined.
Definition scatterGatherThresholdCheckpoint_json : Json Z := number_json "eof_counters" eq_refl.
Definition converterCheckpoint_json : Json Z := number_json "tx_processed_count" eq_refl.
Definition q5FilterCheckpoint_fields :=
  FOmit "worker_eof" int_json _ (FOmit "received" int_json _ (FOmit "sent" int_json _ (FOmit "expected_previous" int_json _ FNil))).
#[global] Instance q5FilterCheckpoint_json : Json q5FilterCheckpoint.
Proof.
  apply (struct_json q5FilterCheckpoint_fields (fun c => (WorkerEof c, (Received c, (Sent c, (ExpectedPrevious c, tt)))))
    (fun r => mkQ5Cp r.1 r.2.1 r.2.2.1 r.2.2.2.1)); [by intros []|tuple_ok|by vm_compute].
Defined.
(** [clientCheckpoint] of the end-of-stream controller. *)
Definition clientCheckpoint_fields := FCons "rcv_by_id" bytes_json (FCons "sent_by_key_id" (nil_map_json (A := bytes)) FNil).
#[global] Instance clientCheckpoint_json : Json clientCheckpoint.
Proof.
  apply (struct_json clientCheckpoint_fields (fun c => (RcvByID c, (SentByKeyID c, tt))) (fun r => mkClientCheckpoint r.1 r.2.1));
    [by intros []|tuple_ok|by vm_compute].
Defined.

Section Amounts.
Context {FT : FloatText}.
Definition Transaction_fields :=
  FCons "Timestamp" string_json (FCons "FromBank" string_json (FCons "FromAccount" string_json (FCons "ToBank" string_json
  (FCons "ToAccount" string_json (FCons "AmountReceived" float_json (FCons "ReceivingCurrency" string_json (FCons "AmountPaid" float_json
  (FCons "PaymentCurrency" string_json (FCons "PaymentFormat" string_json (FCons "IsLaundering" bool_json FNil)))))))))).
#[global] Instance Transaction_json : Json Transaction.
Proof.
  apply (struct_json Transaction_fields
    (fun t => (Timestamp t, (FromBank t, (FromAccount t, (ToBank t, (ToAccount t, (AmountReceived t, (ReceivingCurrency t,
      (AmountPaid t, (PaymentCurrency t, (PaymentFormat t, (IsLaundering t, tt))))))))))))
    (fun '(a, (b, (c, (d, (e, (f, (g, (h, (i, (j, (k, _))))))))))) => mkTransaction a b c d e f g h i j k));
    [by intros []|tuple_ok|by vm_compute].
Defined.
#[global] Instance avgCheckpoint_json : Json avgSt.
Proof.
  apply (struct_json (FCons "sum" float_json (FCons "count" int_json (FCons "sample" Transaction_json FNil)))
    (fun s => (av_sum s, (av_count s, (av_sample s, tt)))) (fun r => mkAvgSt r.1 r.2.1 r.2.2.1)); [by intros []|tuple_ok|by vm_compute].
Defined.
Definition aggCheckpoint_fields :=
  FCons "count" int_json (FOmit "state" (map_json (A := Transaction)) _ (FOmit "avg" (map_json (A := avgSt)) _ FNil)).
#[global] Instance aggCheckpoint_json : Json aggCheckpoint.
Proof.
  apply (struct_json aggCheckpoint_fields (fun c => (ag_Count c, (ag_State c, (ag_Avg c, tt)))) (fun r => mkAggCheckpoint r.1 r.2.1 r.2.2.1));
    [by intros []|tuple_ok|by vm_compute].
Defined.
Definition avgFilterCheckpoint_fields := FCons "avg_by_format" (map_json (A := float64)) (FCons "eof_count" int_json
  (FCons "expected" int_json (FCons "received" int_json (FCons "done" bool_json FNil)))).
#[global] Instance AvgFormatFilterCheckpoint_json : Json AvgFormatFilterCheckpoint.
Proof.
  apply (struct_json avgFilterCheckpoint_fields (fun c => (AvgByFormat c, (EofCount c, (Expected c, (AvgFilter.Received c, (Done c, tt))))))
    (fun r => mkAvgCp r.1 r.2.1 r.2.2.1 r.2.2.2.1 r.2.2.2.2.1)); [by intros []|tuple_ok|by vm_compute].
Defined.
#[global] Instance cachedBatch_json : Json cachedBatch.
Proof.
  apply (struct_json (FCons "msg_id" msgid_json (FCons "txs" (list_json (A := Transaction)) FNil))
    (fun b => (cb_MsgID b, (cb_Txs b, tt))) (fun r => mkCached r.1 r.2.1)); [by intros []|tuple_ok|by vm_compute].
Defined.
(** [joinCheckpoint]: an empty map or slice is left out, so that what is read
    has none; the tuple of the fields has both as the empty one. *)
Definition joinCheckpoint_fields := FOmit "bank_names" (map_json (A := string)) _ (FOmit "tx_cache" (list_json (A := cachedBatch)) _
  (FOmit "worker_eof" int_json _ (FOmit "accounts_eof" bool_json _ (FOmit "finalized" bool_json _ FNil)))).
Definition joinRow : Type := gmap string string * (list cachedBatch * (Z * (bool * (bool * unit)))).
#[global] Instance joinRow_json : Json joinRow.
Proof. apply (struct_json joinCheckpoint_fields (fun r : joinRow => r) (fun r => r)); [done|done|by vm_compute]. Defined.
Definition joinRowOf (cp : joinCheckpoint) : joinRow :=
  (default ∅ (BankNames cp), (default [] (TxCache cp), (WorkerEOF cp, (AccountsEOF cp, (Finalized cp, tt))))).
Definition joinOfRow (r : joinRow) : joinCheckpoint :=
  let '(names, (cache, (eofs, (accs, (fin, _))))) := r in
  mkJoinCheckpoint (if decide (names = ∅) then None else Some names) (match cache with [] => None | _ => Some cache end) eofs accs fin.
End Amounts.

(** ** The coordinator of every worker that saves a state *)
Section Coordinators.
Context {UL : UuidLib} {GR : GoRange} {FT : FloatText} (dir : string) (interval : Z).
Definition aggSnap (c : id16) (a : Aggregator) : option aggCheckpoint := Some (agg_SnapshotClient c a).
Definition aggCheckpointable : Checkpointable Aggregator := jsonState aggSnap agg_RestoreClient.
Definition aggCo : CoConfig Aggregator := NewCoordinator dir seenSource None (Some aggCheckpointable) interval.
Definition joinSnap (c : id16) (j : Join) : option joinRow := Some (joinRowOf (join_SnapshotClient c j)).
Definition joinRestore (c : id16) (r : joinRow) : Join -> Join := join_RestoreClient c (joinOfRow r).
Definition joinCheckpointable : Checkpointable Join := jsonState joinSnap joinRestore.
Definition joinCo : CoConfig Join := NewCoordinator dir seenSource None (Some joinCheckpointable) interval.
Definition countSnap (c : id16) (a : PairCounter.ScatterGather) : option PairCounter.countCheckpoint := Some (PairCounter.count_SnapshotClient c a).
Definition countCheckpointable : Checkpointable PairCounter.ScatterGather := jsonState countSnap PairCounter.count_RestoreClient.
Definition countCo : CoConfig PairCounter.ScatterGather := NewCoordinator dir seenSource None (Some countCheckpointable) interval.
Definition q4Snap (c : id16) (a : Query4.Query4) : option Query4.query4Checkpoint := Some (Query4.q4_SnapshotClient c a).
Definition query4Checkpointable : Checkpointable Query4.Query4 := jsonState q4Snap Query4.q4_RestoreClient.
Definition query4Co : CoConfig Query4.Query4 := NewCoordinator dir seenSource None (Some query4Checkpointable) interval.
(** [ScatterAndGather] is its own append source. *)
Definition sagCheckpointable : Checkpointable Sag :=
  jsonState sag_SnapshotClient (fun c cp => sag_RestoreClient c (Some cp)).
Definition sagSource : AppendSource Sag := mkAppendSource Sag
  (fun c a => (match sag_DrainClient c a with None => Ok [] | Some cp => Marshal cp end, a))
  (fun c a => (Ok tt, sag_CommitClient c a))
  (fun c record a => match record with
     | [] => (Ok tt, a)
     | _ => if isCompleted c a then (Ok tt, a) else restoreText (fun c cp => sag_ReplayClient c (Some cp)) c record a
     end).
Definition sagCo : CoConfig Sag := NewCoordinator dir sagSource None (Some sagCheckpointable) interval.
(** The end-of-stream controller of the workers that only synchronise. *)
Definition eofCheckpointable : Checkpointable WorkerMem :=
  jsonState (fun c w => SnapshotClientEof c (wmEof w))
    (fun c cp w => mkWorkerMem (wmPub w) (RestoreClientEof c (Some cp) (wmEof w)).1 (wmEvents w)).
Definition syncCo : CoConfig WorkerMem := NewCoordinator dir seenSource (Some eofCheckpointable) None interval.
(** [AvgFormatFilter] has both; its [RestoreClient] refuses no data. *)
Definition avEofCheckpointable : Checkpointable AvgFormatFilter :=
  jsonState (fun c f => SnapshotClientEof c (wmEof (avMem f)))
    (fun c cp f => mkAvgFilter (mkWorkerMem (wmPub (avMem f)) (RestoreClientEof c (Some cp) (wmEof (avMem f))).1 (wmEvents (avMem f))) (avClients f)).
Definition avCheckpointable : Checkpointable AvgFormatFilter := mkCheckpointable AvgFormatFilter
  (fun c f => (match av_SnapshotClient c f with None => Ok [] | Some cp => Marshal cp end, f))
  (fun c data f => match Unmarshal data with
     | Ok cp => av_RestoreClient c (Some cp) f
     | Err e => (Err (Wrapf "Failed to unmarshal checkpoint data for client" e), f)
     | Panic p => (Panic p, f)
     end).
Definition avCo : CoConfig AvgFormatFilter := NewCoordinator dir seenSource (Some avEofCheckpointable) (Some avCheckpointable) interval.
End Coordinators.

(** ** What a killed worker resumes with *)
Ltac shallow := apply Z.leb_le; vm_compute; reflexivity.
Section Resume.
Context {UL : UuidLib} {GR : GoRange} {FT : FloatText} (dir : string) (interval : Z).

(** Texts are UTF-8 and amounts are numbers. *)
Definition tx_savable (t : Transaction) : Prop :=
  (valid (Timestamp t) /\ valid (FromBank t) /\ valid (FromAccount t) /\ valid (ToBank t) /\ valid (ToAccount t) /\
   valid (ReceivingCurrency t) /\ valid (PaymentCurrency t) /\ valid (PaymentFormat t)) /\
  (f64_wf (AmountReceived t) /\ f64_finite (AmountReceived t) = true) /\ f64_wf (AmountPaid t) /\ f64_finite (AmountPaid t) = true.
Lemma tx_savable_ok t : tx_savable t -> jok t.
Proof. unfold tx_savable. cbn. tauto. Qed.

(** The join. *)
Definition joinView (c : id16) (j : Join) : gmap string string * list cachedBatch * Z * bool * bool :=
  (default ∅ (bankNamesPerCli j !! c), default [] (txCachePerCl j !! c), default 0 (Join.workerEofReceived j !! c),
   bool_decide (c ∈ accountsEofReceived j), bool_decide (c ∈ finalized j)).
Lemma joinView_dedup c f j : joinView c (onDedup f j).2 = joinView c j.
Proof. done. Qed.
Definition join_savable (c : id16) (j : Join) : Prop :=
  map_Forall (fun b n => valid b /\ valid n) (default ∅ (bankNamesPerCli j !! c)) /\
  Forall (fun b => Forall tx_savable (cb_Txs b)) (default [] (txCachePerCl j !! c)) /\
  in_int64 (default 0 (Join.workerEofReceived j !! c)).
Lemma join_savable_ok c j : join_savable c j -> jok (joinRowOf (join_SnapshotClient c j)).
Proof.
  intros (Hb & Hc & He). cbn. split_and!; try done. eapply Forall_impl; [exact Hc|]. intros b Hb'. cbn. split; [done|].
  split; [|done]. eapply Forall_impl; [exact Hb'|]. apply tx_savable_ok.
Qed.
Lemma join_restored c r j : joinView c j = (∅, [], 0, false, false) ->
  joinView c (joinRestore c r j) = let '(names, (cache, (eofs, (accs, (fin, _))))) := r in (names, cache, eofs, accs, fin).
Proof.
  destruct r as (names & cache & eofs & accs & fin & []). unfold joinView. intros [= Hn Hc He Ha Hf].
  apply bool_decide_eq_false in Ha, Hf. unfold joinRestore, join_RestoreClient, joSet, joinOfRow.
  cbn [BankNames TxCache WorkerEOF AccountsEOF Finalized bankNamesPerCli txCachePerCl Join.workerEofReceived accountsEofReceived finalized].
  f_equal; [f_equal; [f_equal; [f_equal|]|]|].
  - destruct (decide (names = ∅)) as [->|]; [done|]. by rewrite lookup_insert_eq.
  - destruct cache; [done|]. by rewrite lookup_insert_eq.
  - destruct (decide (eofs = 0)) as [->|]; [done|]. by rewrite lookup_insert_eq.
  - destruct accs; [apply bool_decide_eq_true_2; set_solver|by apply bool_decide_eq_false_2].
  - destruct fin; [apply bool_decide_eq_true_2; set_solver|by apply bool_decide_eq_false_2].
Qed.
Definition joinBlank : gmap string string * list cachedBatch * Z * bool * bool := (∅, [], 0, false, false).
Definition joinVal (r : joinRow) := let '(names, (cache, (eofs, (accs, (fin, _))))) := r in (names, cache, eofs, accs, fin).

(** C11. A join that is killed after it saved a client resumes with the bank
    names, the transactions that wait, the ends of stream it counted and its two
    flags, whatever JSON they went through - when all its texts are UTF-8 and
    its amounts are numbers; killed in the middle of the checkpoint it resumes
    with these or from the checkpoint before. *)
Theorem killed_join_resumes c v s d : let co := joinCo dir interval in
  CrashSafety.clean co c v d -> default 0 (coGen s !! c) = vGen v -> in_uint 64 (vGen v + 1) ->
  in_uint 32 (Zlen (drainClient c (dedup (joPub (coMem s))))) -> join_savable c (coMem s) ->
  let resumed := resumesWith co (joinView c) joinBlank (joinView c (coMem s)) c in
  (run (checkpoint co c s) d).1.1 = Ok tt /\ resumed (run (checkpoint co c s) d).2 /\
  forall d', crashes (checkpoint co c s) d d' -> durable co c v d' \/ resumed d'.
Proof.
  intros co Hc Hg Hg1 Hl Hs%join_savable_ok.
  pose proof (killed_resumes joinSnap joinRestore (joinView c) (joinView_dedup c) ltac:(shallow) dir interval c joinBlank joinVal (join_restored c)
    v s d _ Hc Hg Hg1 Hl eq_refl (jok_raw _ Hs)) as H.
  by rewrite (jnorm_ok _ Hs) in H.
Qed.

(** What JSON cannot hold: bytes of a bank's name that are not UTF-8 are
    replaced when the join is restarted, so that the results after a restart
    show another name; two names of banks that differ in such bytes become one. *)
Theorem killed_join_cleans_names c v s d names : let co := joinCo dir interval in
  CrashSafety.clean co c v d -> default 0 (coGen s !! c) = vGen v -> in_uint 64 (vGen v + 1) ->
  in_uint 32 (Zlen (drainClient c (dedup (joPub (coMem s))))) ->
  joinView c (coMem s) = (names, [], 0, false, false) ->
  (run (checkpoint co c s) d).1.1 = Ok tt /\
  resumesWith co (joinView c) joinBlank
    (fold_left (fun m kv => <[Json.clean kv.1 := Json.clean kv.2]> m) (sortedEntries names) ∅, [], 0, false, false) c (run (checkpoint co c s) d).2.
Proof.
  intros co Hc Hg Hg1 Hl [= Hn Hca He Ha Hf].
  assert (joinRowOf (join_SnapshotClient c (coMem s)) = (names, ([], (0, (false, (false, tt)))))) as Hrow.
  { unfold joinRowOf, join_SnapshotClient. cbn [BankNames TxCache WorkerEOF AccountsEOF Finalized]. by rewrite Hn, Hca, He, Ha, Hf. }
  destruct (killed_resumes joinSnap joinRestore (joinView c) (joinView_dedup c) ltac:(shallow) dir interval c joinBlank joinVal (join_restored c)
    v s d _ Hc Hg Hg1 Hl eq_refl) as (H1 & H2 & _).
  { rewrite Hrow. cbn. by split_and!; try constructor. }
  split; [exact H1|]. cbv zeta in H2. rewrite Hrow in H2.
  assert (joinVal (jnorm ((names, ([], (0, (false, (false, tt))))) : joinRow)) =
    (fold_left (fun m kv => <[Json.clean kv.1 := Json.clean kv.2]> m) (sortedEntries names) ∅, [], 0, false, false)) as E; [|by rewrite E in H2].
  cbn. unfold insertAll. f_equal; f_equal; f_equal; f_equal. generalize (∅ : gmap string string). intros m. revert m.
  induction (sortedEntries names) as [|kv l IH]; intros m; [done|]. apply IH.
Qed.

(** The aggregator. *)
Definition aggView (c : id16) (a : Aggregator) : Z * gmap string Transaction * gmap string avgSt :=
  (default 0 (countState a !! c), default ∅ (state a !! c), default ∅ (avgState a !! c)).
Lemma aggView_dedup c f a : aggView c (onDedup f a).2 = aggView c a.
Proof. done. Qed.
Lemma agAcked_dedup f (a : Aggregator) : agAcked (onDedup f a).2 = agAcked a.
Proof. done. Qed.
Lemma aggSnap_dedup c f a : aggSnap c (onDedup f a).2 = aggSnap c a.
Proof. done. Qed.
Definition agg_savable (c : id16) (a : Aggregator) : Prop :=
  let '(n, txs, avgs) := aggView c a in
  in_int64 n /\ map_Forall (fun k t => valid k /\ tx_savable t) txs /\
  map_Forall (fun k s => valid k /\ (f64_wf (av_sum s) /\ f64_finite (av_sum s) = true) /\ in_int64 (av_count s) /\ tx_savable (av_sample s)) avgs.
Lemma agg_savable_ok c a : agg_savable c a -> jok (agg_SnapshotClient c a).
Proof.
  intros (Hn & Ht & Ha). split; [exact Hn|]. split; [|split; [|done]]; intros k x Hk.
  - destruct (Ht k x Hk) as [? ?]. split; [done|by apply tx_savable_ok].
  - destruct (Ha k x Hk) as (? & ? & ? & ?). split; [done|]. split; [done|]. split; [done|]. split; [by apply tx_savable_ok|done].
Qed.
Definition aggVal (cp : aggCheckpoint) := (ag_Count cp, ag_State cp, ag_Avg cp).
Lemma agg_restored c cp a : aggView c a = (0, ∅, ∅) -> aggView c (agg_RestoreClient c cp a) = aggVal cp.
Proof.
  intros [= Hn Hs Ha]. destruct cp as [n txs avgs]. unfold agg_RestoreClient, aggVal, aggView. cbn [ag_Count ag_State ag_Avg].
  destruct (decide (n = 0)) as [->|]; destruct (decide (txs = ∅)) as [->|]; destruct (decide (avgs = ∅)) as [->|];
    cbn [setCount setState setAvg countState state avgState]; rewrite ?lookup_insert_eq, ?Hn, ?Hs, ?Ha; done.
Qed.

(** An aggregator that is killed after it saved a client resumes with its
    count, its groups and its averages - when its texts are UTF-8 and its sums
    are numbers. *)
Theorem killed_aggregator_resumes c v s d : let co := aggCo dir interval in
  CrashSafety.clean co c v d -> default 0 (coGen s !! c) = vGen v -> in_uint 64 (vGen v + 1) ->
  in_uint 32 (Zlen (drainClient c (dedup (agPub (coMem s))))) -> agg_savable c (coMem s) ->
  let resumed := resumesWith co (aggView c) (0, ∅, ∅) (aggView c (coMem s)) c in
  (run (checkpoint co c s) d).1.1 = Ok tt /\ resumed (run (checkpoint co c s) d).2 /\
  forall d', crashes (checkpoint co c s) d d' -> durable co c v d' \/ resumed d'.
Proof.
  intros co Hc Hg Hg1 Hl Hs%agg_savable_ok.
  pose proof (killed_resumes aggSnap agg_RestoreClient (aggView c) (aggView_dedup c) ltac:(shallow) dir interval c (0, ∅, ∅) aggVal (agg_restored c)
    v s d _ Hc Hg Hg1 Hl eq_refl (jok_raw _ Hs)) as H.
  by rewrite (jnorm_ok _ Hs) in H.
Qed.

Lemma mapM_fails {A B} (f : A -> res B) l x : x ∈ l -> (forall v, f x <> Ok v) -> forall vs, mapM f l <> Ok vs.
Proof.
  intros Hx Hf. induction l as [|y l IH]; intros vs; [by apply elem_of_nil in Hx|]. cbn. destruct (f y) as [v| |] eqn:E; [|done..]. cbn.
  apply elem_of_cons in Hx as [->|Hx]; [by destruct (Hf v)|]. destruct (mapM f l) as [ws| |]; [by destruct (IH Hx ws)|done..].
Qed.
Lemma nan_fails c a key st : default ∅ (avgState a !! c) !! key = Some st -> f64_finite (av_sum st) = false ->
  forall v, jenc (agg_SnapshotClient c a) <> Ok v.
Proof.
  intros Hk Hf v. unfold agg_SnapshotClient. set (avgs := default ∅ (avgState a !! c)) in *. set (txs := default ∅ _). cbn.
  intros H. destruct (bool_decide_reflect (avgs = ∅)) as [->|_]; [by rewrite lookup_empty in Hk|].
  assert (forall vs, mapM encEntry (sortedEntries avgs) <> Ok vs) as Hm.
  { apply (mapM_fails _ _ (key, st)).
    - rewrite sortedEntries_perm. by apply elem_of_map_to_list.
    - intros w. unfold encEntry. cbn. by rewrite Hf. }
  destruct (mapM encEntry (sortedEntries avgs)) as [ws| |]; [by destruct (Hm ws)|..]; cbn in H; repeat case_match; try done;
    cbn in H; destruct (mapM encEntry (sortedEntries txs)); done.
Qed.

(** C17. An average whose sum is not a number - one amount NaN, or a sum that
    overflows - cannot be written as JSON: from then on every flush that has to
    save its client fails, the deliveries that wait for it are never
    acknowledged, and the sum is still there. *)
Theorem nan_average_not_acked c V s d key st : let co := aggCo dir interval in
  default ∅ (avgState (coMem s) !! c) !! key = Some st -> f64_finite (av_sum st) = false -> c ∈ coDirty s ->
  fits co V (range (elements (coDirty s))) (coMem s) -> (forall i, default 0 (coGen s !! i) = vGen (V i)) ->
  (forall i, CrashSafety.clean co i (V i) d) ->
  let rs := run (Flush co s) d in
  rs.1.1 <> Ok tt /\ agAcked (coMem rs.1.2) = agAcked (coMem s) /\ coAcks rs.1.2 = [] /\
  default ∅ (avgState (coMem rs.1.2) !! c) !! key = Some st.
Proof.
  intros co Hk Hf Hc Hfit Hg Hcl.
  destruct (unsaved_not_acked aggSnap agg_RestoreClient dir interval agAcked agAcked_dedup c _ V s d (aggSnap_dedup c) eq_refl
    (nan_fails c (coMem s) key st Hk Hf) Hc Hfit Hg Hcl) as (H1 & H2 & H3 & H4).
  split_and!; [exact H1|exact H3|exact H2|]. injection H4 as _ _ H4. by rewrite <- H4 in Hk.
Qed.

(** The answer of query 4 keeps its accounts and the ends it counted. *)
Definition q4View (c : id16) (a : Query4.Query4) : gset Account * Z :=
  (default ∅ (Query4.accountsSet a !! c), default 0 (Query4.eofCounters a !! c)).
Lemma q4View_dedup c f a : q4View c (onDedup f a).2 = q4View c a.
Proof. done. Qed.
Definition q4Val (cp : Query4.query4Checkpoint) : gset Account * Z := (list_to_set (Query4.cp_Accounts cp), Query4.cp_EOFCount cp).
Lemma q4_restored c cp a : q4View c a = (∅, 0) -> q4View c (Query4.q4_RestoreClient c cp a) = q4Val cp.
Proof.
  intros [= Ha He]. destruct cp as [l n]. unfold q4View, q4Val, Query4.q4_RestoreClient. cbn [Query4.cp_Accounts Query4.cp_EOFCount].
  destruct (Z.eqb_spec n 0) as [->|Hn]; destruct l as [|x l]; cbn [Query4.setEof Query4.setAccounts Query4.accountsSet Query4.eofCounters];
    rewrite ?lookup_insert_eq, ?Ha, ?He, ?Query4.fold_union; cbn [default]; f_equal; set_solver.
Qed.
Lemma killed_query4_resumes c v s d : let co := query4Co dir interval in
  CrashSafety.clean co c v d -> default 0 (coGen s !! c) = vGen v -> in_uint 64 (vGen v + 1) ->
  in_uint 32 (Zlen (drainClient c (dedup (Query4.q4Pub (coMem s))))) ->
  (forall x, x ∈ (q4View c (coMem s)).1 -> valid (BankID x) /\ valid (ID x)) -> in_int64 (q4View c (coMem s)).2 ->
  let resumed := resumesWith co (q4View c) (∅, 0) (q4View c (coMem s)) c in
  (run (checkpoint co c s) d).1.1 = Ok tt /\ resumed (run (checkpoint co c s) d).2 /\
  forall d', crashes (checkpoint co c s) d d' -> durable co c v d' \/ resumed d'.
Proof.
  intros co Hc Hg Hg1 Hl Hacc Hn.
  assert (q4Val (Query4.q4_SnapshotClient c (coMem s)) = q4View c (coMem s)) as Hval.
  { unfold q4Val, q4View, Query4.q4_SnapshotClient. cbn [Query4.cp_Accounts Query4.cp_EOFCount]. f_equal.
    destruct (Query4.accountsSet (coMem s) !! c) as [set|]; [|done]. cbn. rewrite range_perm. by rewrite list_to_set_elements_L. }
  assert (jok (Query4.q4_SnapshotClient c (coMem s))) as Hok.
  { split; [|split; [exact Hn|done]]. apply Forall_forall. intros x Hx. destruct (Hacc x) as [? ?]; [|by split; [|split]].
    unfold q4View. cbn in *. destruct (Query4.accountsSet (coMem s) !! c) as [set|]; [|by apply elem_of_nil in Hx].
    cbn. rewrite range_perm in Hx. by apply elem_of_elements in Hx. }
  pose proof (killed_resumes q4Snap Query4.q4_RestoreClient (q4View c) (q4View_dedup c) ltac:(shallow) dir interval c (∅, 0) q4Val (q4_restored c)
    v s d _ Hc Hg Hg1 Hl eq_refl (jok_raw _ Hok)) as H.
  by rewrite (jnorm_ok _ Hok), Hval in H.
Qed.
End Resume.

(** ** Examples *)
#[local] Instance floats : FloatText := float_bits.
#[local] Instance letters : UuidLib := uuid_letters.
#[local] Instance order : GoRange := range_id.
Lemma clean_none {W} (co : CoConfig W) id : CrashSafety.clean co id noClient ∅.
Proof.
  split; [split_and!|].
  - right. split_and!; done.
  - constructor.
  - done.
  - intros b _. done.
  - intros b _. done.
Qed.
Definition noPub : Publisher := mkPublisher [] [] newDedupState.
Definition aTx : Transaction := mkTransaction "2022/09/01 00:20" "10" "8000EBD30" "10" "8000EBD30" (F64 4660134840331386880)
  "US Dollar" (F64 4660134840331386880) "US Dollar" "Reinvestment" false.
Definition aJoin : Join := mkJoin noPub {[id1 := 1]} ∅ ∅ {[id1 := {["10"%string := "National Bank"%string]}]} {[id1 := [mkCached id2 [aTx]]]} [].

Lemma killed_join_resumes_witness :
  join_savable id1 aJoin /\
  resumesWith (joinCo "d" 1) (joinView id1) joinBlank (joinView id1 aJoin) id1 (run (checkpoint (joinCo "d" 1) id1 (newCo aJoin)) ∅).2.
Proof.
  assert (join_savable id1 aJoin) as Hs.
  { split_and!.
    - unfold aJoin. cbn [bankNamesPerCli]. rewrite lookup_singleton_eq. cbn [default]. apply map_Forall_singleton. done.
    - cbn [aJoin txCachePerCl]. rewrite lookup_singleton_eq. repeat constructor; vm_compute; congruence.
    - cbn [aJoin Join.workerEofReceived]. rewrite lookup_singleton_eq. done. }
  split; [exact Hs|].
  apply (killed_join_resumes "d" 1 id1 noClient (newCo aJoin) ∅ (clean_none _ _)); [done|done|done|exact Hs].
Defined.

(** A name with a byte that is not UTF-8. *)
Definition latinName : string := bytes_str [Byte.x42; Byte.xe1].
Definition latinJoin : Join := mkJoin noPub ∅ ∅ ∅ {[id1 := {["10"%string := latinName]}]} ∅ [].
Lemma killed_join_cleans_names_witness :
  joinView id1 latinJoin = ({["10"%string := latinName]}, [], 0, false, false) /\
  resumesWith (joinCo "d" 1) (joinView id1) joinBlank
    ({["10"%string := bytes_str [Byte.x42; Byte.xef; Byte.xbf; Byte.xbd]]}, [], 0, false, false) id1
    (run (checkpoint (joinCo "d" 1) id1 (newCo latinJoin)) ∅).2.
Proof.
  assert (joinView id1 latinJoin = ({["10"%string := latinName]}, [], 0, false, false)) as Hv by (vm_compute; reflexivity).
  split; [exact Hv|].
  destruct (killed_join_cleans_names "d" 1 id1 noClient (newCo latinJoin) ∅ _ (clean_none _ _) eq_refl (conj (Z.le_0_1) eq_refl) (conj (Z.le_refl 0) eq_refl) Hv) as [_ H].
  assert (fold_left (fun m kv => <[Json.clean kv.1 := Json.clean kv.2]> m) (sortedEntries {["10"%string := latinName]}) ∅
    = ({["10"%string := bytes_str [Byte.x42; Byte.xef; Byte.xbf; Byte.xbd]]} : gmap string string)) as <- by (vm_compute; reflexivity).
  exact H.
Defined.

Definition anAgg : Aggregator := mkAggregator noPub {[id1 := 1]} {[id1 := {["10"%string := aTx]}]}
  {[id1 := {["Wire"%string := mkAvgSt (F64 4660134840331386880) 1 aTx]}]} [].
Lemma killed_aggregator_resumes_witness :
  agg_savable id1 anAgg /\
  resumesWith (aggCo "d" 1) (aggView id1) (0, ∅, ∅) (aggView id1 anAgg) id1 (run (checkpoint (aggCo "d" 1) id1 (newCo anAgg)) ∅).2.
Proof.
  assert (agg_savable id1 anAgg) as Hs.
  { unfold agg_savable, aggView, anAgg. cbn [countState state avgState]. rewrite !lookup_singleton_eq. cbn [default].
    split; [done|]. split; apply map_Forall_singleton; repeat split; vm_compute; congruence. }
  split; [exact Hs|].
  apply (killed_aggregator_resumes "d" 1 id1 noClient (newCo anAgg) ∅ (clean_none _ _)); [done|done|done|exact Hs].
Defined.

(** One NaN among the amounts; a delivery waits for its checkpoint. *)
Definition nanAgg : Aggregator := mkAggregator noPub ∅ ∅ {[id1 := {["Wire"%string := mkAvgSt (F64 (2047 * 2 ^ 52 + 1)) 1 aTx]}]} [].
Definition nanCo : Co Aggregator := mkCo {[id1]} [agAck 7] 1 ∅ nanAgg.
Lemma nan_average_not_acked_witness :
  (run (Flush (aggCo "d" 1) nanCo) ∅).1.1 <> Ok tt /\ agAcked (coMem (run (Flush (aggCo "d" 1) nanCo) ∅).1.2) = [].
Proof.
  destruct (nan_average_not_acked "d" 1 id1 (fun _ => noClient) nanCo ∅ "Wire" (mkAvgSt (F64 (2047 * 2 ^ 52 + 1)) 1 aTx)) as (H1 & H2 & _).
  - vm_compute. reflexivity.
  - vm_compute. reflexivity.
  - by apply elem_of_singleton.
  - vm_compute. repeat split; congruence.
  - done.
  - intros i. apply clean_none.
  - split; [exact H1|exact H2].
Defined.
