(* ===== verification/ControlText.v ===== *)
(** * Control messages on the wire ([src/common/eof/codec.go])

    The replicas exchange their control messages as JSON.  [EofSync], [EofBroker]
    and [EofSystem] work with the values; here are the bytes, the checks of
    [UnmarshalControlMessage], and the two functions that read them:
    [EOFBroker.Send] and [handleControlMessage].  The text changes nothing: the
    bytes of a message go where the value would and have the same effect. *)

From S2P Require Import Json Marshal Prelude Maps Models Codec Config EofSync EofBroker.

(** ** The struct and its text *)
Definition MsgTypeText (k : MsgKind) : string :=
  match k with
  | AmountRequest => "AMOUNT_REQUEST"
  | AmountResponse => "AMOUNT_RESPONSE"
  | FlushMsg => "FLUSH"
  | FlushAck => "FLUSH_ACK"
  | RetryExceeded => "RETRY_EXCEEDED"
  end.
(** The [switch] on the type of a message that was read. *)
Definition MsgTypeOf (s : string) : option MsgKind :=
  if decide (s = "AMOUNT_REQUEST")%string then Some AmountRequest
  else if decide (s = "AMOUNT_RESPONSE")%string then Some AmountResponse
  else if decide (s = "FLUSH")%string then Some FlushMsg
  else if decide (s = "FLUSH_ACK")%string then Some FlushAck
  else if decide (s = "RETRY_EXCEEDED")%string then Some RetryExceeded
  else None.

Section Text.
Context {UL : UuidLib} {UT : UuidText}.

(** The fields of [ControlMessage] in order; nothing sets the last one. *)
Definition control_fields :=
  FCons "type" string_json (FCons "client_id" uuid_json (FCons "requester_id" int_json (FCons "sender_id" int_json
  (FOmit "received_ids" bytes_json _ (FOmit "sent_ids_by_key" (map_json (A := bytes)) _
  (FOmit "sent_count_by_key" (map_json (A := Z)) _ FNil)))))).
Record controlMessage := mkControlMessage {
  ct_Type : string;
  ct_ClientID : id16;
  ct_RequesterID : Z;
  ct_SenderID : Z;
  ct_ReceivedIDs : bytes;
  ct_SentIDsByKey : gmap string bytes;
  ct_SentCountByKey : gmap string Z
}.
#[global] Instance controlMessage_json : Json controlMessage.
Proof.
  apply (struct_json control_fields
    (fun m => (ct_Type m, (ct_ClientID m, (ct_RequesterID m, (ct_SenderID m, (ct_ReceivedIDs m, (ct_SentIDsByKey m, (ct_SentCountByKey m, tt))))))))
    (fun '(a, (b, (c, (d, (e, (f, (g, _))))))) => mkControlMessage a b c d e f g)).
  - by intros [].
  - by intros (? & ? & ? & ? & ? & ? & ? & []).
  - by vm_compute.
Defined.
Definition structOf (m : ControlMessage) : controlMessage :=
  mkControlMessage (MsgTypeText (Type_ m)) (CmClient m) (RequesterID m) (SenderID m) (ReceivedIDs m) (SentIDsByKey m) ∅.
Definition messageOf (m : controlMessage) : option ControlMessage :=
  k ← MsgTypeOf (ct_Type m);
  Some (mkControl k (ct_ClientID m) (ct_RequesterID m) (ct_SenderID m) (ct_ReceivedIDs m) (ct_SentIDsByKey m)).

Definition MarshalControlMessage (m : ControlMessage) : res bytes := Marshal (structOf m).
Definition ErrInvalidControlMessage : error := ErrMsg "invalid control message".
Definition UnmarshalControlMessage (body : bytes) : res controlMessage :=
  m ← Unmarshal body;
  if decide (ct_Type m = ""%string \/ ct_ClientID m = zero16) then Err ErrInvalidControlMessage else Ok m.

(** ** Its readers *)
Definition SendText (eb : EOFBroker) (body : bytes) : res publishing :=
  m ← wrapf "EOFBroker: fail to unmarshal control message" (UnmarshalControlMessage body);
  match MsgTypeOf (ct_Type m) with
  | Some (AmountResponse | FlushAck) => Ok (mkPublishing "" (inputQueueName (brPrefix eb) (ct_RequesterID m)))
  | Some (AmountRequest | FlushMsg | RetryExceeded) => Ok (mkPublishing (broadcastExchange eb) "")
  | None => Err (ErrMsg "EOFBroker: unsupported message type")
  end.
(** [sendControlMessage]: the errors are only logged. *)
Definition sendControlText (eb : EOFBroker) (m : ControlMessage) : option (bytes * publishing) :=
  match MarshalControlMessage m with
  | Ok body => match SendText eb body with Ok p => Some (body, p) | _ => None end
  | _ => None
  end.
(** How [handleControlMessage] settles a delivery; an unknown type is acknowledged. *)
Inductive settled := Ack | Nack.
Definition handleControlText `{!GoRange} (cfg : config) (body : bytes) (cs : gmap id16 client) : (gmap id16 client * list event) * settled :=
  match UnmarshalControlMessage body with
  | Ok m =>
      match messageOf m with
      | Some m => (handleControlMessage cfg m cs, Ack)
      | None => ((cs, []), Ack)
      end
  | _ => ((cs, []), Nack)
  end.

(** ** The text changes nothing *)
(** Keys are UTF-8, ids fit an [int]. *)
Definition control_ok (m : ControlMessage) : Prop :=
  CmClient m <> zero16 /\ in_int64 (RequesterID m) /\ in_int64 (SenderID m) /\ map_Forall (fun k _ => valid k) (SentIDsByKey m).
Lemma MsgTypeOf_text k : MsgTypeOf (MsgTypeText k) = Some k.
Proof. by destruct k. Qed.
Lemma messageOf_struct m : messageOf (structOf m) = Some m.
Proof. unfold messageOf. cbn [structOf ct_Type]. rewrite MsgTypeOf_text. by destruct m. Qed.
Lemma valid_type k : valid (MsgTypeText k).
Proof. by destruct k. Qed.
Lemma control_read m : control_ok m -> exists body, MarshalControlMessage m = Ok body /\ UnmarshalControlMessage body = Ok (structOf m).
Proof.
  intros (Hc & Hr & Hs & Hk).
  assert (jok (structOf m)) as Hok.
  { split; [apply valid_type|]. split; [done|]. split; [done|]. split; [done|]. split; [done|]. split; [|split; [|done]].
    - intros k b Hb. split; [by apply (Hk k b)|done].
    - apply map_Forall_empty. }
  destruct (marshal_unmarshal (structOf m) Hok) as (body & H1 & H2 & _); [apply Z.leb_le; vm_compute; reflexivity|].
  exists body. split; [done|]. unfold UnmarshalControlMessage. rewrite H2. cbn [mbind res_bind].
  rewrite decide_False; [done|]. cbn [structOf ct_Type ct_ClientID]. intros [H|H]; [by destruct (Type_ m)|done].
Qed.

(** Every control message a replica sends is read back from its JSON as it
    was. *)
Theorem control_roundtrip m : control_ok m -> exists body,
  MarshalControlMessage m = Ok body /\ UnmarshalControlMessage body = Ok (structOf m) /\ messageOf (structOf m) = Some m.
Proof. intros (body & H1 & H2)%control_read. exists body. by rewrite messageOf_struct. Qed.

(** C4. The bytes of a control message are published where [EOFBroker.Send]
    would publish its value, and whoever receives them acknowledges the delivery
    and does what the controller does for the value: the protocol between the
    replicas, which is proved on values, is the one on the wire. *)
Theorem control_text_transparent `{!GoRange} eb cfg m : control_ok m -> exists body p,
  sendControlText eb m = Some (body, p) /\ EofBroker.Send eb m = Ok p /\
  forall cs, handleControlText cfg body cs = (handleControlMessage cfg m cs, Ack).
Proof.
  intros Hok. pose proof Hok as (Hc & _). destruct (control_read m Hok) as (body & H1 & H2).
  assert (exists p, EofBroker.Send eb m = Ok p /\ SendText eb body = Ok p) as (p & Hp & Ht).
  { unfold EofBroker.Send, SendText, validControl. rewrite decide_False by done. rewrite H2. cbn [wrapf mbind res_bind structOf ct_Type].
    rewrite MsgTypeOf_text. destruct (Type_ m); by eexists. }
  exists body, p. unfold sendControlText. rewrite H1, Ht. split; [done|]. split; [done|].
  intros cs. unfold handleControlText. by rewrite H2, messageOf_struct.
Qed.

(** What is not a control message is refused and not acknowledged. *)
Lemma handle_garbage `{!GoRange} cfg body cs : parse body = None -> handleControlText cfg body cs = ((cs, []), Nack).
Proof. intros Hp. unfold handleControlText, UnmarshalControlMessage, Unmarshal. by rewrite Hp. Qed.
End Text.

(** ** An example *)
#[local] Instance letters : UuidLib := uuid_letters.
#[local] Instance order : GoRange := range_id.
Lemma letter_text_ascii l : Forall (fun b => byte_Z b < 128) (flat_map letter_enc l).
Proof. induction l as [|b l IH]; [constructor|]. cbn. pose proof (byte_Z_range b).
  repeat apply Forall_cons_2; [rewrite byte_Z_byte; Z.to_euclidean_division_equations; lia..|done]. Qed.
Definition letters_text : UuidText.
Proof. intros u. unfold valid. cbn [uuid_String letters uuid_letters]. rewrite bytes_str_bytes. apply ascii_valid, letter_text_ascii. Qed.
#[local] Instance letters_valid : UuidText := letters_text.
Definition aReport : ControlMessage :=
  mkControl AmountResponse (copy16 [Byte.x01]) 2 1 [Byte.x00; Byte.xff; Byte.x10; Byte.x80] {["tx.usd"%string := [Byte.x07]]}.
Lemma aReport_ok : control_ok aReport.
Proof.
  split; [|split; [done|split; [done|]]].
  - apply (bool_decide_unpack (copy16 [Byte.x01] <> zero16)). vm_compute. exact I.
  - by apply map_Forall_singleton.
Qed.
Lemma control_roundtrip_witness : control_ok aReport /\ exists body, MarshalControlMessage aReport = Ok body /\
  UnmarshalControlMessage body = Ok (structOf aReport).
Proof.
  split; [exact aReport_ok|]. destruct (control_roundtrip aReport aReport_ok) as (body & H1 & H2 & _). exists body. by split.
Defined.
Lemma control_text_transparent_witness : control_ok aReport /\
  exists body p, sendControlText (stageBroker stage_cfg 1) aReport = Some (body, p) /\ routingKey p = "cleaner_eof_2"%string /\
    (handleControlText (withDefaults (mkConfig 2 3 5 0 0 true false false)) body ∅).2 = Ack.
Proof.
  split; [exact aReport_ok|].
  destruct (control_text_transparent (stageBroker stage_cfg 1) (withDefaults (mkConfig 2 3 5 0 0 true false false)) aReport aReport_ok) as (body & p & H1 & H2 & H3).
  exists body, p. split; [exact H1|]. split; [|by rewrite H3]. injection H2 as <-. vm_compute. reflexivity.
Defined.
